(** * ForexAI trading backend: market analysis engine and ingestion pipeline

    A shallow embedding of the parts of the backend that carry the
    analysis and trading logic:

    - [ai/marketAnalysis.js]: the indicator library ([TechnicalIndicators]),
      the decision engine ([ForexAI.makeDecision]) and the analysis driver
      ([ForexAI.analyzeMarket], [getMarketData], [generateSimulatedData]);
    - [services/derivIntegration.js]: candle persistence, the sampling of
      candle events and the automatic trade cycle;
    - [services/derivAPI] (the WebSocket client): the reconnection logic.

    Conventions of the embedding:

    - JavaScript numbers are modelled by [num]: exact rationals extended
      with the two infinities and NaN.  Finite arithmetic is exact (no
      rounding, no signed zero); the IEEE rules for division by zero,
      infinities and NaN are kept, since the source relies on them (RSI
      divides by an average loss that may be 0).  Orderings, lengths and
      the operations the code performs do not depend on rounding.  Where a
      property does (whether [SMA] returns the exact mean), the function is
      embedded a second time over binary64 doubles, in [Binary64].
    - [async] functions are state transformers over [world]; a handler runs
      to its end before the next event is handled.  The candle handler,
      which the ['candle'] listener does not wait for, is also given in two
      parts, before and after its first [await], with schedules of arrivals
      and settled saves ([DerivIntegration.candle_step]).
    - [database.query] either answers, with the meaning of its SQL statement
      on the tables of [world], or throws; which of the two is scripted by
      the environment.  [Math.random], [Date.now] and the broker are scripted
      in the same way.
    - Calls of [logger] are left out, except the few lines that theorems
      read. *)

From Stdlib Require Import ZArith QArith Qround Qabs List String Bool Lia Lqa.
From Corelib Require PrimFloat FloatOps SpecFloat.
Import ListNotations.
Local Open Scope Z_scope.

(* ===================================================================== *)
(** ** JavaScript numbers *)
(* ===================================================================== *)

Module JsNum.

Inductive num : Type :=
| Fin (q : Q)
| PInf
| NInf
| NaN.

Definition of_Z (z : Z) : num := Fin (inject_Z z).

Definition is_fin (x : num) : Prop :=
  match x with Fin _ => True | _ => False end.

(** Agreement of two numbers as values: rationals up to [Qeq]. *)
Definition num_eq (x y : num) : Prop :=
  match x, y with
  | Fin a, Fin b => (a == b)%Q
  | PInf, PInf => True
  | NInf, NInf => True
  | NaN, NaN => True
  | _, _ => False
  end.

Definition neg (x : num) : num :=
  match x with
  | Fin a => Fin (- a)
  | PInf => NInf
  | NInf => PInf
  | NaN => NaN
  end.

(** [a + b] *)
Definition add (x y : num) : num :=
  match x, y with
  | NaN, _ | _, NaN => NaN
  | Fin a, Fin b => Fin (a + b)
  | PInf, NInf | NInf, PInf => NaN
  | PInf, _ | _, PInf => PInf
  | NInf, _ | _, NInf => NInf
  end.

(** [a - b] *)
Definition sub (x y : num) : num := add x (neg y).

(** The infinity carrying the sign of [a], NaN when [a] is zero. *)
Definition signed_inf (a : Q) : num :=
  match (a ?= 0)%Q with
  | Gt => PInf
  | Lt => NInf
  | Eq => NaN
  end.

(** [a * b] *)
Definition mul (x y : num) : num :=
  match x, y with
  | NaN, _ | _, NaN => NaN
  | Fin a, Fin b => Fin (a * b)
  | Fin a, PInf | PInf, Fin a => signed_inf a
  | Fin a, NInf | NInf, Fin a => signed_inf (- a)
  | PInf, PInf | NInf, NInf => PInf
  | PInf, NInf | NInf, PInf => NaN
  end.

(** [a / b]: a finite quotient, or the IEEE result when [b] is zero or an
    operand is infinite ([1/0 = Infinity], [0/0 = NaN], [1/Infinity = 0]). *)
Definition div (x y : num) : num :=
  match x, y with
  | NaN, _ | _, NaN => NaN
  | Fin a, Fin b =>
      match (b ?= 0)%Q with
      | Eq => signed_inf a
      | _ => Fin (a / b)
      end
  | Fin _, (PInf | NInf) => Fin 0
  | PInf, Fin b => match (b ?= 0)%Q with Lt => NInf | _ => PInf end
  | NInf, Fin b => match (b ?= 0)%Q with Lt => PInf | _ => NInf end
  | (PInf | NInf), (PInf | NInf) => NaN
  end.

(** [a < b]; every comparison with NaN is false. *)
Definition ltb (x y : num) : bool :=
  match x, y with
  | NaN, _ | _, NaN => false
  | Fin a, Fin b => match (a ?= b)%Q with Lt => true | _ => false end
  | NInf, (Fin _ | PInf) => true
  | Fin _, PInf => true
  | _, _ => false
  end.

(** [a <= b] *)
Definition leb (x y : num) : bool :=
  match x, y with
  | NaN, _ | _, NaN => false
  | Fin a, Fin b => match (a ?= b)%Q with Gt => false | _ => true end
  | NInf, _ => true
  | _, PInf => true
  | _, _ => false
  end.

(** [a > b] and [a >= b] *)
Definition gtb (x y : num) : bool := ltb y x.
Definition geb (x y : num) : bool := leb y x.

(** [Math.abs] *)
Definition abs (x : num) : num :=
  match x with
  | Fin a => Fin (Qabs a)
  | PInf | NInf => PInf
  | NaN => NaN
  end.

(** [Math.max(a, b)] and [Math.min(a, b)]: NaN when an argument is NaN. *)
Definition max2 (x y : num) : num :=
  match x, y with
  | NaN, _ | _, NaN => NaN
  | _, _ => if ltb x y then y else x
  end.

Definition min2 (x y : num) : num :=
  match x, y with
  | NaN, _ | _, NaN => NaN
  | _, _ => if ltb y x then y else x
  end.

(** [Math.max(...xs)] is [-Infinity] on no argument, [Math.min(...xs)] is
    [Infinity]. *)
Definition max_list (xs : list num) : num := fold_left max2 xs NInf.
Definition min_list (xs : list num) : num := fold_left min2 xs PInf.

(** [Math.floor] *)
Definition floor (x : num) : num :=
  match x with
  | Fin a => of_Z (Qfloor a)
  | _ => x
  end.

(** The rational [n / 10^digits] closest to [a], the larger one on a tie:
    the value denoted by the string [a.toFixed(digits)]. *)
Definition round_dec (digits : nat) (a : Q) : Q :=
  let scale := inject_Z (10 ^ Z.of_nat digits) in
  inject_Z (Qfloor (a * scale + (1 # 2))) / scale.

(** [parseFloat(x.toFixed(digits))] *)
Definition toFixed (digits : nat) (x : num) : num :=
  match x with
  | Fin a => Fin (round_dec digits a)
  | _ => x
  end.

End JsNum.

Import JsNum.

Declare Scope num_scope.
Delimit Scope num_scope with num.
Infix "+" := add : num_scope.
Infix "-" := sub : num_scope.
Infix "*" := mul : num_scope.
Infix "/" := div : num_scope.
Infix "<?" := ltb : num_scope.
Infix "<=?" := leb : num_scope.
Infix ">?" := gtb : num_scope.
Infix ">=?" := geb : num_scope.
Infix "==" := num_eq (at level 70, no associativity) : num_scope.

(** A decimal literal [n / 10^k]. *)
Definition dec (n : Z) (k : nat) : num := Fin (n # Pos.of_nat (10 ^ k)).

(* ===================================================================== *)
(** ** JavaScript arrays and loops *)
(* ===================================================================== *)

Module JsArray.

Section Generic.
Context {A : Type}.

(** [arr.length] *)
Definition len (l : list A) : Z := Z.of_nat (List.length l).

(** [arr.slice(start, end)]: negative indices count from the end, both
    indices are clamped to the array. *)
Definition clamp_index (n i : Z) : Z :=
  if i <? 0 then Z.max (n + i) 0 else Z.min i n.

Definition slice (l : list A) (start stop : Z) : list A :=
  let k := clamp_index (len l) start in
  let e := clamp_index (len l) stop in
  firstn (Z.to_nat (e - k)) (skipn (Z.to_nat k) l).

(** [arr.slice(start)] *)
Definition slice_from (l : list A) (start : Z) : list A :=
  slice l start (len l).

(** [arr[i]], [None] standing for [undefined]. *)
Definition get (l : list A) (i : Z) : option A :=
  if i <? 0 then None else nth_error l (Z.to_nat i).

(** [arr.push(x)] *)
Definition push (l : list A) (x : A) : list A := l ++ [x].

(** [arr.reduce(f, init)] *)
Definition reduce {B : Type} (f : B -> A -> B) (init : B) (l : list A) : B :=
  fold_left f l init.

(** [for (let i = lo; i < hi; i++) body]: the loop state is threaded through
    [body]; the fuel is the exact number of iterations. *)
Fixpoint for_loop {S : Type} (fuel : nat) (i : Z) (body : Z -> S -> S) (s : S) : S :=
  match fuel with
  | O => s
  | Datatypes.S f => for_loop f (i + 1) body (body i s)
  end.

End Generic.

(** The loop from [lo] up to [hi], which no body changes: [hi - lo]
    iterations, none when [hi <= lo]. *)
Definition for_range {S : Type} (lo hi : Z) (body : Z -> S -> S) (s : S) : S :=
  for_loop (Z.to_nat (hi - lo)) lo body s.

(** [arr[i]] used as a number: [undefined] behaves as NaN in arithmetic and
    comparisons. *)
Definition at_ (l : list num) (i : Z) : num :=
  match get l i with
  | Some x => x
  | None => NaN
  end.

(** [arr[arr.length - 1]] *)
Definition last_ (l : list num) : num := at_ l (len l - 1).

End JsArray.

Import JsArray.

(* ===================================================================== *)
(** ** Indicator library ([class TechnicalIndicators]) *)
(* ===================================================================== *)

Module TechnicalIndicators.

(** [reduce((a, b) => a + b, 0)] *)
Definition sum (l : list num) : num := reduce add (Fin 0) l.

(** [SMA(data, period)] *)
Definition SMA (data : list num) (period : Z) : list num :=
  for_range (period - 1) (len data)
    (fun i sma =>
       let sum := sum (slice data (i - period + 1) (i + 1)) in
       push sma (sum / of_Z period)%num)
    [].

(** [arr.map((x, i) => f(x, i))] *)
Fixpoint mapi_from {A B : Type} (i : Z) (f : A -> Z -> B) (l : list A) : list B :=
  match l with
  | [] => []
  | x :: t => f x i :: mapi_from (i + 1) f t
  end.

Definition mapi {A B : Type} (f : A -> Z -> B) (l : list A) : list B :=
  mapi_from 0 f l.

(** [EMA(data, period)]; [ema[i] = ...] always writes at the current end of
    the array. *)
Definition EMA (data : list num) (period : Z) : list num :=
  let multiplier := (of_Z 2 / (of_Z period + of_Z 1))%num in
  let ema0 := [(sum (slice data 0 period) / of_Z period)%num] in
  for_range 1 (len data - period + 1)
    (fun i ema =>
       push ema ((at_ data (i + period - 1) - at_ ema (i - 1)) * multiplier
                 + at_ ema (i - 1))%num)
    ema0.

Record macd_result : Type := mkMacd {
  macd_line : list num;      (* macd *)
  macd_signal : list num;    (* signal *)
  macd_histogram : list num  (* histogram *)
}.

(** [MACD(data, fastPeriod, slowPeriod, signalPeriod)] *)
Definition MACD (data : list num) (fastPeriod slowPeriod signalPeriod : Z)
  : macd_result :=
  let fastEMA := EMA data fastPeriod in
  let slowEMA := EMA data slowPeriod in
  let sizeDiff := len slowEMA - len fastEMA in
  let alignedFastEMA := slice_from fastEMA sizeDiff in
  let macdLine := mapi (fun fast i => (fast - at_ slowEMA i)%num) alignedFastEMA in
  let signalLine := EMA macdLine signalPeriod in
  let macdAligned := slice_from macdLine (len macdLine - len signalLine) in
  let histogram := mapi (fun macd i => (macd - at_ signalLine i)%num) macdAligned in
  mkMacd macdAligned signalLine histogram.

(** The first loop of [RSI]: per-step gains and losses. *)
Definition rsi_gains_losses (data : list num) : list num * list num :=
  for_range 1 (len data)
    (fun i '(gains, losses) =>
       let difference := (at_ data i - at_ data (i - 1))%num in
       (push gains (if (difference >? Fin 0)%num then difference else Fin 0),
        push losses (if (difference <? Fin 0)%num then abs difference else Fin 0)))
    ([], []).

(** The state of the second loop of [RSI]. *)
Record rsi_state : Type := mkRsi {
  rsi_out : list num;   (* rsi *)
  avgGain : num;
  avgLoss : num
}.

Definition rsi_init (gains losses : list num) (period : Z) : rsi_state :=
  mkRsi [] (sum (slice gains 0 period) / of_Z period)%num
           (sum (slice losses 0 period) / of_Z period)%num.

Definition rsi_step (gains losses : list num) (period : Z) (i : Z)
  (st : rsi_state) : rsi_state :=
  let rs := (avgGain st / avgLoss st)%num in
  mkRsi (push (rsi_out st) (of_Z 100 - (of_Z 100 / (of_Z 1 + rs)))%num)
        ((avgGain st * of_Z (period - 1) + at_ gains i) / of_Z period)%num
        ((avgLoss st * of_Z (period - 1) + at_ losses i) / of_Z period)%num.

(** The loop state after [n] iterations of the second loop. *)
Definition rsi_after (data : list num) (period : Z) (n : nat) : rsi_state :=
  let '(gains, losses) := rsi_gains_losses data in
  for_loop n period (rsi_step gains losses period) (rsi_init gains losses period).

(** [RSI(data, period)] *)
Definition RSI (data : list num) (period : Z) : list num :=
  let '(gains, losses) := rsi_gains_losses data in
  rsi_out (for_range period (len gains) (rsi_step gains losses period)
             (rsi_init gains losses period)).

Record bands : Type := mkBands {
  bb_upper : list num;   (* upper *)
  bb_middle : list num;  (* middle *)
  bb_lower : list num    (* lower *)
}.

Record stochastic_result : Type := mkStoch {
  stoch_k : list num;  (* k *)
  stoch_d : list num   (* d *)
}.

Section WithSqrt.

(** [Math.sqrt], left abstract: no property below depends on its values. *)
Variable Math_sqrt : num -> num.

(** [BollingerBands(data, period, stdDev)] *)
Definition BollingerBands (data : list num) (period : Z) (stdDev : num) : bands :=
  let sma := SMA data period in
  for_range 0 (len sma)
    (fun i b =>
       let dataSlice := slice data i (i + period) in
       let mean := at_ sma i in
       let variance :=
         (reduce (fun sum val => sum + (val - mean) * (val - mean)) (Fin 0) dataSlice
          / of_Z period)%num in
       let standardDeviation := Math_sqrt variance in
       mkBands (push (bb_upper b) (mean + standardDeviation * stdDev)%num)
               (bb_middle b)
               (push (bb_lower b) (mean - standardDeviation * stdDev)%num))
    (mkBands [] sma []).

End WithSqrt.

(** [Stochastic(highs, lows, closes, kPeriod, dPeriod)] *)
Definition Stochastic (highs lows closes : list num) (kPeriod dPeriod : Z)
  : stochastic_result :=
  let k :=
    for_range (kPeriod - 1) (len closes)
      (fun i k =>
         let highestHigh := max_list (slice highs (i - kPeriod + 1) (i + 1)) in
         let lowestLow := min_list (slice lows (i - kPeriod + 1) (i + 1)) in
         let currentClose := at_ closes i in
         push k (((currentClose - lowestLow) / (highestHigh - lowestLow))
                 * of_Z 100)%num)
      [] in
  mkStoch k (SMA k dPeriod).

(** [Math.max(a, b, c)] *)
Definition max3 (a b c : num) : num := max_list [a; b; c].

(** [ATR(highs, lows, closes, period)] *)
Definition ATR (highs lows closes : list num) (period : Z) : list num :=
  let trueRanges :=
    for_range 1 (len closes)
      (fun i trueRanges =>
         let tr1 := (at_ highs i - at_ lows i)%num in
         let tr2 := abs (at_ highs i - at_ closes (i - 1))%num in
         let tr3 := abs (at_ lows i - at_ closes (i - 1))%num in
         push trueRanges (max3 tr1 tr2 tr3))
      [] in
  SMA trueRanges period.

(** [WilliamsR(highs, lows, closes, period)] *)
Definition WilliamsR (highs lows closes : list num) (period : Z) : list num :=
  for_range (period - 1) (len closes)
    (fun i williamsR =>
       let highestHigh := max_list (slice highs (i - period + 1) (i + 1)) in
       let lowestLow := min_list (slice lows (i - period + 1) (i + 1)) in
       let currentClose := at_ closes i in
       push williamsR (((highestHigh - currentClose) / (highestHigh - lowestLow))
                       * of_Z (-100))%num)
    [].

End TechnicalIndicators.

Import TechnicalIndicators.

(* ===================================================================== *)
(** ** JavaScript numbers with their rounding: IEEE 754 binary64 *)
(* ===================================================================== *)

(** The numbers of the source are doubles, and every [+] and [/] rounds to
    the nearest double.  Where a property depends on that rounding, the
    function is embedded over the doubles of the kernel, with the same
    loops and array operations as over [num]. *)
Module Binary64.

Definition float : Set := PrimFloat.float.

(** The integer [z] as a double: exact up to [2^53] in absolute value,
    rounded to the nearest double beyond. *)
Definition of_Z (z : Z) : float :=
  FloatOps.SF2Prim
    (SpecFloat.binary_normalize FloatOps.prec FloatOps.emax z 0 false).

(** The decimal literal [n / 10^k]: the double nearest to it. *)
Definition dec (n : Z) (k : nat) : float :=
  PrimFloat.div (of_Z n) (of_Z (10 ^ Z.of_nat k)).

(** [reduce((a, b) => a + b, 0)] *)
Definition sum (l : list float) : float := reduce PrimFloat.add (of_Z 0) l.

(** [SMA(data, period)] *)
Definition SMA (data : list float) (period : Z) : list float :=
  for_range (period - 1) (len data)
    (fun i sma =>
       let sum := sum (slice data (i - period + 1) (i + 1)) in
       push sma (PrimFloat.div sum (of_Z period)))
    [].

(** The number a double stands for. *)
Definition value (x : float) : num :=
  match FloatOps.Prim2SF x with
  | SpecFloat.S754_zero _ => Fin 0
  | SpecFloat.S754_infinity false => PInf
  | SpecFloat.S754_infinity true => NInf
  | SpecFloat.S754_nan => NaN
  | SpecFloat.S754_finite sign m e =>
      Fin ((if sign then -1 else 1) * inject_Z (Z.pos m) * 2 ^ e)
  end.

End Binary64.

(* ===================================================================== *)
(** ** Analysis data ([ai/marketAnalysis.js]) *)
(* ===================================================================== *)

(** One element of the array returned by [getMarketData]. *)
Record candle : Type := mkCandle {
  timestamp : Z;   (* milliseconds since the epoch *)
  open : num;
  high : num;
  low : num;
  close : num;
  volume : num
}.

Inductive action : Type := buy | sell | hold.

Inductive direction : Type := sideways | uptrend | downtrend.

Inductive risk : Type := risk_low | risk_medium | risk_high.

(** What a JavaScript [throw] carries. *)
Inductive exn : Type :=
| Error (message : string)
| TypeError (message : string).

Definition exn_message (e : exn) : string :=
  match e with Error m | TypeError m => m end.

(** The object built by [calculateIndicators]. *)
Record indicators : Type := mkIndicators {
  sma20 : list num;
  sma50 : list num;
  ema12 : list num;
  ema26 : list num;
  macd : macd_result;
  rsi : list num;
  bollinger : bands;
  stochastic : stochastic_result;
  atr : list num;
  williamsR : list num
}.

(** The object built by [detectPatterns]. *)
Record patterns : Type := mkPatterns {
  doji : bool;
  hammer : bool;
  shootingStar : bool;
  engulfing : bool;
  morning_star : bool;
  evening_star : bool
}.

(** The object built by [findSupportResistance]. *)
Record support_resistance : Type := mkLevels {
  resistance : list num;
  support : list num;
  current_price : num
}.

(** The object built by [analyzeTrend]; the two positions are ['above']
    ([true]) or ['below'] ([false]). *)
Record trend : Type := mkTrend {
  trend_direction : direction;  (* direction *)
  strength : num;
  sma20_above : bool;           (* sma20_position *)
  sma50_above : bool            (* sma50_position *)
}.

(** The object built by [analyzeVolume]. *)
Record volume_analysis : Type := mkVolume {
  average_volume : num;
  current_volume : num;
  volume_ratio : num;
  is_high_volume : bool
}.

(** The entries pushed on [reasons]; the two trend messages embed
    [trend.strength.toFixed(2)]. *)
Inductive reason : Type :=
| RsiOversold
| RsiOverbought
| MacdBullish
| MacdBearish
| PriceAtLowerBand
| PriceAtUpperBand
| StrongUptrend (strength2 : num)
| StrongDowntrend (strength2 : num)
| BullishPattern
| BearishPattern
| NearSupport
| NearResistance
| HighVolume.

Record indicators_summary : Type := mkSummary {
  summary_rsi : num;            (* rsi.toFixed(2) *)
  macd_signal_bullish : bool;   (* macd_signal: 'bullish' / 'bearish' *)
  summary_trend : direction;
  bb_upper_half : bool          (* bb_position: 'upper_half' / 'lower_half' *)
}.

(** The object returned by [makeDecision]; [None] is [null]. *)
Record decision : Type := mkDecision {
  d_action : action;       (* action *)
  d_confidence : num;      (* confidence: parseFloat(confidence.toFixed(3)) *)
  bullish_signals : num;
  bearish_signals : num;
  reasons : list reason;
  summary : indicators_summary;
  risk_level : risk;
  suggested_stop_loss : option num;
  suggested_take_profit : option num
}.

(** The argument object of [makeDecision]. *)
Record analysis_input : Type := mkInput {
  in_indicators : indicators;
  in_patterns : patterns;
  in_supportResistance : support_resistance;
  in_trend : trend;
  in_volumeAnalysis : volume_analysis;
  in_currentPrice : num
}.

(** The object returned by the [catch] block of [analyzeMarket]. *)
Record error_result : Type := mkErrorResult {
  e_action : action;     (* action *)
  e_confidence : num;    (* confidence *)
  e_reason : string;     (* reason *)
  e_error : string       (* error: error.message *)
}.

(** What [analyzeMarket] returns. *)
Inductive analysis : Type :=
| Decided (d : decision)
| Failed (e : error_result).

Definition analysis_action (a : analysis) : action :=
  match a with Decided d => d_action d | Failed e => e_action e end.

Definition analysis_confidence (a : analysis) : num :=
  match a with Decided d => d_confidence d | Failed e => e_confidence e end.

(* ===================================================================== *)
(** ** The store ([config/database], MySQL tables of [Database.migrate]) *)
(* ===================================================================== *)

Module Database.

(** A row of [market_data].  [UNIQUE KEY unique_candle (symbol, timeframe,
    timestamp)]; [volume BIGINT DEFAULT 0] may be NULL.  The rounding of the
    DECIMAL columns is not modelled: a row holds the numbers it was given. *)
Record market_row : Type := mkMarketRow {
  md_symbol : string;
  md_timeframe : string;
  md_timestamp : Z;
  open_price : num;
  high_price : num;
  low_price : num;
  close_price : num;
  md_volume : option Z
}.

(** The natural key of a candle row. *)
Definition has_key (symbol timeframe : string) (ts : Z) (r : market_row) : bool :=
  String.eqb (md_symbol r) symbol
  && String.eqb (md_timeframe r) timeframe
  && (md_timestamp r =? ts).

Definition same_key (a b : market_row) : bool :=
  has_key (md_symbol a) (md_timeframe a) (md_timestamp a) b.

(** [INSERT INTO market_data (...) VALUES (...)
     ON DUPLICATE KEY UPDATE open_price = VALUES(open_price),
       high_price = VALUES(high_price), low_price = VALUES(low_price),
       close_price = VALUES(close_price)]:
    a row with the key of the new one has its four prices replaced and keeps
    its other columns; without such a row the new one is added. *)
Definition upsert_candle (new : market_row) (t : list market_row) : list market_row :=
  if existsb (same_key new) t then
    map (fun r =>
           if same_key new r then
             mkMarketRow (md_symbol r) (md_timeframe r) (md_timestamp r)
                         (open_price new) (high_price new) (low_price new)
                         (close_price new) (md_volume r)
           else r) t
  else t ++ [new].

(** [ORDER BY timestamp DESC] *)
Fixpoint insert_desc (r : market_row) (l : list market_row) : list market_row :=
  match l with
  | [] => [r]
  | x :: t =>
      if md_timestamp x <? md_timestamp r then r :: x :: t
      else x :: insert_desc r t
  end.

Definition order_by_timestamp_desc (l : list market_row) : list market_row :=
  fold_right insert_desc [] l.

(** [SELECT timestamp, open_price as open, ... FROM market_data
     WHERE symbol = ? AND timeframe = ? ORDER BY timestamp DESC LIMIT ?] *)
Definition select_market_data (symbol timeframe : string) (limit : Z)
  (t : list market_row) : list market_row :=
  firstn (Z.to_nat limit)
    (order_by_timestamp_desc
       (filter (fun r => String.eqb (md_symbol r) symbol
                         && String.eqb (md_timeframe r) timeframe) t)).

(** A row of [ai_logs] as the two analysis inserts fill it. *)
Record ai_log_row : Type := mkLogRow {
  log_symbol : string;
  log_data : analysis;
  log_confidence : num
}.

(** [AUTO_${Date.now()}_${Math.random().toString(36).substr(2, 6)}], or the
    contract identifier returned by the broker. *)
Inductive trade_ident : Type :=
| AUTO (now : Z) (random : num)
| Contract (contract_id : Z).

(** A row of [trades] as [executeTrade] fills it; [created_on] is
    [DATE(created_at)]. *)
Record trade_row : Type := mkTradeRow {
  t_user_id : Z;
  t_trade_id : trade_ident;
  t_symbol : string;
  t_type : action;
  t_entry_price : num;
  t_amount : num;
  t_stop_loss : option num;
  t_take_profit : option num;
  t_is_demo : bool;
  t_ai_confidence : num;
  created_on : Z
}.

(** [SELECT COUNT( * ) as count FROM trades
     WHERE user_id = ? AND DATE(created_at) = CURDATE()] *)
Definition count_daily_trades (today userId : Z) (t : list trade_row) : Z :=
  len (filter (fun r => (t_user_id r =? userId) && (created_on r =? today)) t).

(** A row of [users JOIN trading_settings]. *)
Record account_row : Type := mkAccount {
  u_id : Z;                 (* id *)
  user_status : string;
  subscription_type : string;
  trading_active : bool;
  ai_active : bool;
  entry_amount : num;
  max_daily_trades : Z;
  broker : string
}.

(** [SELECT u.id, ... FROM users u JOIN trading_settings ts ON u.id = ts.user_id
     WHERE u.status = 'active' AND ts.trading_active = true
       AND ts.ai_active = true AND u.subscription_type IN ('basic', 'premium')] *)
Definition select_active_users (t : list account_row) : list account_row :=
  filter (fun u => String.eqb (user_status u) "active"
                   && trading_active u && ai_active u
                   && (String.eqb (subscription_type u) "basic"
                       || String.eqb (subscription_type u) "premium")) t.

End Database.

Import Database.

(* ===================================================================== *)
(** ** The running process: environment, state and effects *)
(* ===================================================================== *)

(** What the code reads from outside and cannot change.  The three scripts
    are indexed by the number of earlier calls of the same kind. *)
Record Env : Type := mkEnv {
  Math_sqrt : num -> num;
  Math_random : nat -> num;         (* the n-th result of Math.random() *)
  Date_now : Z;                     (* Date.now() *)
  CURDATE : Z;                      (* the current day of the store *)
  query_fails : nat -> bool;        (* the n-th database.query throws *)
  derivAPI_buy : nat -> option Z;   (* the n-th derivAPI.buy: the contract
                                       identifier of [result.buy], or no
                                       usable answer *)
  confidence_threshold : num;       (* AI_CONFIDENCE_THRESHOLD *)
  DERIV_DEMO_MODE : bool;           (* process.env.DERIV_DEMO_MODE === 'true' *)
  DERIV_API_TOKEN : bool;           (* process.env.DERIV_API_TOKEN is set *)
  global_io : bool                  (* global.io is defined *)
}.

(** [this.stats] of [DerivIntegration]. *)
Record stats_t : Type := mkStats {
  ticksReceived : Z;
  candlesReceived : Z;
  aiAnalysisCount : Z;
  tradesExecuted : Z
}.

(** An entry of [this.priceCache]. *)
Record price_entry : Type := mkPrice {
  price : num;
  bid : num;
  ask : num;
  spread : num
}.

(** What [global.io] is asked to emit. *)
Inductive io_event : Type :=
| candle_update (symbol : string) (timestamp : Z)
| ai_analysis (symbol : string) (a : analysis)
| auto_trade_executed (user : Z) (symbol : string) (act : action)
    (confidence : num) (trade_id : option trade_ident).

(** The logger calls that are kept. *)
Inductive log_entry : Type :=
| log_analysing (symbol : string)            (* logger.ai: Analisando ... com IA *)
| log_auto_trade (user : Z) (symbol : string) (* logger.trading: Executando trade automático *)
| log_daily_limit (user : Z).                (* logger.warn: Limite diário de trades atingido *)

(** The tables, the counters of the scripts, and the [DerivIntegration]
    instance. *)
Record world : Type := mkWorld {
  market_data : list market_row;
  ai_logs : list ai_log_row;
  trades : list trade_row;
  accounts : list account_row;
  queries : nat;       (* database.query calls so far *)
  randoms : nat;       (* Math.random calls so far *)
  orders : nat;        (* derivAPI.buy calls so far *)
  stats : stats_t;
  priceCache : string -> option price_entry;
  emitted : list io_event;
  logged : list log_entry
}.

Module Effects.

Definition M (A : Type) : Type := world -> A * world.

Definition ret {A : Type} (a : A) : M A := fun w => (a, w).

Definition bind {A B : Type} (c : M A) (k : A -> M B) : M B :=
  fun w => let (a, w') := c w in k a w'.

Definition gets {A : Type} (f : world -> A) : M A := fun w => (f w, w).

Definition modify (f : world -> world) : M unit := fun w => (tt, f w).

Definition when (b : bool) (c : M unit) : M unit := if b then c else ret tt.

(** A loop whose body has effects. *)
Definition for_rangeM {S : Type} (lo hi : Z) (body : Z -> S -> M S) (s : S) : M S :=
  fun w => for_range lo hi (fun i '(s, w) => body i s w) (s, w).

(** [for (const x of xs) body] *)
Fixpoint for_of {A : Type} (xs : list A) (body : A -> M unit) : M unit :=
  match xs with
  | [] => ret tt
  | x :: t => bind (body x) (fun _ => for_of t body)
  end.

Definition set_market_data v w :=
  mkWorld v (ai_logs w) (trades w) (accounts w) (queries w) (randoms w)
          (orders w) (stats w) (priceCache w) (emitted w) (logged w).
Definition set_ai_logs v w :=
  mkWorld (market_data w) v (trades w) (accounts w) (queries w) (randoms w)
          (orders w) (stats w) (priceCache w) (emitted w) (logged w).
Definition set_trades v w :=
  mkWorld (market_data w) (ai_logs w) v (accounts w) (queries w) (randoms w)
          (orders w) (stats w) (priceCache w) (emitted w) (logged w).
Definition set_queries v w :=
  mkWorld (market_data w) (ai_logs w) (trades w) (accounts w) v (randoms w)
          (orders w) (stats w) (priceCache w) (emitted w) (logged w).
Definition set_randoms v w :=
  mkWorld (market_data w) (ai_logs w) (trades w) (accounts w) (queries w) v
          (orders w) (stats w) (priceCache w) (emitted w) (logged w).
Definition set_orders v w :=
  mkWorld (market_data w) (ai_logs w) (trades w) (accounts w) (queries w)
          (randoms w) v (stats w) (priceCache w) (emitted w) (logged w).
Definition set_stats v w :=
  mkWorld (market_data w) (ai_logs w) (trades w) (accounts w) (queries w)
          (randoms w) (orders w) v (priceCache w) (emitted w) (logged w).
Definition set_emitted v w :=
  mkWorld (market_data w) (ai_logs w) (trades w) (accounts w) (queries w)
          (randoms w) (orders w) (stats w) (priceCache w) v (logged w).
Definition set_logged v w :=
  mkWorld (market_data w) (ai_logs w) (trades w) (accounts w) (queries w)
          (randoms w) (orders w) (stats w) (priceCache w) (emitted w) v.

Section WithEnv.

Variable env : Env.

(** [await database.query(sql, params)]: the store answers, or the call
    throws and the tables are left as they were. *)
Definition database_query {A : Type} (run : M A) : M (exn + A) :=
  fun w =>
    let w1 := set_queries (S (queries w)) w in
    if query_fails env (queries w) then (inl (Error "query failed"), w1)
    else let (a, w2) := run w1 in (inr a, w2).

(** [Math.random()] *)
Definition random : M num :=
  fun w => (Math_random env (randoms w), set_randoms (S (randoms w)) w).

(** [global.io.emit(...)] under [if (global.io)] *)
Definition io_emit (e : io_event) : M unit :=
  when (global_io env) (modify (fun w => set_emitted (push (emitted w) e) w)).

Definition logger (e : log_entry) : M unit :=
  modify (fun w => set_logged (push (logged w) e) w).

End WithEnv.

End Effects.

Import Effects.

Declare Scope effect_scope.
Delimit Scope effect_scope with eff.
Notation "x <- c ;; k" := (bind c (fun x => k))
  (at level 61, c at next level, right associativity) : effect_scope.
Notation "' p <- c ;; k" := (bind c (fun p => k))
  (at level 61, p pattern, c at next level, right associativity) : effect_scope.
Notation "c ;; k" := (bind c (fun _ => k))
  (at level 61, right associativity) : effect_scope.
Local Open Scope effect_scope.

(* ===================================================================== *)
(** ** Analysis and decision engine ([class ForexAI]) *)
(* ===================================================================== *)

Module ForexAI.

Section Engine.

Variable env : Env.

(** [this.confidence_threshold], set by the constructor to
    [parseFloat(process.env.AI_CONFIDENCE_THRESHOLD || 0.75)]: NaN when the
    variable does not parse. *)
Definition this_confidence_threshold : num := confidence_threshold env.

(** [calculateIndicators(data)] *)
Definition calculateIndicators (data : list candle) : indicators :=
  let prices := map close data in
  let highs := map high data in
  let lows := map low data in
  mkIndicators
    (SMA prices 20)
    (SMA prices 50)
    (EMA prices 12)
    (EMA prices 26)
    (MACD prices 12 26 9)
    (RSI prices 14)
    (BollingerBands (Math_sqrt env) prices 20 (of_Z 2))
    (Stochastic highs lows prices 14 3)
    (ATR highs lows prices 14)
    (WilliamsR highs lows prices 14).

(** [detectPatterns(data)]; [recent] has three elements past the length
    test, so both [current] and [previous] exist. *)
Definition detectPatterns (data : list candle) : patterns :=
  let none := mkPatterns false false false false false false in
  if len data <? 3 then none
  else
    let recent := slice_from data (-3) in
    match get recent (len recent - 1), get recent (len recent - 2) with
    | Some current, Some previous =>
        let bodySize := abs (close current - open current)%num in
        let candleRange := (high current - low current)%num in
        let doji := (bodySize / candleRange <? dec 1 1)%num in
        let lowerShadow :=
          if (open current >? close current)%num
          then (close current - low current)%num
          else (open current - low current)%num in
        let upperShadow :=
          (high current - max2 (open current) (close current))%num in
        let hammer :=
          (lowerShadow >? bodySize * of_Z 2)%num
          && (upperShadow <? bodySize * dec 5 1)%num in
        let shootingStar :=
          (upperShadow >? bodySize * of_Z 2)%num
          && (lowerShadow <? bodySize * dec 5 1)%num in
        let prevBody := abs (close previous - open previous)%num in
        let currBody := abs (close current - open current)%num in
        let engulfing :=
          (currBody >? prevBody * dec 15 1)%num
          && (((close previous <? open previous)%num
               && (close current >? open current)%num)
              || ((close previous >? open previous)%num
                  && (close current <? open current)%num)) in
        mkPatterns doji hammer shootingStar engulfing false false
    | _, _ => none
    end.

(** [findLocalMaxima(data, window)] *)
Definition findLocalMaxima (data : list num) (window : Z) : list num :=
  for_range window (len data - window)
    (fun i maxima =>
       let isMaxima :=
         forallb (fun value => (value <=? at_ data i)%num)
                 (slice data (i - window) (i + window + 1)) in
       if isMaxima then push maxima (at_ data i) else maxima)
    [].

(** [findLocalMinima(data, window)] *)
Definition findLocalMinima (data : list num) (window : Z) : list num :=
  for_range window (len data - window)
    (fun i minima =>
       let isMinima :=
         forallb (fun value => (value >=? at_ data i)%num)
                 (slice data (i - window) (i + window + 1)) in
       if isMinima then push minima (at_ data i) else minima)
    [].

(** [findSupportResistance(data)] *)
Definition findSupportResistance (data : list candle) : support_resistance :=
  let prices := map close data in
  let highs := map high data in
  let lows := map low data in
  let resistance := findLocalMaxima highs 5 in
  let support := findLocalMinima lows 5 in
  mkLevels (slice_from resistance (-3)) (slice_from support (-3)) (last_ prices).

(** [analyzeTrend(data, indicators)] *)
Definition analyzeTrend (data : list candle) (ind : indicators) : trend :=
  let prices := map close data in
  let currentPrice := last_ prices in
  let sma20 := last_ (sma20 ind) in
  let sma50 := last_ (sma50 ind) in
  let '(trend, strength) :=
    if (currentPrice >? sma20)%num && (sma20 >? sma50)%num then
      (uptrend, ((currentPrice - sma50) / sma50 * of_Z 100)%num)
    else if (currentPrice <? sma20)%num && (sma20 <? sma50)%num then
      (downtrend, ((sma50 - currentPrice) / sma50 * of_Z 100)%num)
    else (sideways, Fin 0) in
  mkTrend trend (abs strength)
          (currentPrice >? sma20)%num (currentPrice >? sma50)%num.

(** [x || 0] on a number: NaN and 0 are falsy. *)
Definition or_zero (x : num) : num :=
  match x with NaN => Fin 0 | _ => x end.

(** [analyzeVolume(data)] *)
Definition analyzeVolume (data : list candle) : volume_analysis :=
  let volumes := map (fun d => or_zero (volume d)) data in
  let avgVolume := (sum volumes / of_Z (len volumes))%num in
  let currentVolume := last_ volumes in
  mkVolume avgVolume currentVolume (currentVolume / avgVolume)%num
           (currentVolume >? avgVolume * dec 15 1)%num.

(** The three accumulators of [makeDecision]. *)
Record score : Type := mkScore {
  bullishSignals : num;
  bearishSignals : num;
  signalStrength : num;
  score_reasons : list reason
}.

Definition bullish (w : num) (r : reason) (s : score) : score :=
  mkScore (bullishSignals s + w)%num (bearishSignals s) (signalStrength s)
          (push (score_reasons s) r).

Definition bearish (w : num) (r : reason) (s : score) : score :=
  mkScore (bullishSignals s) (bearishSignals s + w)%num (signalStrength s)
          (push (score_reasons s) r).

Definition stronger (w : num) (r : reason) (s : score) : score :=
  mkScore (bullishSignals s) (bearishSignals s) (signalStrength s + w)%num
          (push (score_reasons s) r).

(** The blocks of [makeDecision], in source order. *)
Definition score_rsi (a : analysis_input) (s : score) : score :=
  let rsi := last_ (rsi (in_indicators a)) in
  if (rsi <? of_Z 30)%num then bullish (of_Z 2) RsiOversold s
  else if (rsi >? of_Z 70)%num then bearish (of_Z 2) RsiOverbought s
  else s.

Definition score_macd (a : analysis_input) (s : score) : score :=
  let macd := macd (in_indicators a) in
  let macdLine := last_ (macd_line macd) in
  let signalLine := last_ (macd_signal macd) in
  let histogram := last_ (macd_histogram macd) in
  if (macdLine >? signalLine)%num && (histogram >? Fin 0)%num
  then bullish (dec 15 1) MacdBullish s
  else if (macdLine <? signalLine)%num && (histogram <? Fin 0)%num
  then bearish (dec 15 1) MacdBearish s
  else s.

Definition score_bollinger (a : analysis_input) (s : score) : score :=
  let bollinger := bollinger (in_indicators a) in
  let upperBand := last_ (bb_upper bollinger) in
  let lowerBand := last_ (bb_lower bollinger) in
  if (in_currentPrice a <=? lowerBand)%num
  then bullish (of_Z 1) PriceAtLowerBand s
  else if (in_currentPrice a >=? upperBand)%num
  then bearish (of_Z 1) PriceAtUpperBand s
  else s.

Definition is_direction (d e : direction) : bool :=
  match d, e with
  | sideways, sideways | uptrend, uptrend | downtrend, downtrend => true
  | _, _ => false
  end.

Definition score_trend (a : analysis_input) (s : score) : score :=
  let trend := in_trend a in
  if is_direction (trend_direction trend) uptrend
     && (strength trend >? of_Z 1)%num
  then bullish (of_Z 1) (StrongUptrend (toFixed 2 (strength trend))) s
  else if is_direction (trend_direction trend) downtrend
          && (strength trend >? of_Z 1)%num
  then bearish (of_Z 1) (StrongDowntrend (toFixed 2 (strength trend))) s
  else s.

Definition score_patterns (a : analysis_input) (s : score) : score :=
  let patterns := in_patterns a in
  let s1 :=
    if hammer patterns || morning_star patterns
    then bullish (of_Z 1) BullishPattern s else s in
  if shootingStar patterns || evening_star patterns
  then bearish (of_Z 1) BearishPattern s1 else s1.

(** [Math.abs(currentPrice - level) / currentPrice < 0.001] *)
Definition near (currentPrice level : num) : bool :=
  (abs (currentPrice - level) / currentPrice <? dec 1 3)%num.

Definition score_levels (a : analysis_input) (s : score) : score :=
  let nearSupport :=
    existsb (near (in_currentPrice a)) (support (in_supportResistance a)) in
  let nearResistance :=
    existsb (near (in_currentPrice a)) (resistance (in_supportResistance a)) in
  let s1 := if nearSupport then bullish (dec 5 1) NearSupport s else s in
  if nearResistance then bearish (dec 5 1) NearResistance s1 else s1.

Definition score_volume (a : analysis_input) (s : score) : score :=
  if is_high_volume (in_volumeAnalysis a)
  then stronger (dec 2 1) HighVolume s else s.

(** The accumulators when the last block of votes has run. *)
Definition votes (a : analysis_input) : score :=
  score_volume a
    (score_levels a
      (score_patterns a
        (score_trend a
          (score_bollinger a
            (score_macd a
              (score_rsi a (mkScore (Fin 0) (Fin 0) (Fin 0) [] ))))))).

(** [action] and [confidence] before the cap and the threshold. *)
Definition raw_decision (s : score) : action * num :=
  let totalSignals := (bullishSignals s + bearishSignals s)%num in
  if (totalSignals >? Fin 0)%num then
    if (bullishSignals s >? bearishSignals s)%num then
      (buy, (bullishSignals s / (bullishSignals s + bearishSignals s) * dec 8 1
             + signalStrength s)%num)
    else if (bearishSignals s >? bullishSignals s)%num then
      (sell, (bearishSignals s / (bullishSignals s + bearishSignals s) * dec 8 1
              + signalStrength s)%num)
    else (hold, Fin 0)
  else (hold, Fin 0).

(** [confidence] after [Math.min(confidence, 0.95)]: the value the threshold
    test reads. *)
Definition capped_confidence (s : score) : num :=
  min2 (snd (raw_decision s)) (dec 95 2).

(** [action] after the threshold test. *)
Definition final_action (s : score) : action :=
  if (capped_confidence s <? this_confidence_threshold)%num then hold
  else fst (raw_decision s).

(** [calculateRiskLevel(confidence, indicators)] *)
Definition calculateRiskLevel (confidence : num) (ind : indicators) : risk :=
  let atr := last_ (atr ind) in
  let rsi := last_ (rsi ind) in
  let r1 := if (confidence <? dec 6 1)%num then 3
            else if (confidence <? dec 75 2)%num then 2 else 1 in
  let r2 := if (atr >? dec 2 3)%num then r1 + 2
            else if (atr >? dec 1 3)%num then r1 + 1 else r1 in
  let riskScore :=
    if (rsi <? of_Z 20)%num || (rsi >? of_Z 80)%num then r2 + 1 else r2 in
  if riskScore <=? 2 then risk_low
  else if riskScore <=? 4 then risk_medium
  else risk_high.

(** [calculateStopLoss(currentPrice, indicators, action)] *)
Definition calculateStopLoss (currentPrice : num) (ind : indicators) (a : action)
  : option num :=
  let atr := last_ (atr ind) in
  let atrMultiplier := of_Z 2 in
  match a with
  | buy => Some (currentPrice - atr * atrMultiplier)%num
  | sell => Some (currentPrice + atr * atrMultiplier)%num
  | hold => None
  end.

(** [calculateTakeProfit(currentPrice, indicators, action)] *)
Definition calculateTakeProfit (currentPrice : num) (ind : indicators) (a : action)
  : option num :=
  let atr := last_ (atr ind) in
  let atrMultiplier := of_Z 3 in
  match a with
  | buy => Some (currentPrice + atr * atrMultiplier)%num
  | sell => Some (currentPrice - atr * atrMultiplier)%num
  | hold => None
  end.

(** [makeDecision(analysis)].  The only statement that can throw is
    [rsi.toFixed(2)] in the returned object: [rsi] is [undefined] when the
    RSI array is empty. *)
Definition makeDecision (a : analysis_input) : exn + decision :=
  let ind := in_indicators a in
  let s := votes a in
  let confidence := capped_confidence s in
  let action := final_action s in
  match get (rsi ind) (len (rsi ind) - 1) with
  | None => inl (TypeError "Cannot read properties of undefined (reading 'toFixed')")
  | Some rsi =>
      inr (mkDecision
             action
             (toFixed 3 confidence)
             (bullishSignals s)
             (bearishSignals s)
             (score_reasons s)
             (mkSummary
                (toFixed 2 rsi)
                (last_ (macd_line (macd ind)) >? last_ (macd_signal (macd ind)))%num
                (trend_direction (in_trend a))
                (in_currentPrice a >? last_ (bb_middle (bollinger ind)))%num)
             (calculateRiskLevel confidence ind)
             (calculateStopLoss (in_currentPrice a) ind action)
             (calculateTakeProfit (in_currentPrice a) ind action))
  end.

(** [generateSimulatedData(symbol, limit)]: four calls of [Math.random] per
    candle, in the order of the source. *)
Definition generateSimulatedData (symbol : string) (limit : Z) : M (list candle) :=
  let basePrice := dec 10850 4 in
  '(data, _) <-
    for_rangeM 0 limit
      (fun i '(data, currentPrice) =>
         let timestamp := Date_now env - (limit - i) * 5 * 60 * 1000 in
         r1 <- random env ;;
         let variation := ((r1 - dec 5 1) * dec 2 3)%num in
         let open := currentPrice in
         let close := (open + variation)%num in
         r2 <- random env ;;
         let high := (max2 open close + r2 * dec 1 3)%num in
         r3 <- random env ;;
         let low := (min2 open close - r3 * dec 1 3)%num in
         r4 <- random env ;;
         ret (push data
                (mkCandle timestamp (toFixed 5 open) (toFixed 5 high)
                   (toFixed 5 low) (toFixed 5 close)
                   (floor (r4 * of_Z 1000000)%num)),
              close))
      ([], basePrice) ;;
  ret data.

(** [parseInt(item.volume || 0)] *)
Definition parse_volume (v : option Z) : num :=
  match v with
  | Some z => of_Z z
  | None => of_Z 0
  end.

(** The callback of [data.map] in [getMarketData]; [parseFloat] of a
    DECIMAL column is the number the column holds. *)
Definition candle_of_row (item : market_row) : candle :=
  mkCandle (md_timestamp item) (open_price item) (high_price item)
           (low_price item) (close_price item) (parse_volume (md_volume item)).

(** [getMarketData(symbol, timeframe, limit)] *)
Definition getMarketData (symbol timeframe : string) (limit : Z) : M (list candle) :=
  r <- database_query env
         (gets (fun w => select_market_data symbol timeframe limit (market_data w))) ;;
  match r with
  | inr data =>
      if len data =? 0 then generateSimulatedData symbol limit
      else ret (rev (map candle_of_row data))
  | inl error => generateSimulatedData symbol limit
  end.

(** [logAnalysis(symbol, decision, analysisData)]: a failed insert is
    swallowed. *)
Definition logAnalysis (symbol : string) (d : decision) : M unit :=
  r <- database_query env
         (modify (fun w =>
            set_ai_logs (push (ai_logs w)
                           (mkLogRow symbol (Decided d) (d_confidence d))) w)) ;;
  ret tt.

(** [throw] inside a [try] block. *)
Definition throw {A : Type} (e : exn) : M (exn + A) := ret (inl e).

(** The [try] block of [analyzeMarket]. *)
Definition analyzeMarket_try (symbol timeframe : string) : M (exn + decision) :=
  marketData <- getMarketData symbol timeframe 200 ;;
  if len marketData <? 50 then throw (Error "Dados insuficientes para análise")
  else
    let indicators := calculateIndicators marketData in
    let patterns := detectPatterns marketData in
    let supportResistance := findSupportResistance marketData in
    let trend := analyzeTrend marketData indicators in
    let volumeAnalysis := analyzeVolume marketData in
    match get marketData (len marketData - 1) with
    | None => throw (TypeError "Cannot read properties of undefined (reading 'close')")
    | Some latest =>
        match makeDecision
                (mkInput indicators patterns supportResistance trend
                         volumeAnalysis (close latest)) with
        | inl error => throw error
        | inr decision =>
            logAnalysis symbol decision ;;
            ret (inr decision)
        end
    end.

(** [analyzeMarket(symbol, timeframe)]: the [catch] block turns every error
    into a hold. *)
Definition analyzeMarket (symbol timeframe : string) : M analysis :=
  r <- analyzeMarket_try symbol timeframe ;;
  match r with
  | inr decision => ret (Decided decision)
  | inl error =>
      ret (Failed (mkErrorResult hold (Fin 0) "Erro na análise" (exn_message error)))
  end.

End Engine.

End ForexAI.

(* ===================================================================== *)
(** ** Ingestion pipeline ([class DerivIntegration]) *)
(* ===================================================================== *)

(** The payload of a ['candle'] event of the feed client. *)
Record candle_data : Type := mkCandleData {
  cd_symbol : string;
  cd_timestamp : Z;
  cd_open : num;
  cd_high : num;
  cd_low : num;
  cd_close : num
}.

(** What [executeTrade] returns: [{success: true, trade_id, type: 'demo'}],
    [{success: true, contract_id, type: 'real'}] or
    [{success: false, error}]. *)
Inductive trade_result : Type :=
| demo_trade (trade_id : trade_ident)
| real_trade (contract_id : Z)
| no_trade (error : string).

Definition success (r : trade_result) : bool :=
  match r with no_trade _ => false | _ => true end.

(** [tradeResult.trade_id]: absent from the result of a real trade. *)
Definition result_trade_id (r : trade_result) : option trade_ident :=
  match r with demo_trade t => Some t | _ => None end.

(** The payload of a ['tick'] event of the feed client; [td_timestamp] is
    [new Date(tick.epoch * 1000)] in milliseconds. *)
Record tick_data : Type := mkTickData {
  td_symbol : string;      (* symbol *)
  td_price : num;          (* price *)
  td_timestamp : Z;        (* timestamp *)
  td_bid : num;            (* bid *)
  td_ask : num             (* ask *)
}.

(** What [calculatePriceChange] returns: the number [0], or an object. *)
Inductive price_change : Type :=
| no_change
| change (absolute percentage : num).

(** The payload of a ['tick_update'] emission. *)
Record tick_update : Type := mkTickUpdate {
  tu_symbol : string;
  tu_price : num;
  tu_timestamp : Z;
  tu_change : price_change
}.

(** The object [executeRealDerivTrade] passes to [derivAPI.buy]; a field
    that is not set is [None]. *)
Record trade_params : Type := mkTradeParams {
  tp_symbol : string;
  tp_amount : num;
  tp_duration : option Z;
  tp_basis : option string;
  tp_contract_type : option string
}.

Definition set_priceCache (v : string -> option price_entry) (w : world) : world :=
  mkWorld (market_data w) (ai_logs w) (trades w) (accounts w) (queries w)
          (randoms w) (orders w) (stats w) v (emitted w) (logged w).

Module DerivIntegration.

Section Pipeline.

Variable env : Env.

(** [determineTimeframe(candleData)] *)
Definition determineTimeframe (candleData : candle_data) : string := "5m".

(** [saveCandleToDB(candleData)]: a failed write is swallowed. *)
Definition saveCandleToDB (candleData : candle_data) : M unit :=
  let timeframe := determineTimeframe candleData in
  r <- database_query env
         (modify (fun w =>
            set_market_data
              (upsert_candle
                 (mkMarketRow (cd_symbol candleData) timeframe
                    (cd_timestamp candleData) (cd_open candleData)
                    (cd_high candleData) (cd_low candleData)
                    (cd_close candleData) (Some 0))
                 (market_data w)) w)) ;;
  ret tt.

(** [shouldAnalyzeCandle(candleData)] *)
Definition shouldAnalyzeCandle (candleData : candle_data) : M bool :=
  gets (fun w => Z.rem (candlesReceived (stats w)) 5 =? 0).

(** [getActiveUsers()] *)
Definition getActiveUsers : M (list account_row) :=
  r <- database_query env (gets (fun w => select_active_users (accounts w))) ;;
  match r with
  | inr users => ret users
  | inl error => ret []
  end.

(** [getUserDailyTrades(userId)] *)
Definition getUserDailyTrades (userId : Z) : M Z :=
  r <- database_query env
         (gets (fun w => count_daily_trades (CURDATE env) userId (trades w))) ;;
  match r with
  | inr count => ret count
  | inl error => ret 0
  end.

(** [calculateStopLoss(price, action)] *)
Definition calculateStopLoss (price : num) (a : action) : num :=
  let percentage := dec 2 2 in
  match a with
  | buy => (price * (of_Z 1 - percentage))%num
  | _ => (price * (of_Z 1 + percentage))%num
  end.

(** [calculateTakeProfit(price, action)] *)
Definition calculateTakeProfit (price : num) (a : action) : num :=
  let percentage := dec 3 2 in
  match a with
  | buy => (price * (of_Z 1 + percentage))%num
  | _ => (price * (of_Z 1 - percentage))%num
  end.

(** [x || fallback] where [x] is a number, [null] or [undefined]. *)
Definition or_else (x : option num) (fallback : num) : num :=
  match x with
  | Some (Fin q) => if Qeq_bool q 0 then fallback else Fin q
  | Some NaN | None => fallback
  | Some y => y
  end.

Definition analysis_stop_loss (a : analysis) : option num :=
  match a with Decided d => suggested_stop_loss d | Failed _ => None end.

Definition analysis_take_profit (a : analysis) : option num :=
  match a with Decided d => suggested_take_profit d | Failed _ => None end.

(** [executeRealDerivTrade(user, symbol, analysis, currentPrice)] *)
Definition executeRealDerivTrade : M trade_result :=
  fun w =>
    let w1 := set_orders (S (orders w)) w in
    match derivAPI_buy env (orders w) with
    | Some contract_id => (real_trade contract_id, w1)
    | None => (no_trade "Resposta inválida da Deriv API", w1)
    end.

Definition insert_trade (user : account_row) (trade_id : trade_ident)
  (symbol : string) (a : analysis) (entry : num) (stopLoss takeProfit : num)
  (is_demo : bool) : M (exn + unit) :=
  database_query env
    (modify (fun w =>
       set_trades
         (push (trades w)
            (mkTradeRow (u_id user) trade_id symbol (analysis_action a) entry
               (entry_amount user) (Some stopLoss) (Some takeProfit) is_demo
               (analysis_confidence a) (CURDATE env))) w)).

(** [executeTrade(user, symbol, analysis)] *)
Definition executeTrade (user : account_row) (symbol : string) (a : analysis)
  : M trade_result :=
  r <- random env ;;
  let tradeId := AUTO (Date_now env) r in
  currentPrice <- gets (fun w => priceCache w symbol) ;;
  match currentPrice with
  | None => ret (no_trade "Preço atual não disponível")
  | Some currentPrice =>
      let stopLoss :=
        or_else (analysis_stop_loss a)
                (calculateStopLoss (price currentPrice) (analysis_action a)) in
      let takeProfit :=
        or_else (analysis_take_profit a)
                (calculateTakeProfit (price currentPrice) (analysis_action a)) in
      if String.eqb (broker user) "deriv" && DERIV_DEMO_MODE env then
        q <- insert_trade user tradeId symbol a (price currentPrice)
               stopLoss takeProfit true ;;
        match q with
        | inr _ => ret (demo_trade tradeId)
        | inl error => ret (no_trade (exn_message error))
        end
      else if String.eqb (broker user) "deriv" && DERIV_API_TOKEN env then
        derivResult <- executeRealDerivTrade ;;
        match derivResult with
        | real_trade contract_id =>
            q <- insert_trade user (Contract contract_id) symbol a
                   (price currentPrice) stopLoss takeProfit false ;;
            match q with
            | inr _ => ret derivResult
            | inl error => ret (no_trade (exn_message error))
            end
        | _ => ret derivResult
        end
      else ret (no_trade "Configuração de trading não disponível")
  end.

(** The body of the loop of [executeAutoTrade]. *)
Definition autoTradeUser (symbol : string) (a : analysis) (user : account_row)
  : M unit :=
  if negb (trading_active user) || negb (ai_active user) then ret tt
  else
    logger (log_auto_trade (u_id user) symbol) ;;
    dailyTrades <- getUserDailyTrades (u_id user) ;;
    if (dailyTrades >=? max_daily_trades user)
       && negb (max_daily_trades user =? -1)
    then logger (log_daily_limit (u_id user))
    else
      tradeResult <- executeTrade user symbol a ;;
      when (success tradeResult)
        (modify (fun w =>
           set_stats (mkStats (ticksReceived (stats w)) (candlesReceived (stats w))
                        (aiAnalysisCount (stats w)) (tradesExecuted (stats w) + 1)) w) ;;
         io_emit env
           (auto_trade_executed (u_id user) symbol (analysis_action a)
              (analysis_confidence a) (result_trade_id tradeResult))).

(** [executeAutoTrade(symbol, analysis)] *)
Definition executeAutoTrade (symbol : string) (a : analysis) : M unit :=
  users <- getActiveUsers ;;
  for_of users (autoTradeUser symbol a).

Definition is_hold (a : action) : bool :=
  match a with hold => true | _ => false end.

(** [analyzeWithAI(symbol)]: a failed insert into [ai_logs] leaves the
    [try] block, so neither the trade cycle nor the emission runs. *)
Definition analyzeWithAI (symbol : string) : M unit :=
  modify (fun w =>
    set_stats (mkStats (ticksReceived (stats w)) (candlesReceived (stats w))
                 (aiAnalysisCount (stats w) + 1) (tradesExecuted (stats w))) w) ;;
  logger (log_analysing symbol) ;;
  a <- ForexAI.analyzeMarket env symbol "5m" ;;
  q <- database_query env
         (modify (fun w =>
            set_ai_logs (push (ai_logs w)
                           (mkLogRow symbol a (analysis_confidence a))) w)) ;;
  match q with
  | inl error => ret tt
  | inr _ =>
      when ((analysis_confidence a >? dec 8 1)%num
            && negb (is_hold (analysis_action a)))
           (executeAutoTrade symbol a) ;;
      io_emit env (ai_analysis symbol a)
  end.

(** [handleCandleData(candleData)], run from its start to its end without
    another event in between. *)
Definition handleCandleData (candleData : candle_data) : M unit :=
  modify (fun w =>
    set_stats (mkStats (ticksReceived (stats w)) (candlesReceived (stats w) + 1)
                 (aiAnalysisCount (stats w)) (tradesExecuted (stats w))) w) ;;
  saveCandleToDB candleData ;;
  analyze <- shouldAnalyzeCandle candleData ;;
  when analyze (analyzeWithAI (cd_symbol candleData)) ;;
  io_emit env (candle_update (cd_symbol candleData) (cd_timestamp candleData)).

(** The ['candle'] events of a run, handled one after the other. *)
Definition handleCandles (events : list candle_data) : M unit :=
  for_of events handleCandleData.

(** The ['candle'] listener calls [handleCandleData] and does not wait for
    it, so the handler runs in two parts.  The first part runs inside
    [emit]: the event is counted and [saveCandleToDB] sends its write, which
    the store is taken to perform at once.  The handler then waits at
    [await this.saveCandleToDB(candleData)]. *)
Definition handleCandleData_begin (candleData : candle_data) : M unit :=
  modify (fun w =>
    set_stats (mkStats (ticksReceived (stats w)) (candlesReceived (stats w) + 1)
                 (aiAnalysisCount (stats w)) (tradesExecuted (stats w))) w) ;;
  saveCandleToDB candleData.

(** The second part runs once the save has settled: the test of
    [shouldAnalyzeCandle], which nothing separates from the end of the
    wait, then the analysis and the emission.  The analysis waits in turn
    (for the store and the broker); it is not split further, since nothing
    that may run during those waits undoes the test or the count of the
    analysis, both made before the first of them. *)
Definition handleCandleData_resume (candleData : candle_data) : M unit :=
  analyze <- shouldAnalyzeCandle candleData ;;
  when analyze (analyzeWithAI (cd_symbol candleData)) ;;
  io_emit env (candle_update (cd_symbol candleData) (cd_timestamp candleData)).

(** What happens to the candle handlers, in the order in which it happens:
    the feed emits a ['candle'] event, or the save of the [k]-th waiting
    handler (the oldest is number 0) settles and that handler runs on. *)
Inductive candle_step : Type :=
| arrives (candleData : candle_data)
| settles (k : nat).

Definition remove_nth {A : Type} (k : nat) (l : list A) : list A :=
  firstn k l ++ skipn (S k) l.

(** One step on the state of the process and the handlers that wait, oldest
    first.  A step [settles k] without a [k]-th waiting handler is no
    step. *)
Definition candle_step_run (st : world * list candle_data) (e : candle_step)
  : world * list candle_data :=
  let (w, waiting) := st in
  match e with
  | arrives c => (snd (handleCandleData_begin c w), waiting ++ [c])
  | settles k =>
      match nth_error waiting k with
      | Some c => (snd (handleCandleData_resume c w), remove_nth k waiting)
      | None => st
      end
  end.

(** A run from a state in which no handler waits. *)
Definition run_candle_steps (steps : list candle_step) (w : world)
  : world * list candle_data :=
  fold_left candle_step_run steps (w, []).

(** [getCurrentPrice(symbol)] *)
Definition getCurrentPrice (symbol : string) : M (option price_entry) :=
  gets (fun w => priceCache w symbol).

(** [calculatePriceChange(symbol, currentPrice)] *)
Definition calculatePriceChange (symbol : string) (currentPrice : num)
  : M price_change :=
  cached <- gets (fun w => priceCache w symbol) ;;
  match cached with
  | None => ret no_change
  | Some cached =>
      let change_ := (currentPrice - price cached)%num in
      let changePercent := (change_ / price cached * of_Z 100)%num in
      ret (change change_ changePercent)
  end.

(** [this.priceCache.set(key, value)] *)
Definition priceCache_set (key : string) (value : price_entry) : M unit :=
  modify (fun w =>
    set_priceCache (fun k => if String.eqb k key then Some value else priceCache w k)
                   w).

(** [handleTickData(tickData)].  The ['tick_update'] emission is the result
    of the computation, [None] when [global.io] is not defined; the
    [timestamp] of the cache entry is not kept. *)
Definition handleTickData (tickData : tick_data) : M (option tick_update) :=
  modify (fun w =>
    set_stats (mkStats (ticksReceived (stats w) + 1) (candlesReceived (stats w))
                 (aiAnalysisCount (stats w)) (tradesExecuted (stats w))) w) ;;
  priceCache_set (td_symbol tickData)
    (mkPrice (td_price tickData) (td_bid tickData) (td_ask tickData)
             (td_ask tickData - td_bid tickData)%num) ;;
  if global_io env then
    change_ <- calculatePriceChange (td_symbol tickData) (td_price tickData) ;;
    ret (Some (mkTickUpdate (td_symbol tickData) (td_price tickData)
                 (td_timestamp tickData) change_))
  else ret None.

(** The object [tradeParams] of [executeRealDerivTrade] at the call of
    [derivAPI.buy]: [contract_type] is set to ['PUT'] unless the action is
    ['buy']. *)
Definition tradeParams (user : account_row) (symbol : string) (a : action)
  : trade_params :=
  let tradeParams := mkTradeParams symbol (entry_amount user) (Some 300)
                       (Some "stake"%string) None in
  match a with
  | buy => tradeParams
  | _ => mkTradeParams (tp_symbol tradeParams) (tp_amount tradeParams)
           (tp_duration tradeParams) (tp_basis tradeParams) (Some "PUT"%string)
  end.

End Pipeline.

End DerivIntegration.

(* ===================================================================== *)
(** ** Feed client ([class DerivAPI]): connection and reconnection *)
(* ===================================================================== *)

Module DerivAPI.

(** The events the client emits to its listeners. *)
Inductive api_event : Type :=
| connected
| disconnected
| error (message : string).

(** The two [setTimeout] calls of the client, with their delays in ms. *)
Inductive timer : Type :=
| reconnect_timer (delay : Z)   (* handleReconnect: () => this.connect() *)
| connect_timeout (delay : Z).  (* connect: reject when still unconnected *)

(** What the client does to the outside, in order. *)
Inductive effect : Type :=
| emit (e : api_event)
| setTimeout (t : timer)
| new_WebSocket
| log_max_attempts_reached      (* logger.error: Máximo de tentativas ... *)
| log_retry (attempt : Z).      (* logger.info: Tentativa de reconexão n/max *)

Record client : Type := mkClient {
  isConnected : bool;
  reconnectAttempts : Z;
  maxReconnectAttempts : Z;
  reconnectDelay : Z;
  pending : list timer;     (* timers set and not yet fired *)
  effects : list effect
}.

(** The fields set by the constructor. *)
Definition new_client : client := mkClient false 0 5 5000 [] [].

Definition do (e : effect) (c : client) : client :=
  mkClient (isConnected c) (reconnectAttempts c) (maxReconnectAttempts c)
           (reconnectDelay c) (pending c) (push (effects c) e).

Definition set_timeout (t : timer) (c : client) : client :=
  let c := do (setTimeout t) c in
  mkClient (isConnected c) (reconnectAttempts c) (maxReconnectAttempts c)
           (reconnectDelay c) (push (pending c) t) (effects c).

Definition set_isConnected (b : bool) (c : client) : client :=
  mkClient b (reconnectAttempts c) (maxReconnectAttempts c)
           (reconnectDelay c) (pending c) (effects c).

Definition set_reconnectAttempts (n : Z) (c : client) : client :=
  mkClient (isConnected c) n (maxReconnectAttempts c)
           (reconnectDelay c) (pending c) (effects c).

(** [handleReconnect()] *)
Definition handleReconnect (c : client) : client :=
  if reconnectAttempts c >=? maxReconnectAttempts c then
    do log_max_attempts_reached c
  else
    let c := set_reconnectAttempts (reconnectAttempts c + 1) c in
    let c := do (log_retry (reconnectAttempts c)) c in
    set_timeout (reconnect_timer (reconnectDelay c)) c.

(** [connect()]: the synchronous part of the promise executor. *)
Definition connect (c : client) : client :=
  set_timeout (connect_timeout 10000) (do new_WebSocket c).

(** [this.ws.on('open', ...)] *)
Definition on_open (c : client) : client :=
  do (emit connected) (set_reconnectAttempts 0 (set_isConnected true c)).

(** [this.ws.on('close', ...)] *)
Definition on_close (c : client) : client :=
  handleReconnect (do (emit disconnected) (set_isConnected false c)).

(** [this.ws.on('error', ...)] *)
Definition on_error (message : string) (c : client) : client :=
  do (emit (error message)) c.

Definition timer_eqb (a b : timer) : bool :=
  match a, b with
  | reconnect_timer x, reconnect_timer y => x =? y
  | connect_timeout x, connect_timeout y => x =? y
  | _, _ => false
  end.

(** Remove the first pending timer equal to [t]. *)
Fixpoint remove_timer (t : timer) (l : list timer) : option (list timer) :=
  match l with
  | [] => None
  | x :: r =>
      if timer_eqb t x then Some r
      else match remove_timer t r with
           | Some r' => Some (x :: r')
           | None => None
           end
  end.

(** What happens to the client. *)
Inductive input : Type :=
| ws_open
| ws_close
| ws_error (message : string)
| fires (t : timer).

(** A pending timer fires: a reconnection timer calls [connect()].  The
    promise of [connect()], resolved on open and rejected on an error or by
    the connection timeout, only feeds a logger line and is left out. *)
Definition on_timer (t : timer) (c : client) : client :=
  match remove_timer t (pending c) with
  | None => c
  | Some rest =>
      let c := mkClient (isConnected c) (reconnectAttempts c)
                 (maxReconnectAttempts c) (reconnectDelay c) rest (effects c) in
      match t with
      | reconnect_timer _ => connect c
      | connect_timeout _ => c
      end
  end.

Definition step (c : client) (i : input) : client :=
  match i with
  | ws_open => on_open c
  | ws_close => on_close c
  | ws_error m => on_error m c
  | fires t => on_timer t c
  end.

Definition run (inputs : list input) (c : client) : client :=
  fold_left step inputs c.

(** The delays of the reconnection timers in a sequence of effects. *)
Fixpoint reconnections (l : list effect) : list Z :=
  match l with
  | [] => []
  | setTimeout (reconnect_timer d) :: r => d :: reconnections r
  | _ :: r => reconnections r
  end.

(** The error events in a sequence of effects. *)
Fixpoint error_events (l : list effect) : list string :=
  match l with
  | [] => []
  | emit (error m) :: r => m :: error_events r
  | _ :: r => error_events r
  end.

Definition is_close (i : input) : bool :=
  match i with ws_close => true | _ => false end.

Definition is_open (i : input) : bool :=
  match i with ws_open => true | _ => false end.

(** A reconnection attempt that fails: the timer fires, the new socket
    reports an error and closes. *)
Definition failed_attempt (delay : Z) (message : string) : list input :=
  [fires (reconnect_timer delay); ws_error message; ws_close].

(** The number of close events in a run, and the socket errors it brings. *)
Definition closes (inputs : list input) : Z := len (filter is_close inputs).

Fixpoint socket_errors (inputs : list input) : list string :=
  match inputs with
  | [] => []
  | ws_error m :: r => m :: socket_errors r
  | _ :: r => socket_errors r
  end.

(** *** Symbols, requests and incoming messages *)

(** [this.forexSymbols] *)
Definition forexSymbols : list (string * string) :=
  [ ("EURUSD", "frxEURUSD"); ("GBPUSD", "frxGBPUSD"); ("USDJPY", "frxUSDJPY");
    ("AUDUSD", "frxAUDUSD"); ("USDCAD", "frxUSDCAD"); ("EURGBP", "frxEURGBP");
    ("EURJPY", "frxEURJPY"); ("GBPJPY", "frxGBPJPY"); ("XAUUSD", "frxXAUUSD");
    ("XAGUSD", "frxXAGUSD") ]%string.

(** [obj[key]] on an object given by its entries: the value of the last
    entry with this key, [None] for [undefined]. *)
Fixpoint property (obj : list (string * string)) (key : string) : option string :=
  match obj with
  | [] => None
  | (k, v) :: rest =>
      match property rest key with
      | Some later => Some later
      | None => if String.eqb k key then Some v else None
      end
  end.

(** [Object.fromEntries(Object.entries(this.forexSymbols).map(([k, v]) => [v, k]))] *)
Definition reverseSymbols : list (string * string) :=
  map (fun '(k, v) => (v, k)) forexSymbols.

(** [message.tick]; [bid] and [ask] may be absent. *)
Record tick_message : Type := mkTickMessage {
  tick_symbol : string;      (* symbol *)
  tick_quote : num;          (* quote *)
  tick_epoch : Z;            (* epoch *)
  tick_bid : option num;     (* bid *)
  tick_ask : option num      (* ask *)
}.

(** An element of [message.candles], or [message.ohlc]. *)
Record candle_message : Type := mkCandleMessage {
  c_epoch : Z;
  c_open : num;
  c_high : num;
  c_low : num;
  c_close : num
}.

(** A parsed message of the socket.  [m_error] is [error.message] of an
    [error] field, [Some None] when the field has no message. *)
Record message : Type := mkMessage {
  m_req_id : option Z;                       (* req_id *)
  m_msg_type : string;                       (* msg_type *)
  m_error : option (option string);          (* error *)
  m_tick : option tick_message;              (* tick *)
  m_candles : option (list candle_message);  (* candles *)
  m_ohlc : option candle_message;            (* ohlc *)
  m_ticks_history : option string            (* echo_req?.ticks_history *)
}.

(** What the message layer does to the outside, in order: events emitted
    to the listeners, promises of [sendRequest] settled, requests written to
    the socket, timers set and rows sent to the store. *)
Inductive feed_output : Type :=
| emit_error (message : option string)    (* this.emit('error', error) *)
| emit_tick (t : tick_data)               (* this.emit('tick', tickData) *)
| emit_candle (c : candle_data)           (* this.emit('candle', candleData) *)
| emit_response (event : string)          (* buy_response, sell_response,
                                             balance_update, portfolio_update *)
| call_saveTick (t : tick_data)           (* this.saveTick(tickData) *)
| call_saveCandle (c : candle_data)       (* this.saveCandle(candleData) *)
| resolve (id : Z) (m : message)          (* resolve(message) of request id *)
| reject (id : Z) (reason : string)       (* reject(new Error(reason)) of request id *)
| reject_unsent (reason : string)         (* reject of a request that got no id *)
| ws_send (id : Z)                        (* this.ws.send(...) with req_id: id *)
| request_timeout (id : Z) (delay : Z).   (* setTimeout(..., 30000) *)

(** [parseFloat(x || fallback)] on numbers. *)
Definition or_quote (x : option num) (fallback : num) : num :=
  DerivIntegration.or_else x fallback.

(** [handleTickData(message)] *)
Definition handleTickData (m : message) : list feed_output :=
  match m_tick m with
  | None => []
  | Some tick =>
      match property reverseSymbols (tick_symbol tick) with
      | None => []
      | Some symbol =>
          let tickData :=
            mkTickData symbol (tick_quote tick) (tick_epoch tick * 1000)
                       (or_quote (tick_bid tick) (tick_quote tick))
                       (or_quote (tick_ask tick) (tick_quote tick)) in
          [emit_tick tickData; call_saveTick tickData]
      end
  end.

(** [reverseSymbols[derivSymbol]] where [derivSymbol] may be [undefined]. *)
Definition reverse_symbol (derivSymbol : option string) : option string :=
  match derivSymbol with
  | Some s => property reverseSymbols s
  | None => None
  end.

(** [processSingleCandle(candle, derivSymbol)] *)
Definition processSingleCandle (candle : candle_message) (derivSymbol : option string)
  : list feed_output :=
  match reverse_symbol derivSymbol with
  | None => []
  | Some symbol =>
      let candleData :=
        mkCandleData symbol (c_epoch candle * 1000) (c_open candle)
                     (c_high candle) (c_low candle) (c_close candle) in
      [emit_candle candleData; call_saveCandle candleData]
  end.

(** [handleCandleData(message)] *)
Definition handleCandleData (m : message) : list feed_output :=
  (match m_candles m with
   | Some candles =>
       flat_map (fun candle => processSingleCandle candle (m_ticks_history m)) candles
   | None => []
   end)
  ++ (match m_ohlc m with
      | Some ohlc => processSingleCandle ohlc (m_ticks_history m)
      | None => []
      end).

(** [this.requestId] and the keys of [this.pendingRequests]. *)
Record requests : Type := mkRequests {
  requestId : Z;
  pendingRequests : list Z
}.

(** The fields set by the constructor. *)
Definition new_requests : requests := mkRequests 1 [].

(** [this.pendingRequests.has(id)], [.delete(id)] and [.set(id, ...)] *)
Definition has (id : Z) (r : requests) : bool :=
  existsb (Z.eqb id) (pendingRequests r).

Definition delete (id : Z) (r : requests) : requests :=
  mkRequests (requestId r) (filter (fun k => negb (id =? k)) (pendingRequests r)).

Definition set (id : Z) (r : requests) : requests :=
  if has id r then r else mkRequests (requestId r) (pendingRequests r ++ [id]).

(** [req_id && this.pendingRequests.has(req_id)]: 0 and [undefined] are
    falsy. *)
Definition pending_id (m : message) (r : requests) : option Z :=
  match m_req_id m with
  | Some id => if negb (id =? 0) && has id r then Some id else None
  | None => None
  end.

(** [error.message || 'Erro desconhecido da Deriv API'] *)
Definition error_reason (e : option string) : string :=
  match e with
  | Some s => if String.eqb s "" then "Erro desconhecido da Deriv API" else s
  | None => "Erro desconhecido da Deriv API"
  end.

(** The [switch] of [handleMessage].  [this.handleOHLCData] is defined
    nowhere, so the call for ['ohlc'] throws. *)
Definition dispatch (m : message) : list feed_output * option exn :=
  if String.eqb (m_msg_type m) "tick" then (handleTickData m, None)
  else if String.eqb (m_msg_type m) "candles" then (handleCandleData m, None)
  else if String.eqb (m_msg_type m) "ohlc"
  then ([], Some (TypeError "this.handleOHLCData is not a function"))
  else if String.eqb (m_msg_type m) "buy" then ([emit_response "buy_response"], None)
  else if String.eqb (m_msg_type m) "sell" then ([emit_response "sell_response"], None)
  else if String.eqb (m_msg_type m) "balance"
  then ([emit_response "balance_update"], None)
  else if String.eqb (m_msg_type m) "portfolio"
  then ([emit_response "portfolio_update"], None)
  else ([], None).

(** [handleMessage(message)]: the new state of the requests, what is done,
    and the error thrown if any. *)
Definition handleMessage (m : message) (r : requests)
  : requests * list feed_output * option exn :=
  match m_error m with
  | Some e =>
      match pending_id m r with
      | Some id =>
          (delete id r, [emit_error e; reject id (error_reason e)], None)
      | None => (r, [emit_error e], None)
      end
  | None =>
      match pending_id m r with
      | Some id => (delete id r, [resolve id m], None)
      | None => let (out, thrown) := dispatch m in (r, out, thrown)
      end
  end.

(** [sendRequest(request)]: the synchronous part of the promise executor. *)
Definition sendRequest (isConnected : bool) (r : requests)
  : requests * list feed_output :=
  if negb isConnected then (r, [reject_unsent "Não conectado à Deriv API"])
  else
    let reqId := requestId r in
    let r := mkRequests (requestId r + 1) (pendingRequests r) in
    (set reqId r, [ws_send reqId; request_timeout reqId 30000]).

(** The callback of the [setTimeout] of [sendRequest]. *)
Definition on_request_timeout (id : Z) (r : requests) : requests * list feed_output :=
  if has id r then (delete id r, [reject id "Timeout na requisição para Deriv API"])
  else (r, []).

(** What happens to the requests. *)
Inductive request_input : Type :=
| send (isConnected : bool)
| receive (m : message)
| timeout (id : Z).

Definition request_step (st : requests * list feed_output) (i : request_input)
  : requests * list feed_output :=
  let (r, done) := st in
  match i with
  | send isConnected =>
      let (r', out) := sendRequest isConnected r in (r', done ++ out)
  | receive m =>
      let '(r', out, _) := handleMessage m r in (r', done ++ out)
  | timeout id =>
      let (r', out) := on_request_timeout id r in (r', done ++ out)
  end.

Definition request_run (inputs : list request_input) : requests * list feed_output :=
  fold_left request_step inputs (new_requests, []).

(** The request [buy] sends. *)
Record buy_request : Type := mkBuyRequest {
  br_price : num;              (* price *)
  br_amount : num;             (* parameters.amount *)
  br_basis : string;           (* parameters.basis *)
  br_contract_type : string;   (* parameters.contract_type *)
  br_currency : string;        (* parameters.currency *)
  br_duration : Z;             (* parameters.duration *)
  br_duration_unit : string;   (* parameters.duration_unit *)
  br_symbol : string           (* parameters.symbol *)
}.

(** [x = default] in a destructuring pattern *)
Definition default {A : Type} (x : option A) (d : A) : A :=
  match x with Some v => v | None => d end.

(** [buy(options)] up to the request it hands to [sendRequest]. *)
Definition buy (apiToken : bool) (options : trade_params) : exn + buy_request :=
  if negb apiToken then inl (Error "API Token necessário para trading real")
  else
    let symbol := tp_symbol options in
    let amount := tp_amount options in
    let duration := default (tp_duration options) 60 in
    let basis := default (tp_basis options) "stake"%string in
    match property forexSymbols symbol with
    | None => inl (Error ("Símbolo " ++ symbol ++ " não suportado"))
    | Some derivSymbol =>
        inr (mkBuyRequest amount amount basis "CALL" "USD" duration "s" derivSymbol)
    end.

Section Store.

Variable env : Env.

(** [saveCandle(candleData)]: the insert names no volume, which takes the
    default [0] of the column; a failed write is swallowed. *)
Definition saveCandle (candleData : candle_data) : M unit :=
  let timeframe := "1m"%string in
  r <- database_query env
         (modify (fun w =>
            set_market_data
              (upsert_candle
                 (mkMarketRow (cd_symbol candleData) timeframe
                    (cd_timestamp candleData) (cd_open candleData)
                    (cd_high candleData) (cd_low candleData)
                    (cd_close candleData) (Some 0))
                 (market_data w)) w)) ;;
  ret tt.

(** The listeners [setupEventListeners] registers and the calls of the
    client itself, each taken to run to its end before the next. *)
Definition deliver (o : feed_output) : M unit :=
  match o with
  | emit_tick t => DerivIntegration.handleTickData env t ;; ret tt
  | emit_candle c => DerivIntegration.handleCandleData env c
  | call_saveCandle c => saveCandle c
  | _ => ret tt
  end.

Definition deliver_all (out : list feed_output) : M unit := for_of out deliver.

End Store.

End DerivAPI.

(* ===================================================================== *)
(** ** Specification-side notions *)
(* ===================================================================== *)

(** The integers [i, i+1, ..., i+n-1]: the values a loop counter takes. *)
Fixpoint zseq (i : Z) (n : nat) : list Z :=
  match n with
  | O => []
  | S n' => i :: zseq (i + 1) n'
  end.

(** The sum and the arithmetic mean of rationals. *)
Definition Qsum (qs : list Q) : Q := fold_right Qplus 0%Q qs.

Definition arithmetic_mean (qs : list Q) : Q :=
  (Qsum qs / inject_Z (len qs))%Q.

(** The [p] consecutive values of [s] that end at index [i]. *)
Definition trailing_window {A : Type} (s : list A) (i p : Z) : list A :=
  firstn (Z.to_nat p) (skipn (Z.to_nat (i - p + 1)) s).

(** Three times the double nearest to 0.1. *)
Definition three_tenths : list Binary64.float :=
  [Binary64.dec 1 1; Binary64.dec 1 1; Binary64.dec 1 1].

(** The series moves at step [i]: [s[i-1]] and [s[i]] differ. *)
Definition moves (s : list Q) (i : Z) : bool :=
  match get s (i - 1), get s i with
  | Some a, Some b => negb (Qeq_bool a b)
  | _, _ => false
  end.

(** The first [period + 1] values of the series are not all equal.  When
    they are, both seed averages of RSI are 0 and its first quotient is
    0/0. *)
Definition first_window_moves (s : list Q) (period : Z) : bool :=
  existsb (moves s) (zseq 1 (Z.to_nat period)).

(** A finite number that is not negative. *)
Definition nonneg (x : num) : Prop :=
  exists q, x = Fin q /\ (0 <= q)%Q.

(** The value pushed by an iteration of the second loop of [RSI]. *)
Definition rsi_value (st : rsi_state) : num :=
  (of_Z 100 - (of_Z 100 / (of_Z 1 + avgGain st / avgLoss st)))%num.

(** The gain and the loss computed from the prices at [i-1] and [i]. *)
Definition gain_at (data : list num) (i : Z) : num :=
  let difference := (at_ data i - at_ data (i - 1))%num in
  if (difference >? Fin 0)%num then difference else Fin 0.

Definition loss_at (data : list num) (i : Z) : num :=
  let difference := (at_ data i - at_ data (i - 1))%num in
  if (difference <? Fin 0)%num then abs difference else Fin 0.

(** The averages are finite and not negative, and not both zero. *)
Definition good (st : rsi_state) : Prop :=
  exists g l, avgGain st = Fin g /\ avgLoss st = Fin l
              /\ (0 <= g)%Q /\ (0 <= l)%Q /\ (0 < g + l)%Q.

(** A finite number between 0 and 100. *)
Definition percent (x : num) : Prop :=
  exists q, x = Fin q /\ (0 <= q <= 100)%Q.

(** Sixteen equal prices and two rises: a series that is not constant, with
    a flat first window. *)
Definition flat_then_rising : list num :=
  map of_Z [1; 1; 1; 1; 1; 1; 1; 1; 1; 1; 1; 1; 1; 1; 1; 1; 2; 3].

(** Seventeen prices that rise, fall once and rise again. *)
Definition rsi_sample : list Q :=
  map inject_Z [10; 11; 12; 13; 14; 15; 16; 17; 18; 19; 20; 21; 22; 23; 24; 23; 25].

(** The accumulators are finite and not negative. *)
Definition score_ok (s : ForexAI.score) : Prop :=
  exists b r t,
    ForexAI.bullishSignals s = Fin b /\ ForexAI.bearishSignals s = Fin r
    /\ ForexAI.signalStrength s = Fin t
    /\ (0 <= b)%Q /\ (0 <= r)%Q /\ (0 <= t)%Q.

(** An environment with the default settings, a store that answers, a
    constant random source and the identity for [Math.sqrt]. *)
Definition sample_env : Env :=
  mkEnv (fun x => x) (fun _ => dec 5 1) 1700000000000 19675
        (fun _ => false) (fun n => Some (Z.of_nat n)) (dec 75 2)
        true false true.

(** No candlestick pattern. *)
Definition no_patterns : patterns :=
  mkPatterns false false false false false false.

(** RSI 25 (oversold, bullish 2) with the price above the upper band
    (bearish 1): the confidence computed is [2/3 * 0.8]. *)
Definition oversold_at_upper_band : analysis_input :=
  mkInput
    (mkIndicators [] [] [] [] (mkMacd [] [] []) [of_Z 25]
       (mkBands [of_Z 1] [of_Z 1] [of_Z 1]) (mkStoch [] []) [] [])
    no_patterns
    (mkLevels [] [] (of_Z 2))
    (mkTrend sideways (of_Z 0) false false)
    (mkVolume (of_Z 0) (of_Z 0) NaN false)
    (of_Z 2).

(** The world once a query has been issued and has failed, or has only
    read. *)
Definition after_query (w : world) : world := set_queries (S (queries w)) w.

(** Three EURUSD candles in the store. *)
Definition three_rows : list market_row :=
  [ mkMarketRow "EURUSD" "5m" 1000 (dec 10850 4) (dec 10860 4) (dec 10840 4)
      (dec 10855 4) (Some 0);
    mkMarketRow "EURUSD" "5m" 1300 (dec 10855 4) (dec 10870 4) (dec 10850 4)
      (dec 10865 4) (Some 0);
    mkMarketRow "EURUSD" "5m" 1600 (dec 10865 4) (dec 10880 4) (dec 10860 4)
      (dec 10870 4) None ].

(** The process at its start, over the given tables. *)
Definition fresh_world (rows : list market_row) (users : list account_row) : world :=
  mkWorld rows [] [] users 0 0 0 (mkStats 0 0 0 0) (fun _ => None) [] [].

(** No two rows of the table share (symbol, timeframe, timestamp): what
    [UNIQUE KEY unique_candle] enforces. *)
Fixpoint unique_candle (t : list market_row) : bool :=
  match t with
  | [] => true
  | r :: rest => negb (existsb (same_key r) rest) && unique_candle rest
  end.

(** The row that replaces [r] when a row [new] with its key is written. *)
Definition overwrite (new r : market_row) : market_row :=
  mkMarketRow (md_symbol r) (md_timeframe r) (md_timestamp r)
              (open_price new) (high_price new) (low_price new)
              (close_price new) (md_volume r).

(** What the write of [new] makes of the row [r]. *)
Definition touch (new r : market_row) : market_row :=
  if same_key new r then overwrite new r else r.

(** The row [saveCandleToDB] sends to the store. *)
Definition row_of_candle (c : candle_data) : market_row :=
  mkMarketRow (cd_symbol c) "5m" (cd_timestamp c) (cd_open c) (cd_high c)
              (cd_low c) (cd_close c) (Some 0).

(** A candle event for EURUSD at timestamp 1600, prices in 1/10000. *)
Definition eurusd_candle (o h l c : Z) : candle_data :=
  mkCandleData "EURUSD" 1600 (dec o 4) (dec h 4) (dec l 4) (dec c 4).

(** The effects of handling input [i] in state [c]. *)
Definition added_by (c : DerivAPI.client) (i : DerivAPI.input) : list DerivAPI.effect :=
  skipn (List.length (DerivAPI.effects c)) (DerivAPI.effects (DerivAPI.step c i)).

(** The feed disconnects and five reconnection attempts fail in turn. *)
Definition five_failures : list DerivAPI.input :=
  DerivAPI.ws_close
    :: List.concat (repeat (DerivAPI.failed_attempt 5000 "ECONNREFUSED") 5).

(** A computation whose final state is always related by [R] to its
    initial state. *)
Definition keeps (R : world -> world -> Prop) {A : Type} (c : M A) : Prop :=
  forall w, R w (snd (c w)).

(** The symbols for which an analysis was started, in order: the
    [logger.ai] line at the head of [analyzeWithAI]. *)
Fixpoint analysed (l : list log_entry) : list string :=
  match l with
  | [] => []
  | log_analysing s :: r => s :: analysed r
  | _ :: r => analysed r
  end.

(** The analyses that a counter shared by all symbols triggers: the event
    that brings the counter to a multiple of 5 has its symbol analysed. *)
Fixpoint sampled (count : Z) (events : list candle_data) : list string :=
  match events with
  | [] => []
  | e :: r =>
      (if Z.rem (count + 1) 5 =? 0 then [cd_symbol e] else [])
      ++ sampled (count + 1) r
  end.


(** The analyses a schedule starts: a handler has its symbol analysed when,
    at the moment its save settles, the number of candle events counted so
    far is a multiple of 5.  [waiting] lists the handlers that wait. *)
Fixpoint sampled_at_settle (count : Z) (waiting : list candle_data)
  (steps : list DerivIntegration.candle_step) : list string :=
  match steps with
  | [] => []
  | DerivIntegration.arrives c :: r => sampled_at_settle (count + 1) (waiting ++ [c]) r
  | DerivIntegration.settles k :: r =>
      match nth_error waiting k with
      | Some c =>
          (if Z.rem count 5 =? 0 then [cd_symbol c] else [])
          ++ sampled_at_settle count (DerivIntegration.remove_nth k waiting) r
      | None => sampled_at_settle count waiting r
      end
  end.

(** The candle events of a schedule. *)
Fixpoint arrivals (steps : list DerivIntegration.candle_step) : list candle_data :=
  match steps with
  | [] => []
  | DerivIntegration.arrives c :: r => c :: arrivals r
  | DerivIntegration.settles _ :: r => arrivals r
  end.


(** The candles arrive together, as [candles.forEach] emits those of one
    ['candles'] message, and their saves settle afterwards, in order. *)
Definition together (events : list candle_data)
  : list DerivIntegration.candle_step :=
  map DerivIntegration.arrives events
  ++ map (fun _ => DerivIntegration.settles 0) events.

(** Neither the two counters nor the list of analyses change. *)
Definition same_sampling (w w' : world) : Prop :=
  candlesReceived (stats w') = candlesReceived (stats w)
  /\ aiAnalysisCount (stats w') = aiAnalysisCount (stats w)
  /\ analysed (logged w') = analysed (logged w).

(** A candle event of [symbol] at [ts]. *)
Definition candle_of (symbol : string) (ts : Z) : candle_data :=
  mkCandleData symbol ts (dec 10850 4) (dec 10860 4) (dec 10840 4) (dec 10855 4).

(** Five candle events of one symbol. *)
Definition five_eurusd : list candle_data :=
  map (candle_of "EURUSD") [300; 600; 900; 1200; 1500].


(** The trades of one user. *)
Definition trades_of (uid : Z) (t : list trade_row) : list trade_row :=
  filter (fun r => t_user_id r =? uid) t.

(** The trades of [uid] are the same. *)
Definition same_trades_of (uid : Z) (w w' : world) : Prop :=
  trades_of uid (trades w') = trades_of uid (trades w).

(** The state after the iteration of [executeAutoTrade] that skips [user]:
    the two log lines and the count query, nothing else. *)
Definition skipped (symbol : string) (user : account_row) (w : world) : world :=
  let w1 := set_logged (push (logged w) (log_auto_trade (u_id user) symbol)) w in
  let w2 := set_queries (S (queries w1)) w1 in
  set_logged (push (logged w2) (log_daily_limit (u_id user))) w2.

(** The log only grows. *)
Definition log_grows (w w' : world) : Prop :=
  exists l, logged w' = logged w ++ l.

(** Two subscribers on the demo broker: user 1 with a cap of 1 and one
    trade today, user 2 with a cap of 5 and none. *)
Definition capped_user : account_row :=
  mkAccount 1 "active" "basic" true true (of_Z 10) 1 "deriv".

Definition eligible_user : account_row :=
  mkAccount 2 "active" "premium" true true (of_Z 25) 5 "deriv".

Definition earlier_trade : trade_row :=
  mkTradeRow 1 (AUTO 1699999000000 (dec 1 1)) "EURUSD" buy (dec 10850 4)
             (of_Z 10) None None true (dec 9 1) 19675.

Definition cap_world : world :=
  mkWorld [] [] [earlier_trade] [capped_user; eligible_user] 0 0 0
          (mkStats 0 0 0 0)
          (fun s => if String.eqb s "EURUSD"
                    then Some (mkPrice (dec 10855 4) (dec 10854 4) (dec 10856 4)
                                       (dec 2 4))
                    else None)
          [] [].

(** The default settings over a store that answers every query but the
    second one, which throws. *)
Definition second_query_fails : Env :=
  mkEnv (fun x => x) (fun _ => dec 5 1) 1700000000000 19675
        (fun n => Nat.eqb n 1) (fun n => Some (Z.of_nat n)) (dec 75 2)
        true false true.

(** A decision to buy with confidence 0.9. *)
Definition buy_signal : analysis :=
  Decided
    (mkDecision buy (dec 9 1) (of_Z 3) (of_Z 0) [RsiOversold; PriceAtLowerBand]
       (mkSummary (of_Z 25) true uptrend false) risk_low
       (Some (dec 10800 4)) (Some (dec 10950 4))).

(** A finite number between [lo] and [hi]. *)
Definition within (lo hi : Q) (x : num) : Prop :=
  exists q, x = Fin q /\ (lo <= q <= hi)%Q.

(** The smoothing factor of [EMA]: [2 / (period + 1)]. *)
Definition multiplier (period : Z) : num := (of_Z 2 / (of_Z period + of_Z 1))%num.

(** A candle whose high, low and close are finite numbers with the close
    between the low and the high. *)
Definition ohlc_ok (c : candle) : Prop :=
  exists h l x : Q,
    high c = Fin h /\ low c = Fin l /\ close c = Fin x /\ (l <= x <= h)%Q.

(** A candle whose high, low and close are finite numbers. *)
Definition ohlc_fin (c : candle) : Prop :=
  is_fin (high c) /\ is_fin (low c) /\ is_fin (close c).

(** The value [Stochastic] pushes for the window that ends at [i]. *)
Definition stochastic_at (highs lows closes : list num) (kPeriod i : Z) : num :=
  (((at_ closes i - min_list (slice lows (i - kPeriod + 1) (i + 1)))
    / (max_list (slice highs (i - kPeriod + 1) (i + 1))
       - min_list (slice lows (i - kPeriod + 1) (i + 1))))
   * of_Z 100)%num.

(** The value [WilliamsR] pushes for the window that ends at [i]. *)
Definition williams_at (highs lows closes : list num) (period i : Z) : num :=
  (((max_list (slice highs (i - period + 1) (i + 1)) - at_ closes i)
    / (max_list (slice highs (i - period + 1) (i + 1))
       - min_list (slice lows (i - period + 1) (i + 1))))
   * of_Z (-100))%num.

(** The true range [ATR] computes at [i]. *)
Definition true_range (highs lows closes : list num) (i : Z) : num :=
  max3 (at_ highs i - at_ lows i)%num
       (abs (at_ highs i - at_ closes (i - 1))%num)
       (abs (at_ lows i - at_ closes (i - 1))%num).

(** Four candles with prices in 1/100, the third one flat. *)
Definition four_candles : list candle :=
  [ mkCandle 300 (dec 100 2) (dec 104 2) (dec 99 2) (dec 103 2) (of_Z 10);
    mkCandle 600 (dec 103 2) (dec 105 2) (dec 101 2) (dec 102 2) (of_Z 12);
    mkCandle 900 (dec 102 2) (dec 102 2) (dec 102 2) (dec 102 2) (of_Z 0);
    mkCandle 1200 (dec 102 2) (dec 106 2) (dec 100 2) (dec 105 2) (of_Z 30) ].

(** The standard deviation [BollingerBands] computes for the window that
    starts at [i]. *)
Definition standardDeviation (sqrt : num -> num) (data : list num) (period i : Z)
  : num :=
  sqrt (reduce (fun sum val =>
                  (sum + (val - at_ (SMA data period) i)
                         * (val - at_ (SMA data period) i))%num)
               (Fin 0) (slice data i (i + period))
        / of_Z period)%num.

(** RSI 25 with the price between the bands and an ATR of 0.001: two
    bullish votes against none, at the default threshold a buy. *)
Definition oversold_input : analysis_input :=
  mkInput
    (mkIndicators [] [] [] [] (mkMacd [] [] []) [of_Z 25]
       (mkBands [of_Z 3] [of_Z 2] [of_Z 1]) (mkStoch [] []) [dec 1 3] [])
    no_patterns
    (mkLevels [] [] (of_Z 2))
    (mkTrend sideways (of_Z 0) false false)
    (mkVolume (of_Z 0) (of_Z 0) NaN false)
    (of_Z 2).

(** A candle without volume: 0, or NaN which [d.volume || 0] turns into 0. *)
Definition no_volume (c : candle) : Prop := volume c = Fin 0 \/ volume c = NaN.

(** A stored candle without volume: 0, as [saveCandleToDB] writes it, or
    NULL. *)
Definition zero_volume_row (r : market_row) : Prop :=
  md_volume r = Some 0 \/ md_volume r = None.

(** Neither the candles nor anything of the trade cycle change. *)
Definition untouched (w w' : world) : Prop :=
  market_data w' = market_data w
  /\ trades w' = trades w
  /\ orders w' = orders w
  /\ tradesExecuted (stats w') = tradesExecuted (stats w).

(** The default settings with the demo mode off and a broker token set,
    over a store that rejects every query. *)
Definition live_env_store_down : Env :=
  mkEnv (fun x => x) (fun _ => dec 5 1) 1700000000000 19675
        (fun _ => true) (fun n => Some (Z.of_nat n)) (dec 75 2)
        false true true.

(** The row [executeTrade] writes for the cached price [entry]. *)
Definition is_trade_row (env : Env) (user : account_row) (symbol : string)
  (a : analysis) (entry : price_entry) (row : trade_row) : Prop :=
  t_user_id row = u_id user
  /\ t_symbol row = symbol
  /\ t_type row = analysis_action a
  /\ t_entry_price row = price entry
  /\ t_amount row = entry_amount user
  /\ t_ai_confidence row = analysis_confidence a
  /\ created_on row = CURDATE env.

(** What a run of the trade cycle for [symbol] and analysis [a] may do to
    the trades: append rows of this symbol and action, each counted in
    [tradesExecuted]. *)
Definition traded (symbol : string) (a : analysis) (w w' : world) : Prop :=
  exists rows,
    trades w' = trades w ++ rows
    /\ tradesExecuted (stats w') = tradesExecuted (stats w) + len rows
    /\ Forall (fun r => t_symbol r = symbol /\ t_type r = analysis_action a) rows.

(** The candles are the same. *)
Definition same_candles (w w' : world) : Prop := market_data w' = market_data w.

(** Timestamps in ascending order (equal neighbours allowed). *)
Fixpoint ascending (l : list Z) : bool :=
  match l with
  | a :: (b :: _) as rest => (a <=? b) && ascending rest
  | _ => true
  end.

(** Timestamps in descending order. *)
Fixpoint descending (l : list Z) : bool :=
  match l with
  | a :: (b :: _) as rest => (b <=? a) && descending rest
  | _ => true
  end.

(** No string occurs twice. *)
Fixpoint distinct (l : list string) : bool :=
  match l with
  | [] => true
  | x :: r => negb (existsb (String.eqb x) r) && distinct r
  end.

(** The property names every object inherits from [Object.prototype].
    Looking one of them up in [forexSymbols] or [reverseSymbols] yields a
    function and not [undefined]; [DerivAPI.property] models own properties
    only, so the handlers are modelled for the other keys. *)
Definition Object_prototype : list string :=
  [ "constructor"; "hasOwnProperty"; "isPrototypeOf"; "propertyIsEnumerable";
    "toLocaleString"; "toString"; "valueOf"; "__proto__"; "__defineGetter__";
    "__defineSetter__"; "__lookupGetter__"; "__lookupSetter__" ]%string.

Definition plain_key (k : string) : bool :=
  negb (existsb (String.eqb k) Object_prototype).

(** The symbols a message names are no inherited property names. *)
Definition plain_message (m : DerivAPI.message) : bool :=
  match DerivAPI.m_tick m with
  | Some t => plain_key (DerivAPI.tick_symbol t)
  | None => true
  end
  && match DerivAPI.m_ticks_history m with
     | Some d => plain_key d
     | None => true
     end.

(** The requests settled (resolved or rejected) and the requests written
    to the socket, in order. *)
Fixpoint settled (l : list DerivAPI.feed_output) : list Z :=
  match l with
  | [] => []
  | DerivAPI.resolve id _ :: r => id :: settled r
  | DerivAPI.reject id _ :: r => id :: settled r
  | _ :: r => settled r
  end.

Fixpoint sent (l : list DerivAPI.feed_output) : list Z :=
  match l with
  | [] => []
  | DerivAPI.ws_send id :: r => id :: sent r
  | _ :: r => sent r
  end.

(** A tick of EURUSD as the broker sends it, without bid and ask. *)
Definition eurusd_tick : DerivAPI.message :=
  DerivAPI.mkMessage (Some 1) "tick" None
    (Some (DerivAPI.mkTickMessage "frxEURUSD" (dec 10855 4) 1700000000 None None))
    None None None.

(** A history of two EURUSD candles. *)
Definition eurusd_history : DerivAPI.message :=
  DerivAPI.mkMessage None "candles" None None
    (Some [ DerivAPI.mkCandleMessage 1700000000 (dec 10850 4) (dec 10860 4)
              (dec 10840 4) (dec 10855 4);
            DerivAPI.mkCandleMessage 1700000060 (dec 10855 4) (dec 10870 4)
              (dec 10850 4) (dec 10865 4) ])
    None (Some "frxEURUSD"%string).

(** What a run keeps true of the requests and of what has been done: the
    next identifier is positive; the pending identifiers are distinct, were sent and lie below the next
    identifier; a settled request is no longer pending and was sent; no
    request is settled or sent twice. *)
Definition requests_ok (st : DerivAPI.requests * list DerivAPI.feed_output) : Prop :=
  let (r, done) := st in
  1 <= DerivAPI.requestId r
  /\ NoDup (DerivAPI.pendingRequests r)
  /\ (forall id, In id (DerivAPI.pendingRequests r) -> In id (sent done))
  /\ (forall id, In id (sent done) -> 1 <= id < DerivAPI.requestId r)
  /\ NoDup (sent done)
  /\ (forall id, In id (settled done) ->
        ~ In id (DerivAPI.pendingRequests r) /\ In id (sent done))
  /\ NoDup (settled done).

(** The row [DerivAPI.saveCandle] sends to the store. *)
Definition minute_row_of_candle (c : candle_data) : market_row :=
  mkMarketRow (cd_symbol c) "1m" (cd_timestamp c) (cd_open c) (cd_high c)
              (cd_low c) (cd_close c) (Some 0).

(** What any run keeps true of the client the constructor builds. *)
Definition client_ok (c : DerivAPI.client) : Prop :=
  0 <= DerivAPI.reconnectAttempts c <= 5
  /\ DerivAPI.maxReconnectAttempts c = 5
  /\ DerivAPI.reconnectDelay c = 5000
  /\ (DerivAPI.isConnected c = true -> DerivAPI.reconnectAttempts c = 0)
  /\ Forall (fun d => d = 5000) (DerivAPI.reconnections (DerivAPI.effects c)).

(** A candle with finite prices whose open and close lie between its low
    and its high. *)
Definition well_formed (c : candle) : Prop :=
  exists o h l x : Q,
    open c = Fin o /\ high c = Fin h /\ low c = Fin l /\ close c = Fin x
    /\ (l <= o <= h)%Q /\ (l <= x <= h)%Q.

(** Thirty candles that rise by 1/100 each. *)
Definition thirty_candles : list candle :=
  map (fun i => mkCandle (i * 300000) (dec (100 + i) 2) (dec (102 + i) 2)
                         (dec (99 + i) 2) (dec (101 + i) 2) (of_Z 0))
      (zseq 0 30).

(* ===================================================================== *)
(** ** Arrays and loops: basic facts *)
(* ===================================================================== *)

Section ArrayFacts.

Context {A : Type}.

Lemma len_nonneg (l : list A) : 0 <= len l.
Proof. unfold len. lia. Qed.

Lemma len_app (l1 l2 : list A) : len (l1 ++ l2) = len l1 + len l2.
Proof. unfold len. rewrite length_app. lia. Qed.

Lemma len_push (l : list A) (x : A) : len (push l x) = len l + 1.
Proof. unfold push. rewrite len_app. reflexivity. Qed.

Lemma slice_inside (l : list A) (a b : Z) :
  0 <= a <= b -> b <= len l ->
  slice l a b = firstn (Z.to_nat (b - a)) (skipn (Z.to_nat a) l).
Proof.
  intros Ha Hb. unfold slice, clamp_index.
  destruct (Z.ltb_spec a 0); [lia|].
  destruct (Z.ltb_spec b 0); [lia|].
  rewrite !Z.min_l by lia. reflexivity.
Qed.

Lemma slice_prefix (l : list A) (b : Z) :
  0 <= b -> slice l 0 b = firstn (Z.to_nat b) l.
Proof.
  intros Hb. pose proof (len_nonneg l) as Hl. unfold slice, clamp_index.
  change (0 <? 0) with false. cbv iota.
  destruct (Z.ltb_spec b 0); [lia|].
  replace (Z.min 0 (len l)) with 0 by lia.
  rewrite Z.sub_0_r. change (skipn (Z.to_nat 0) l) with l.
  destruct (Z.le_ge_cases b (len l)).
  - rewrite Z.min_l by lia. reflexivity.
  - rewrite Z.min_r by lia. unfold len in *.
    rewrite !firstn_all2; auto; lia.
Qed.

Lemma get_in_range (l : list A) (i : Z) :
  0 <= i < len l -> exists x, get l i = Some x.
Proof.
  intros H. unfold get. destruct (Z.ltb_spec i 0); [lia|].
  destruct (nth_error l (Z.to_nat i)) eqn:E; eauto.
  apply nth_error_None in E. unfold len in H. lia.
Qed.

Lemma get_app_r (l1 l2 : list A) (i : Z) :
  len l1 <= i -> get (l1 ++ l2) i = get l2 (i - len l1).
Proof.
  intros H. pose proof (len_nonneg l1). unfold get.
  destruct (Z.ltb_spec i 0); [lia|].
  destruct (Z.ltb_spec (i - len l1) 0); [lia|].
  rewrite nth_error_app2 by (unfold len in *; lia).
  f_equal. unfold len. lia.
Qed.

End ArrayFacts.

Lemma zseq_length (i : Z) (n : nat) : List.length (zseq i n) = n.
Proof. revert i. induction n; simpl; intros; auto. Qed.

Lemma zseq_get (n : nat) : forall (i j : Z),
  0 <= j < Z.of_nat n -> get (zseq i n) j = Some (i + j).
Proof.
  induction n; intros i j Hj; [lia|].
  destruct (Z.eq_dec j 0) as [->|Hne].
  - simpl. unfold get. simpl. f_equal. lia.
  - change (zseq i (S n)) with ([i] ++ zseq (i + 1) n).
    rewrite get_app_r by (cbn; lia).
    change (len [i]) with 1.
    rewrite IHn by lia. f_equal. lia.
Qed.

Lemma for_loop_push_map {A : Type} (f : Z -> A) (n : nat) :
  forall (i : Z) (acc : list A),
    for_loop n i (fun i acc => push acc (f i)) acc = acc ++ map f (zseq i n).
Proof.
  induction n; intros i acc; simpl.
  - now rewrite app_nil_r.
  - rewrite IHn. unfold push. rewrite <- app_assoc. reflexivity.
Qed.

Lemma get_map {A B : Type} (f : A -> B) (l : list A) (i : Z) :
  get (map f l) i = option_map f (get l i).
Proof.
  unfold get. destruct (i <? 0); [reflexivity|]. apply nth_error_map.
Qed.

(* ===================================================================== *)
(** ** Numbers: basic facts *)
(* ===================================================================== *)

Lemma sum_from_fin (qs : list Q) : forall a : Q,
  exists b, fold_left add (map Fin qs) (Fin a) = Fin b /\ (b == a + Qsum qs)%Q.
Proof.
  induction qs as [|q qs IH]; intros a; simpl.
  - exists a. split; [reflexivity|]. unfold Qsum; simpl. ring.
  - destruct (IH (a + q)%Q) as [b [E Hb]]. exists b. split; [exact E|].
    rewrite Hb. unfold Qsum. simpl. ring.
Qed.

Lemma sum_fin (qs : list Q) :
  exists b, sum (map Fin qs) = Fin b /\ (b == Qsum qs)%Q.
Proof.
  destruct (sum_from_fin qs 0) as [b [E Hb]]. exists b. split; [exact E|].
  rewrite Hb. ring.
Qed.

Lemma div_fin_pos (a : Q) (p : Z) :
  0 < p -> (Fin a / of_Z p)%num = Fin (a / inject_Z p).
Proof.
  intros Hp. unfold div, of_Z.
  destruct (Qcompare_spec (inject_Z p) 0) as [E|L|G]; try reflexivity.
  exfalso. unfold Qeq in E. simpl in E. lia.
Qed.

(* ===================================================================== *)
(** ** SMA *)
(* ===================================================================== *)

Lemma SMA_unfold (data : list num) (period : Z) :
  SMA data period =
  map (fun i => (sum (slice data (i - period + 1) (i + 1)) / of_Z period)%num)
      (zseq (period - 1) (Z.to_nat (len data - (period - 1)))).
Proof.
  unfold SMA, for_range. rewrite for_loop_push_map. reflexivity.
Qed.

Lemma SMA_length (data : list num) (period : Z) :
  len (SMA data period) = Z.max 0 (len data - period + 1).
Proof.
  rewrite SMA_unfold. unfold len. rewrite length_map, zseq_length. lia.
Qed.

(** In exact arithmetic the values of [SMA] are the arithmetic means: for a
    series [s] and a period [p] with [1 <= p <= len s], [SMA(s, p)] over
    [num] has [len s - p + 1] values, and the value for the window that ends
    at index [i] is the arithmetic mean of the [p] values [s[i-p+1 .. i]]. *)
Theorem SMA_length_and_mean (s : list num) (p : Z) :
  1 <= p <= len s ->
  len (SMA s p) = len s - p + 1
  /\ forall (i : Z) (qs : list Q),
       p - 1 <= i < len s ->
       trailing_window s i p = map Fin qs ->
       (at_ (SMA s p) (i - (p - 1)) == Fin (arithmetic_mean qs))%num.
Proof.
  intros Hp. split.
  - rewrite SMA_length. lia.
  - intros i qs Hi Hw.
    assert (Hlen : len qs = p).
    { apply (f_equal (@len num)) in Hw. unfold trailing_window in Hw.
      unfold len in *. rewrite length_map in Hw.
      rewrite length_firstn, length_skipn in Hw. lia. }
    unfold at_. rewrite SMA_unfold, get_map.
    rewrite zseq_get by lia. simpl.
    replace (p - 1 + (i - (p - 1))) with i by lia.
    rewrite slice_inside by lia.
    replace (i + 1 - (i - p + 1)) with p by lia.
    unfold trailing_window in Hw. rewrite Hw.
    destruct (sum_fin qs) as [b [E Hb]]. rewrite E.
    rewrite div_fin_pos by lia. simpl.
    unfold arithmetic_mean. rewrite Hlen, Hb. reflexivity.
Qed.

(** The series [1, 2, 3, 6] with period 2, and its window ending at index 1. *)
Lemma SMA_length_and_mean_witness :
  len (SMA [Fin 1; Fin 2; Fin 3; Fin 6] 2) = 4 - 2 + 1
  /\ (at_ (SMA [Fin 1; Fin 2; Fin 3; Fin 6] 2) (1 - (2 - 1))
      == Fin (arithmetic_mean [1; 2]%Q))%num.
Proof.
  destruct (SMA_length_and_mean [Fin 1; Fin 2; Fin 3; Fin 6] 2) as [L V].
  - vm_compute. split; discriminate.
  - split; [exact L|]. apply V; [|reflexivity].
    vm_compute. split; [discriminate | reflexivity].
Defined.

Lemma Binary64_SMA_unfold (data : list Binary64.float) (period : Z) :
  Binary64.SMA data period =
  map (fun i => PrimFloat.div
                  (Binary64.sum (slice data (i - period + 1) (i + 1)))
                  (Binary64.of_Z period))
      (zseq (period - 1) (Z.to_nat (len data - (period - 1)))).
Proof.
  unfold Binary64.SMA, for_range. rewrite for_loop_push_map. reflexivity.
Qed.

(** C6 (as amended). On doubles, for a series [s] and a period [p] with
    [1 <= p <= len s], [SMA(s, p)] has [len s - p + 1] values, and the value
    for the window that ends at index [i] is the sum of the [p] values
    [s[i-p+1 .. i]], added to 0 one after the other from the left, divided
    by [p], each of these operations rounded to the nearest double: the
    arithmetic mean up to that rounding. *)
Theorem SMA_length_and_rounded_mean (s : list Binary64.float) (p : Z) :
  1 <= p <= len s ->
  len (Binary64.SMA s p) = len s - p + 1
  /\ forall i : Z,
       p - 1 <= i < len s ->
       get (Binary64.SMA s p) (i - (p - 1))
       = Some (PrimFloat.div
                 (fold_left PrimFloat.add (trailing_window s i p) (Binary64.of_Z 0))
                 (Binary64.of_Z p)).
Proof.
  intros Hp. rewrite Binary64_SMA_unfold. split.
  - unfold len. rewrite length_map, zseq_length. unfold len in Hp. lia.
  - intros i Hi. rewrite get_map, zseq_get by lia. cbn [option_map].
    replace (p - 1 + (i - (p - 1))) with i by lia.
    rewrite slice_inside by lia.
    replace (i + 1 - (i - p + 1)) with p by lia.
    reflexivity.
Qed.

(** Three times 0.1 with period 3, and its only window. *)
Lemma SMA_length_and_rounded_mean_witness :
  1 <= 3 <= len three_tenths
  /\ len (Binary64.SMA three_tenths 3) = len three_tenths - 3 + 1
  /\ get (Binary64.SMA three_tenths 3) (2 - (3 - 1))
     = Some (PrimFloat.div
               (fold_left PrimFloat.add (trailing_window three_tenths 2 3)
                  (Binary64.of_Z 0))
               (Binary64.of_Z 3)).
Proof.
  assert (H : 1 <= 3 <= len three_tenths) by (vm_compute; split; discriminate).
  split; [exact H|].
  destruct (SMA_length_and_rounded_mean three_tenths 3 H) as [L V].
  split; [exact L|]. apply V. vm_compute. split; [discriminate | reflexivity].
Defined.

(** The mean of three equal numbers is that number, and the double nearest
    to 0.1 is [3602879701896397 / 2^55].  [SMA([0.1, 0.1, 0.1], 3)] is the
    next double, [0.10000000000000002]: the second addition rounds up and
    the division does not make up for it. *)
Lemma SMA_exact_mean_counterexample :
  exists (qs : list Q) (v : Q),
    1 <= 3 <= len three_tenths
    /\ map Binary64.value (trailing_window three_tenths 2 3) = map Fin qs
    /\ option_map Binary64.value (get (Binary64.SMA three_tenths 3) (2 - (3 - 1)))
       = Some (Fin v)
    /\ (arithmetic_mean qs == 3602879701896397 # 36028797018963968)%Q
    /\ (v == 7205759403792795 # 72057594037927936)%Q
    /\ ~ (v == arithmetic_mean qs)%Q.
Proof.
  exists (repeat (7205759403792794 # 72057594037927936)%Q 3).
  exists (7205759403792795 # 72057594037927936)%Q.
  split; [vm_compute; split; discriminate|].
  split; [vm_compute; reflexivity|].
  split; [vm_compute; reflexivity|].
  split; [vm_compute; reflexivity|].
  split; [vm_compute; reflexivity|].
  vm_compute. discriminate.
Qed.

(* ===================================================================== *)
(** ** RSI *)
(* ===================================================================== *)

Lemma for_loop_S_end {S : Type} (body : Z -> S -> S) (n : nat) :
  forall (i : Z) (s : S),
    for_loop (Datatypes.S n) i body s
    = body (i + Z.of_nat n) (for_loop n i body s).
Proof.
  induction n; intros i s.
  - simpl. now rewrite Z.add_0_r.
  - change (for_loop (Datatypes.S (Datatypes.S n)) i body s)
      with (for_loop (Datatypes.S n) (i + 1) body (body i s)).
    rewrite IHn. simpl for_loop. f_equal. lia.
Qed.

Lemma for_loop_pair_push {A B : Type} (f : Z -> A) (g : Z -> B) (n : nat) :
  forall (i : Z) (xs : list A) (ys : list B),
    for_loop n i (fun i '(xs, ys) => (push xs (f i), push ys (g i))) (xs, ys)
    = (xs ++ map f (zseq i n), ys ++ map g (zseq i n)).
Proof.
  induction n; intros i xs ys; simpl.
  - now rewrite !app_nil_r.
  - rewrite IHn. unfold push. now rewrite <- !app_assoc.
Qed.

Lemma rsi_gains_losses_unfold (data : list num) :
  rsi_gains_losses data
  = (map (gain_at data) (zseq 1 (Z.to_nat (len data - 1))),
     map (loss_at data) (zseq 1 (Z.to_nat (len data - 1)))).
Proof.
  unfold rsi_gains_losses, for_range.
  exact (for_loop_pair_push (gain_at data) (loss_at data) _ 1 [] []).
Qed.

Lemma at_map_Fin (s : list Q) (i : Z) (a : Q) :
  get s i = Some a -> at_ (map Fin s) i = Fin a.
Proof. intros H. unfold at_. rewrite get_map, H. reflexivity. Qed.

Lemma gain_loss_fin (s : list Q) (i : Z) (a b : Q) :
  get s (i - 1) = Some a -> get s i = Some b ->
  exists g l,
    gain_at (map Fin s) i = Fin g /\ loss_at (map Fin s) i = Fin l
    /\ (0 <= g)%Q /\ (0 <= l)%Q
    /\ (~ (a == b)%Q -> (0 < g + l)%Q)
    /\ ((a <= b)%Q -> (l == 0)%Q).
Proof.
  intros Ha Hb. unfold gain_at, loss_at.
  rewrite (at_map_Fin s i b Hb), (at_map_Fin s (i - 1) a Ha).
  unfold sub, neg, add, gtb, ltb, abs.
  destruct (Qcompare_spec 0 (b + - a)) as [E|L|G];
    destruct (Qcompare_spec (b + - a) 0) as [E'|L'|G']; try (exfalso; lra).
  - exists 0%Q, 0%Q. repeat split; lra.
  - exists (b + - a)%Q, 0%Q. repeat split; lra.
  - exists 0%Q, (Qabs (b + - a)).
    repeat split; try apply Qabs_nonneg; try lra.
    + intros _.
      assert (HA : (Qabs (b + - a) == - (b + - a))%Q) by (apply Qabs_neg; lra).
      revert HA. generalize (Qabs (b + - a)). intros z HA. lra.
Qed.

Lemma Qsum_nonneg (qs : list Q) :
  Forall (fun q => 0 <= q)%Q qs -> (0 <= Qsum qs)%Q.
Proof.
  induction 1; unfold Qsum in *; simpl; lra.
Qed.

Lemma Qsum_ge_elem (qs : list Q) :
  Forall (fun q => 0 <= q)%Q qs ->
  forall (j : nat) (q : Q), nth_error qs j = Some q -> (q <= Qsum qs)%Q.
Proof.
  induction 1 as [|x l Hx Hl IH]; intros j q Hj.
  - destruct j; discriminate.
  - destruct j; simpl in Hj.
    + injection Hj as <-. pose proof (Qsum_nonneg l Hl).
      unfold Qsum in *; simpl; lra.
    + specialize (IH j q Hj). unfold Qsum in *; simpl; lra.
Qed.

(** A list of non-negative finite numbers is the image of rationals. *)
Lemma nonneg_list (l : list num) :
  Forall nonneg l ->
  exists qs, l = map Fin qs /\ Forall (fun q => 0 <= q)%Q qs.
Proof.
  induction 1 as [|x l [q [-> Hq]] Hl [qs [-> Hqs]]].
  - exists []. auto.
  - exists (q :: qs). auto.
Qed.

Lemma sum_nonneg (l : list num) :
  Forall nonneg l ->
  exists b, sum l = Fin b /\ (0 <= b)%Q
            /\ forall (j : nat) (q : Q),
                 nth_error l j = Some (Fin q) -> (q <= b)%Q.
Proof.
  intros H. destruct (nonneg_list l H) as [qs [-> Hqs]].
  destruct (sum_fin qs) as [b [E Hb]]. exists b. split; [exact E|]. split.
  - rewrite Hb. now apply Qsum_nonneg.
  - intros j q Hj. rewrite nth_error_map in Hj.
    destruct (nth_error qs j) as [q'|] eqn:Eq; [|discriminate].
    injection Hj as ->. rewrite Hb. eapply Qsum_ge_elem; eauto.
Qed.

Lemma In_zseq (n : nat) : forall (i x : Z),
  In x (zseq i n) -> i <= x < i + Z.of_nat n.
Proof.
  induction n; intros i x H; simpl in H; [contradiction|].
  destruct H as [<-|H]; [lia|]. apply IHn in H. lia.
Qed.

Lemma get_nth_error {A : Type} (l : list A) (i : Z) :
  0 <= i -> get l i = nth_error l (Z.to_nat i).
Proof. intros H. unfold get. destruct (Z.ltb_spec i 0); [lia|reflexivity]. Qed.

Lemma Forall_prefix {A : Type} (P : A -> Prop) (n : nat) (l : list A) :
  Forall P l -> Forall P (firstn n l).
Proof.
  intros H. revert n. induction H; intros [|n]; simpl; auto.
Qed.

Lemma rsi_value_fin (g l : Q) :
  (0 <= g)%Q -> (0 <= l)%Q -> (0 < g + l)%Q ->
  exists q,
    (of_Z 100 - (of_Z 100 / (of_Z 1 + Fin g / Fin l)))%num = Fin q
    /\ (0 <= q <= 100)%Q /\ ((l == 0)%Q -> (q == 100)%Q).
Proof.
  intros Hg Hl Hgl. unfold of_Z, inject_Z. unfold div at 2.
  destruct (Qcompare_spec l 0) as [E|L|G]; [| exfalso; lra |].
  - unfold signed_inf.
    destruct (Qcompare_spec g 0) as [E'|L'|G']; try (exfalso; lra).
    cbn [add div sub neg].
    eexists. split; [reflexivity|]. split; [lra | intros _; lra].
  - assert (Hrs : (0 <= g / l)%Q) by (apply Qle_shift_div_l; lra).
    revert Hrs. generalize (g / l)%Q. intros rs Hrs.
    cbn [add]. unfold div.
    destruct (Qcompare_spec (1 + rs) 0) as [E'|L'|G']; try (exfalso; lra).
    assert (H1 : (0 <= 100 / (1 + rs))%Q)
      by (apply Qle_shift_div_l; lra).
    assert (H2 : (100 / (1 + rs) <= 100)%Q)
      by (apply Qle_shift_div_r; lra).
    revert H1 H2. generalize (100 / (1 + rs))%Q. intros z H1 H2.
    cbn [sub neg add].
    eexists. split; [reflexivity|]. split; [lra | intros E0; exfalso; lra].
Qed.

Lemma rsi_value_percent (st : rsi_state) :
  good st ->
  percent (rsi_value st)
  /\ ((avgLoss st == Fin 0)%num -> (rsi_value st == Fin 100)%num).
Proof.
  intros [g [l [Eg [El [Hg [Hl Hgl]]]]]]. unfold rsi_value, percent.
  rewrite Eg, El.
  destruct (rsi_value_fin g l Hg Hl Hgl) as [q [E [Hq H100]]].
  rewrite E. split.
  - exists q. auto.
  - simpl. exact H100.
Qed.

Section RSI_invariant.

Variable s : list Q.
Variable period : Z.
Hypothesis period_ge_2 : 2 <= period.
Hypothesis long_enough : period + 1 <= len s.
Hypothesis not_flat : first_window_moves s period = true.

Let data := map Fin s.
Let gains := map (gain_at data) (zseq 1 (Z.to_nat (len data - 1))).
Let losses := map (loss_at data) (zseq 1 (Z.to_nat (len data - 1))).

Lemma len_data : len data = len s.
Proof. unfold data, len. now rewrite length_map. Qed.

Lemma len_gains : len gains = len s - 1 /\ len losses = len s - 1.
Proof.
  pose proof len_data as D. unfold gains, losses.
  unfold len in *. rewrite !length_map, !zseq_length. lia.
Qed.

Lemma prices_at (i : Z) :
  1 <= i < len s ->
  exists a b, get s (i - 1) = Some a /\ get s i = Some b.
Proof.
  intros H.
  destruct (get_in_range s (i - 1)) as [a Ha]; [lia|].
  destruct (get_in_range s i) as [b Hb]; [lia|]. eauto.
Qed.

Lemma gains_losses_nonneg : Forall nonneg gains /\ Forall nonneg losses.
Proof.
  split; apply Forall_map, Forall_forall; intros i Hi;
    apply In_zseq in Hi; rewrite len_data in Hi;
    (destruct (prices_at i) as [a [b [Ha Hb]]]; [lia|]);
    destruct (gain_loss_fin s i a b Ha Hb) as [g [l [Eg [El [Hg [Hl _]]]]]].
  - exists g. auto.
  - exists l. auto.
Qed.

Lemma gains_losses_at (j : Z) :
  0 <= j < len s - 1 ->
  get gains j = Some (gain_at data (1 + j))
  /\ get losses j = Some (loss_at data (1 + j)).
Proof.
  intros H. unfold gains, losses. rewrite !get_map, zseq_get.
  - auto.
  - rewrite len_data. lia.
Qed.

Lemma rsi_init_good : good (rsi_init gains losses period).
Proof.
  destruct gains_losses_nonneg as [HG HL].
  destruct len_gains as [LG LL].
  unfold rsi_init, good. cbn [avgGain avgLoss].
  rewrite !slice_prefix by lia.
  destruct (sum_nonneg (firstn (Z.to_nat period) gains)) as [bg [Eg [Hg Bg]]];
    [now apply Forall_prefix|].
  destruct (sum_nonneg (firstn (Z.to_nat period) losses)) as [bl [El [Hl Bl]]];
    [now apply Forall_prefix|].
  rewrite Eg, El, !div_fin_pos by lia.
  assert (Hp : (0 < inject_Z period)%Q).
  { unfold Qlt. simpl. lia. }
  exists (bg / inject_Z period)%Q, (bl / inject_Z period)%Q.
  split; [reflexivity|]. split; [reflexivity|].
  assert (Hpos : (0 < bg + bl)%Q).
  { unfold first_window_moves in not_flat. apply existsb_exists in not_flat.
    destruct not_flat as [i [Hi Hm]]. apply In_zseq in Hi.
    unfold moves in Hm.
    destruct (get s (i - 1)) as [a|] eqn:Ha; [|discriminate].
    destruct (get s i) as [b|] eqn:Hb; [|discriminate].
    destruct (gain_loss_fin s i a b Ha Hb) as [g [l [Egi [Eli [_ [_ [Hgl _]]]]]]].
    assert (Hne : ~ (a == b)%Q).
    { intros E. apply Qeq_bool_iff in E. rewrite E in Hm. discriminate. }
    specialize (Hgl Hne).
    destruct (gains_losses_at (i - 1)) as [Gi Li]; [lia|].
    replace (1 + (i - 1)) with i in Gi, Li by lia.
    fold data in Egi, Eli. rewrite Egi in Gi. rewrite Eli in Li.
    rewrite get_nth_error in Gi, Li by lia.
    assert (Hg' : (g <= bg)%Q).
    { apply (Bg (Z.to_nat (i - 1))). rewrite nth_error_firstn.
      destruct (Nat.ltb_spec (Z.to_nat (i - 1)) (Z.to_nat period)); [exact Gi|lia]. }
    assert (Hl' : (l <= bl)%Q).
    { apply (Bl (Z.to_nat (i - 1))). rewrite nth_error_firstn.
      destruct (Nat.ltb_spec (Z.to_nat (i - 1)) (Z.to_nat period)); [exact Li|lia]. }
    lra. }
  split; [apply Qle_shift_div_l; lra|].
  split; [apply Qle_shift_div_l; lra|].
  setoid_replace (bg / inject_Z period + bl / inject_Z period)%Q
    with ((bg + bl) / inject_Z period)%Q by (field; lra).
  apply Qlt_shift_div_l; lra.
Qed.

Lemma rsi_step_good (i : Z) (st : rsi_state) :
  period <= i < len s - 1 -> good st -> good (rsi_step gains losses period i st).
Proof.
  intros Hi [g [l [Eg [El [Hg [Hl Hgl]]]]]].
  destruct gains_losses_nonneg as [HG HL].
  destruct (gains_losses_at i) as [Gi Li]; [lia|].
  assert (NG : nonneg (gain_at data (1 + i))).
  { rewrite get_nth_error in Gi by lia. apply nth_error_In in Gi.
    rewrite Forall_forall in HG. now apply HG. }
  assert (NL : nonneg (loss_at data (1 + i))).
  { rewrite get_nth_error in Li by lia. apply nth_error_In in Li.
    rewrite Forall_forall in HL. now apply HL. }
  destruct NG as [gi [EGi HGi]]. destruct NL as [li [ELi HLi]].
  unfold good, rsi_step. cbn [avgGain avgLoss].
  unfold at_. rewrite Gi, Li, EGi, ELi, Eg, El.
  unfold of_Z at 1 3. cbn [mul add].
  rewrite !div_fin_pos by lia.
  assert (Hp : (0 < inject_Z period)%Q) by (unfold Qlt; simpl; lia).
  assert (Hp1 : (1 <= inject_Z (period - 1))%Q) by (unfold Qle; simpl; lia).
  do 2 eexists. split; [reflexivity|]. split; [reflexivity|].
  split; [apply Qle_shift_div_l; nra|].
  split; [apply Qle_shift_div_l; nra|].
  setoid_replace ((g * inject_Z (period - 1) + gi) / inject_Z period
                  + (l * inject_Z (period - 1) + li) / inject_Z period)%Q
    with (((g + l) * inject_Z (period - 1) + (gi + li)) / inject_Z period)%Q
    by (field; lra).
  apply Qlt_shift_div_l; nra.
Qed.

(** The state after [n] iterations, for [n] within the loop bounds. *)
Lemma rsi_loop_good (n : nat) :
  period + Z.of_nat n <= len s - 1 ->
  let st := for_loop n period (rsi_step gains losses period)
              (rsi_init gains losses period) in
  good st
  /\ rsi_out st
     = map (fun k => rsi_value
                       (for_loop k period (rsi_step gains losses period)
                          (rsi_init gains losses period)))
           (seq 0 n).
Proof.
  induction n; intros Hn.
  - simpl. split; [apply rsi_init_good | reflexivity].
  - destruct IHn as [IHg IHo]; [lia|].
    cbv zeta. rewrite for_loop_S_end. split.
    + apply rsi_step_good; [lia | exact IHg].
    + rewrite seq_S, map_app. cbn [map Nat.add].
      cbv zeta in IHo. rewrite <- IHo. reflexivity.
Qed.

Lemma RSI_unfold :
  RSI data period
  = map (fun k => rsi_value (rsi_after data period k))
        (seq 0 (Z.to_nat (len s - 1 - period))).
Proof.
  destruct len_gains as [LG _].
  unfold RSI, rsi_after. rewrite rsi_gains_losses_unfold.
  fold gains losses. unfold for_range. rewrite LG.
  destruct (rsi_loop_good (Z.to_nat (len s - 1 - period))) as [_ E]; [lia|].
  exact E.
Qed.

Lemma rsi_after_good (n : nat) :
  period + Z.of_nat n <= len s - 1 -> good (rsi_after data period n).
Proof.
  intros H. unfold rsi_after. rewrite rsi_gains_losses_unfold.
  fold gains losses. now apply rsi_loop_good.
Qed.

End RSI_invariant.

Lemma RSI_percent_general (s : list Q) (period : Z) :
  2 <= period -> period + 1 <= len s -> first_window_moves s period = true ->
  len (RSI (map Fin s) period) = len s - 1 - period
  /\ (forall x, In x (RSI (map Fin s) period) -> percent x)
  /\ (forall n : nat,
        Z.of_nat n < len (RSI (map Fin s) period) ->
        (avgLoss (rsi_after (map Fin s) period n) == Fin 0)%num ->
        (at_ (RSI (map Fin s) period) (Z.of_nat n) == Fin 100)%num).
Proof.
  intros Hp Hl Hnd. rewrite (RSI_unfold s period Hp Hl Hnd).
  assert (L : len (map (fun k => rsi_value (rsi_after (map Fin s) period k))
                       (seq 0 (Z.to_nat (len s - 1 - period))))
              = len s - 1 - period).
  { unfold len in *. rewrite length_map, length_seq. lia. }
  split; [exact L|]. rewrite L. split.
  - intros x Hx. apply in_map_iff in Hx. destruct Hx as [k [<- Hk]].
    apply in_seq in Hk.
    apply rsi_value_percent, (rsi_after_good s period Hp Hl Hnd). lia.
  - intros n Hn H0. unfold at_. rewrite get_nth_error by lia.
    rewrite Nat2Z.id, nth_error_map, nth_error_seq.
    destruct (Nat.ltb_spec n (Z.to_nat (len s - 1 - period))); [|lia].
    cbn [option_map Nat.add].
    apply rsi_value_percent; [|exact H0].
    apply (rsi_after_good s period Hp Hl Hnd). lia.
Qed.

(** Away from a flat first window [RSI] stays in range: for a finite price
    series of at least 15 values whose first 15 values are not all equal,
    [RSI(s, 14)] has [len s - 15] values, each a finite number in [0, 100],
    and the value of an iteration whose average loss is 0 is 100. *)
Theorem RSI_in_range (s : list Q) :
  14 + 1 <= len s ->
  first_window_moves s 14 = true ->
  len (RSI (map Fin s) 14) = len s - 15
  /\ (forall x, In x (RSI (map Fin s) 14) ->
        exists q, x = Fin q /\ (0 <= q <= 100)%Q)
  /\ (forall n : nat,
        Z.of_nat n < len (RSI (map Fin s) 14) ->
        (avgLoss (rsi_after (map Fin s) 14 n) == Fin 0)%num ->
        (at_ (RSI (map Fin s) 14) (Z.of_nat n) == Fin 100)%num).
Proof.
  intros Hl Hnd.
  destruct (RSI_percent_general s 14) as [L [P H]]; [lia | lia | exact Hnd |].
  split; [lia|]. split; [exact P | exact H].
Qed.

Lemma RSI_in_range_witness :
  len (RSI (map Fin rsi_sample) 14) = len rsi_sample - 15
  /\ (forall x, In x (RSI (map Fin rsi_sample) 14) ->
        exists q, x = Fin q /\ (0 <= q <= 100)%Q)
  /\ (forall n : nat,
        Z.of_nat n < len (RSI (map Fin rsi_sample) 14) ->
        (avgLoss (rsi_after (map Fin rsi_sample) 14 n) == Fin 0)%num ->
        (at_ (RSI (map Fin rsi_sample) 14) (Z.of_nat n) == Fin 100)%num).
Proof.
  apply (RSI_in_range rsi_sample).
  - vm_compute. discriminate.
  - vm_compute. reflexivity.
Defined.

Example RSI_sample_values :
  RSI (map Fin rsi_sample) 14 = [Fin 100; Fin (3567200 # 38416)].
Proof. vm_compute. reflexivity. Qed.

(** C5. [RSI] does not guard the division [avgGain / avgLoss].  On the
    eighteen prices 1 (sixteen times), 2, 3, a series that is not constant
    and has more than [period + 1 = 15] values, [RSI(series, 14)] is
    [[NaN, NaN, 100]]: in the first two windows the average gain and the
    average loss are both 0, the quotient is [0 / 0], and the value is NaN
    where the claim has a number in [0, 100], and 100 for an average loss
    of 0.  In the third window the average loss is still 0, the average
    gain is not, the quotient is [Infinity] and the value is 100. *)
Theorem RSI_flat_window_is_NaN :
  15 <= len flat_then_rising
  /\ RSI flat_then_rising 14 = [NaN; NaN; Fin 100]
  /\ (avgGain (rsi_after flat_then_rising 14 0) == Fin 0)%num
  /\ (avgLoss (rsi_after flat_then_rising 14 0) == Fin 0)%num
  /\ (avgGain (rsi_after flat_then_rising 14 1) == Fin 0)%num
  /\ (avgLoss (rsi_after flat_then_rising 14 1) == Fin 0)%num
  /\ (avgLoss (rsi_after flat_then_rising 14 2) == Fin 0)%num
  /\ (Fin 0 <? avgGain (rsi_after flat_then_rising 14 2))%num = true.
Proof.
  split; [vm_compute; discriminate|].
  repeat split; vm_compute; reflexivity.
Qed.

(* ===================================================================== *)
(** ** The decision engine: confidence and threshold *)
(* ===================================================================== *)

Lemma round_dec_3 (c : Q) :
  round_dec 3 c = (inject_Z (Qfloor (c * 1000 + (1 # 2))) / 1000)%Q.
Proof. reflexivity. Qed.

(** Rounding to three decimals moves a value by at most 0.0005. *)
Lemma round_dec_3_close (c : Q) :
  (c - (1 # 2000) < round_dec 3 c <= c + (1 # 2000))%Q.
Proof.
  rewrite round_dec_3.
  pose proof (Qfloor_le (c * 1000 + (1 # 2))) as Hlo.
  pose proof (Qlt_floor (c * 1000 + (1 # 2))) as Hhi.
  rewrite inject_Z_plus in Hhi.
  revert Hlo Hhi. generalize (inject_Z (Qfloor (c * 1000 + (1 # 2)))).
  intros F Hlo Hhi. change (inject_Z 1) with 1%Q in Hhi.
  split.
  - apply Qlt_shift_div_l; lra.
  - apply Qle_shift_div_r; lra.
Qed.

(** Rounding to three decimals keeps a value inside [0, 0.95]. *)
Lemma round_dec_3_range (c : Q) :
  (0 <= c <= 95 # 100)%Q -> (0 <= round_dec 3 c <= 95 # 100)%Q.
Proof.
  intros [H0 H1]. rewrite round_dec_3.
  assert (Hlo : (0 <= Qfloor (c * 1000 + (1 # 2)))%Z).
  { change 0%Z with (Qfloor 0). apply Qfloor_resp_le. lra. }
  assert (Hhi : (Qfloor (c * 1000 + (1 # 2)) <= 950)%Z).
  { change 950%Z with (Qfloor (1901 # 2)). apply Qfloor_resp_le. lra. }
  rewrite Zle_Qle in Hlo, Hhi.
  revert Hlo Hhi. generalize (inject_Z (Qfloor (c * 1000 + (1 # 2)))).
  intros F Hlo Hhi. change (inject_Z 0) with 0%Q in Hlo.
  change (inject_Z 950) with 950%Q in Hhi.
  split.
  - apply Qle_shift_div_l; lra.
  - apply Qle_shift_div_r; lra.
Qed.

Section DecisionFacts.

Variable env : Env.

Lemma bullish_ok (w : Q) (r : reason) (s : ForexAI.score) :
  (0 <= w)%Q -> score_ok s -> score_ok (ForexAI.bullish (Fin w) r s).
Proof.
  intros Hw (b & r' & t & Eb & Er & Et & Hb & Hr & Ht).
  exists (b + w)%Q, r', t. unfold ForexAI.bullish. cbn.
  rewrite Eb. repeat split; auto. lra.
Qed.

Lemma bearish_ok (w : Q) (r : reason) (s : ForexAI.score) :
  (0 <= w)%Q -> score_ok s -> score_ok (ForexAI.bearish (Fin w) r s).
Proof.
  intros Hw (b & r' & t & Eb & Er & Et & Hb & Hr & Ht).
  exists b, (r' + w)%Q, t. unfold ForexAI.bearish. cbn.
  rewrite Er. repeat split; auto. lra.
Qed.

Lemma stronger_ok (w : Q) (r : reason) (s : ForexAI.score) :
  (0 <= w)%Q -> score_ok s -> score_ok (ForexAI.stronger (Fin w) r s).
Proof.
  intros Hw (b & r' & t & Eb & Er & Et & Hb & Hr & Ht).
  exists b, r', (t + w)%Q. unfold ForexAI.stronger. cbn.
  rewrite Et. repeat split; auto. lra.
Qed.

Ltac vote :=
  repeat match goal with
         | |- score_ok (if ?c then _ else _) => destruct c
         | |- score_ok (ForexAI.bullish _ _ _) => apply bullish_ok; [discriminate|]
         | |- score_ok (ForexAI.bearish _ _ _) => apply bearish_ok; [discriminate|]
         | |- score_ok (ForexAI.stronger _ _ _) => apply stronger_ok; [discriminate|]
         end; try assumption.

Lemma votes_ok (a : analysis_input) : score_ok (ForexAI.votes a).
Proof.
  unfold ForexAI.votes.
  assert (H0 : score_ok (ForexAI.mkScore (Fin 0) (Fin 0) (Fin 0) [])).
  { exists 0%Q, 0%Q, 0%Q. cbn. repeat split; lra. }
  assert (H1 : score_ok (ForexAI.score_rsi a (ForexAI.mkScore (Fin 0) (Fin 0) (Fin 0) []))).
  { unfold ForexAI.score_rsi. cbv zeta. vote. }
  revert H1. generalize (ForexAI.score_rsi a (ForexAI.mkScore (Fin 0) (Fin 0) (Fin 0) [])).
  intros s1 H1.
  assert (H2 : score_ok (ForexAI.score_macd a s1)).
  { unfold ForexAI.score_macd. cbv zeta. vote. }
  revert H2. generalize (ForexAI.score_macd a s1). intros s2 H2.
  assert (H3 : score_ok (ForexAI.score_bollinger a s2)).
  { unfold ForexAI.score_bollinger. cbv zeta. vote. }
  revert H3. generalize (ForexAI.score_bollinger a s2). intros s3 H3.
  assert (H4 : score_ok (ForexAI.score_trend a s3)).
  { unfold ForexAI.score_trend. cbv zeta. vote. }
  revert H4. generalize (ForexAI.score_trend a s3). intros s4 H4.
  assert (H5 : score_ok (ForexAI.score_patterns a s4)).
  { unfold ForexAI.score_patterns. cbv zeta. vote. }
  revert H5. generalize (ForexAI.score_patterns a s4). intros s5 H5.
  assert (H6 : score_ok (ForexAI.score_levels a s5)).
  { unfold ForexAI.score_levels. cbv zeta. vote. }
  revert H6. generalize (ForexAI.score_levels a s5). intros s6 H6.
  unfold ForexAI.score_volume. vote.
Qed.

(** The confidence before the cap is finite and not negative. *)
Lemma raw_confidence_nonneg (s : ForexAI.score) :
  score_ok s -> exists c, snd (ForexAI.raw_decision s) = Fin c /\ (0 <= c)%Q.
Proof.
  intros (b & r & t & Eb & Er & Et & Hb & Hr & Ht).
  unfold ForexAI.raw_decision. rewrite Eb, Er, Et.
  assert (Hratio : forall x : Q,
             (0 <= x)%Q -> (0 < b + r)%Q ->
             exists c, (Fin x / (Fin b + Fin r) * dec 8 1 + Fin t)%num = Fin c
                       /\ (0 <= c)%Q).
  { intros x Hx Hbr. cbn [add]. unfold div.
    destruct (Qcompare_spec (b + r) 0) as [E|L|G]; try (exfalso; lra).
    assert (Hq : (0 <= x / (b + r))%Q) by (apply Qle_shift_div_l; lra).
    revert Hq. generalize (x / (b + r))%Q. intros z Hz.
    change (dec 8 1) with (Fin (8 # 10)). cbn [mul add].
    eexists. split; [reflexivity|]. lra. }
  cbn [add]. unfold gtb, ltb.
  destruct (Qcompare_spec 0 (b + r)) as [E|L|G];
    try (exists 0%Q; split; [reflexivity | lra]).
  destruct (Qcompare_spec r b) as [E1|L1|G1].
  - destruct (Qcompare_spec b r) as [E2|L2|G2]; try (exfalso; lra).
    exists 0%Q. split; [reflexivity | lra].
  - cbn [snd]. apply Hratio; lra.
  - destruct (Qcompare_spec b r) as [E2|L2|G2]; try (exfalso; lra).
    cbn [snd]. apply Hratio; lra.
Qed.

(** The confidence after the cap lies in [0, 0.95]. *)
Lemma capped_confidence_range (s : ForexAI.score) :
  score_ok s ->
  exists c, ForexAI.capped_confidence s = Fin c /\ (0 <= c <= 95 # 100)%Q.
Proof.
  intros H. destruct (raw_confidence_nonneg s H) as [c [E Hc]].
  unfold ForexAI.capped_confidence. rewrite E.
  change (dec 95 2) with (Fin (95 # 100)). unfold min2, ltb.
  destruct (Qcompare_spec (95 # 100) c) as [E1|L1|G1].
  - exists c. split; [reflexivity | lra].
  - exists (95 # 100)%Q. split; [reflexivity | lra].
  - exists c. split; [reflexivity | lra].
Qed.

(** [makeDecision] returns unless the RSI array is empty, and what it
    returns is built from the capped confidence. *)
Lemma makeDecision_returns (a : analysis_input) :
  rsi (in_indicators a) <> [] -> exists d, ForexAI.makeDecision env a = inr d.
Proof.
  intros H. unfold ForexAI.makeDecision. cbv zeta.
  destruct (get_in_range (rsi (in_indicators a)) (len (rsi (in_indicators a)) - 1))
    as [x Hx].
  - destruct (rsi (in_indicators a)); [contradiction|].
    unfold len. cbn [List.length]. lia.
  - rewrite Hx. eauto.
Qed.

Lemma makeDecision_fields (a : analysis_input) (d : decision) :
  ForexAI.makeDecision env a = inr d ->
  d_action d = ForexAI.final_action env (ForexAI.votes a)
  /\ d_confidence d = toFixed 3 (ForexAI.capped_confidence (ForexAI.votes a)).
Proof.
  unfold ForexAI.makeDecision. cbv zeta.
  destruct (get (rsi (in_indicators a)) (len (rsi (in_indicators a)) - 1));
    [|discriminate].
  intros E. injection E as <-. cbn. auto.
Qed.

End DecisionFacts.

(** C2. Whatever its input, the confidence of a decision returned by
    [makeDecision] is a finite number in [0, 0.95]. *)
Theorem makeDecision_confidence_bounds (env : Env) (a : analysis_input) (d : decision) :
  ForexAI.makeDecision env a = inr d ->
  exists q, d_confidence d = Fin q /\ (0 <= q <= 95 # 100)%Q.
Proof.
  intros H. apply makeDecision_fields in H. destruct H as [_ ->].
  destruct (capped_confidence_range _ (votes_ok a)) as [c [-> Hc]].
  exists (round_dec 3 c). split; [reflexivity|]. now apply round_dec_3_range.
Qed.

Lemma makeDecision_confidence_bounds_witness :
  exists d, ForexAI.makeDecision sample_env oversold_at_upper_band = inr d
            /\ exists q, d_confidence d = Fin q /\ (0 <= q <= 95 # 100)%Q.
Proof.
  eexists. split.
  - vm_compute. reflexivity.
  - eapply (makeDecision_confidence_bounds sample_env oversold_at_upper_band).
    vm_compute. reflexivity.
Defined.

(** C3 (as amended). When the confidence computed by [makeDecision] (after
    the cap) is strictly below the configured threshold, the returned action
    is [hold] whatever the signal totals say, and the returned confidence is
    the computed value rounded to three decimals
    ([parseFloat(confidence.toFixed(3))]): within 0.0005 of the computed
    value, not the computed value itself. *)
Theorem forced_hold_keeps_rounded_confidence
  (env : Env) (a : analysis_input) (d : decision) :
  ForexAI.makeDecision env a = inr d ->
  (ForexAI.capped_confidence (ForexAI.votes a) <? confidence_threshold env)%num = true ->
  d_action d = hold
  /\ exists c q,
       ForexAI.capped_confidence (ForexAI.votes a) = Fin c
       /\ d_confidence d = Fin q
       /\ q = round_dec 3 c
       /\ (c - (1 # 2000) < q <= c + (1 # 2000))%Q.
Proof.
  intros H Hlt. apply makeDecision_fields in H. destruct H as [Ha Hc].
  split.
  - rewrite Ha. unfold ForexAI.final_action, ForexAI.this_confidence_threshold.
    now rewrite Hlt.
  - destruct (capped_confidence_range _ (votes_ok a)) as [c [E _]].
    exists c, (round_dec 3 c). rewrite Hc, E.
    repeat split; try apply round_dec_3_close.
Qed.

Lemma forced_hold_keeps_rounded_confidence_witness :
  exists d,
    ForexAI.makeDecision sample_env oversold_at_upper_band = inr d
    /\ d_action d = hold
    /\ exists c q,
         ForexAI.capped_confidence (ForexAI.votes oversold_at_upper_band) = Fin c
         /\ d_confidence d = Fin q
         /\ q = round_dec 3 c
         /\ (c - (1 # 2000) < q <= c + (1 # 2000))%Q.
Proof.
  eexists. split.
  - vm_compute. reflexivity.
  - eapply (forced_hold_keeps_rounded_confidence sample_env oversold_at_upper_band).
    + vm_compute. reflexivity.
    + vm_compute. reflexivity.
Defined.

(** With RSI 25 and the price above the upper band the signals say buy
    (2 against 1) and the computed confidence is [2/3 * 0.8 = 0.5333...],
    below the threshold 0.75.  The decision returned is a hold whose
    confidence is 0.533: not the computed value. *)
Lemma forced_hold_confidence_counterexample :
  fst (ForexAI.raw_decision (ForexAI.votes oversold_at_upper_band)) = buy
  /\ (ForexAI.capped_confidence (ForexAI.votes oversold_at_upper_band)
      == Fin (8 # 15))%num
  /\ (ForexAI.capped_confidence (ForexAI.votes oversold_at_upper_band)
      <? confidence_threshold sample_env)%num = true
  /\ exists d,
       ForexAI.makeDecision sample_env oversold_at_upper_band = inr d
       /\ d_action d = hold
       /\ (d_confidence d == Fin (533 # 1000))%num
       /\ ~ (d_confidence d
             == ForexAI.capped_confidence (ForexAI.votes oversold_at_upper_band))%num.
Proof.
  split; [vm_compute; reflexivity|].
  split; [vm_compute; reflexivity|].
  split; [vm_compute; reflexivity|].
  eexists. split; [vm_compute; reflexivity|].
  split; [reflexivity|].
  split; [vm_compute; reflexivity|].
  vm_compute. discriminate.
Qed.

(* ===================================================================== *)
(** ** Market data and the analysis driver *)
(* ===================================================================== *)

Lemma for_loop_invariant {S : Type} (P : nat -> S -> Prop)
  (body : Z -> S -> S) (i : Z) (s : S) (n : nat) :
  P O s ->
  (forall (k : nat) (st : S),
      (k < n)%nat -> P k st -> P (Datatypes.S k) (body (i + Z.of_nat k) st)) ->
  P n (for_loop n i body s).
Proof.
  intros H0 Hstep. induction n.
  - exact H0.
  - rewrite for_loop_S_end. apply Hstep; [lia|].
    apply IHn. intros k st Hk. apply Hstep. lia.
Qed.

(** The second loop of [RSI] pushes one value per iteration, whatever the
    numbers are. *)
Lemma RSI_length (data : list num) (period : Z) :
  len (RSI data period) = Z.max 0 (Z.max 0 (len data - 1) - period).
Proof.
  unfold RSI. rewrite rsi_gains_losses_unfold. unfold for_range.
  set (gains := map (gain_at data) _). set (losses := map (loss_at data) _).
  assert (LG : len gains = Z.max 0 (len data - 1)).
  { unfold gains, len. rewrite length_map, zseq_length. lia. }
  rewrite LG.
  set (n := Z.to_nat (Z.max 0 (len data - 1) - period)).
  assert (H : len (rsi_out (for_loop n period (rsi_step gains losses period)
                              (rsi_init gains losses period))) = Z.of_nat n).
  { apply (for_loop_invariant (fun k st => len (rsi_out st) = Z.of_nat k)).
    - reflexivity.
    - intros k st _ Hk. unfold rsi_step. cbn [rsi_out].
      rewrite len_push, Hk. lia. }
  rewrite H. unfold n. lia.
Qed.

Section MarketData.

Variable env : Env.

Lemma generateSimulatedData_length (symbol : string) (limit : Z) (w : world) :
  0 <= limit ->
  len (fst (ForexAI.generateSimulatedData env symbol limit w)) = limit.
Proof.
  intros Hl. unfold ForexAI.generateSimulatedData, bind, for_rangeM, for_range.
  rewrite Z.sub_0_r.
  set (body := fun (i : Z) '(s, w0) => _).
  assert (H : forall n : nat,
             len (fst (fst (for_loop n 0 body ([], dec 10850 4, w)))) = Z.of_nat n).
  { intros n.
    apply (for_loop_invariant (fun k st => len (fst (fst st)) = Z.of_nat k)).
    - reflexivity.
    - intros k [[data currentPrice] w0] _ Hk. cbn [fst] in Hk.
      unfold body, bind, random, ret. cbn [fst].
      rewrite len_push, Hk. lia. }
  specialize (H (Z.to_nat limit)).
  destruct (for_loop (Z.to_nat limit) 0 body ([], dec 10850 4, w))
    as [[data currentPrice] w'].
  cbn [fst] in *. unfold ret. cbn [fst]. lia.
Qed.

(** When the query throws or returns no row, [getMarketData] hands out
    what [generateSimulatedData] makes. *)
Lemma getMarketData_simulated (symbol timeframe : string) (limit : Z) (w : world) :
  query_fails env (queries w) = true
  \/ select_market_data symbol timeframe limit (market_data w) = [] ->
  ForexAI.getMarketData env symbol timeframe limit w
  = ForexAI.generateSimulatedData env symbol limit (after_query w).
Proof.
  intros H. unfold ForexAI.getMarketData, bind, database_query, gets.
  fold (after_query w).
  destruct (query_fails env (queries w)) eqn:F; [reflexivity|].
  destruct H as [H|H]; [discriminate|].
  change (market_data (after_query w)) with (market_data w). rewrite H.
  reflexivity.
Qed.

(** When the query returns rows, [getMarketData] returns them oldest
    first. *)
Lemma getMarketData_rows (symbol timeframe : string) (limit : Z) (w : world) :
  query_fails env (queries w) = false ->
  select_market_data symbol timeframe limit (market_data w) <> [] ->
  ForexAI.getMarketData env symbol timeframe limit w
  = (rev (map ForexAI.candle_of_row
            (select_market_data symbol timeframe limit (market_data w))),
     after_query w).
Proof.
  intros F H. unfold ForexAI.getMarketData, bind, database_query, gets.
  fold (after_query w). rewrite F.
  change (market_data (after_query w)) with (market_data w).
  destruct (select_market_data symbol timeframe limit (market_data w)) eqn:E;
    [contradiction|].
  reflexivity.
Qed.

(** With at least 50 candles the [try] block of [analyzeMarket] reaches
    its end: nothing in it throws. *)
Lemma analyzeMarket_decides (symbol timeframe : string) (w : world) :
  50 <= len (fst (ForexAI.getMarketData env symbol timeframe 200 w)) ->
  exists d, fst (ForexAI.analyzeMarket env symbol timeframe w) = Decided d.
Proof.
  intros H. unfold ForexAI.analyzeMarket, ForexAI.analyzeMarket_try, bind.
  destruct (ForexAI.getMarketData env symbol timeframe 200 w) as [marketData w1].
  cbn [fst] in H.
  destruct (Z.ltb_spec (len marketData) 50); [lia|].
  destruct (get_in_range marketData (len marketData - 1)) as [latest ->]; [lia|].
  match goal with
  | |- context [ForexAI.makeDecision env ?a] =>
      destruct (makeDecision_returns env a) as [d Hd]
  end.
  - cbn [in_indicators ForexAI.calculateIndicators rsi].
    intros E. apply (f_equal (@len num)) in E.
    rewrite RSI_length in E. unfold len in E at 1.
    rewrite length_map in E. fold (len marketData) in E.
    change (len (@nil num)) with 0 in E. lia.
  - rewrite Hd. unfold ForexAI.logAnalysis, bind, ret.
    destruct (database_query env _ w1). cbn. eauto.
Qed.

End MarketData.

(** C1 (as amended). Whatever the symbol and the timeframe, when
    [getMarketData] hands fewer than 50 candles to [analyzeMarket], it
    computes no indicator and returns the hold of its [catch] block: action
    [hold], confidence 0 and the insufficient-data message as [error];
    nothing else happens to the state.  This is the case exactly when the
    query answers with at least one and fewer than 50 rows: with no row, or
    with a query that throws, simulated candles are analysed instead. *)
Theorem analyzeMarket_insufficient_data
  (env : Env) (symbol timeframe : string) (w : world) :
  len (fst (ForexAI.getMarketData env symbol timeframe 200 w)) < 50 ->
  ForexAI.analyzeMarket env symbol timeframe w
  = (Failed (mkErrorResult hold (Fin 0) "Erro na análise"
               "Dados insuficientes para análise"),
     after_query w)
  /\ query_fails env (queries w) = false
  /\ 0 < len (select_market_data symbol timeframe 200 (market_data w)) < 50.
Proof.
  intros H.
  assert (Hq : query_fails env (queries w) = false
               /\ select_market_data symbol timeframe 200 (market_data w) <> []).
  { destruct (query_fails env (queries w)) eqn:F.
    - rewrite getMarketData_simulated, generateSimulatedData_length in H; auto; lia.
    - split; [reflexivity|]. intros E.
      rewrite getMarketData_simulated, generateSimulatedData_length in H; auto; lia. }
  destruct Hq as [F Hrows].
  pose proof (getMarketData_rows env symbol timeframe 200 w F Hrows) as E.
  rewrite E in H. cbn [fst] in H.
  assert (L : len (rev (map ForexAI.candle_of_row
                          (select_market_data symbol timeframe 200 (market_data w))))
              = len (select_market_data symbol timeframe 200 (market_data w))).
  { unfold len. now rewrite length_rev, length_map. }
  split; [|split; [exact F|]].
  - unfold ForexAI.analyzeMarket, ForexAI.analyzeMarket_try, bind.
    rewrite E.
    destruct (Z.ltb_spec
                (len (rev (map ForexAI.candle_of_row
                             (select_market_data symbol timeframe 200
                                (market_data w))))) 50); [reflexivity | lia].
  - rewrite L in H. split; [|exact H].
    destruct (select_market_data symbol timeframe 200 (market_data w));
      [contradiction|].
    unfold len. cbn [List.length]. lia.
Qed.

Lemma analyzeMarket_insufficient_data_witness :
  ForexAI.analyzeMarket sample_env "EURUSD" "5m" (fresh_world three_rows [])
  = (Failed (mkErrorResult hold (Fin 0) "Erro na análise"
               "Dados insuficientes para análise"),
     after_query (fresh_world three_rows []))
  /\ query_fails sample_env (queries (fresh_world three_rows [])) = false
  /\ 0 < len (select_market_data "EURUSD" "5m" 200
                (market_data (fresh_world three_rows []))) < 50.
Proof.
  apply (analyzeMarket_insufficient_data sample_env "EURUSD" "5m"
           (fresh_world three_rows [])).
  vm_compute. reflexivity.
Defined.

(** A store without any candle: fewer than 50 historical candles are
    available, and [analyzeMarket] does not refuse.  It analyses the 200
    candles that [getMarketData] fabricates and returns a full decision. *)
Lemma analyzeMarket_empty_store_counterexample :
  select_market_data "EURUSD" "5m" 200 (market_data (fresh_world [] [])) = []
  /\ len (fst (ForexAI.getMarketData sample_env "EURUSD" "5m" 200
                 (fresh_world [] []))) = 200
  /\ (exists d, fst (ForexAI.analyzeMarket sample_env "EURUSD" "5m"
                       (fresh_world [] [])) = Decided d)
  /\ fst (ForexAI.analyzeMarket sample_env "EURUSD" "5m" (fresh_world [] []))
     <> Failed (mkErrorResult hold (Fin 0) "Erro na análise"
                  "Dados insuficientes para análise").
Proof.
  assert (L : len (fst (ForexAI.getMarketData sample_env "EURUSD" "5m" 200
                          (fresh_world [] []))) = 200).
  { rewrite getMarketData_simulated by (right; reflexivity).
    apply generateSimulatedData_length. lia. }
  destruct (analyzeMarket_decides sample_env "EURUSD" "5m" (fresh_world [] []))
    as [d Hd]; [lia|].
  split; [reflexivity|]. split; [exact L|]. split; [eauto|].
  rewrite Hd. discriminate.
Qed.



(* ===================================================================== *)
(** ** Candle persistence *)
(* ===================================================================== *)

Lemma has_key_spec (symbol timeframe : string) (ts : Z) (r : market_row) :
  has_key symbol timeframe ts r = true
  <-> md_symbol r = symbol /\ md_timeframe r = timeframe /\ md_timestamp r = ts.
Proof.
  unfold has_key. rewrite !andb_true_iff, !String.eqb_eq, Z.eqb_eq. tauto.
Qed.

Lemma same_key_sym (a b : market_row) : same_key a b = same_key b a.
Proof.
  unfold same_key.
  destruct (has_key (md_symbol a) (md_timeframe a) (md_timestamp a) b) eqn:E1;
    destruct (has_key (md_symbol b) (md_timeframe b) (md_timestamp b) a) eqn:E2;
    try reflexivity.
  - apply has_key_spec in E1. destruct E1 as (H1 & H2 & H3).
    assert (E : has_key (md_symbol b) (md_timeframe b) (md_timestamp b) a = true)
      by (apply has_key_spec; auto).
    congruence.
  - apply has_key_spec in E2. destruct E2 as (H1 & H2 & H3).
    assert (E : has_key (md_symbol a) (md_timeframe a) (md_timestamp a) b = true)
      by (apply has_key_spec; auto).
    congruence.
Qed.

Section Upsert.

Variable new : market_row.

Lemma touch_key (x r : market_row) :
  same_key x ((touch new) r) = same_key x r /\ same_key ((touch new) r) x = same_key r x.
Proof. unfold touch. destruct (same_key new r); auto. Qed.

Lemma upsert_unfold (t : list market_row) :
  upsert_candle new t
  = if existsb (same_key new) t then map (touch new) t else t ++ [new].
Proof. reflexivity. Qed.

Lemma existsb_touch (x : market_row) (t : list market_row) :
  existsb (same_key x) (map (touch new) t) = existsb (same_key x) t.
Proof.
  induction t as [|r t IH]; simpl; [reflexivity|].
  rewrite IH. now destruct (touch_key x r) as [-> _].
Qed.

Lemma existsb_touch_l (r : market_row) (t : list market_row) :
  existsb (same_key ((touch new) r)) t = existsb (same_key r) t.
Proof.
  induction t as [|y t IH]; simpl; [reflexivity|].
  rewrite IH. now destruct (touch_key y r) as [_ ->].
Qed.

Lemma unique_touch (t : list market_row) :
  unique_candle (map (touch new) t) = unique_candle t.
Proof.
  induction t as [|r t IH]; simpl; [reflexivity|].
  now rewrite IH, existsb_touch, existsb_touch_l.
Qed.

Lemma unique_append (t : list market_row) :
  unique_candle t = true -> existsb (same_key new) t = false ->
  unique_candle (t ++ [new]) = true.
Proof.
  induction t as [|r t IH]; simpl; [reflexivity|].
  rewrite !andb_true_iff, !negb_true_iff, orb_false_iff.
  intros [H1 H2] [H3 H4]. split; [|auto].
  rewrite existsb_app, H1. simpl. rewrite same_key_sym, H3. reflexivity.
Qed.

(** The unique key survives the write. *)
Lemma upsert_unique (t : list market_row) :
  unique_candle t = true -> unique_candle (upsert_candle new t) = true.
Proof.
  intros H. rewrite upsert_unfold.
  destruct (existsb (same_key new) t) eqn:E.
  - now rewrite unique_touch.
  - now apply unique_append.
Qed.

Lemma filter_none (t : list market_row) :
  existsb (same_key new) t = false -> filter (same_key new) t = [].
Proof.
  induction t as [|r t IH]; simpl; [reflexivity|].
  rewrite orb_false_iff. intros [-> H]. auto.
Qed.

Lemma filter_touch (t : list market_row) :
  filter (same_key new) (map (touch new) t) = map (overwrite new) (filter (same_key new) t).
Proof.
  induction t as [|r t IH]; simpl; [reflexivity|].
  destruct (touch_key new r) as [-> _]. unfold touch at 1.
  destruct (same_key new r); simpl; now rewrite IH.
Qed.

Lemma same_key_new_refl : same_key new new = true.
Proof. unfold same_key. apply has_key_spec. auto. Qed.

Lemma same_key_trans (a b : market_row) :
  same_key new a = true -> same_key new b = true -> same_key a b = true.
Proof.
  unfold same_key. rewrite !has_key_spec.
  intros (H1 & H2 & H3) (H4 & H5 & H6). repeat split; congruence.
Qed.

(** In a table with the unique key, at most one row has the key of [new]. *)
Lemma filter_unique (t : list market_row) :
  unique_candle t = true ->
  filter (same_key new) t = []
  \/ exists r, filter (same_key new) t = [r].
Proof.
  induction t as [|r t IH]; simpl; [auto|].
  rewrite andb_true_iff, negb_true_iff. intros [H1 H2].
  destruct (same_key new r) eqn:E.
  - right. exists r. f_equal.
    destruct (filter (same_key new) t) as [|y l] eqn:F; [reflexivity|].
    exfalso.
    assert (Hy : In y (filter (same_key new) t)) by (rewrite F; left; reflexivity).
    apply filter_In in Hy. destruct Hy as [Hin Hk].
    assert (Hex : existsb (same_key r) t = true).
    { apply existsb_exists. exists y. split; [exact Hin|].
      now apply same_key_trans. }
    congruence.
  - auto.
Qed.

(** After the write exactly one row has the key of [new]; it holds the
    prices of [new], and the volume the row had before the write when there
    was one. *)
Lemma upsert_row (t : list market_row) :
  unique_candle t = true ->
  exists r,
    filter (same_key new) (upsert_candle new t) = [r]
    /\ open_price r = open_price new /\ high_price r = high_price new
    /\ low_price r = low_price new /\ close_price r = close_price new
    /\ (forall r0, In r0 t -> same_key new r0 = true ->
                   md_volume r = md_volume r0)
    /\ (existsb (same_key new) t = false -> r = new).
Proof.
  intros H. rewrite upsert_unfold.
  destruct (existsb (same_key new) t) eqn:E.
  - rewrite filter_touch.
    destruct (filter_unique t H) as [F|[r0 F]].
    + exfalso. apply existsb_exists in E. destruct E as [x [Hx Hk]].
      assert (Hin : In x (filter (same_key new) t)) by (apply filter_In; auto).
      rewrite F in Hin. contradiction.
    + rewrite F. exists ((overwrite new) r0). cbn.
      repeat split; try reflexivity; [|discriminate].
      intros r1 Hin Hk.
      assert (H1 : In r1 (filter (same_key new) t)) by (apply filter_In; auto).
      rewrite F in H1. destruct H1 as [->|[]]. reflexivity.
  - rewrite filter_app, (filter_none t E). simpl. rewrite same_key_new_refl.
    exists new. repeat split; try reflexivity.
    intros r0 Hin Hk. exfalso.
    assert (Hex : existsb (same_key new) t = true)
      by (apply existsb_exists; eauto).
    congruence.
Qed.

(** The rows with another key are left as they are. *)
Lemma upsert_others (t : list market_row) :
  filter (fun r => negb (same_key new r)) (upsert_candle new t)
  = filter (fun r => negb (same_key new r)) t.
Proof.
  rewrite upsert_unfold. destruct (existsb (same_key new) t).
  - induction t as [|r t IH]; simpl; [reflexivity|].
    destruct (touch_key new r) as [-> _]. unfold touch at 1.
    destruct (same_key new r) eqn:E; simpl; now rewrite IH.
  - rewrite filter_app. simpl. rewrite same_key_new_refl. simpl.
    now rewrite app_nil_r.
Qed.

(** A write for a key that is there adds no row. *)
Lemma upsert_length (t : list market_row) :
  existsb (same_key new) t = true ->
  List.length (upsert_candle new t) = List.length t.
Proof. intros E. rewrite upsert_unfold, E. apply length_map. Qed.

Lemma upsert_exists (t : list market_row) :
  existsb (same_key new) (upsert_candle new t) = true.
Proof.
  rewrite upsert_unfold. destruct (existsb (same_key new) t) eqn:E.
  - now rewrite existsb_touch.
  - rewrite existsb_app. simpl. rewrite same_key_new_refl.
    now rewrite orb_true_r.
Qed.

End Upsert.

Lemma touch_idempotent (new r : market_row) :
  touch new (touch new r) = touch new r.
Proof.
  unfold touch. destruct (same_key new r) eqn:E.
  - assert (E' : same_key new (overwrite new r) = true) by exact E.
    rewrite E'. reflexivity.
  - now rewrite E.
Qed.

Lemma touch_absent (new : market_row) (t : list market_row) :
  existsb (same_key new) t = false -> map (touch new) t = t.
Proof.
  induction t as [|r t IH]; simpl; [reflexivity|].
  rewrite orb_false_iff. intros [E H]. unfold touch at 1. rewrite E.
  now rewrite IH.
Qed.

Lemma touch_self (new : market_row) : touch new new = new.
Proof.
  unfold touch. rewrite same_key_new_refl. now destruct new.
Qed.

(** Writing the same row a second time changes nothing. *)
Lemma upsert_twice (new : market_row) (t : list market_row) :
  upsert_candle new (upsert_candle new t) = upsert_candle new t.
Proof.
  rewrite (upsert_unfold new (upsert_candle new t)), upsert_exists.
  rewrite upsert_unfold. destruct (existsb (same_key new) t) eqn:E.
  - rewrite map_map. apply map_ext. intros r. apply touch_idempotent.
  - rewrite map_app, touch_absent by exact E. simpl. now rewrite touch_self.
Qed.

Lemma saveCandleToDB_stores (env : Env) (c : candle_data) (w : world) :
  query_fails env (queries w) = false ->
  snd (DerivIntegration.saveCandleToDB env c w)
  = set_market_data (upsert_candle (row_of_candle c) (market_data w))
                    (after_query w).
Proof.
  intros F. unfold DerivIntegration.saveCandleToDB, bind, database_query, modify.
  rewrite F. reflexivity.
Qed.

(** C7. Two writes of a candle with the same symbol and timestamp (the
    timeframe stored is always ['5m']), on a store that answers and whose
    table has the unique key: the key is still unique, the second write adds
    no row, exactly one row has the key, it holds the prices of the second
    write and the volume the row had before (0 when the first write created
    it), the other rows are untouched, and writing the same candle twice
    leaves the table as the first write made it. *)
Theorem saveCandleToDB_idempotent
  (env : Env) (c1 c2 : candle_data) (w : world) :
  query_fails env (queries w) = false ->
  query_fails env (S (queries w)) = false ->
  unique_candle (market_data w) = true ->
  cd_symbol c1 = cd_symbol c2 ->
  cd_timestamp c1 = cd_timestamp c2 ->
  let key := has_key (cd_symbol c2) "5m" (cd_timestamp c2) in
  let w1 := snd (DerivIntegration.saveCandleToDB env c1 w) in
  let w2 := snd (DerivIntegration.saveCandleToDB env c2 w1) in
  unique_candle (market_data w2) = true
  /\ len (market_data w2) = len (market_data w1)
  /\ (exists r,
        filter key (market_data w2) = [r]
        /\ open_price r = cd_open c2 /\ high_price r = cd_high c2
        /\ low_price r = cd_low c2 /\ close_price r = cd_close c2
        /\ (forall r0, In r0 (market_data w) \/ In r0 (market_data w1) ->
                       key r0 = true -> md_volume r = md_volume r0)
        /\ (filter key (market_data w) = [] -> md_volume r = Some 0))
  /\ filter (fun r => negb (key r)) (market_data w2)
     = filter (fun r => negb (key r)) (market_data w1)
  /\ (c1 = c2 -> market_data w2 = market_data w1).
Proof.
  intros F1 F2 U Hs Ht key w1 w2.
  assert (E1 : market_data w1 = upsert_candle (row_of_candle c1) (market_data w)).
  { unfold w1. now rewrite saveCandleToDB_stores. }
  assert (Q1 : queries w1 = S (queries w)).
  { unfold w1. now rewrite saveCandleToDB_stores. }
  assert (E2 : market_data w2 = upsert_candle (row_of_candle c2) (market_data w1)).
  { unfold w2. rewrite saveCandleToDB_stores; [reflexivity|]. now rewrite Q1. }
  assert (K1 : same_key (row_of_candle c1) = key).
  { unfold key, same_key, row_of_candle. cbn. now rewrite Hs, Ht. }
  assert (K2 : same_key (row_of_candle c2) = key) by reflexivity.
  assert (U1 : unique_candle (market_data w1) = true).
  { rewrite E1. now apply upsert_unique. }
  assert (X1 : existsb key (market_data w1) = true).
  { rewrite E1, <- K1. apply upsert_exists. }
  split; [rewrite E2; now apply upsert_unique|].
  split.
  { unfold len. rewrite E2, upsert_length; [reflexivity|]. now rewrite K2. }
  split.
  { destruct (upsert_row (row_of_candle c2) (market_data w1) U1)
      as (r & Fr & Ho & Hh & Hl & Hc & Hv & _).
    rewrite K2, <- E2 in Fr. rewrite K2 in Hv.
    exists r. repeat split; auto.
    - intros r0 [Hin|Hin] Hk; [|now apply Hv].
      destruct (upsert_row (row_of_candle c1) (market_data w) U)
        as (r1 & Fr1 & _ & _ & _ & _ & Hv1 & _).
      rewrite K1, <- E1 in Fr1. rewrite K1 in Hv1.
      assert (In1 : In r1 (filter key (market_data w1)))
        by (rewrite Fr1; left; reflexivity).
      apply filter_In in In1. destruct In1 as [In1 Hk1].
      rewrite (Hv r1 In1 Hk1). now apply Hv1.
    - intros Hnone.
      destruct (upsert_row (row_of_candle c1) (market_data w) U)
        as (r1 & Fr1 & _ & _ & _ & _ & _ & Hnew).
      rewrite K1, <- E1 in Fr1. rewrite K1 in Hnew.
      assert (In1 : In r1 (filter key (market_data w1)))
        by (rewrite Fr1; left; reflexivity).
      apply filter_In in In1. destruct In1 as [In1 Hk1].
      rewrite (Hv r1 In1 Hk1), Hnew; [reflexivity|].
      destruct (existsb key (market_data w)) eqn:X; [|reflexivity].
      apply existsb_exists in X. destruct X as [x [Hx Hkx]].
      assert (Hin : In x (filter key (market_data w))) by (apply filter_In; auto).
      rewrite Hnone in Hin. contradiction. }
  split.
  { rewrite E2. apply (upsert_others (row_of_candle c2)). }
  intros <-. rewrite E2, E1. apply upsert_twice.
Qed.

(** Two writes for the key of the third row of [three_rows], whose volume
    is NULL. *)
Lemma saveCandleToDB_idempotent_witness :
  let c1 := eurusd_candle 10865 10880 10860 10875 in
  let c2 := eurusd_candle 10865 10890 10860 10885 in
  let w := fresh_world three_rows [] in
  let key := has_key "EURUSD" "5m" 1600 in
  let w1 := snd (DerivIntegration.saveCandleToDB sample_env c1 w) in
  let w2 := snd (DerivIntegration.saveCandleToDB sample_env c2 w1) in
  unique_candle (market_data w2) = true
  /\ len (market_data w2) = len (market_data w1)
  /\ (exists r,
        filter key (market_data w2) = [r]
        /\ open_price r = cd_open c2 /\ high_price r = cd_high c2
        /\ low_price r = cd_low c2 /\ close_price r = cd_close c2
        /\ (forall r0, In r0 (market_data w) \/ In r0 (market_data w1) ->
                       key r0 = true -> md_volume r = md_volume r0)
        /\ (filter key (market_data w) = [] -> md_volume r = Some 0))
  /\ filter (fun r => negb (key r)) (market_data w2)
     = filter (fun r => negb (key r)) (market_data w1)
  /\ (c1 = c2 -> market_data w2 = market_data w1).
Proof.
  apply (saveCandleToDB_idempotent sample_env
           (eurusd_candle 10865 10880 10860 10875)
           (eurusd_candle 10865 10890 10860 10885)
           (fresh_world three_rows [])); reflexivity.
Defined.

Example saveCandleToDB_twice :
  market_data
    (snd (DerivIntegration.saveCandleToDB sample_env
            (eurusd_candle 10865 10890 10860 10885)
            (snd (DerivIntegration.saveCandleToDB sample_env
                    (eurusd_candle 10865 10880 10860 10875)
                    (fresh_world three_rows [])))))
  = [ mkMarketRow "EURUSD" "5m" 1000 (dec 10850 4) (dec 10860 4) (dec 10840 4)
        (dec 10855 4) (Some 0);
      mkMarketRow "EURUSD" "5m" 1300 (dec 10855 4) (dec 10870 4) (dec 10850 4)
        (dec 10865 4) (Some 0);
      mkMarketRow "EURUSD" "5m" 1600 (dec 10865 4) (dec 10890 4) (dec 10860 4)
        (dec 10885 4) None ].
Proof. vm_compute. reflexivity. Qed.

(* ===================================================================== *)
(** ** Reconnection of the feed client *)
(* ===================================================================== *)

Module Reconnect.

Import DerivAPI.

Lemma reconnections_app (l1 l2 : list effect) :
  reconnections (l1 ++ l2) = reconnections l1 ++ reconnections l2.
Proof.
  induction l1 as [|e l1 IH]; simpl; [reflexivity|].
  destruct e as [? | [?|?] | | |]; simpl; now rewrite IH.
Qed.

Lemma error_events_app (l1 l2 : list effect) :
  error_events (l1 ++ l2) = error_events l1 ++ error_events l2.
Proof.
  induction l1 as [|e l1 IH]; simpl; [reflexivity|].
  destruct e as [[| |?] | ? | | |]; simpl; now rewrite IH.
Qed.

(** What one input other than a successful open does to the client. *)
Lemma step_not_open (c : client) (i : input) :
  is_open i = false ->
  exists added,
    effects (step c i) = effects c ++ added
    /\ maxReconnectAttempts (step c i) = maxReconnectAttempts c
    /\ reconnectDelay (step c i) = reconnectDelay c
    /\ error_events added = socket_errors [i]
    /\ (if is_close i then
          if reconnectAttempts c >=? maxReconnectAttempts c then
            reconnectAttempts (step c i) = reconnectAttempts c
            /\ reconnections added = []
            /\ added = [emit disconnected; log_max_attempts_reached]
            /\ pending (step c i) = pending c
          else
            reconnectAttempts (step c i) = reconnectAttempts c + 1
            /\ reconnections added = [reconnectDelay c]
        else
          reconnectAttempts (step c i) = reconnectAttempts c
          /\ reconnections added = []).
Proof.
  destruct c as [ic ra mx dl pd ef]. destruct i as [| |m|t]; intros Ho;
    try discriminate; cbn [is_close step].
  - unfold on_close, handleReconnect, set_isConnected, do. cbn.
    destruct (ra >=? mx) eqn:E; cbn.
    + eexists. unfold push. rewrite <- app_assoc. cbn.
      repeat split; reflexivity.
    + eexists. unfold push. rewrite <- !app_assoc. cbn.
      repeat split; reflexivity.
  - unfold on_error, do. cbn. exists [emit (error m)]. repeat split; reflexivity.
  - unfold on_timer. cbn. destruct (remove_timer t pd) as [rest|].
    + destruct t as [d|d].
      * unfold connect, set_timeout, do. cbn. eexists. unfold push.
        rewrite <- app_assoc. cbn. repeat split; reflexivity.
      * exists []. cbn. rewrite app_nil_r. repeat split; reflexivity.
    + exists []. cbn. rewrite app_nil_r. repeat split; reflexivity.
Qed.

Lemma closes_cons (i : input) (inputs : list input) :
  closes (i :: inputs) = (if is_close i then 1 else 0) + closes inputs.
Proof.
  unfold closes. simpl. destruct (is_close i); [|lia].
  unfold len. cbn [List.length]. lia.
Qed.

Lemma closes_nonneg (inputs : list input) : 0 <= closes inputs.
Proof. apply len_nonneg. Qed.

(** As long as no attempt succeeds, each close schedules one reconnection
    until [maxReconnectAttempts] is reached, and none afterwards; the only
    error events are the socket errors passed on. *)
Lemma run_without_open (inputs : list input) : forall c : client,
  existsb is_open inputs = false ->
  reconnectAttempts c <= maxReconnectAttempts c ->
  let c' := run inputs c in
  let n := Z.min (closes inputs) (maxReconnectAttempts c - reconnectAttempts c) in
  maxReconnectAttempts c' = maxReconnectAttempts c
  /\ reconnectDelay c' = reconnectDelay c
  /\ reconnectAttempts c' = reconnectAttempts c + n
  /\ reconnections (effects c')
     = reconnections (effects c) ++ repeat (reconnectDelay c) (Z.to_nat n)
  /\ error_events (effects c')
     = error_events (effects c) ++ socket_errors inputs
  /\ (forall e, In e (effects c) -> In e (effects c'))
  /\ (maxReconnectAttempts c - reconnectAttempts c < closes inputs ->
      In log_max_attempts_reached (effects c')).
Proof.
  induction inputs as [|i inputs IH]; intros c Ho Hle.
  - cbn. change (closes []) with 0.
    replace (Z.min 0 (maxReconnectAttempts c - reconnectAttempts c)) with 0 by lia.
    cbn. rewrite !app_nil_r. repeat split; auto; lia.
  - cbn [existsb] in Ho. apply orb_false_iff in Ho. destruct Ho as [Hi Ho].
    destruct (step_not_open c i Hi) as (added & Ee & Em & Ed & Eerr & Hcase).
    cbv zeta. change (run (i :: inputs) c) with (run inputs (step c i)).
    rewrite closes_cons. pose proof (closes_nonneg inputs) as Hc.
    assert (Hle' : reconnectAttempts (step c i) <= maxReconnectAttempts (step c i)).
    { rewrite Em. destruct (is_close i);
        [destruct (Z.geb_spec (reconnectAttempts c) (maxReconnectAttempts c))|];
        destruct Hcase as [-> _]; lia. }
    specialize (IH (step c i) Ho Hle'). cbv zeta in IH.
    destruct IH as (IHm & IHd & IHa & IHr & IHe & IHin & IHlog).
    rewrite Em, Ed in *.
    assert (Hgrow : forall e, In e (effects c) -> In e (effects (run inputs (step c i)))).
    { intros e He. apply IHin. rewrite Ee. apply in_or_app. auto. }
    split; [exact IHm|]. split; [exact IHd|].
    rewrite IHa, IHr, IHe, Ee, reconnections_app, error_events_app, Eerr.
    rewrite <- !app_assoc.
    assert (Herrs : socket_errors [i] ++ socket_errors inputs
                    = socket_errors (i :: inputs)).
    { destruct i; reflexivity. }
    rewrite Herrs.
    destruct (is_close i).
    + destruct (Z.geb_spec (reconnectAttempts c) (maxReconnectAttempts c)) as [G|G].
      * destruct Hcase as (Ea & Er & Eadd & _). rewrite Ea, Er.
        replace (Z.min (1 + closes inputs)
                       (maxReconnectAttempts c - reconnectAttempts c))
          with (Z.min (closes inputs)
                      (maxReconnectAttempts c - reconnectAttempts c)) by lia.
        repeat split; auto.
        intros _. apply IHin. rewrite Ee, Eadd. apply in_or_app. right.
        right. left. reflexivity.
      * destruct Hcase as (Ea & Er). rewrite Ea, Er.
        replace (Z.to_nat (Z.min (1 + closes inputs)
                                 (maxReconnectAttempts c - reconnectAttempts c)))
          with (S (Z.to_nat (Z.min (closes inputs)
                                   (maxReconnectAttempts c
                                    - (reconnectAttempts c + 1))))) by lia.
        cbn [repeat app]. repeat split; auto; try lia.
        intros Hlt. apply IHlog. rewrite Ea. lia.
    + destruct Hcase as (Ea & Er). rewrite Ea, Er. cbn [app].
      replace (0 + closes inputs) with (closes inputs) by lia.
      repeat split; auto.
      intros Hlt. apply IHlog. rewrite Ea. lia.
Qed.

End Reconnect.

(** C9 (as amended). From a client with no attempt counted, and as long as
    no attempt succeeds, every close schedules one reconnection with the
    configured delay until [maxReconnectAttempts] have been scheduled and
    none afterwards: [min(closes, maxReconnectAttempts)] in all, so exactly
    [maxReconnectAttempts] (5, each after 5000 ms, for the client the
    constructor builds) once that many closes have been seen.  The close
    that finds the attempts exhausted is logged; the only error events
    emitted are the socket errors passed on, none for the exhaustion. *)
Theorem reconnect_attempts_bounded (c : DerivAPI.client) (inputs : list DerivAPI.input) :
  DerivAPI.reconnectAttempts c = 0 ->
  0 <= DerivAPI.maxReconnectAttempts c ->
  existsb DerivAPI.is_open inputs = false ->
  let c' := DerivAPI.run inputs c in
  DerivAPI.reconnections (DerivAPI.effects c')
  = DerivAPI.reconnections (DerivAPI.effects c)
    ++ repeat (DerivAPI.reconnectDelay c)
         (Z.to_nat (Z.min (DerivAPI.closes inputs) (DerivAPI.maxReconnectAttempts c)))
  /\ DerivAPI.error_events (DerivAPI.effects c')
     = DerivAPI.error_events (DerivAPI.effects c) ++ DerivAPI.socket_errors inputs
  /\ (DerivAPI.maxReconnectAttempts c < DerivAPI.closes inputs ->
      In DerivAPI.log_max_attempts_reached (DerivAPI.effects c')).
Proof.
  intros Ha Hm Ho.
  destruct (Reconnect.run_without_open inputs c Ho) as (_ & _ & _ & Hr & He & _ & Hl);
    [lia|].
  rewrite Ha, Z.sub_0_r in Hr, Hl. auto.
Qed.

Lemma reconnect_attempts_bounded_witness :
  let c' := DerivAPI.run five_failures DerivAPI.new_client in
  DerivAPI.reconnections (DerivAPI.effects c')
  = DerivAPI.reconnections (DerivAPI.effects DerivAPI.new_client)
    ++ repeat (DerivAPI.reconnectDelay DerivAPI.new_client)
         (Z.to_nat (Z.min (DerivAPI.closes five_failures)
                          (DerivAPI.maxReconnectAttempts DerivAPI.new_client)))
  /\ DerivAPI.error_events (DerivAPI.effects c')
     = DerivAPI.error_events (DerivAPI.effects DerivAPI.new_client)
       ++ DerivAPI.socket_errors five_failures
  /\ (DerivAPI.maxReconnectAttempts DerivAPI.new_client < DerivAPI.closes five_failures ->
      In DerivAPI.log_max_attempts_reached (DerivAPI.effects c')).
Proof.
  apply (reconnect_attempts_bounded DerivAPI.new_client five_failures).
  - reflexivity.
  - vm_compute. discriminate.
  - reflexivity.
Defined.

(** The state in which the fifth failed attempt is about to close its
    socket: five attempts have been made and counted.  The close emits
    ['disconnected'] and logs; no error event is emitted and no timer is
    set. *)
Lemma reconnect_exhaustion_counterexample :
  let before := DerivAPI.run (removelast five_failures) DerivAPI.new_client in
  let after := DerivAPI.step before DerivAPI.ws_close in
  DerivAPI.reconnectAttempts before = DerivAPI.maxReconnectAttempts before
  /\ DerivAPI.reconnections (DerivAPI.effects before) = [5000; 5000; 5000; 5000; 5000]
  /\ added_by before DerivAPI.ws_close
     = [DerivAPI.emit DerivAPI.disconnected; DerivAPI.log_max_attempts_reached]
  /\ DerivAPI.error_events (added_by before DerivAPI.ws_close) = []
  /\ ~ (exists m, In (DerivAPI.emit (DerivAPI.error m))
                     (added_by before DerivAPI.ws_close))
  /\ DerivAPI.reconnections (DerivAPI.effects after) = [5000; 5000; 5000; 5000; 5000].
Proof.
  cbv zeta.
  split; [vm_compute; reflexivity|].
  split; [vm_compute; reflexivity|].
  split; [vm_compute; reflexivity|].
  split; [vm_compute; reflexivity|].
  split; [|vm_compute; reflexivity].
  intros [m Hin]. vm_compute in Hin.
  destruct Hin as [H|[H|[]]]; discriminate.
Qed.

(* ===================================================================== *)
(** ** What the analysis and the trade cycle leave alone *)
(* ===================================================================== *)

Section Frame.

Variable env : Env.

(** A relation between the state before and after, kept by every write the
    code makes except those listed with the lemmas that need them. *)
Variable R : world -> world -> Prop.

Hypothesis R_refl : forall w, R w w.
Hypothesis R_trans : forall w1 w2 w3, R w1 w2 -> R w2 w3 -> R w1 w3.
Hypothesis R_market_data : forall v w, R w (set_market_data v w).
Hypothesis R_ai_logs : forall v w, R w (set_ai_logs v w).
Hypothesis R_queries : forall v w, R w (set_queries v w).
Hypothesis R_randoms : forall v w, R w (set_randoms v w).
Hypothesis R_orders : forall v w, R w (set_orders v w).
Hypothesis R_emitted : forall v w, R w (set_emitted v w).
Hypothesis R_tradesExecuted : forall w,
  R w (set_stats (mkStats (ticksReceived (stats w)) (candlesReceived (stats w))
                    (aiAnalysisCount (stats w)) (tradesExecuted (stats w) + 1)) w).
Hypothesis R_log_auto_trade : forall u s w,
  R w (set_logged (push (logged w) (log_auto_trade u s)) w).
Hypothesis R_log_daily_limit : forall u w,
  R w (set_logged (push (logged w) (log_daily_limit u)) w).

Lemma keeps_ret {A : Type} (a : A) : (keeps R) (ret a).
Proof. intros w. apply R_refl. Qed.

Lemma keeps_bind {A B : Type} (c : M A) (k : A -> M B) :
  (keeps R) c -> (forall a, (keeps R) (k a)) -> (keeps R) (bind c k).
Proof.
  intros Hc Hk w. unfold bind. specialize (Hc w).
  destruct (c w) as [a w1]. cbn [snd] in Hc.
  eapply R_trans; [exact Hc | apply Hk].
Qed.

Lemma keeps_gets {A : Type} (f : world -> A) : (keeps R) (gets f).
Proof. intros w. apply R_refl. Qed.

Lemma keeps_when (b : bool) (c : M unit) : (keeps R) c -> (keeps R) (when b c).
Proof. intros H. destruct b; [exact H | apply keeps_ret]. Qed.

Lemma keeps_for_of {A : Type} (xs : list A) (body : A -> M unit) :
  (forall x, In x xs -> (keeps R) (body x)) -> (keeps R) (for_of xs body).
Proof.
  induction xs as [|x xs IH]; intros H; cbn [for_of].
  - apply keeps_ret.
  - apply keeps_bind; [apply H; left; reflexivity|].
    intros _. apply IH. intros y Hy. apply H. right. exact Hy.
Qed.

Lemma keeps_for_rangeM {S : Type} (lo hi : Z) (body : Z -> S -> M S) (s : S) :
  (forall i st, (keeps R) (body i st)) -> (keeps R) (for_rangeM lo hi body s).
Proof.
  intros H w. unfold for_rangeM, for_range.
  apply (for_loop_invariant (fun _ (st : S * world) => R w (snd st))).
  - apply R_refl.
  - intros k [st w1] _ Hk. cbn [snd] in *.
    eapply R_trans; [exact Hk | apply H].
Qed.

Lemma keeps_database_query {A : Type} (run : M A) :
  (keeps R) run -> (keeps R) (database_query env run).
Proof.
  intros H w. unfold database_query.
  destruct (query_fails env (queries w)); cbn [snd].
  - apply R_queries.
  - specialize (H (set_queries (S (queries w)) w)).
    destruct (run (set_queries (S (queries w)) w)) as [a w2]. cbn [snd] in *.
    eapply R_trans; [apply R_queries | exact H].
Qed.

Lemma keeps_random : (keeps R) (random env).
Proof. intros w. apply R_randoms. Qed.

Lemma keeps_io_emit (e : io_event) : (keeps R) (io_emit env e).
Proof.
  unfold io_emit. apply keeps_when. intros w. apply R_emitted.
Qed.

Lemma keeps_generateSimulatedData (symbol : string) (limit : Z) :
  (keeps R) (ForexAI.generateSimulatedData env symbol limit).
Proof.
  unfold ForexAI.generateSimulatedData. apply keeps_bind.
  - apply keeps_for_rangeM. intros i [data currentPrice].
    repeat (apply keeps_bind; [apply keeps_random | intros ?]).
    apply keeps_ret.
  - intros [data p]. apply keeps_ret.
Qed.

Lemma keeps_getMarketData (symbol timeframe : string) (limit : Z) :
  (keeps R) (ForexAI.getMarketData env symbol timeframe limit).
Proof.
  unfold ForexAI.getMarketData. apply keeps_bind.
  - apply keeps_database_query, keeps_gets.
  - intros [e|data].
    + apply keeps_generateSimulatedData.
    + destruct (len data =? 0);
        [apply keeps_generateSimulatedData | apply keeps_ret].
Qed.

Lemma keeps_logAnalysis (symbol : string) (d : decision) :
  (keeps R) (ForexAI.logAnalysis env symbol d).
Proof.
  unfold ForexAI.logAnalysis. apply keeps_bind.
  - apply keeps_database_query. intros w. apply R_ai_logs.
  - intros _. apply keeps_ret.
Qed.

Lemma keeps_analyzeMarket (symbol timeframe : string) :
  (keeps R) (ForexAI.analyzeMarket env symbol timeframe).
Proof.
  unfold ForexAI.analyzeMarket. apply keeps_bind.
  - unfold ForexAI.analyzeMarket_try. apply keeps_bind.
    + apply keeps_getMarketData.
    + intros marketData. destruct (len marketData <? 50); [apply keeps_ret|].
      destruct (get marketData (len marketData - 1)); [|apply keeps_ret].
      destruct (ForexAI.makeDecision env _); [apply keeps_ret|].
      apply keeps_bind; [apply keeps_logAnalysis | intros _; apply keeps_ret].
  - intros [e|d]; apply keeps_ret.
Qed.

Lemma keeps_saveCandleToDB (c : candle_data) :
  (keeps R) (DerivIntegration.saveCandleToDB env c).
Proof.
  unfold DerivIntegration.saveCandleToDB. apply keeps_bind.
  - apply keeps_database_query. intros w. apply R_market_data.
  - intros _. apply keeps_ret.
Qed.

Lemma keeps_getActiveUsers : (keeps R) (DerivIntegration.getActiveUsers env).
Proof.
  unfold DerivIntegration.getActiveUsers. apply keeps_bind.
  - apply keeps_database_query, keeps_gets.
  - intros [e|users]; apply keeps_ret.
Qed.

Lemma keeps_getUserDailyTrades (userId : Z) :
  (keeps R) (DerivIntegration.getUserDailyTrades env userId).
Proof.
  unfold DerivIntegration.getUserDailyTrades. apply keeps_bind.
  - apply keeps_database_query, keeps_gets.
  - intros [e|n]; apply keeps_ret.
Qed.

Section OneUser.

Variable user : account_row.

(** The relation allows a new trade of this user. *)
Hypothesis R_trade : forall row w,
  t_user_id row = u_id user -> R w (set_trades (push (trades w) row) w).

Lemma keeps_insert_trade (trade_id : trade_ident) (symbol : string)
  (a : analysis) (entry stopLoss takeProfit : num) (is_demo : bool) :
  (keeps R) (DerivIntegration.insert_trade env user trade_id symbol a entry
           stopLoss takeProfit is_demo).
Proof.
  unfold DerivIntegration.insert_trade. apply keeps_database_query.
  intros w. apply R_trade. reflexivity.
Qed.

Lemma keeps_executeTrade (symbol : string) (a : analysis) :
  (keeps R) (DerivIntegration.executeTrade env user symbol a).
Proof.
  unfold DerivIntegration.executeTrade.
  apply keeps_bind; [apply keeps_random | intros r].
  apply keeps_bind; [apply keeps_gets | intros [currentPrice|]];
    [|apply keeps_ret].
  cbv zeta.
  destruct (String.eqb (broker user) "deriv" && DERIV_DEMO_MODE env).
  - apply keeps_bind; [apply keeps_insert_trade|].
    intros [e|u]; apply keeps_ret.
  - destruct (String.eqb (broker user) "deriv" && DERIV_API_TOKEN env);
      [|apply keeps_ret].
    apply keeps_bind.
    + intros w. unfold DerivIntegration.executeRealDerivTrade.
      destruct (derivAPI_buy env (orders w)); apply R_orders.
    + intros [t|cid|e]; try apply keeps_ret.
      apply keeps_bind; [apply keeps_insert_trade|].
      intros [e|u]; apply keeps_ret.
Qed.

Lemma keeps_autoTradeUser (symbol : string) (a : analysis) :
  (keeps R) (DerivIntegration.autoTradeUser env symbol a user).
Proof.
  unfold DerivIntegration.autoTradeUser.
  destruct (negb (trading_active user) || negb (ai_active user));
    [apply keeps_ret|].
  apply keeps_bind; [intros w; apply R_log_auto_trade | intros _].
  apply keeps_bind; [apply keeps_getUserDailyTrades | intros dailyTrades].
  destruct ((dailyTrades >=? max_daily_trades user)
            && negb (max_daily_trades user =? -1)).
  - intros w. apply R_log_daily_limit.
  - apply keeps_bind; [apply keeps_executeTrade | intros tradeResult].
    apply keeps_when. apply keeps_bind; [|intros _; apply keeps_io_emit].
    intros w. apply R_tradesExecuted.
Qed.

End OneUser.

End Frame.

(* ===================================================================== *)
(** ** Sampling of candle events *)
(* ===================================================================== *)

Lemma analysed_app (l1 l2 : list log_entry) :
  analysed (l1 ++ l2) = analysed l1 ++ analysed l2.
Proof.
  induction l1 as [|e l1 IH]; simpl; [reflexivity|].
  destruct e; simpl; now rewrite IH.
Qed.

Lemma same_sampling_refl (w : world) : same_sampling w w.
Proof. repeat split. Qed.

Lemma same_sampling_trans (w1 w2 w3 : world) :
  same_sampling w1 w2 -> same_sampling w2 w3 -> same_sampling w1 w3.
Proof.
  unfold same_sampling. intros (A1 & B1 & C1) (A2 & B2 & C2).
  repeat split; congruence.
Qed.

Lemma same_sampling_log (w : world) (e : log_entry) :
  analysed [e] = [] ->
  same_sampling w (set_logged (push (logged w) e) w).
Proof.
  intros H. repeat split. cbn. unfold push. rewrite analysed_app, H.
  apply app_nil_r.
Qed.

Ltac sampling_frame :=
  try exact same_sampling_refl; try exact same_sampling_trans;
  try (intros; repeat split; fail);
  try (intros; apply same_sampling_log; reflexivity).

Lemma for_of_app {A : Type} (l1 l2 : list A) (body : A -> M unit) (w : world) :
  for_of (l1 ++ l2) body w = for_of l2 body (snd (for_of l1 body w)).
Proof.
  revert w. induction l1 as [|x l1 IH]; intros w; cbn [app for_of].
  - reflexivity.
  - unfold bind. destruct (body x w) as [u w1]. apply IH.
Qed.

Lemma for_of_cons {A : Type} (x : A) (l : list A) (body : A -> M unit) (w : world) :
  for_of (x :: l) body w = for_of l body (snd (body x w)).
Proof. cbn [for_of]. unfold bind. now destruct (body x w). Qed.

Section Sampling.

Variable env : Env.

Lemma sampling_saveCandleToDB (c : candle_data) (w : world) :
  same_sampling w (snd (DerivIntegration.saveCandleToDB env c w)).
Proof. eapply keeps_saveCandleToDB with (R := same_sampling); sampling_frame. Qed.

Lemma sampling_analyzeMarket (symbol timeframe : string) (w : world) :
  same_sampling w (snd (ForexAI.analyzeMarket env symbol timeframe w)).
Proof. eapply keeps_analyzeMarket with (R := same_sampling); sampling_frame. Qed.

Lemma sampling_executeAutoTrade (symbol : string) (a : analysis) (w : world) :
  same_sampling w (snd (DerivIntegration.executeAutoTrade env symbol a w)).
Proof.
  unfold DerivIntegration.executeAutoTrade.
  eapply keeps_bind with (R := same_sampling); sampling_frame.
  - eapply keeps_getActiveUsers; sampling_frame.
  - intros users. eapply keeps_for_of; sampling_frame.
    intros user _. eapply keeps_autoTradeUser; sampling_frame.
Qed.

Lemma sampling_after_logging (symbol : string) (w : world) :
  same_sampling w
    (snd (bind (ForexAI.analyzeMarket env symbol "5m")
            (fun a =>
               bind (database_query env
                       (modify (fun w =>
                          set_ai_logs
                            (push (ai_logs w)
                               (mkLogRow symbol a (analysis_confidence a))) w)))
                 (fun q =>
                    match q with
                    | inl _ => ret tt
                    | inr _ =>
                        bind (when ((analysis_confidence a >? dec 8 1)%num
                                    && negb (DerivIntegration.is_hold
                                               (analysis_action a)))
                                (DerivIntegration.executeAutoTrade env symbol a))
                          (fun _ => io_emit env (ai_analysis symbol a))
                    end)) w)).
Proof.
  revert w. change (keeps same_sampling
    (bind (ForexAI.analyzeMarket env symbol "5m")
       (fun a =>
          bind (database_query env
                  (modify (fun w =>
                     set_ai_logs
                       (push (ai_logs w)
                          (mkLogRow symbol a (analysis_confidence a))) w)))
            (fun q =>
               match q with
               | inl _ => ret tt
               | inr _ =>
                   bind (when ((analysis_confidence a >? dec 8 1)%num
                               && negb (DerivIntegration.is_hold
                                          (analysis_action a)))
                           (DerivIntegration.executeAutoTrade env symbol a))
                     (fun _ => io_emit env (ai_analysis symbol a))
               end)))).
  eapply keeps_bind with (R := same_sampling); sampling_frame.
  - intros w0. apply sampling_analyzeMarket.
  - intros a. eapply keeps_bind; sampling_frame.
    + eapply keeps_database_query; sampling_frame.
    + intros [e|u]; [eapply keeps_ret; sampling_frame|].
      eapply keeps_bind; sampling_frame.
      * eapply keeps_when; sampling_frame.
        intros w0. apply sampling_executeAutoTrade.
      * intros _. eapply keeps_io_emit; sampling_frame.
Qed.

(** [analyzeWithAI] counts and logs one analysis, of its symbol. *)
Lemma analyzeWithAI_sampling (symbol : string) (w w' : world) :
  snd (DerivIntegration.analyzeWithAI env symbol w) = w' ->
  candlesReceived (stats w') = candlesReceived (stats w)
  /\ aiAnalysisCount (stats w') = aiAnalysisCount (stats w) + 1
  /\ analysed (logged w') = analysed (logged w) ++ [symbol].
Proof.
  unfold DerivIntegration.analyzeWithAI, bind at 1 2, logger.
  unfold modify at 1 2.
  match goal with
  | |- snd (?c ?w1) = _ -> _ =>
      destruct (sampling_after_logging symbol w1) as (A2 & B2 & C2)
  end.
  intros <-. rewrite A2, B2, C2. cbn. unfold push. rewrite analysed_app. auto.
Qed.

Lemma sampling_io_emit (e : io_event) (w : world) :
  same_sampling w (snd (io_emit env e w)).
Proof. eapply keeps_io_emit with (R := same_sampling); sampling_frame. Qed.

(** [handleCandleData] counts the event, and has its symbol analysed when
    the counter reaches a multiple of 5. *)
Lemma handleCandleData_sampling (c : candle_data) (w w' : world) :
  snd (DerivIntegration.handleCandleData env c w) = w' ->
  candlesReceived (stats w') = candlesReceived (stats w) + 1
  /\ analysed (logged w')
     = analysed (logged w) ++ sampled (candlesReceived (stats w)) [c]
  /\ aiAnalysisCount (stats w')
     = aiAnalysisCount (stats w)
       + len (sampled (candlesReceived (stats w)) [c]).
Proof.
  unfold DerivIntegration.handleCandleData, bind at 1. unfold modify at 1.
  match goal with
  | |- snd (bind _ _ ?w0) = _ -> _ => set (w1 := w0)
  end.
  assert (H1 : candlesReceived (stats w1) = candlesReceived (stats w) + 1
               /\ aiAnalysisCount (stats w1) = aiAnalysisCount (stats w)
               /\ analysed (logged w1) = analysed (logged w)).
  { unfold w1. cbn. auto. }
  destruct H1 as (A1 & B1 & C1). clearbody w1.
  unfold bind at 1.
  pose proof (sampling_saveCandleToDB c w1) as H2.
  destruct (DerivIntegration.saveCandleToDB env c w1) as [u w2].
  cbn [snd] in H2. destruct H2 as (A2 & B2 & C2).
  unfold bind at 1, DerivIntegration.shouldAnalyzeCandle, gets.
  rewrite A2, A1. cbn [sampled]. rewrite app_nil_r.
  unfold bind at 1.
  destruct (Z.rem (candlesReceived (stats w) + 1) 5 =? 0); cbn [when].
  - pose proof (analyzeWithAI_sampling (cd_symbol c) w2 _ eq_refl) as H3.
    destruct (DerivIntegration.analyzeWithAI env (cd_symbol c) w2) as [u' w3].
    cbn [snd] in H3. destruct H3 as (A3 & B3 & C3).
    intros <-.
    destruct (sampling_io_emit (candle_update (cd_symbol c) (cd_timestamp c)) w3)
      as (A4 & B4 & C4).
    change (len [cd_symbol c]) with 1.
    rewrite A4, B4, C4. repeat split; congruence.
  - unfold ret. intros <-.
    destruct (sampling_io_emit (candle_update (cd_symbol c) (cd_timestamp c)) w2)
      as (A4 & B4 & C4).
    change (len (@nil string)) with 0. rewrite app_nil_r, Z.add_0_r.
    rewrite A4, B4, C4. repeat split; congruence.
Qed.

Lemma handleCandles_sampling (events : list candle_data) : forall w w' : world,
  snd (DerivIntegration.handleCandles env events w) = w' ->
  candlesReceived (stats w') = candlesReceived (stats w) + len events
  /\ analysed (logged w')
     = analysed (logged w) ++ sampled (candlesReceived (stats w)) events
  /\ aiAnalysisCount (stats w')
     = aiAnalysisCount (stats w)
       + len (sampled (candlesReceived (stats w)) events).
Proof.
  induction events as [|c events IH]; intros w w'.
  - intros <-. cbn. rewrite app_nil_r. repeat split; lia.
  - unfold DerivIntegration.handleCandles. cbn [for_of]. unfold bind.
    pose proof (handleCandleData_sampling c w _ eq_refl) as H1.
    destruct (DerivIntegration.handleCandleData env c w) as [u w1].
    cbn [snd] in H1. destruct H1 as (A1 & B1 & C1).
    intros E. apply IH in E. destruct E as (A2 & B2 & C2).
    rewrite A2, B2, C2, A1, B1, C1.
    cbn [sampled] in *. rewrite app_nil_r in *.
    rewrite !len_app, <- !app_assoc.
    change (len (c :: events)) with (len ([c] ++ events)).
    rewrite len_app. change (len [c]) with 1.
    repeat split; lia.
Qed.


(** The first part counts the event and starts no analysis. *)
Lemma handleCandleData_begin_sampling (c : candle_data) (w : world) :
  candlesReceived (stats (snd (DerivIntegration.handleCandleData_begin env c w)))
  = candlesReceived (stats w) + 1
  /\ analysed (logged (snd (DerivIntegration.handleCandleData_begin env c w)))
     = analysed (logged w)
  /\ aiAnalysisCount (stats (snd (DerivIntegration.handleCandleData_begin env c w)))
     = aiAnalysisCount (stats w).
Proof.
  unfold DerivIntegration.handleCandleData_begin, bind, modify.
  cbv beta iota.
  match goal with
  | |- context [DerivIntegration.saveCandleToDB env c ?w0] =>
      destruct (sampling_saveCandleToDB c w0) as (A & B & C)
  end.
  rewrite A, B, C. cbn. auto.
Qed.

(** The second part leaves the count of events alone, and has the symbol
    analysed exactly when that count is a multiple of 5. *)
Lemma handleCandleData_resume_sampling (c : candle_data) (w : world) :
  candlesReceived (stats (snd (DerivIntegration.handleCandleData_resume env c w)))
  = candlesReceived (stats w)
  /\ analysed (logged (snd (DerivIntegration.handleCandleData_resume env c w)))
     = analysed (logged w)
       ++ (if Z.rem (candlesReceived (stats w)) 5 =? 0 then [cd_symbol c] else [])
  /\ aiAnalysisCount (stats (snd (DerivIntegration.handleCandleData_resume env c w)))
     = aiAnalysisCount (stats w)
       + len (if Z.rem (candlesReceived (stats w)) 5 =? 0
              then [cd_symbol c] else []).
Proof.
  unfold DerivIntegration.handleCandleData_resume, bind,
    DerivIntegration.shouldAnalyzeCandle, gets.
  cbv beta iota.
  destruct (Z.rem (candlesReceived (stats w)) 5 =? 0); cbn [when].
  - pose proof (analyzeWithAI_sampling (cd_symbol c) w _ eq_refl) as H3.
    destruct (DerivIntegration.analyzeWithAI env (cd_symbol c) w) as [u' w3].
    cbn [snd] in H3. destruct H3 as (A3 & B3 & C3). cbv beta iota.
    destruct (sampling_io_emit (candle_update (cd_symbol c) (cd_timestamp c)) w3)
      as (A4 & B4 & C4).
    change (len [cd_symbol c]) with 1.
    rewrite A4, B4, C4. repeat split; congruence.
  - unfold ret. cbv beta iota.
    destruct (sampling_io_emit (candle_update (cd_symbol c) (cd_timestamp c)) w)
      as (A4 & B4 & C4).
    change (len (@nil string)) with 0. rewrite app_nil_r, Z.add_0_r.
    rewrite A4, B4, C4. repeat split; congruence.
Qed.

(** Any schedule, from any state: the events are counted as they arrive and
    the analyses started are those of [sampled_at_settle]. *)
Lemma candle_steps_sampling (steps : list DerivIntegration.candle_step) :
  forall (w : world) (waiting : list candle_data),
    candlesReceived
      (stats (fst (fold_left (DerivIntegration.candle_step_run env) steps
                     (w, waiting))))
    = candlesReceived (stats w) + len (arrivals steps)
    /\ analysed
         (logged (fst (fold_left (DerivIntegration.candle_step_run env) steps
                         (w, waiting))))
       = analysed (logged w)
         ++ sampled_at_settle (candlesReceived (stats w)) waiting steps
    /\ aiAnalysisCount
         (stats (fst (fold_left (DerivIntegration.candle_step_run env) steps
                        (w, waiting))))
       = aiAnalysisCount (stats w)
         + len (sampled_at_settle (candlesReceived (stats w)) waiting steps).
Proof.
  induction steps as [|e steps IH]; intros w waiting.
  - cbn. rewrite app_nil_r. repeat split; lia.
  - destruct e as [c|k]; cbn [fold_left DerivIntegration.candle_step_run
                                sampled_at_settle arrivals].
    + destruct (handleCandleData_begin_sampling c w) as (A & B & C).
      destruct (IH (snd (DerivIntegration.handleCandleData_begin env c w))
                   (waiting ++ [c])) as (A' & B' & C').
      rewrite A', B', C', A, B, C.
      change (len (c :: arrivals steps)) with (len ([c] ++ arrivals steps)).
      rewrite len_app. change (len [c]) with 1.
      repeat split; lia.
    + destruct (nth_error waiting k) as [c|]; [|apply IH].
      destruct (handleCandleData_resume_sampling c w) as (A & B & C).
      destruct (IH (snd (DerivIntegration.handleCandleData_resume env c w))
                   (DerivIntegration.remove_nth k waiting)) as (A' & B' & C').
      rewrite A', B', C', A, B, C.
      rewrite len_app, <- app_assoc. repeat split; lia.
Qed.





End Sampling.


Lemma sampled_arrive_all (events : list candle_data)
  (rest : list DerivIntegration.candle_step) :
  forall (count : Z) (waiting : list candle_data),
    sampled_at_settle count waiting (map DerivIntegration.arrives events ++ rest)
    = sampled_at_settle (count + len events) (waiting ++ events) rest.
Proof.
  induction events as [|c events IH]; intros count waiting.
  - cbn. now rewrite Z.add_0_r, app_nil_r.
  - cbn [map app sampled_at_settle]. rewrite IH, <- app_assoc.
    change (len (c :: events)) with (len ([c] ++ events)).
    rewrite len_app. change (len [c]) with 1.
    f_equal. lia.
Qed.

Lemma sampled_settle_all {A : Type} (count : Z) (l : list A) :
  forall waiting : list candle_data,
    List.length l = List.length waiting ->
    sampled_at_settle count waiting (map (fun _ => DerivIntegration.settles 0) l)
    = if Z.rem count 5 =? 0 then map cd_symbol waiting else [].
Proof.
  induction l as [|x l IH]; intros waiting H.
  - destruct waiting; [|discriminate]. now destruct (Z.rem count 5 =? 0).
  - destruct waiting as [|c waiting]; [discriminate|].
    cbn [map sampled_at_settle nth_error DerivIntegration.remove_nth
         firstn skipn app].
    rewrite IH by (cbn in H; congruence).
    now destruct (Z.rem count 5 =? 0).
Qed.

Lemma sampled_together (count : Z) (events : list candle_data) :
  sampled_at_settle count [] (together events)
  = if Z.rem (count + len events) 5 =? 0 then map cd_symbol events else [].
Proof.
  unfold together. rewrite sampled_arrive_all. cbn [app].
  apply sampled_settle_all. reflexivity.
Qed.

Lemma one_in_five (count : Z) (events : list candle_data) :
  0 <= count -> len events = 5 ->
  exists e, In e events /\ sampled count events = [cd_symbol e].
Proof.
  intros Hc Hl.
  destruct events as [|e1 [|e2 [|e3 [|e4 [|e5 [|e6 r]]]]]];
    try (unfold len in Hl; cbn [List.length] in Hl; lia).
  cbn [sampled]. rewrite app_nil_r.
  rewrite !Z.rem_mod_nonneg by lia.
  destruct (Z.eqb_spec ((count + 1) mod 5) 0) as [H1|H1];
  destruct (Z.eqb_spec ((count + 1 + 1) mod 5) 0) as [H2|H2];
  destruct (Z.eqb_spec ((count + 1 + 1 + 1) mod 5) 0) as [H3|H3];
  destruct (Z.eqb_spec ((count + 1 + 1 + 1 + 1) mod 5) 0) as [H4|H4];
  destruct (Z.eqb_spec ((count + 1 + 1 + 1 + 1 + 1) mod 5) 0) as [H5|H5];
    try (exfalso; clear - Hc H1 H2 H3 H4 H5; Z.div_mod_to_equations; lia);
    cbn [app].
  - exists e1. split; [simpl; tauto | reflexivity].
  - exists e2. split; [simpl; tauto | reflexivity].
  - exists e3. split; [simpl; tauto | reflexivity].
  - exists e4. split; [simpl; tauto | reflexivity].
  - exists e5. split; [simpl; tauto | reflexivity].
Qed.

(** When the candle events are handled one after the other, an analysis is
    started for the symbol of exactly those events that bring
    [stats.candlesReceived] to a multiple of 5, so that any five consecutive
    candle events start exactly one analysis, for the symbol of one of
    them. *)
Theorem handleCandles_sample_every_fifth
  (env : Env) (events : list candle_data) (w : world) :
  0 <= candlesReceived (stats w) ->
  let w' := snd (DerivIntegration.handleCandles env events w) in
  candlesReceived (stats w') = candlesReceived (stats w) + len events
  /\ analysed (logged w')
     = analysed (logged w) ++ sampled (candlesReceived (stats w)) events
  /\ aiAnalysisCount (stats w')
     = aiAnalysisCount (stats w)
       + len (sampled (candlesReceived (stats w)) events)
  /\ (len events = 5 ->
      exists e, In e events
                /\ sampled (candlesReceived (stats w)) events = [cd_symbol e]).
Proof.
  intros Hc w'.
  destruct (handleCandles_sampling env events w w' eq_refl) as (A & B & C).
  repeat split; auto. intros Hl. now apply one_in_five.
Qed.

Lemma handleCandles_sample_every_fifth_witness :
  let w := fresh_world [] [] in
  let w' := snd (DerivIntegration.handleCandles sample_env five_eurusd w) in
  candlesReceived (stats w') = candlesReceived (stats w) + len five_eurusd
  /\ analysed (logged w')
     = analysed (logged w) ++ sampled (candlesReceived (stats w)) five_eurusd
  /\ aiAnalysisCount (stats w')
     = aiAnalysisCount (stats w)
       + len (sampled (candlesReceived (stats w)) five_eurusd)
  /\ (len five_eurusd = 5 ->
      exists e, In e five_eurusd
                /\ sampled (candlesReceived (stats w)) five_eurusd = [cd_symbol e]).
Proof.
  apply (handleCandles_sample_every_fifth sample_env five_eurusd
           (fresh_world [] [])).
  vm_compute. discriminate.
Defined.


(** Five candles of one ['candles'] message: each of the five handlers finds
    the counter at 5 and starts an analysis, where the sequential run of the
    same events starts one. *)
Example five_candles_together :
  let w' := fst (DerivIntegration.run_candle_steps sample_env
                   (together five_eurusd) (fresh_world [] [])) in
  aiAnalysisCount (stats w') = 5
  /\ aiAnalysisCount
       (stats (snd (DerivIntegration.handleCandles sample_env five_eurusd
                      (fresh_world [] [])))) = 1.
Proof.
  intros w'. split.
  - destruct (candle_steps_sampling sample_env (together five_eurusd)
                (fresh_world [] []) []) as (_ & _ & C).
    unfold w', DerivIntegration.run_candle_steps. rewrite C.
    rewrite sampled_together. reflexivity.
  - destruct (handleCandles_sampling sample_env five_eurusd (fresh_world [] [])
                _ eq_refl) as (_ & _ & C).
    rewrite C. reflexivity.
Qed.


(* ===================================================================== *)
(** ** The daily cap of the automatic trade cycle *)
(* ===================================================================== *)

Lemma count_daily_trades_of (today uid : Z) (t : list trade_row) :
  count_daily_trades today uid t
  = len (filter (fun r => created_on r =? today) (trades_of uid t)).
Proof.
  unfold count_daily_trades, trades_of. f_equal.
  induction t as [|r t IH]; simpl; [reflexivity|].
  destruct (t_user_id r =? uid); simpl; [|exact IH].
  destruct (created_on r =? today); simpl; now rewrite IH.
Qed.

Section DailyCap.

Variable env : Env.
Variable symbol : string.
Variable a : analysis.

Lemma select_active_users_active (t : list account_row) (u : account_row) :
  In u (select_active_users t) -> trading_active u = true /\ ai_active u = true.
Proof.
  unfold select_active_users. rewrite filter_In, !andb_true_iff. tauto.
Qed.

(** A user at the cap whose count query is answered is skipped: two log
    lines and one query. *)
Lemma autoTradeUser_capped (user : account_row) (w : world) :
  trading_active user = true -> ai_active user = true ->
  max_daily_trades user <> -1 ->
  max_daily_trades user
  <= count_daily_trades (CURDATE env) (u_id user) (trades w) ->
  query_fails env (queries w) = false ->
  DerivIntegration.autoTradeUser env symbol a user w = (tt, skipped symbol user w).
Proof.
  intros Ht Ha Hs Hc Hq. unfold DerivIntegration.autoTradeUser.
  rewrite Ht, Ha. cbn [negb orb].
  unfold bind at 1, logger, modify.
  unfold bind at 1, DerivIntegration.getUserDailyTrades, bind, database_query.
  cbn [queries set_logged]. rewrite Hq.
  unfold gets, ret. cbn [trades set_queries set_logged].
  destruct (Z.geb_spec (count_daily_trades (CURDATE env) (u_id user) (trades w))
              (max_daily_trades user)); [|lia].
  destruct (Z.eqb_spec (max_daily_trades user) (-1)); [contradiction|].
  reflexivity.
Qed.

Lemma same_trades_of_other (uid : Z) (user : account_row) :
  u_id user <> uid ->
  forall row w, t_user_id row = u_id user ->
                same_trades_of uid w (set_trades (push (trades w) row) w).
Proof.
  intros Hne row w Hrow. unfold same_trades_of, trades_of. cbn. unfold push.
  rewrite filter_app. simpl.
  destruct (Z.eqb_spec (t_user_id row) uid); [congruence|].
  apply app_nil_r.
Qed.

(** The iteration of another user leaves the trades of [uid] alone,
    whatever the store does. *)
Lemma autoTradeUser_other (uid : Z) (user : account_row) (w : world) :
  u_id user <> uid ->
  same_trades_of uid w (snd (DerivIntegration.autoTradeUser env symbol a user w)).
Proof.
  intros Hne.
  eapply keeps_autoTradeUser with (R := same_trades_of uid);
    try (intros; reflexivity).
  - unfold same_trades_of. intros w1 w2 w3 H1 H2. congruence.
  - now apply same_trades_of_other.
Qed.

Lemma loop_other_users (uid : Z) (users : list account_row) (w : world) :
  (forall u, In u users -> u_id u <> uid) ->
  same_trades_of uid w
    (snd (for_of users (DerivIntegration.autoTradeUser env symbol a) w)).
Proof.
  intros H. revert w.
  change (keeps (same_trades_of uid)
            (for_of users (DerivIntegration.autoTradeUser env symbol a))).
  eapply keeps_for_of with (R := same_trades_of uid).
  - intros w. reflexivity.
  - unfold same_trades_of. intros w1 w2 w3 H1 H2. congruence.
  - intros u Hu w. apply autoTradeUser_other. now apply H.
Qed.

Lemma log_grows_refl (w : world) : log_grows w w.
Proof. exists []. now rewrite app_nil_r. Qed.

Lemma log_grows_trans (w1 w2 w3 : world) :
  log_grows w1 w2 -> log_grows w2 w3 -> log_grows w1 w3.
Proof.
  intros [l1 E1] [l2 E2]. exists (l1 ++ l2). now rewrite E2, E1, app_assoc.
Qed.

Ltac log_frame :=
  try exact log_grows_refl; try exact log_grows_trans;
  try (intros; exists []; cbn; now rewrite app_nil_r);
  try (intros; eexists; cbn [logged set_logged]; unfold push; reflexivity).

Lemma log_grows_In (w w' : world) (e : log_entry) :
  log_grows w w' -> In e (logged w) -> In e (logged w').
Proof. intros [l E] H. rewrite E. apply in_or_app. now left. Qed.

Lemma autoTradeUser_log_grows (user : account_row) (w : world) :
  log_grows w (snd (DerivIntegration.autoTradeUser env symbol a user w)).
Proof. eapply keeps_autoTradeUser with (R := log_grows); log_frame. Qed.

Lemma loop_log_grows (users : list account_row) (w : world) :
  log_grows w (snd (for_of users (DerivIntegration.autoTradeUser env symbol a) w)).
Proof.
  revert w. induction users as [|u users IH]; intros w.
  - apply log_grows_refl.
  - rewrite for_of_cons. eapply log_grows_trans; [|apply IH].
    apply autoTradeUser_log_grows.
Qed.

(** The turn of an active user starts with the line that announces it. *)
Lemma autoTradeUser_announces (user : account_row) (w : world) :
  trading_active user = true -> ai_active user = true ->
  In (log_auto_trade (u_id user) symbol)
     (logged (snd (DerivIntegration.autoTradeUser env symbol a user w))).
Proof.
  intros Ht Ha.
  pose (w0 := set_logged (push (logged w) (log_auto_trade (u_id user) symbol)) w).
  assert (Hin : In (log_auto_trade (u_id user) symbol) (logged w0)).
  { unfold w0, push. cbn [logged set_logged]. apply in_or_app. right. now left. }
  assert (Hrest : forall (k : M unit), keeps log_grows k ->
            In (log_auto_trade (u_id user) symbol) (logged (snd (k w0)))).
  { intros k Hk. eapply log_grows_In; [apply Hk | exact Hin]. }
  unfold DerivIntegration.autoTradeUser. rewrite Ht, Ha. cbn [negb orb].
  unfold bind at 1, logger, modify. fold w0.
  apply Hrest.
  eapply keeps_bind with (R := log_grows); log_frame.
  - eapply keeps_getUserDailyTrades with (R := log_grows); log_frame.
  - intros dailyTrades.
    destruct ((dailyTrades >=? max_daily_trades user)
              && negb (max_daily_trades user =? -1)).
    + intros w1. log_frame.
    + eapply keeps_bind with (R := log_grows); log_frame.
      * eapply keeps_executeTrade with (R := log_grows); log_frame.
      * intros tradeResult.
        eapply keeps_when with (R := log_grows); log_frame.
        eapply keeps_bind with (R := log_grows); log_frame.
        intros _. eapply keeps_io_emit with (R := log_grows); log_frame.
Qed.

(** Every active user of the list has a turn. *)
Lemma loop_announces (users : list account_row) : forall (w : world) (u : account_row),
  (forall x, In x users -> trading_active x = true /\ ai_active x = true) ->
  In u users ->
  In (log_auto_trade (u_id u) symbol)
     (logged (snd (for_of users (DerivIntegration.autoTradeUser env symbol a) w))).
Proof.
  induction users as [|x users IH]; intros w u Hact Hu; [contradiction|].
  rewrite for_of_cons. destruct Hu as [->|Hu].
  - eapply log_grows_In; [apply loop_log_grows|].
    apply autoTradeUser_announces; apply Hact; now left.
  - apply IH; [|exact Hu]. intros y Hy. apply Hact. now right.
Qed.

(** When the query for the users is answered, the cycle is the loop over
    the active users. *)
Lemma executeAutoTrade_unfold (w : world) :
  query_fails env (queries w) = false ->
  DerivIntegration.executeAutoTrade env symbol a w
  = for_of (select_active_users (accounts w))
      (DerivIntegration.autoTradeUser env symbol a) (after_query w).
Proof.
  intros Hq.
  unfold DerivIntegration.executeAutoTrade, bind,
    DerivIntegration.getActiveUsers, bind, database_query.
  rewrite Hq. reflexivity.
Qed.

End DailyCap.

(** C8 (as amended). Let [user] be one of the users that [executeAutoTrade]
    iterates over (the query for the users is answered), with a cap other
    than -1 that the number of the user's trades today has reached when the
    user's turn comes, and let the count query of that turn be answered.
    Then the turn inserts no trade: its only effects are the two log lines
    and the count query.  The loop goes on from there with the remaining
    users, each of whom has a turn.  When no other row of the list is of
    this user, the user's trades at the turn are those at the start of the
    cycle, and so are the user's trades at its end. *)
Theorem executeAutoTrade_skips_capped
  (env : Env) (symbol : string) (a : analysis) (w : world)
  (before : list account_row) (user : account_row) (rest : list account_row) :
  query_fails env (queries w) = false ->
  select_active_users (accounts w) = before ++ user :: rest ->
  max_daily_trades user <> -1 ->
  max_daily_trades user
  <= count_daily_trades (CURDATE env) (u_id user)
       (trades (snd (for_of before (DerivIntegration.autoTradeUser env symbol a)
                       (after_query w)))) ->
  query_fails env
    (queries (snd (for_of before (DerivIntegration.autoTradeUser env symbol a)
                     (after_query w)))) = false ->
  let body := DerivIntegration.autoTradeUser env symbol a in
  let w1 := snd (for_of before body (after_query w)) in
  let w' := snd (DerivIntegration.executeAutoTrade env symbol a w) in
  body user w1 = (tt, skipped symbol user w1)
  /\ trades (skipped symbol user w1) = trades w1
  /\ w' = snd (for_of rest body (skipped symbol user w1))
  /\ (forall u, In u rest -> In (log_auto_trade (u_id u) symbol) (logged w'))
  /\ ((forall u, In u (before ++ rest) -> u_id u <> u_id user) ->
      trades_of (u_id user) (trades w1) = trades_of (u_id user) (trades w)
      /\ trades_of (u_id user) (trades w') = trades_of (u_id user) (trades w)).
Proof.
  intros Hq Hsplit Hs Hc Hq1 body w1 w'.
  assert (Hact : forall x, In x (before ++ user :: rest) ->
                           trading_active x = true /\ ai_active x = true).
  { intros x Hx. rewrite <- Hsplit in Hx.
    now apply select_active_users_active in Hx. }
  destruct (Hact user) as [At Aa]; [apply in_or_app; right; now left|].
  assert (E2 : body user w1 = (tt, skipped symbol user w1)).
  { apply autoTradeUser_capped; auto. }
  assert (E3 : w' = snd (for_of rest body (skipped symbol user w1))).
  { unfold w'. rewrite executeAutoTrade_unfold by exact Hq.
    rewrite Hsplit, for_of_app, for_of_cons.
    unfold w1, body in *. now rewrite E2. }
  split; [exact E2|]. split; [reflexivity|]. split; [exact E3|]. split.
  - intros u Hu. rewrite E3. apply loop_announces; [|exact Hu].
    intros x Hx. apply Hact. apply in_or_app. right. now right.
  - intros Hother.
    assert (E1 : trades_of (u_id user) (trades w1)
                 = trades_of (u_id user) (trades w)).
    { apply (loop_other_users env symbol a (u_id user) before (after_query w)).
      intros u Hu. apply Hother. apply in_or_app. now left. }
    split; [exact E1|]. rewrite E3.
    transitivity (trades_of (u_id user) (trades (skipped symbol user w1)));
      [|exact E1].
    apply (loop_other_users env symbol a (u_id user) rest
             (skipped symbol user w1)).
    intros u Hu. apply Hother. apply in_or_app. now right.
Qed.

Lemma executeAutoTrade_skips_capped_witness :
  let body := DerivIntegration.autoTradeUser sample_env "EURUSD" buy_signal in
  let w1 := snd (for_of [] body (after_query cap_world)) in
  let w' := snd (DerivIntegration.executeAutoTrade sample_env "EURUSD"
                   buy_signal cap_world) in
  select_active_users (accounts cap_world) = [] ++ capped_user :: [eligible_user]
  /\ max_daily_trades capped_user
     <= count_daily_trades (CURDATE sample_env) (u_id capped_user) (trades w1)
  /\ body capped_user w1 = (tt, skipped "EURUSD" capped_user w1)
  /\ trades (skipped "EURUSD" capped_user w1) = trades w1
  /\ w' = snd (for_of [eligible_user] body (skipped "EURUSD" capped_user w1))
  /\ (forall u, In u [eligible_user] ->
                In (log_auto_trade (u_id u) "EURUSD") (logged w'))
  /\ ((forall u, In u ([] ++ [eligible_user]) -> u_id u <> u_id capped_user) ->
      trades_of (u_id capped_user) (trades w1)
      = trades_of (u_id capped_user) (trades cap_world)
      /\ trades_of (u_id capped_user) (trades w')
         = trades_of (u_id capped_user) (trades cap_world)).
Proof.
  intros body w1 w'.
  split; [vm_compute; reflexivity|].
  split; [vm_compute; discriminate|].
  apply (executeAutoTrade_skips_capped sample_env "EURUSD" buy_signal cap_world
           [] capped_user [eligible_user]).
  - reflexivity.
  - vm_compute. reflexivity.
  - vm_compute. discriminate.
  - vm_compute. discriminate.
  - reflexivity.
Defined.

(** The count query of user 1, who has one trade today and a cap of 1,
    throws: [getUserDailyTrades] reports 0 and user 1 is traded again. *)
Lemma failed_count_query_counterexample :
  let w' := snd (DerivIntegration.executeAutoTrade second_query_fails "EURUSD"
                   buy_signal cap_world) in
  select_active_users (accounts cap_world) = [capped_user; eligible_user]
  /\ max_daily_trades capped_user <> -1
  /\ max_daily_trades capped_user
     <= count_daily_trades (CURDATE second_query_fails) (u_id capped_user)
          (trades cap_world)
  /\ map t_user_id (trades cap_world) = [1]
  /\ map t_user_id (trades w') = [1; 1; 2]
  /\ trades_of (u_id capped_user) (trades w')
     <> trades_of (u_id capped_user) (trades cap_world).
Proof.
  intros w'.
  split; [vm_compute; reflexivity|].
  split; [vm_compute; discriminate|].
  split; [vm_compute; discriminate|].
  split; [vm_compute; reflexivity|].
  split; [vm_compute; reflexivity|].
  intros E. apply (f_equal (@List.length trade_row)) in E.
  vm_compute in E. discriminate.
Qed.

(** The cycle on [cap_world]: user 1 is skipped and user 2 gets a demo
    trade. *)
Example executeAutoTrade_two_users :
  let w' := snd (DerivIntegration.executeAutoTrade sample_env "EURUSD"
                   buy_signal cap_world) in
  map t_user_id (trades w') = [1; 2]
  /\ tradesExecuted (stats w') = 1
  /\ logged w' = [ log_auto_trade 1 "EURUSD"; log_daily_limit 1;
                   log_auto_trade 2 "EURUSD" ].
Proof. vm_compute. repeat split. Qed.

(* ===================================================================== *)
(** ** Runs on small inputs *)
(* ===================================================================== *)

Example SMA_values :
  SMA (map of_Z [1; 2; 3; 6]) 2 = [Fin (3 # 2); Fin (5 # 2); Fin (9 # 2)].
Proof. vm_compute. reflexivity. Qed.

(** Sixteen equal prices and a rise: the seed averages are both 0, and so
    are the averages of the next iteration; the quotients are 0/0. *)
Example RSI_flat_seed :
  RSI (map of_Z [1; 1; 1; 1; 1; 1; 1; 1; 1; 1; 1; 1; 1; 1; 1; 1; 2]) 14
  = [NaN; NaN].
Proof. vm_compute. reflexivity. Qed.

(** Prices that only rise: the average loss is 0 and every value is 100. *)
Example RSI_rising :
  RSI (map of_Z [1; 2; 3; 4; 5; 6; 7; 8; 9; 10; 11; 12; 13; 14; 15; 16; 17]) 14
  = [Fin 100; Fin 100].
Proof. vm_compute. reflexivity. Qed.

(** The alignment of [MACD] on a short series: [fastEMA.slice(sizeDiff)]
    with a negative [sizeDiff] keeps the last [-sizeDiff] values. *)
Example MACD_lengths :
  let m := MACD (map of_Z [1; 2; 3; 4; 5; 7; 9]) 2 4 2 in
  (len (macd_line m), len (macd_signal m), len (macd_histogram m)) = (1, 1, 1).
Proof. vm_compute. reflexivity. Qed.

(** Three stored candles come back oldest first. *)
Example getMarketData_three_rows :
  map timestamp
    (fst (ForexAI.getMarketData sample_env "EURUSD" "5m" 200
            (fresh_world (rev three_rows) [])))
  = [1000; 1300; 1600].
Proof. vm_compute. reflexivity. Qed.

(** A failing query makes [getMarketData] fabricate [limit] candles. *)
Example getMarketData_query_throws :
  let env := mkEnv (fun x => x) (fun _ => dec 5 1) 1700000000000 19675
               (fun _ => true) (fun _ => None) (dec 75 2) true false true in
  map timestamp
    (fst (ForexAI.getMarketData env "EURUSD" "5m" 3 (fresh_world three_rows [])))
  = [1700000000000 - 900000; 1700000000000 - 600000; 1700000000000 - 300000].
Proof. vm_compute. reflexivity. Qed.

(** The feed disconnects and five attempts fail: what the client does. *)
Example five_failures_effects :
  let c := DerivAPI.run five_failures DerivAPI.new_client in
  DerivAPI.reconnectAttempts c = 5
  /\ DerivAPI.reconnections (DerivAPI.effects c) = [5000; 5000; 5000; 5000; 5000]
  /\ List.length (filter (fun e => match e with
                                   | DerivAPI.new_WebSocket => true
                                   | _ => false
                                   end) (DerivAPI.effects c)) = 5%nat
  /\ filter (fun t => match t with
                      | DerivAPI.reconnect_timer _ => true
                      | _ => false
                      end) (DerivAPI.pending c) = [].
Proof. vm_compute. repeat split. Qed.

(* ===================================================================== *)
(** ** Arrays: further facts *)
(* ===================================================================== *)

Lemma get_app_l {A : Type} (l1 l2 : list A) (i : Z) :
  i < len l1 -> get (l1 ++ l2) i = get l1 i.
Proof.
  intros H. unfold get. destruct (Z.ltb_spec i 0); [reflexivity|].
  apply nth_error_app1. unfold len in H. lia.
Qed.

Lemma get_push_last {A : Type} (l : list A) (x : A) :
  get (push l x) (len l) = Some x.
Proof.
  unfold push. rewrite get_app_r by lia. rewrite Z.sub_diag. reflexivity.
Qed.

Lemma get_outside {A : Type} (l : list A) (i : Z) :
  i < 0 \/ len l <= i -> get l i = None.
Proof.
  intros H. unfold get. destruct (Z.ltb_spec i 0); [reflexivity|].
  apply nth_error_None. unfold len in H. lia.
Qed.

Lemma get_skipn {A : Type} (l : list A) (k : nat) (i : Z) :
  0 <= i -> get (skipn k l) i = get l (Z.of_nat k + i).
Proof.
  intros Hi. unfold get.
  destruct (Z.ltb_spec i 0); [lia|].
  destruct (Z.ltb_spec (Z.of_nat k + i) 0); [lia|].
  rewrite nth_error_skipn. f_equal. lia.
Qed.

Lemma get_firstn {A : Type} (l : list A) (k : nat) (i : Z) :
  i < Z.of_nat k -> get (firstn k l) i = get l i.
Proof.
  intros Hi. unfold get. destruct (Z.ltb_spec i 0); [reflexivity|].
  rewrite nth_error_firstn. destruct (Nat.ltb_spec (Z.to_nat i) k); [reflexivity|lia].
Qed.

Lemma get_In {A : Type} (l : list A) (i : Z) (x : A) :
  get l i = Some x -> In x l.
Proof.
  unfold get. destruct (i <? 0); [discriminate|]. apply nth_error_In.
Qed.

Lemma In_get {A : Type} (l : list A) (x : A) :
  In x l -> exists i, 0 <= i < len l /\ get l i = Some x.
Proof.
  intros H. apply In_nth_error in H. destruct H as [n H].
  exists (Z.of_nat n). split.
  - split; [lia|]. unfold len.
    assert (n < List.length l)%nat by (apply nth_error_Some; congruence). lia.
  - unfold get. destruct (Z.ltb_spec (Z.of_nat n) 0); [lia|].
    now rewrite Nat2Z.id.
Qed.

Lemma at_app_l (l1 l2 : list num) (i : Z) :
  i < len l1 -> at_ (l1 ++ l2) i = at_ l1 i.
Proof. intros H. unfold at_. now rewrite get_app_l. Qed.

Lemma at_push_l (l : list num) (x : num) (i : Z) :
  i < len l -> at_ (push l x) i = at_ l i.
Proof. apply at_app_l. Qed.

Lemma at_push_last (l : list num) (x : num) : at_ (push l x) (len l) = x.
Proof. unfold at_. now rewrite get_push_last. Qed.

(** [arr.slice(start)] for a start inside the array, and [arr.slice(-k)]
    for [k] not larger than the array. *)
Lemma slice_from_inside {A : Type} (l : list A) (a : Z) :
  0 <= a <= len l -> slice_from l a = skipn (Z.to_nat a) l.
Proof.
  intros Ha. unfold slice_from. rewrite slice_inside by lia.
  apply firstn_all2. rewrite length_skipn. unfold len in *. lia.
Qed.

Lemma slice_from_end {A : Type} (l : list A) (k : Z) :
  0 < k <= len l -> slice_from l (- k) = skipn (Z.to_nat (len l - k)) l.
Proof.
  intros Hk. unfold slice_from, slice, clamp_index.
  destruct (Z.ltb_spec (- k) 0); [|lia].
  destruct (Z.ltb_spec (len l) 0); [lia|].
  rewrite Z.max_l by lia. rewrite Z.min_id.
  replace (len l + - k) with (len l - k) by lia.
  apply firstn_all2. rewrite length_skipn. unfold len in *. lia.
Qed.

Lemma slice_from_short {A : Type} (l : list A) (k : Z) :
  len l <= k -> slice_from l (- k) = l.
Proof.
  intros Hk. pose proof (len_nonneg l) as Hl.
  unfold slice_from, slice, clamp_index.
  destruct (Z.ltb_spec (len l) 0); [lia|]. rewrite Z.min_id.
  destruct (Z.ltb_spec (- k) 0).
  - rewrite Z.max_r by lia. rewrite Z.sub_0_r. cbn [Z.to_nat skipn].
    apply firstn_all2. unfold len. lia.
  - assert (len l = 0) as E by lia. destruct l.
    + rewrite skipn_nil. now rewrite firstn_nil.
    + unfold len in E. cbn in E. lia.
Qed.

Lemma In_prefix {A : Type} (x : A) (n : nat) : forall l : list A,
  In x (firstn n l) -> In x l.
Proof.
  induction n; intros [|y l] H; cbn in *; try contradiction.
  destruct H; [now left | right; auto].
Qed.

Lemma In_suffix {A : Type} (x : A) (n : nat) : forall l : list A,
  In x (skipn n l) -> In x l.
Proof.
  induction n; intros [|y l] H; cbn in *; try contradiction; auto.
Qed.

Lemma slice_incl {A : Type} (l : list A) (a b : Z) (x : A) :
  In x (slice l a b) -> In x l.
Proof.
  unfold slice. intros H. apply In_prefix in H. now apply In_suffix in H.
Qed.

Lemma slice_length_le {A : Type} (l : list A) (k : Z) :
  0 < k -> len (slice_from l (- k)) <= k.
Proof.
  intros Hk. destruct (Z.le_gt_cases (len l) k).
  - now rewrite slice_from_short.
  - rewrite slice_from_end by lia. unfold len in *. rewrite length_skipn. lia.
Qed.

(* ===================================================================== *)
(** ** EMA and MACD *)
(* ===================================================================== *)

Lemma EMA_shape (data : list num) (period : Z) :
  len (EMA data period) = 1 + Z.max 0 (len data - period)
  /\ at_ (EMA data period) 0 = (sum (slice data 0 period) / of_Z period)%num
  /\ forall i : Z,
       1 <= i <= len data - period ->
       at_ (EMA data period) i
       = ((at_ data (i + period - 1) - at_ (EMA data period) (i - 1))
          * multiplier period
          + at_ (EMA data period) (i - 1))%num.
Proof.
  unfold EMA, for_range. fold (multiplier period).
  set (seed := (sum (slice data 0 period) / of_Z period)%num).
  set (body := fun (i : Z) (ema : list num) =>
                 push ema ((at_ data (i + period - 1) - at_ ema (i - 1))
                           * multiplier period + at_ ema (i - 1))%num).
  set (n := Z.to_nat (len data - period + 1 - 1)).
  assert (len (for_loop n 1 body [seed]) = 1 + Z.of_nat n
          /\ at_ (for_loop n 1 body [seed]) 0 = seed
          /\ forall i : Z,
               1 <= i <= Z.of_nat n ->
               at_ (for_loop n 1 body [seed]) i
               = ((at_ data (i + period - 1) - at_ (for_loop n 1 body [seed]) (i - 1))
                  * multiplier period
                  + at_ (for_loop n 1 body [seed]) (i - 1))%num) as H.
  { apply (for_loop_invariant
             (fun k st =>
                len st = 1 + Z.of_nat k
                /\ at_ st 0 = seed
                /\ forall i : Z,
                     1 <= i <= Z.of_nat k ->
                     at_ st i
                     = ((at_ data (i + period - 1) - at_ st (i - 1))
                        * multiplier period + at_ st (i - 1))%num)).
    - repeat split. intros i Hi. lia.
    - intros k st Hk (Hl & H0 & Hr). unfold body.
      split; [rewrite len_push; lia|].
      split; [rewrite at_push_l by lia; exact H0|].
      intros i Hi.
      destruct (Z.eq_dec i (Z.of_nat (S k))) as [->|Hne].
      + replace (Z.of_nat (S k)) with (len st) by lia.
        rewrite (at_push_last st).
        rewrite at_push_l by lia.
        replace (1 + Z.of_nat k - 1) with (len st - 1) by lia.
        replace (1 + Z.of_nat k + period - 1) with (len st + period - 1) by lia.
        reflexivity.
      + rewrite !at_push_l by lia. apply Hr. lia. }
  destruct H as (Hl & H0 & Hr).
  split; [rewrite Hl; unfold n; lia|].
  split; [exact H0|].
  intros i Hi. apply Hr. unfold n. lia.
Qed.

Lemma EMA_length (data : list num) (period : Z) :
  len (EMA data period) = 1 + Z.max 0 (len data - period).
Proof. apply EMA_shape. Qed.

(** X1. [EMA(data, period)] always returns [1 + max(0, data.length - period)]
    values: its first value is the sum of the first [period] prices divided
    by [period] (the first SMA value when the data is long enough, a value
    all the same when it is shorter or empty), and every later value is
    [(data[i + period - 1] - ema[i - 1]) * 2 / (period + 1) + ema[i - 1]]. *)
Theorem EMA_length_seed_recurrence (data : list num) (period : Z) :
  len (EMA data period) = 1 + Z.max 0 (len data - period)
  /\ at_ (EMA data period) 0 = (sum (slice data 0 period) / of_Z period)%num
  /\ (1 <= period <= len data ->
      at_ (EMA data period) 0 = at_ (SMA data period) 0)
  /\ forall i : Z,
       1 <= i <= len data - period ->
       at_ (EMA data period) i
       = ((at_ data (i + period - 1) - at_ (EMA data period) (i - 1))
          * multiplier period
          + at_ (EMA data period) (i - 1))%num.
Proof.
  destruct (EMA_shape data period) as (Hl & H0 & Hr).
  split; [exact Hl|]. split; [exact H0|]. split; [|exact Hr].
  intros Hp. rewrite H0, SMA_unfold. unfold at_.
  rewrite get_map, zseq_get by lia. cbn [option_map].
  replace (period - 1 + 0 - period + 1) with 0 by lia.
  replace (period - 1 + 0 + 1) with period by lia. reflexivity.
Qed.

Lemma Qsum_bounds (lo hi : Q) (qs : list Q) :
  Forall (fun q => lo <= q <= hi)%Q qs ->
  (inject_Z (len qs) * lo <= Qsum qs <= inject_Z (len qs) * hi)%Q.
Proof.
  induction 1 as [|q qs Hq _ IH].
  - change (inject_Z (len (@nil Q))) with 0%Q. unfold Qsum. cbn [fold_right]. lra.
  - replace (len (q :: qs)) with (len qs + 1) by (unfold len; cbn [List.length]; lia).
    rewrite inject_Z_plus. unfold Qsum in *. cbn [fold_right].
    change (inject_Z 1) with 1%Q.
    revert IH. generalize (inject_Z (len qs)). intros z IH. nra.
Qed.

Lemma mean_within (lo hi : Q) (qs : list Q) (p : Z) :
  0 < p -> len qs = p ->
  Forall (fun q => lo <= q <= hi)%Q qs ->
  (lo <= Qsum qs / inject_Z p <= hi)%Q.
Proof.
  intros Hp Hl H. apply Qsum_bounds in H. rewrite Hl in H.
  assert (0 < inject_Z p)%Q as Hq.
  { replace 0%Q with (inject_Z 0) by reflexivity. rewrite <- Zlt_Qlt. exact Hp. }
  split.
  - apply Qle_shift_div_l; [exact Hq|]. lra.
  - apply Qle_shift_div_r; [exact Hq|]. lra.
Qed.

Lemma multiplier_fin (period : Z) :
  1 <= period -> exists m, multiplier period = Fin m /\ (0 < m <= 1)%Q.
Proof.
  intros Hp. unfold multiplier, of_Z. cbn [add].
  assert (2 <= inject_Z period + inject_Z 1)%Q as Hq.
  { rewrite <- inject_Z_plus. replace 2%Q with (inject_Z 2) by reflexivity.
    rewrite <- Zle_Qle. lia. }
  unfold div. change (inject_Z 2) with 2%Q.
  revert Hq. generalize (inject_Z period + inject_Z 1)%Q. intros x Hq.
  destruct (Qcompare_spec x 0) as [E|L|G]; try (exfalso; lra).
  eexists. split; [reflexivity|]. split.
  - apply Qlt_shift_div_l; lra.
  - apply Qle_shift_div_r; lra.
Qed.

Lemma ema_step_within (lo hi d e m : Q) :
  (lo <= d <= hi)%Q -> (lo <= e <= hi)%Q -> (0 < m <= 1)%Q ->
  (lo <= (d + - e) * m + e <= hi)%Q.
Proof. intros Hd He Hm. split; nra. Qed.

Lemma map_Fin_within (lo hi : Q) (qs : list Q) (i : Z) :
  Forall (fun q => lo <= q <= hi)%Q qs ->
  0 <= i < len qs -> within lo hi (at_ (map Fin qs) i).
Proof.
  intros H Hi. destruct (get_in_range qs i Hi) as [q Hq].
  rewrite (at_map_Fin qs i q Hq). exists q. split; [reflexivity|].
  rewrite Forall_forall in H. apply H. eapply get_In; eauto.
Qed.

Lemma at_within (lo hi : Q) (l : list num) (i : Z) :
  Forall (within lo hi) l -> 0 <= i < len l -> within lo hi (at_ l i).
Proof.
  intros H Hi. destruct (get_in_range l i Hi) as [x Hx].
  unfold at_. rewrite Hx. rewrite Forall_forall in H. apply H.
  eapply get_In; eauto.
Qed.

Lemma firstn_map_Fin (n : nat) (qs : list Q) :
  firstn n (map Fin qs) = map Fin (firstn n qs).
Proof. apply firstn_map. Qed.

Lemma EMA_within (qs : list Q) (period : Z) (lo hi : Q) :
  1 <= period <= len qs ->
  Forall (fun q => lo <= q <= hi)%Q qs ->
  Forall (within lo hi) (EMA (map Fin qs) period).
Proof.
  intros Hp Hqs.
  assert (len (map Fin qs) = len qs) as Hlen by (unfold len; now rewrite length_map).
  destruct (multiplier_fin period) as (m & Em & Hm); [lia|].
  unfold EMA, for_range. fold (multiplier period). rewrite Em, Hlen.
  set (n := Z.to_nat (len qs - period + 1 - 1)).
  apply (for_loop_invariant
           (fun k st => (k <= n)%nat -> len st = 1 + Z.of_nat k /\ Forall (within lo hi) st));
    [| |lia].
  - intros _. split; [reflexivity|]. constructor; [|constructor].
    rewrite slice_prefix by lia. rewrite firstn_map_Fin.
    destruct (sum_fin (firstn (Z.to_nat period) qs)) as (b & Eb & Hb).
    rewrite Eb, div_fin_pos by lia. eexists. split; [reflexivity|].
    rewrite Hb. apply mean_within; [lia| |now apply Forall_prefix].
    unfold len in *. rewrite length_firstn. lia.
  - intros k st Hk IH Hk'. destruct IH as (Hl & Hst); [lia|].
    split; [rewrite len_push; lia|].
    unfold push. apply Forall_app. split; [exact Hst|].
    constructor; [|constructor].
    destruct (at_within lo hi st (1 + Z.of_nat k - 1) Hst) as (e & Ee & He); [lia|].
    destruct (map_Fin_within lo hi qs (1 + Z.of_nat k + period - 1) Hqs)
      as (d & Ed & Hd); [unfold n in Hk; lia|].
    rewrite Ee, Ed. cbn [sub neg add mul]. eexists. split; [reflexivity|].
    now apply ema_step_within.
Qed.

Lemma prices_bounded (qs : list Q) :
  exists lo hi : Q, Forall (fun q => lo <= q <= hi)%Q qs.
Proof.
  induction qs as [|q qs (lo & hi & IH)].
  - exists 0%Q, 0%Q. constructor.
  - exists (if Qlt_le_dec q lo then q else lo), (if Qlt_le_dec hi q then q else hi).
    constructor.
    + destruct (Qlt_le_dec q lo), (Qlt_le_dec hi q); lra.
    + eapply Forall_impl; [|exact IH]. cbv beta. intros x Hx.
      destruct (Qlt_le_dec q lo), (Qlt_le_dec hi q); lra.
Qed.

(** X2. An exponential moving average never moves away from the price: on
    finite prices, with at least [period >= 1] of them, every value after
    the first is not below the value before it when the price it takes in
    is not below that value, and not above it when the price is not above
    it. *)
Theorem EMA_moves_toward_price (qs : list Q) (period i : Z) :
  1 <= period <= len qs ->
  1 <= i <= len qs - period ->
  exists e e' x : Q,
    at_ (EMA (map Fin qs) period) (i - 1) = Fin e
    /\ at_ (EMA (map Fin qs) period) i = Fin e'
    /\ at_ (map Fin qs) (i + period - 1) = Fin x
    /\ ((e <= x)%Q -> (e <= e')%Q)
    /\ ((x <= e)%Q -> (e' <= e)%Q).
Proof.
  intros Hp Hi.
  assert (len (map Fin qs) = len qs) as Hlen by (unfold len; now rewrite length_map).
  destruct (prices_bounded qs) as (lo & hi & Hqs).
  destruct (EMA_shape (map Fin qs) period) as (Hl & _ & Hr).
  rewrite Hlen in Hl, Hr.
  destruct (at_within lo hi (EMA (map Fin qs) period) (i - 1)
              (EMA_within qs period lo hi Hp Hqs)) as (e & Ee & _); [lia|].
  destruct (map_Fin_within lo hi qs (i + period - 1) Hqs) as (x & Ex & _); [lia|].
  destruct (multiplier_fin period) as (m & Em & Hm); [lia|].
  rewrite (Hr i Hi), Ee, Ex, Em. cbn [sub neg add mul].
  exists e, ((x + - e) * m + e)%Q, x.
  split; [reflexivity|]. split; [reflexivity|]. split; [reflexivity|].
  split; intros H; nra.
Qed.

Lemma EMA_moves_toward_price_witness :
  1 <= 2 <= len [1; 3; 2; 5]%Q
  /\ exists e e' x : Q,
       at_ (EMA (map Fin [1; 3; 2; 5]%Q) 2) (1 - 1) = Fin e
       /\ at_ (EMA (map Fin [1; 3; 2; 5]%Q) 2) 1 = Fin e'
       /\ at_ (map Fin [1; 3; 2; 5]%Q) (1 + 2 - 1) = Fin x
       /\ ((e <= x)%Q -> (e <= e')%Q)
       /\ ((x <= e)%Q -> (e' <= e)%Q).
Proof.
  split.
  - vm_compute. split; discriminate.
  - apply (EMA_moves_toward_price [1; 3; 2; 5]%Q 2 1).
    + vm_compute. split; discriminate.
    + vm_compute. split; discriminate.
Defined.

Lemma mapi_from_get {A B : Type} (f : A -> Z -> B) (l : list A) :
  forall k i : Z,
    0 <= i -> get (mapi_from k f l) i = option_map (fun x => f x (k + i)) (get l i).
Proof.
  induction l as [|a l IH]; intros k i Hi.
  - unfold get. destruct (i <? 0); [reflexivity|].
    now destruct (Z.to_nat i).
  - destruct (Z.eq_dec i 0) as [->|Hne].
    + cbn. now rewrite Z.add_0_r.
    + change (mapi_from k f (a :: l)) with ([f a k] ++ mapi_from (k + 1) f l).
      change (a :: l) with ([a] ++ l).
      rewrite !get_app_r by (cbn; lia). change (len [f a k]) with 1.
      change (len [a]) with 1. rewrite IH by lia.
      destruct (get l (i - 1)); cbn; [|reflexivity]. do 2 f_equal. lia.
Qed.

Lemma mapi_get {A B : Type} (f : A -> Z -> B) (l : list A) (i : Z) :
  0 <= i -> get (mapi f l) i = option_map (fun x => f x i) (get l i).
Proof. intros Hi. unfold mapi. now rewrite mapi_from_get. Qed.

Lemma mapi_from_length {A B : Type} (f : A -> Z -> B) (l : list A) :
  forall k, len (mapi_from k f l) = len l.
Proof.
  induction l as [|a l IH]; intros k; [reflexivity|].
  unfold len in *. cbn [mapi_from List.length]. specialize (IH (k + 1)). lia.
Qed.

Lemma mapi_length {A B : Type} (f : A -> Z -> B) (l : list A) :
  len (mapi f l) = len l.
Proof. apply mapi_from_length. Qed.

Lemma at_mapi_sub (l other : list num) (i : Z) :
  0 <= i < len l ->
  at_ (mapi (fun x i => (x - at_ other i)%num) l) i = (at_ l i - at_ other i)%num.
Proof.
  intros Hi. destruct (get_in_range l i Hi) as [x Hx].
  assert (at_ l i = x) as -> by (unfold at_; now rewrite Hx).
  unfold at_ at 1. rewrite mapi_get by lia. now rewrite Hx.
Qed.

Lemma at_skipn (l : list num) (k : nat) (i : Z) :
  0 <= i -> at_ (skipn k l) i = at_ l (Z.of_nat k + i).
Proof. intros Hi. unfold at_. now rewrite get_skipn. Qed.

Lemma len_skipn {A : Type} (l : list A) (k : nat) :
  len (skipn k l) = Z.max 0 (len l - Z.of_nat k).
Proof. unfold len. rewrite length_skipn. lia. Qed.

(** The MACD line before it is cut to the length of the signal line: the
    last [slow - fast] values of the fast EMA, each less the slow EMA value
    of the same position counted from the start. *)
Lemma MACD_parts (data : list num) (f s g : Z) :
  f < s -> s <= len data -> 1 <= g <= s - f ->
  exists macdLine : list num,
    len macdLine = s - f
    /\ (forall j : Z,
          0 <= j < s - f ->
          at_ macdLine j
          = (at_ (EMA data f) (len data - s + 1 + j) - at_ (EMA data s) j)%num)
    /\ MACD data f s g
       = mkMacd (skipn (Z.to_nat (g - 1)) macdLine) (EMA macdLine g)
           (mapi (fun macd i => (macd - at_ (EMA macdLine g) i)%num)
                 (skipn (Z.to_nat (g - 1)) macdLine)).
Proof.
  intros Hf Hs Hg.
  pose proof (EMA_length data f) as Lf. pose proof (EMA_length data s) as Ls.
  unfold MACD. cbv zeta.
  replace (len (EMA data s) - len (EMA data f)) with (- (s - f)) by lia.
  rewrite (slice_from_end (EMA data f) (s - f)) by lia.
  set (aligned := skipn (Z.to_nat (len (EMA data f) - (s - f))) (EMA data f)).
  assert (len aligned = s - f) as La by (unfold aligned; rewrite len_skipn; lia).
  set (macdLine := mapi (fun fast i => (fast - at_ (EMA data s) i)%num) aligned).
  assert (len macdLine = s - f) as Lm by (unfold macdLine; now rewrite mapi_length).
  exists macdLine. split; [exact Lm|]. split.
  - intros j Hj. unfold macdLine. rewrite at_mapi_sub by lia.
    unfold aligned. rewrite at_skipn by lia. do 2 f_equal. lia.
  - pose proof (EMA_length macdLine g) as Lg.
    replace (len macdLine - len (EMA macdLine g)) with (g - 1) by lia.
    rewrite (slice_from_inside macdLine (g - 1)) by lia. reflexivity.
Qed.

Lemma MACD_shape (data : list num) (f s g : Z) :
  f < s -> s <= len data -> 1 <= g <= s - f ->
  len (macd_line (MACD data f s g)) = s - f - g + 1
  /\ len (macd_signal (MACD data f s g)) = s - f - g + 1
  /\ len (macd_histogram (MACD data f s g)) = s - f - g + 1
  /\ forall i : Z,
       0 <= i < s - f - g + 1 ->
       at_ (macd_line (MACD data f s g)) i
       = (at_ (EMA data f) (len data - s + g + i) - at_ (EMA data s) (g - 1 + i))%num
       /\ at_ (macd_histogram (MACD data f s g)) i
          = (at_ (macd_line (MACD data f s g)) i
             - at_ (macd_signal (MACD data f s g)) i)%num.
Proof.
  intros Hf Hs Hg.
  destruct (MACD_parts data f s g Hf Hs Hg) as (m & Lm & Hm & ->).
  cbn [macd_line macd_signal macd_histogram].
  assert (len (skipn (Z.to_nat (g - 1)) m) = s - f - g + 1) as Lk
    by (rewrite len_skipn; lia).
  split; [exact Lk|].
  split; [rewrite EMA_length; lia|].
  split; [rewrite mapi_length; exact Lk|].
  intros i Hi. split.
  - rewrite at_skipn by lia. rewrite Hm by lia. do 2 f_equal; lia.
  - now rewrite at_mapi_sub by lia.
Qed.

(** X3. For periods [fast < slow <= data.length] and a signal period
    between 1 and [slow - fast], the three arrays of [MACD] have
    [slow - fast - signal + 1] values each, whatever the length of the data.
    The MACD value at [i] is the fast EMA at [data.length - slow + signal + i]
    less the slow EMA at [signal - 1 + i]: the latest fast values are paired
    with the earliest slow values.  The histogram is MACD less signal. *)
Theorem MACD_alignment (data : list num) (fast slow signal : Z) :
  1 <= fast < slow -> slow <= len data -> 1 <= signal <= slow - fast ->
  len (macd_line (MACD data fast slow signal)) = slow - fast - signal + 1
  /\ len (macd_signal (MACD data fast slow signal)) = slow - fast - signal + 1
  /\ len (macd_histogram (MACD data fast slow signal)) = slow - fast - signal + 1
  /\ forall i : Z,
       0 <= i < slow - fast - signal + 1 ->
       at_ (macd_line (MACD data fast slow signal)) i
       = (at_ (EMA data fast) (len data - slow + signal + i)
          - at_ (EMA data slow) (signal - 1 + i))%num
       /\ at_ (macd_histogram (MACD data fast slow signal)) i
          = (at_ (macd_line (MACD data fast slow signal)) i
             - at_ (macd_signal (MACD data fast slow signal)) i)%num.
Proof. intros Hf Hs Hg. apply MACD_shape; lia. Qed.

Lemma MACD_alignment_witness :
  len (macd_line (MACD (map of_Z [1; 2; 4; 8; 16]) 1 3 1)) = 3 - 1 - 1 + 1
  /\ len (macd_signal (MACD (map of_Z [1; 2; 4; 8; 16]) 1 3 1)) = 3 - 1 - 1 + 1
  /\ len (macd_histogram (MACD (map of_Z [1; 2; 4; 8; 16]) 1 3 1)) = 3 - 1 - 1 + 1
  /\ forall i : Z,
       0 <= i < 3 - 1 - 1 + 1 ->
       at_ (macd_line (MACD (map of_Z [1; 2; 4; 8; 16]) 1 3 1)) i
       = (at_ (EMA (map of_Z [1; 2; 4; 8; 16]) 1)
              (len (map of_Z [1; 2; 4; 8; 16]) - 3 + 1 + i)
          - at_ (EMA (map of_Z [1; 2; 4; 8; 16]) 3) (1 - 1 + i))%num
       /\ at_ (macd_histogram (MACD (map of_Z [1; 2; 4; 8; 16]) 1 3 1)) i
          = (at_ (macd_line (MACD (map of_Z [1; 2; 4; 8; 16]) 1 3 1)) i
             - at_ (macd_signal (MACD (map of_Z [1; 2; 4; 8; 16]) 1 3 1)) i)%num.
Proof.
  apply (MACD_alignment (map of_Z [1; 2; 4; 8; 16]) 1 3 1).
  - lia.
  - vm_compute. discriminate.
  - lia.
Defined.

(* ===================================================================== *)
(** ** Stochastic, Williams %R and ATR *)
(* ===================================================================== *)

Lemma fold_max_fin (xs : list num) :
  Forall is_fin xs ->
  forall a : Q,
    exists m, fold_left max2 xs (Fin a) = Fin m
              /\ (a <= m)%Q /\ forall q, In (Fin q) xs -> (q <= m)%Q.
Proof.
  induction 1 as [|x xs Hx _ IH]; intros a.
  - exists a. split; [reflexivity|]. split; [lra|]. intros q [].
  - destruct x as [b| | |]; try contradiction. cbn [fold_left].
    assert (exists c, max2 (Fin a) (Fin b) = Fin c /\ (a <= c)%Q /\ (b <= c)%Q)
      as (c & Ec & Hac & Hbc).
    { unfold max2, ltb. destruct (Qcompare_spec a b) as [E|L|G];
        eexists; (split; [reflexivity|]); lra. }
    rewrite Ec. destruct (IH c) as (m & Em & Hcm & Hm).
    exists m. split; [exact Em|]. split; [lra|].
    intros q [Hq|Hq]; [injection Hq as <-; lra | now apply Hm].
Qed.

Lemma fold_min_fin (xs : list num) :
  Forall is_fin xs ->
  forall a : Q,
    exists m, fold_left min2 xs (Fin a) = Fin m
              /\ (m <= a)%Q /\ forall q, In (Fin q) xs -> (m <= q)%Q.
Proof.
  induction 1 as [|x xs Hx _ IH]; intros a.
  - exists a. split; [reflexivity|]. split; [lra|]. intros q [].
  - destruct x as [b| | |]; try contradiction. cbn [fold_left].
    assert (exists c, min2 (Fin a) (Fin b) = Fin c /\ (c <= a)%Q /\ (c <= b)%Q)
      as (c & Ec & Hac & Hbc).
    { unfold min2, ltb. destruct (Qcompare_spec b a) as [E|L|G];
        eexists; (split; [reflexivity|]); lra. }
    rewrite Ec. destruct (IH c) as (m & Em & Hcm & Hm).
    exists m. split; [exact Em|]. split; [lra|].
    intros q [Hq|Hq]; [injection Hq as <-; lra | now apply Hm].
Qed.

Lemma max_list_fin (xs : list num) :
  xs <> [] -> Forall is_fin xs ->
  exists m, max_list xs = Fin m /\ forall q, In (Fin q) xs -> (q <= m)%Q.
Proof.
  intros Hne H. destruct xs as [|x xs]; [congruence|].
  inversion H as [|? ? Hx Hxs]; subst.
  destruct x as [b| | |]; try contradiction.
  unfold max_list. cbn [fold_left]. change (max2 NInf (Fin b)) with (Fin b).
  destruct (fold_max_fin xs Hxs b) as (m & Em & Hbm & Hm).
  exists m. split; [exact Em|].
  intros q [Hq|Hq]; [injection Hq as <-; lra | now apply Hm].
Qed.

Lemma min_list_fin (xs : list num) :
  xs <> [] -> Forall is_fin xs ->
  exists m, min_list xs = Fin m /\ forall q, In (Fin q) xs -> (m <= q)%Q.
Proof.
  intros Hne H. destruct xs as [|x xs]; [congruence|].
  inversion H as [|? ? Hx Hxs]; subst.
  destruct x as [b| | |]; try contradiction.
  unfold min_list. cbn [fold_left]. change (min2 PInf (Fin b)) with (Fin b).
  destruct (fold_min_fin xs Hxs b) as (m & Em & Hbm & Hm).
  exists m. split; [exact Em|].
  intros q [Hq|Hq]; [injection Hq as <-; lra | now apply Hm].
Qed.

(** The element at [i] is in every window [a, b) with [a <= i < b]. *)
Lemma In_slice {A : Type} (l : list A) (a b i : Z) (x : A) :
  0 <= a -> a <= i < b -> b <= len l -> get l i = Some x -> In x (slice l a b).
Proof.
  intros Ha Hi Hb Hx. rewrite slice_inside by lia.
  apply (get_In _ (i - a)). rewrite get_firstn by lia.
  rewrite get_skipn by lia. rewrite <- Hx. f_equal. lia.
Qed.

Lemma slice_nonempty {A : Type} (l : list A) (a b : Z) :
  0 <= a < b -> b <= len l -> slice l a b <> [].
Proof.
  intros Ha Hb E. destruct (get_in_range l a) as [x Hx]; [lia|].
  pose proof (In_slice l a b a x) as H. rewrite E in H. apply H; auto; lia.
Qed.

Lemma Forall_slice {A : Type} (P : A -> Prop) (l : list A) (a b : Z) :
  Forall P l -> Forall P (slice l a b).
Proof.
  rewrite !Forall_forall. intros H x Hx. apply H. eapply slice_incl; eauto.
Qed.

Lemma Forall_map_iff {A B : Type} (P : B -> Prop) (f : A -> B) (l : list A) :
  Forall (fun x => P (f x)) l -> Forall P (map f l).
Proof. induction 1; constructor; auto. Qed.

Lemma at_map_get {A : Type} (f : A -> num) (l : list A) (i : Z) (x : A) :
  get l i = Some x -> at_ (map f l) i = f x.
Proof. intros H. unfold at_. now rewrite get_map, H. Qed.

Lemma len_map {A B : Type} (f : A -> B) (l : list A) : len (map f l) = len l.
Proof. unfold len. now rewrite length_map. Qed.

Section Oscillators.

Variable data : list candle.
Variable period : Z.
Hypothesis period_pos : 1 <= period.
Hypothesis candles_ok : Forall ohlc_ok data.

Let highs := map high data.
Let lows := map low data.
Let closes := map close data.

(** In the window that ends at [i] the lowest low is not above the close
    at [i] and the highest high not below it. *)
Lemma window_bounds (i : Z) :
  period - 1 <= i < len data ->
  exists hh ll c : Q,
    max_list (slice highs (i - period + 1) (i + 1)) = Fin hh
    /\ min_list (slice lows (i - period + 1) (i + 1)) = Fin ll
    /\ at_ closes i = Fin c
    /\ (ll <= c <= hh)%Q.
Proof.
  intros Hi.
  destruct (get_in_range data i) as [cd Hcd]; [lia|].
  assert (In cd data) as Hin by (eapply get_In; eauto).
  pose proof candles_ok as Hok. rewrite Forall_forall in Hok.
  destruct (Hok cd Hin) as (h & l & c & Eh & El & Ec & Hlc).
  assert (Forall is_fin highs) as Fh.
  { apply Forall_map_iff. apply Forall_forall. intros x Hx.
    destruct (Hok x Hx) as (h' & _ & _ & -> & _). exact I. }
  assert (Forall is_fin lows) as Fl.
  { apply Forall_map_iff. apply Forall_forall. intros x Hx.
    destruct (Hok x Hx) as (_ & l' & _ & _ & -> & _). exact I. }
  destruct (max_list_fin (slice highs (i - period + 1) (i + 1)))
    as (hh & Ehh & Hhh).
  { apply slice_nonempty; [lia|]. unfold highs. rewrite len_map. lia. }
  { now apply Forall_slice. }
  destruct (min_list_fin (slice lows (i - period + 1) (i + 1)))
    as (ll & Ell & Hll).
  { apply slice_nonempty; [lia|]. unfold lows. rewrite len_map. lia. }
  { now apply Forall_slice. }
  exists hh, ll, c. split; [exact Ehh|]. split; [exact Ell|].
  split; [unfold closes; rewrite (at_map_get close data i cd Hcd); exact Ec|].
  assert (h <= hh)%Q.
  { apply Hhh. rewrite <- Eh. apply (In_slice highs _ _ i); try lia.
    - unfold highs. rewrite len_map. lia.
    - unfold highs. now rewrite get_map, Hcd. }
  assert (ll <= l)%Q.
  { apply Hll. rewrite <- El. apply (In_slice lows _ _ i); try lia.
    - unfold lows. rewrite len_map. lia.
    - unfold lows. now rewrite get_map, Hcd. }
  lra.
Qed.

Lemma ratio_percent (a b : Q) :
  (0 <= a <= b)%Q ->
  (Fin a / Fin b * of_Z 100)%num = NaN
  \/ within 0 100 (Fin a / Fin b * of_Z 100)%num.
Proof.
  intros H. unfold div.
  destruct (Qcompare_spec b 0) as [E|L|G].
  - left. unfold signed_inf.
    destruct (Qcompare_spec a 0) as [E'|L'|G']; try reflexivity; exfalso; lra.
  - exfalso; lra.
  - right. unfold mul, of_Z. eexists. split; [reflexivity|].
    change (inject_Z 100) with 100%Q.
    assert (0 <= a / b <= 1)%Q as Hr.
    { split; [apply Qle_shift_div_l; lra | apply Qle_shift_div_r; lra]. }
    revert Hr. generalize (a / b)%Q. intros r Hr. lra.
Qed.

Lemma ratio_negative_percent (a b : Q) :
  (0 <= a <= b)%Q ->
  (Fin a / Fin b * of_Z (-100))%num = NaN
  \/ within (-100) 0 (Fin a / Fin b * of_Z (-100))%num.
Proof.
  intros H. unfold div.
  destruct (Qcompare_spec b 0) as [E|L|G].
  - left. unfold signed_inf.
    destruct (Qcompare_spec a 0) as [E'|L'|G']; try reflexivity; exfalso; lra.
  - exfalso; lra.
  - right. unfold mul, of_Z. eexists. split; [reflexivity|].
    change (inject_Z (-100)) with (-100)%Q.
    assert (0 <= a / b <= 1)%Q as Hr.
    { split; [apply Qle_shift_div_l; lra | apply Qle_shift_div_r; lra]. }
    revert Hr. generalize (a / b)%Q. intros r Hr. lra.
Qed.

Lemma stochastic_at_range (i : Z) :
  period - 1 <= i < len data ->
  stochastic_at highs lows closes period i = NaN
  \/ within 0 100 (stochastic_at highs lows closes period i).
Proof.
  intros Hi. destruct (window_bounds i Hi) as (hh & ll & c & Eh & El & Ec & H).
  unfold stochastic_at. rewrite Eh, El, Ec. cbn [sub neg add].
  apply ratio_percent. lra.
Qed.

Lemma williams_at_range (i : Z) :
  period - 1 <= i < len data ->
  williams_at highs lows closes period i = NaN
  \/ within (-100) 0 (williams_at highs lows closes period i).
Proof.
  intros Hi. destruct (window_bounds i Hi) as (hh & ll & c & Eh & El & Ec & H).
  unfold williams_at. rewrite Eh, El, Ec. cbn [sub neg add].
  apply ratio_negative_percent. lra.
Qed.

Lemma Stochastic_k_unfold (dPeriod : Z) :
  stoch_k (Stochastic highs lows closes period dPeriod)
  = map (stochastic_at highs lows closes period)
        (zseq (period - 1) (Z.to_nat (len data - (period - 1)))).
Proof.
  unfold Stochastic, for_range. cbn [stoch_k].
  rewrite (for_loop_push_map (stochastic_at highs lows closes period)).
  unfold closes at 2. rewrite len_map. reflexivity.
Qed.

Lemma WilliamsR_unfold :
  WilliamsR highs lows closes period
  = map (williams_at highs lows closes period)
        (zseq (period - 1) (Z.to_nat (len data - (period - 1)))).
Proof.
  unfold WilliamsR, for_range.
  rewrite (for_loop_push_map (williams_at highs lows closes period)).
  unfold closes at 2. rewrite len_map. reflexivity.
Qed.

Lemma Stochastic_k_range (dPeriod : Z) :
  len (stoch_k (Stochastic highs lows closes period dPeriod))
  = Z.max 0 (len data - period + 1)
  /\ forall x, In x (stoch_k (Stochastic highs lows closes period dPeriod)) ->
               x = NaN \/ within 0 100 x.
Proof.
  rewrite Stochastic_k_unfold. split.
  - rewrite len_map. unfold len at 1. rewrite zseq_length. lia.
  - intros x Hx. apply in_map_iff in Hx. destruct Hx as (i & <- & Hi).
    apply In_zseq in Hi. apply stochastic_at_range. lia.
Qed.

Lemma WilliamsR_range :
  len (WilliamsR highs lows closes period) = Z.max 0 (len data - period + 1)
  /\ forall x, In x (WilliamsR highs lows closes period) ->
               x = NaN \/ within (-100) 0 x.
Proof.
  rewrite WilliamsR_unfold. split.
  - rewrite len_map. unfold len at 1. rewrite zseq_length. lia.
  - intros x Hx. apply in_map_iff in Hx. destruct Hx as (i & <- & Hi).
    apply In_zseq in Hi. apply williams_at_range. lia.
Qed.

End Oscillators.

Ltac ohlc_sample :=
  repeat constructor;
  do 3 eexists; repeat (split; [reflexivity|]); split; vm_compute; discriminate.

(** X4. On candles whose close lies between their low and their high, the
    %K line of [Stochastic] has one value per window of [kPeriod] candles,
    and each value is a finite number between 0 and 100, or NaN (the
    quotient 0/0 of a window whose highest high equals its lowest low). *)
Theorem Stochastic_k_percent (data : list candle) (kPeriod dPeriod : Z) :
  1 <= kPeriod ->
  Forall ohlc_ok data ->
  len (stoch_k (Stochastic (map high data) (map low data) (map close data)
                  kPeriod dPeriod))
  = Z.max 0 (len data - kPeriod + 1)
  /\ forall x,
       In x (stoch_k (Stochastic (map high data) (map low data) (map close data)
                        kPeriod dPeriod)) ->
       x = NaN \/ exists q, x = Fin q /\ (0 <= q <= 100)%Q.
Proof. intros Hp Hok. now apply Stochastic_k_range. Qed.

Lemma Stochastic_k_percent_witness :
  len (stoch_k (Stochastic (map high four_candles) (map low four_candles)
                  (map close four_candles) 2 3))
  = Z.max 0 (len four_candles - 2 + 1)
  /\ forall x,
       In x (stoch_k (Stochastic (map high four_candles) (map low four_candles)
                        (map close four_candles) 2 3)) ->
       x = NaN \/ exists q, x = Fin q /\ (0 <= q <= 100)%Q.
Proof.
  apply (Stochastic_k_percent four_candles 2 3); [lia|]. ohlc_sample.
Defined.

(** X5. On the same candles every value of [WilliamsR] is a finite number
    between -100 and 0, or NaN for a window whose highest high equals its
    lowest low; there is one value per window of [period] candles. *)
Theorem WilliamsR_negative_percent (data : list candle) (period : Z) :
  1 <= period ->
  Forall ohlc_ok data ->
  len (WilliamsR (map high data) (map low data) (map close data) period)
  = Z.max 0 (len data - period + 1)
  /\ forall x,
       In x (WilliamsR (map high data) (map low data) (map close data) period) ->
       x = NaN \/ exists q, x = Fin q /\ (-100 <= q <= 0)%Q.
Proof. intros Hp Hok. now apply WilliamsR_range. Qed.

Lemma WilliamsR_negative_percent_witness :
  len (WilliamsR (map high four_candles) (map low four_candles)
         (map close four_candles) 2)
  = Z.max 0 (len four_candles - 2 + 1)
  /\ forall x,
       In x (WilliamsR (map high four_candles) (map low four_candles)
               (map close four_candles) 2) ->
       x = NaN \/ exists q, x = Fin q /\ (-100 <= q <= 0)%Q.
Proof.
  apply (WilliamsR_negative_percent four_candles 2); [lia|]. ohlc_sample.
Defined.

Lemma abs_fin_nonneg (x : num) : is_fin x -> nonneg (abs x).
Proof.
  destruct x as [q| | |]; try contradiction. intros _.
  exists (Qabs q). split; [reflexivity | apply Qabs_nonneg].
Qed.

Lemma sub_fin (x y : num) : is_fin x -> is_fin y -> is_fin (x - y)%num.
Proof. destruct x, y; try contradiction; intros; exact I. Qed.

Lemma max3_nonneg (a b c : num) :
  is_fin a -> nonneg b -> is_fin c -> nonneg (max3 a b c).
Proof.
  intros Ha (q & -> & Hq) Hc.
  destruct (max_list_fin [a; Fin q; c]) as (m & Em & Hm); [discriminate| |].
  - repeat constructor; auto.
  - exists m. split; [exact Em|].
    assert (q <= m)%Q by (apply Hm; right; left; reflexivity). lra.
Qed.

Section TrueRange.

Variable data : list candle.
Variable period : Z.
Hypothesis period_pos : 1 <= period.
Hypothesis candles_fin : Forall ohlc_fin data.

Let highs := map high data.
Let lows := map low data.
Let closes := map close data.

Lemma field_fin (f : candle -> num) (i : Z) :
  (forall c, ohlc_fin c -> is_fin (f c)) ->
  0 <= i < len data -> is_fin (at_ (map f data) i).
Proof.
  intros Hf Hi. destruct (get_in_range data i Hi) as [c Hc].
  rewrite (at_map_get f data i c Hc). apply Hf.
  pose proof candles_fin as H. rewrite Forall_forall in H. apply H.
  eapply get_In; eauto.
Qed.

Lemma true_range_nonneg (i : Z) :
  1 <= i < len data -> nonneg (true_range highs lows closes i).
Proof.
  intros Hi. unfold true_range.
  assert (is_fin (at_ highs i)) by (apply field_fin; [intros c Hc; apply Hc | lia]).
  assert (is_fin (at_ lows i)) by (apply field_fin; [intros c Hc; apply Hc | lia]).
  assert (is_fin (at_ closes (i - 1)))
    by (apply field_fin; [intros c Hc; apply Hc | lia]).
  apply max3_nonneg.
  - now apply sub_fin.
  - apply abs_fin_nonneg. now apply sub_fin.
  - assert (is_fin (at_ lows i - at_ closes (i - 1))%num) as F by now apply sub_fin.
    destruct (at_ lows i - at_ closes (i - 1))%num; try contradiction. exact I.
Qed.

Lemma ATR_unfold :
  ATR highs lows closes period
  = SMA (map (true_range highs lows closes)
             (zseq 1 (Z.to_nat (len data - 1)))) period.
Proof.
  unfold ATR, for_range.
  rewrite (for_loop_push_map (true_range highs lows closes)).
  unfold closes at 2. rewrite len_map. reflexivity.
Qed.

Lemma ATR_values :
  len (ATR highs lows closes period) = Z.max 0 (len data - period)
  /\ forall x, In x (ATR highs lows closes period) -> nonneg x.
Proof.
  rewrite ATR_unfold. split.
  - rewrite SMA_length, len_map. unfold len at 1. rewrite zseq_length. lia.
  - intros x Hx. rewrite SMA_unfold in Hx. apply in_map_iff in Hx.
    destruct Hx as (i & <- & _).
    set (tr := map (true_range highs lows closes) (zseq 1 (Z.to_nat (len data - 1)))).
    assert (Forall nonneg tr) as Htr.
    { apply Forall_map_iff, Forall_forall. intros j Hj. apply In_zseq in Hj.
      apply true_range_nonneg. lia. }
    destruct (sum_nonneg (slice tr (i - period + 1) (i + 1))) as (b & Eb & Hb & _);
      [now apply Forall_slice|].
    rewrite Eb, div_fin_pos by lia. eexists. split; [reflexivity|].
    apply Qle_shift_div_l; [|lra].
    replace 0%Q with (inject_Z 0) by reflexivity. rewrite <- Zlt_Qlt. lia.
Qed.

End TrueRange.

(** X6. On candles with finite prices [ATR] has [max(0, n - period)] values
    for [n] candles, each a finite number that is not negative, even when a
    candle has its high below its low. *)
Theorem ATR_finite_nonnegative (data : list candle) (period : Z) :
  1 <= period ->
  Forall ohlc_fin data ->
  len (ATR (map high data) (map low data) (map close data) period)
  = Z.max 0 (len data - period)
  /\ forall x,
       In x (ATR (map high data) (map low data) (map close data) period) ->
       exists q, x = Fin q /\ (0 <= q)%Q.
Proof. intros Hp Hfin. now apply ATR_values. Qed.

Lemma ATR_finite_nonnegative_witness :
  len (ATR (map high four_candles) (map low four_candles)
         (map close four_candles) 2)
  = Z.max 0 (len four_candles - 2)
  /\ forall x,
       In x (ATR (map high four_candles) (map low four_candles)
               (map close four_candles) 2) ->
       exists q, x = Fin q /\ (0 <= q)%Q.
Proof.
  apply (ATR_finite_nonnegative four_candles 2); [lia|].
  repeat constructor.
Defined.

(* ===================================================================== *)
(** ** Bollinger bands *)
(* ===================================================================== *)

Lemma for_loop_bands (F G : Z -> num) (n : nat) :
  forall (i : Z) (b : bands),
    for_loop n i
      (fun i b => mkBands (push (bb_upper b) (F i)) (bb_middle b)
                          (push (bb_lower b) (G i))) b
    = mkBands (bb_upper b ++ map F (zseq i n)) (bb_middle b)
              (bb_lower b ++ map G (zseq i n)).
Proof.
  induction n; intros i b; cbn [for_loop zseq map].
  - rewrite !app_nil_r. now destruct b.
  - rewrite IHn. cbn [bb_upper bb_middle bb_lower]. unfold push.
    now rewrite <- !app_assoc.
Qed.

Lemma BollingerBands_unfold (sqrt : num -> num) (data : list num) (period : Z)
  (stdDev : num) :
  BollingerBands sqrt data period stdDev
  = mkBands
      (map (fun i => (at_ (SMA data period) i
                      + standardDeviation sqrt data period i * stdDev)%num)
           (zseq 0 (Z.to_nat (len (SMA data period)))))
      (SMA data period)
      (map (fun i => (at_ (SMA data period) i
                      - standardDeviation sqrt data period i * stdDev)%num)
           (zseq 0 (Z.to_nat (len (SMA data period))))).
Proof.
  unfold BollingerBands, for_range. cbv zeta.
  rewrite (for_loop_bands
             (fun i => (at_ (SMA data period) i
                        + standardDeviation sqrt data period i * stdDev)%num)
             (fun i => (at_ (SMA data period) i
                        - standardDeviation sqrt data period i * stdDev)%num)).
  cbn [bb_upper bb_middle bb_lower app]. now rewrite Z.sub_0_r.
Qed.

Lemma squares_from_fin (m : Q) (xs : list Q) :
  forall a : Q,
    exists b,
      fold_left (fun sum val => (sum + (val - Fin m) * (val - Fin m))%num)
                (map Fin xs) (Fin a) = Fin b
      /\ (a <= b)%Q.
Proof.
  induction xs as [|x xs IH]; intros a; cbn [map fold_left].
  - exists a. split; [reflexivity | lra].
  - cbn [sub neg add mul].
    destruct (IH (a + (x + - m) * (x + - m))%Q) as (b & Eb & Hb).
    exists b. split; [exact Eb|].
    revert Hb. generalize (x + - m)%Q. intros t Hb.
    assert (0 <= t * t)%Q by (destruct (Qlt_le_dec t 0); nra). lra.
Qed.

Lemma slice_map_Fin (qs : list Q) (a b : Z) :
  slice (map Fin qs) a b = map Fin (slice qs a b).
Proof.
  unfold slice. rewrite len_map. now rewrite skipn_map, firstn_map.
Qed.

Lemma SMA_fin (qs : list Q) (period i : Z) :
  1 <= period -> 0 <= i < len qs - period + 1 ->
  exists m, at_ (SMA (map Fin qs) period) i = Fin m.
Proof.
  intros Hp Hi. rewrite SMA_unfold. unfold at_.
  rewrite get_map, zseq_get by (rewrite len_map; lia). cbn [option_map].
  rewrite slice_map_Fin.
  destruct (sum_fin (slice qs (period - 1 + i - period + 1) (period - 1 + i + 1)))
    as (b & Eb & _).
  rewrite Eb, div_fin_pos by lia. eauto.
Qed.

Lemma at_map_zseq (F : Z -> num) (n : nat) (i : Z) :
  0 <= i < Z.of_nat n -> at_ (map F (zseq 0 n)) i = F i.
Proof.
  intros Hi. unfold at_. rewrite get_map, zseq_get by lia. reflexivity.
Qed.

Section Bollinger.

Variable sqrt : num -> num.
Hypothesis sqrt_nonneg : forall q : Q, (0 <= q)%Q -> nonneg (sqrt (Fin q)).

Variable qs : list Q.
Variable period : Z.
Variable k : Q.
Hypothesis period_ok : 1 <= period <= len qs.
Hypothesis k_nonneg : (0 <= k)%Q.

Lemma standardDeviation_nonneg (i : Z) :
  0 <= i < len qs - period + 1 ->
  nonneg (standardDeviation sqrt (map Fin qs) period i).
Proof.
  intros Hi. unfold standardDeviation, reduce.
  destruct (SMA_fin qs period i) as (m & ->); [lia | lia |].
  rewrite slice_map_Fin.
  destruct (squares_from_fin m (slice qs i (i + period)) 0) as (b & -> & Hb).
  rewrite div_fin_pos by lia. apply sqrt_nonneg.
  apply Qle_shift_div_l; [|lra].
  replace 0%Q with (inject_Z 0) by reflexivity. rewrite <- Zlt_Qlt. lia.
Qed.

Lemma BollingerBands_values :
  len (bb_upper (BollingerBands sqrt (map Fin qs) period (Fin k)))
  = len qs - period + 1
  /\ len (bb_middle (BollingerBands sqrt (map Fin qs) period (Fin k)))
     = len qs - period + 1
  /\ len (bb_lower (BollingerBands sqrt (map Fin qs) period (Fin k)))
     = len qs - period + 1
  /\ bb_middle (BollingerBands sqrt (map Fin qs) period (Fin k))
     = SMA (map Fin qs) period
  /\ forall i : Z,
       0 <= i < len qs - period + 1 ->
       exists u m l : Q,
         at_ (bb_upper (BollingerBands sqrt (map Fin qs) period (Fin k))) i = Fin u
         /\ at_ (bb_middle (BollingerBands sqrt (map Fin qs) period (Fin k))) i = Fin m
         /\ at_ (bb_lower (BollingerBands sqrt (map Fin qs) period (Fin k))) i = Fin l
         /\ (l <= m <= u)%Q.
Proof.
  rewrite BollingerBands_unfold. cbn [bb_upper bb_middle bb_lower].
  assert (len (SMA (map Fin qs) period) = len qs - period + 1) as Ls
    by (rewrite SMA_length, len_map; lia).
  rewrite Ls.
  split; [rewrite len_map; unfold len at 1; rewrite zseq_length; lia|].
  split; [reflexivity|].
  split; [rewrite len_map; unfold len at 1; rewrite zseq_length; lia|].
  split; [reflexivity|].
  intros i Hi.
  destruct (SMA_fin qs period i) as (m & Em); [lia | lia |].
  destruct (standardDeviation_nonneg i Hi) as (sd & Esd & Hsd).
  rewrite !at_map_zseq by lia. rewrite Em, Esd. cbn [sub neg add mul].
  exists (m + sd * k)%Q, m, (m + - (sd * k))%Q.
  repeat split; try reflexivity; try nra.
Qed.

End Bollinger.

(** X7. On finite prices, with a width [stdDev >= 0] and a square root that
    is finite and not negative on what is not negative, the three bands of
    [BollingerBands] have one value per window of [period] prices, the
    middle band is the SMA, and at every index the bands are in order:
    [lower <= middle <= upper]. *)
Theorem BollingerBands_ordered
  (sqrt : num -> num) (qs : list Q) (period : Z) (stdDev : Q) :
  (forall q : Q, (0 <= q)%Q -> exists r, sqrt (Fin q) = Fin r /\ (0 <= r)%Q) ->
  1 <= period <= len qs ->
  (0 <= stdDev)%Q ->
  len (bb_upper (BollingerBands sqrt (map Fin qs) period (Fin stdDev)))
  = len qs - period + 1
  /\ len (bb_middle (BollingerBands sqrt (map Fin qs) period (Fin stdDev)))
     = len qs - period + 1
  /\ len (bb_lower (BollingerBands sqrt (map Fin qs) period (Fin stdDev)))
     = len qs - period + 1
  /\ bb_middle (BollingerBands sqrt (map Fin qs) period (Fin stdDev))
     = SMA (map Fin qs) period
  /\ forall i : Z,
       0 <= i < len qs - period + 1 ->
       exists u m l : Q,
         at_ (bb_upper (BollingerBands sqrt (map Fin qs) period (Fin stdDev))) i
         = Fin u
         /\ at_ (bb_middle (BollingerBands sqrt (map Fin qs) period (Fin stdDev))) i
            = Fin m
         /\ at_ (bb_lower (BollingerBands sqrt (map Fin qs) period (Fin stdDev))) i
            = Fin l
         /\ (l <= m <= u)%Q.
Proof. intros Hs Hp Hk. now apply BollingerBands_values. Qed.

Lemma BollingerBands_ordered_witness :
  len (bb_upper (BollingerBands abs (map Fin [1; 3; 2; 5]%Q) 2 (Fin 2)))
  = len [1; 3; 2; 5]%Q - 2 + 1
  /\ len (bb_middle (BollingerBands abs (map Fin [1; 3; 2; 5]%Q) 2 (Fin 2)))
     = len [1; 3; 2; 5]%Q - 2 + 1
  /\ len (bb_lower (BollingerBands abs (map Fin [1; 3; 2; 5]%Q) 2 (Fin 2)))
     = len [1; 3; 2; 5]%Q - 2 + 1
  /\ bb_middle (BollingerBands abs (map Fin [1; 3; 2; 5]%Q) 2 (Fin 2))
     = SMA (map Fin [1; 3; 2; 5]%Q) 2
  /\ forall i : Z,
       0 <= i < len [1; 3; 2; 5]%Q - 2 + 1 ->
       exists u m l : Q,
         at_ (bb_upper (BollingerBands abs (map Fin [1; 3; 2; 5]%Q) 2 (Fin 2))) i
         = Fin u
         /\ at_ (bb_middle (BollingerBands abs (map Fin [1; 3; 2; 5]%Q) 2 (Fin 2))) i
            = Fin m
         /\ at_ (bb_lower (BollingerBands abs (map Fin [1; 3; 2; 5]%Q) 2 (Fin 2))) i
            = Fin l
         /\ (l <= m <= u)%Q.
Proof.
  apply (BollingerBands_ordered abs [1; 3; 2; 5]%Q 2 2).
  - intros q _. exists (Qabs q). split; [reflexivity | apply Qabs_nonneg].
  - vm_compute. split; discriminate.
  - vm_compute. discriminate.
Defined.

(* ===================================================================== *)
(** ** Comparisons of numbers *)
(* ===================================================================== *)

Lemma ltb_fin (a b : Q) : (Fin a <? Fin b)%num = true <-> (a < b)%Q.
Proof.
  unfold ltb. destruct (Qcompare_spec a b) as [E|L|G]; split; intros H;
    try reflexivity; try discriminate; try assumption; exfalso; lra.
Qed.

Lemma leb_fin (a b : Q) : (Fin a <=? Fin b)%num = true <-> (a <= b)%Q.
Proof.
  unfold leb. destruct (Qcompare_spec a b) as [E|L|G]; split; intros H;
    try reflexivity; try discriminate; try lra.
Qed.

Lemma ltb_trans (x y z : num) :
  (x <? y)%num = true -> (y <? z)%num = true -> (x <? z)%num = true.
Proof.
  destruct x as [a| | |], y as [b| | |], z as [c| | |];
    try discriminate; try reflexivity.
  rewrite !ltb_fin. lra.
Qed.

Lemma ltb_asym (x y : num) : (x <? y)%num = true -> (y <? x)%num = false.
Proof.
  destruct x as [a| | |], y as [b| | |]; try discriminate; try reflexivity.
  intros H. apply ltb_fin in H.
  destruct (Fin b <? Fin a)%num eqn:E; [|reflexivity].
  apply ltb_fin in E. exfalso. lra.
Qed.

Lemma ltb_false_fin (a b : Q) : (b <= a)%Q -> (Fin a <? Fin b)%num = false.
Proof.
  intros H. destruct (Fin a <? Fin b)%num eqn:E; [|reflexivity].
  apply ltb_fin in E. exfalso. lra.
Qed.

(* ===================================================================== *)
(** ** Candlestick patterns, levels and trend *)
(* ===================================================================== *)

(** No body is at once more than twice and less than half of itself. *)
Lemma body_twice_half (x : num) :
  (abs x * of_Z 2 <? abs x * dec 5 1)%num = false.
Proof.
  destruct x as [q| | |]; try reflexivity.
  cbn [abs mul of_Z dec]. apply ltb_false_fin.
  pose proof (Qabs_nonneg q) as H. revert H. generalize (Qabs q). intros b H.
  change (inject_Z 2) with 2%Q. change (5 # Pos.of_nat (10 ^ 1)) with (5 # 10)%Q.
  lra.
Qed.

Lemma hammer_excludes_shootingStar (bodySize lowerShadow upperShadow : num) :
  (bodySize * of_Z 2 <? bodySize * dec 5 1)%num = false ->
  ((lowerShadow >? bodySize * of_Z 2)%num
   && (upperShadow <? bodySize * dec 5 1)%num)
  && ((upperShadow >? bodySize * of_Z 2)%num
      && (lowerShadow <? bodySize * dec 5 1)%num) = false.
Proof.
  intros H. unfold gtb.
  destruct (bodySize * of_Z 2 <? lowerShadow)%num eqn:A; [|reflexivity].
  destruct (lowerShadow <? bodySize * dec 5 1)%num eqn:D;
    [|now rewrite !andb_false_r].
  rewrite (ltb_trans _ _ _ A D) in H. discriminate.
Qed.

(** [arr.slice(-3)] *)
Lemma slice_last3 {A : Type} (l : list A) :
  3 <= len l -> slice_from l (-3) = skipn (Z.to_nat (len l - 3)) l.
Proof. intros H. apply (slice_from_end l 3). lia. Qed.

Lemma slice_last3_length {A : Type} (l : list A) : len (slice_from l (-3)) <= 3.
Proof. apply (slice_length_le l 3). lia. Qed.

Lemma detectPatterns_suffix (pre : list candle) (x previous current : candle) :
  ForexAI.detectPatterns (pre ++ [x; previous; current])
  = ForexAI.detectPatterns [x; previous; current].
Proof.
  unfold ForexAI.detectPatterns.
  assert (len (pre ++ [x; previous; current]) = len pre + 3) as L
    by (rewrite len_app; reflexivity).
  pose proof (len_nonneg pre) as Hp.
  rewrite L. destruct (Z.ltb_spec (len pre + 3) 3); [lia|].
  change (len [x; previous; current] <? 3) with false. cbv iota.
  rewrite (slice_last3 (pre ++ [x; previous; current])) by lia.
  rewrite L. replace (Z.to_nat (len pre + 3 - 3)) with (List.length pre)
    by (unfold len; lia).
  rewrite skipn_app, skipn_all, Nat.sub_diag. reflexivity.
Qed.

(** X8. [detectPatterns] never reports a morning star or an evening star,
    never reports a hammer and a shooting star together, reports nothing on
    fewer than three candles, and otherwise reads the last two candles
    only. *)
Theorem detectPatterns_properties (data : list candle) :
  morning_star (ForexAI.detectPatterns data) = false
  /\ evening_star (ForexAI.detectPatterns data) = false
  /\ hammer (ForexAI.detectPatterns data)
     && shootingStar (ForexAI.detectPatterns data) = false
  /\ (len data < 3 -> ForexAI.detectPatterns data = no_patterns)
  /\ forall (pre : list candle) (x x' previous current : candle),
       data = pre ++ [x; previous; current] ->
       ForexAI.detectPatterns data = ForexAI.detectPatterns [x'; previous; current].
Proof.
  split; [|split; [|split; [|split]]].
  - unfold ForexAI.detectPatterns. destruct (len data <? 3); [reflexivity|].
    destruct (get _ _); [|reflexivity]. destruct (get _ _); reflexivity.
  - unfold ForexAI.detectPatterns. destruct (len data <? 3); [reflexivity|].
    destruct (get _ _); [|reflexivity]. destruct (get _ _); reflexivity.
  - unfold ForexAI.detectPatterns. destruct (len data <? 3); [reflexivity|].
    destruct (get _ _) as [current|]; [|reflexivity].
    destruct (get _ _) as [previous|]; [|reflexivity].
    cbn [hammer shootingStar].
    apply hammer_excludes_shootingStar, body_twice_half.
  - intros H. unfold ForexAI.detectPatterns.
    destruct (Z.ltb_spec (len data) 3); [reflexivity | lia].
  - intros pre x x' previous current ->. rewrite detectPatterns_suffix.
    reflexivity.
Qed.

Section LocalExtrema.

Variable data : list num.
Variable window : Z.

Lemma window_forall (test : num -> bool) (i j : Z) :
  window <= i -> i + window + 1 <= len data ->
  forallb test (slice data (i - window) (i + window + 1)) = true ->
  i - window <= j <= i + window -> test (at_ data j) = true.
Proof.
  intros Hi Hl Hall Hj.
  destruct (get_in_range data j) as [v Hv]; [lia|].
  rewrite forallb_forall in Hall. unfold at_. rewrite Hv. apply Hall.
  apply (In_slice data _ _ j); auto; lia.
Qed.

Lemma findLocalMaxima_spec :
  (len data <= 2 * window -> ForexAI.findLocalMaxima data window = [])
  /\ forall x,
       In x (ForexAI.findLocalMaxima data window) ->
       exists i, window <= i < len data - window
                 /\ at_ data i = x
                 /\ forall j, i - window <= j <= i + window ->
                              (at_ data j <=? x)%num = true.
Proof.
  unfold ForexAI.findLocalMaxima, for_range. split.
  - intros H. replace (Z.to_nat (len data - window - window)) with O by lia.
    reflexivity.
  - set (n := Z.to_nat (len data - window - window)).
    intros x H.
    apply (for_loop_invariant
             (fun k st =>
                forall x, In x st ->
                  exists i, window <= i < window + Z.of_nat k
                            /\ i < len data - window
                            /\ at_ data i = x
                            /\ forall j, i - window <= j <= i + window ->
                                         (at_ data j <=? x)%num = true)
             _ window [] n) in H.
    + destruct H as (i & H1 & H2 & H3 & H4). exists i. repeat split; auto; lia.
    + intros y [].
    + intros k st Hk IH y Hy.
      destruct (forallb _ _) eqn:E.
      * unfold push in Hy. apply in_app_or in Hy. destruct Hy as [Hy|[<-|[]]].
        -- destruct (IH y Hy) as (i & H1 & H2 & H3 & H4).
           exists i. repeat split; auto; lia.
        -- exists (window + Z.of_nat k). unfold n in Hk.
           repeat split; try lia.
           intros j Hj.
           apply (window_forall
                    (fun value => (value <=? at_ data (window + Z.of_nat k))%num)
                    (window + Z.of_nat k) j); auto; lia.
      * destruct (IH y Hy) as (i & H1 & H2 & H3 & H4).
        exists i. repeat split; auto; lia.
Qed.

Lemma findLocalMinima_spec :
  (len data <= 2 * window -> ForexAI.findLocalMinima data window = [])
  /\ forall x,
       In x (ForexAI.findLocalMinima data window) ->
       exists i, window <= i < len data - window
                 /\ at_ data i = x
                 /\ forall j, i - window <= j <= i + window ->
                              (at_ data j >=? x)%num = true.
Proof.
  unfold ForexAI.findLocalMinima, for_range. split.
  - intros H. replace (Z.to_nat (len data - window - window)) with O by lia.
    reflexivity.
  - set (n := Z.to_nat (len data - window - window)).
    intros x H.
    apply (for_loop_invariant
             (fun k st =>
                forall x, In x st ->
                  exists i, window <= i < window + Z.of_nat k
                            /\ i < len data - window
                            /\ at_ data i = x
                            /\ forall j, i - window <= j <= i + window ->
                                         (at_ data j >=? x)%num = true)
             _ window [] n) in H.
    + destruct H as (i & H1 & H2 & H3 & H4). exists i. repeat split; auto; lia.
    + intros y [].
    + intros k st Hk IH y Hy.
      destruct (forallb _ _) eqn:E.
      * unfold push in Hy. apply in_app_or in Hy. destruct Hy as [Hy|[<-|[]]].
        -- destruct (IH y Hy) as (i & H1 & H2 & H3 & H4).
           exists i. repeat split; auto; lia.
        -- exists (window + Z.of_nat k). unfold n in Hk.
           repeat split; try lia.
           intros j Hj.
           apply (window_forall
                    (fun value => (value >=? at_ data (window + Z.of_nat k))%num)
                    (window + Z.of_nat k) j); auto; lia.
      * destruct (IH y Hy) as (i & H1 & H2 & H3 & H4).
        exists i. repeat split; auto; lia.
Qed.

End LocalExtrema.

(** X9. [findSupportResistance] returns at most three resistance and three
    support levels, none at all for ten candles or fewer.  Every resistance
    level is the high of a candle at least five candles away from both ends
    that no high among the five candles before and after it exceeds; every
    support level is such a low that no low around it undercuts.  The
    current price is the last close. *)
Theorem findSupportResistance_levels (data : list candle) :
  len (resistance (ForexAI.findSupportResistance data)) <= 3
  /\ len (support (ForexAI.findSupportResistance data)) <= 3
  /\ (len data <= 10 ->
      resistance (ForexAI.findSupportResistance data) = []
      /\ support (ForexAI.findSupportResistance data) = [])
  /\ (forall x,
        In x (resistance (ForexAI.findSupportResistance data)) ->
        exists i, 5 <= i < len data - 5
                  /\ at_ (map high data) i = x
                  /\ forall j, i - 5 <= j <= i + 5 ->
                               (at_ (map high data) j <=? x)%num = true)
  /\ (forall x,
        In x (support (ForexAI.findSupportResistance data)) ->
        exists i, 5 <= i < len data - 5
                  /\ at_ (map low data) i = x
                  /\ forall j, i - 5 <= j <= i + 5 ->
                               (at_ (map low data) j >=? x)%num = true)
  /\ current_price (ForexAI.findSupportResistance data) = last_ (map close data).
Proof.
  unfold ForexAI.findSupportResistance. cbn [resistance support current_price].
  destruct (findLocalMaxima_spec (map high data) 5) as [Me Mx].
  destruct (findLocalMinima_spec (map low data) 5) as [Ne Nx].
  rewrite len_map in Me, Mx, Ne, Nx.
  split; [apply slice_last3_length|].
  split; [apply slice_last3_length|].
  split; [|split; [|split]].
  - intros H. rewrite Me, Ne by lia. split; reflexivity.
  - intros x Hx. apply Mx. eapply slice_incl; eauto.
  - intros x Hx. apply Nx. eapply slice_incl; eauto.
  - reflexivity.
Qed.

Lemma abs_not_negative (x : num) :
  abs x = NaN \/ abs x = PInf \/ nonneg (abs x).
Proof.
  destruct x as [q| | |]; auto.
  right. right. exists (Qabs q). split; [reflexivity | apply Qabs_nonneg].
Qed.

Lemma len_zero_nil {A : Type} (l : list A) : len l = 0 -> l = [].
Proof. destruct l; [reflexivity|]. unfold len. cbn [List.length]. lia. Qed.

Lemma ltb_NaN_r (x : num) : (x <? NaN)%num = false.
Proof. now destruct x. Qed.

Lemma analyzeTrend_short (env : Env) (data : list candle) :
  len data < 50 ->
  trend_direction (ForexAI.analyzeTrend data (ForexAI.calculateIndicators env data))
  = sideways.
Proof.
  intros H. unfold ForexAI.analyzeTrend.
  cbn [ForexAI.calculateIndicators sma20 sma50].
  assert (SMA (map close data) 50 = []) as ->.
  { apply len_zero_nil. rewrite SMA_length, len_map. lia. }
  change (last_ []) with NaN. unfold gtb.
  change (NaN <? last_ (SMA (map close data) 20))%num with false.
  rewrite ltb_NaN_r, !andb_false_r. reflexivity.
Qed.

(** X10. The trend object of [analyzeTrend] is coherent: an uptrend has
    the price above both averages and a downtrend has it above neither; a
    sideways trend has strength 0; the strength is never negative.  With
    fewer than 50 candles there is no SMA50 and the trend is sideways. *)
Theorem analyzeTrend_coherent (env : Env) (data : list candle) (ind : indicators) :
  (trend_direction (ForexAI.analyzeTrend data ind) = uptrend ->
   sma20_above (ForexAI.analyzeTrend data ind) = true
   /\ sma50_above (ForexAI.analyzeTrend data ind) = true)
  /\ (trend_direction (ForexAI.analyzeTrend data ind) = downtrend ->
      sma20_above (ForexAI.analyzeTrend data ind) = false
      /\ sma50_above (ForexAI.analyzeTrend data ind) = false)
  /\ (trend_direction (ForexAI.analyzeTrend data ind) = sideways ->
      strength (ForexAI.analyzeTrend data ind) = Fin 0)
  /\ (strength (ForexAI.analyzeTrend data ind) = NaN
      \/ strength (ForexAI.analyzeTrend data ind) = PInf
      \/ exists q, strength (ForexAI.analyzeTrend data ind) = Fin q /\ (0 <= q)%Q)
  /\ (len data < 50 ->
      trend_direction
        (ForexAI.analyzeTrend data (ForexAI.calculateIndicators env data))
      = sideways).
Proof.
  split; [|split; [|split; [|split; [|apply analyzeTrend_short]]]];
    unfold ForexAI.analyzeTrend;
    set (p := last_ (map close data));
    set (s20 := last_ (sma20 ind)); set (s50 := last_ (sma50 ind));
    unfold gtb;
    destruct (s20 <? p)%num eqn:A; destruct (s50 <? s20)%num eqn:B;
    destruct (p <? s20)%num eqn:C; destruct (s20 <? s50)%num eqn:D;
    cbn [andb trend_direction strength sma20_above sma50_above];
    try discriminate; try (intros _; reflexivity);
    try apply abs_not_negative.
  all: try (rewrite (ltb_asym _ _ A) in C; discriminate).
  all: intros _; split; try reflexivity.
  all: try exact (ltb_trans _ _ _ B A).
  all: exact (ltb_asym _ _ (ltb_trans _ _ _ C D)).
Qed.

(* ===================================================================== *)
(** ** The decision engine: votes, confidence and price levels *)
(* ===================================================================== *)

Section VoteFacts.

Variable a : analysis_input.

Ltac block :=
  intros; cbv zeta;
  repeat match goal with
         | |- context [if ?c then _ else _] => destruct c
         end; reflexivity.

Lemma score_rsi_strength (s : ForexAI.score) :
  ForexAI.signalStrength (ForexAI.score_rsi a s) = ForexAI.signalStrength s.
Proof. unfold ForexAI.score_rsi. block. Qed.

Lemma score_macd_strength (s : ForexAI.score) :
  ForexAI.signalStrength (ForexAI.score_macd a s) = ForexAI.signalStrength s.
Proof. unfold ForexAI.score_macd. block. Qed.

Lemma score_bollinger_strength (s : ForexAI.score) :
  ForexAI.signalStrength (ForexAI.score_bollinger a s) = ForexAI.signalStrength s.
Proof. unfold ForexAI.score_bollinger. block. Qed.

Lemma score_trend_strength (s : ForexAI.score) :
  ForexAI.signalStrength (ForexAI.score_trend a s) = ForexAI.signalStrength s.
Proof. unfold ForexAI.score_trend. block. Qed.

Lemma score_patterns_strength (s : ForexAI.score) :
  ForexAI.signalStrength (ForexAI.score_patterns a s) = ForexAI.signalStrength s.
Proof. unfold ForexAI.score_patterns. block. Qed.

Lemma score_levels_strength (s : ForexAI.score) :
  ForexAI.signalStrength (ForexAI.score_levels a s) = ForexAI.signalStrength s.
Proof. unfold ForexAI.score_levels. block. Qed.

(** Without the volume confirmation nothing is added to the strength. *)
Lemma votes_unconfirmed :
  is_high_volume (in_volumeAnalysis a) = false ->
  ForexAI.signalStrength (ForexAI.votes a) = Fin 0.
Proof.
  intros H. unfold ForexAI.votes, ForexAI.score_volume. rewrite H.
  rewrite score_levels_strength, score_patterns_strength, score_trend_strength,
    score_bollinger_strength, score_macd_strength, score_rsi_strength.
  reflexivity.
Qed.

End VoteFacts.

Lemma share_bound (x b r : Q) :
  (0 <= x <= b + r)%Q -> (0 < b + r)%Q ->
  exists c, (Fin x / (Fin b + Fin r) * dec 8 1 + Fin 0)%num = Fin c
            /\ (0 <= c <= 8 # 10)%Q.
Proof.
  intros Hx Hbr. cbn [add]. unfold div.
  destruct (Qcompare_spec (b + r) 0) as [E|L|G]; try (exfalso; lra).
  assert (0 <= x / (b + r) <= 1)%Q as Hq.
  { split; [apply Qle_shift_div_l; lra | apply Qle_shift_div_r; lra]. }
  revert Hq. generalize (x / (b + r))%Q. intros z Hz.
  cbn [mul dec add]. eexists. split; [reflexivity|].
  change (8 # Pos.of_nat (10 ^ 1)) with (8 # 10). lra.
Qed.

Lemma raw_confidence_unconfirmed (s : ForexAI.score) :
  score_ok s -> ForexAI.signalStrength s = Fin 0 ->
  exists c, snd (ForexAI.raw_decision s) = Fin c /\ (0 <= c <= 8 # 10)%Q.
Proof.
  intros (b & r & t & Eb & Er & Et & Hb & Hr & Ht) E0.
  unfold ForexAI.raw_decision. rewrite Eb, Er, E0.
  assert (exists c, Fin 0 = Fin c /\ (0 <= c <= 8 # 10)%Q) as Hhold
    by (exists 0%Q; split; [reflexivity | lra]).
  destruct (Fin b + Fin r >? Fin 0)%num eqn:T; [|exact Hhold].
  assert (0 < b + r)%Q as Hbr by (cbn [add] in T; unfold gtb in T; now apply ltb_fin in T).
  destruct (Fin b >? Fin r)%num; [apply share_bound; lra|].
  destruct (Fin r >? Fin b)%num; [apply share_bound; lra | exact Hhold].
Qed.

Lemma capped_confidence_unconfirmed (s : ForexAI.score) :
  score_ok s -> ForexAI.signalStrength s = Fin 0 ->
  exists c, ForexAI.capped_confidence s = Fin c /\ (0 <= c <= 8 # 10)%Q.
Proof.
  intros Hs H0. destruct (raw_confidence_unconfirmed s Hs H0) as (c & Ec & Hc).
  exists c. split; [|exact Hc].
  unfold ForexAI.capped_confidence. rewrite Ec. unfold min2, dec.
  rewrite ltb_false_fin; [reflexivity|].
  change (95 # Pos.of_nat (10 ^ 2)) with (95 # 100). lra.
Qed.

Lemma round_dec_3_unconfirmed (c : Q) :
  (0 <= c <= 8 # 10)%Q -> (0 <= round_dec 3 c <= 8 # 10)%Q.
Proof.
  intros [H0 H1]. rewrite round_dec_3.
  assert (Hlo : (0 <= Qfloor (c * 1000 + (1 # 2)))%Z).
  { change 0%Z with (Qfloor 0). apply Qfloor_resp_le. lra. }
  assert (Hhi : (Qfloor (c * 1000 + (1 # 2)) <= 800)%Z).
  { change 800%Z with (Qfloor (1601 # 2)). apply Qfloor_resp_le. lra. }
  rewrite Zle_Qle in Hlo, Hhi.
  revert Hlo Hhi. generalize (inject_Z (Qfloor (c * 1000 + (1 # 2)))).
  intros F Hlo Hhi. change (inject_Z 0) with 0%Q in Hlo.
  change (inject_Z 800) with 800%Q in Hhi.
  split.
  - apply Qle_shift_div_l; lra.
  - apply Qle_shift_div_r; lra.
Qed.

Lemma not_above_080 (q : Q) : (q <= 8 # 10)%Q -> (Fin q >? dec 8 1)%num = false.
Proof.
  intros H. unfold gtb, dec. apply ltb_false_fin.
  change (8 # Pos.of_nat (10 ^ 1)) with (8 # 10). exact H.
Qed.

Lemma makeDecision_unconfirmed (env : Env) (a : analysis_input) (d : decision) :
  is_high_volume (in_volumeAnalysis a) = false ->
  ForexAI.makeDecision env a = inr d ->
  exists q, d_confidence d = Fin q /\ (0 <= q <= 8 # 10)%Q.
Proof.
  intros Hv Hd. destruct (makeDecision_fields env a d Hd) as [_ ->].
  destruct (capped_confidence_unconfirmed (ForexAI.votes a)) as (c & -> & Hc).
  - apply votes_ok.
  - now apply votes_unconfirmed.
  - exists (round_dec 3 c). split; [reflexivity|].
    now apply round_dec_3_unconfirmed.
Qed.

(** X11. Without the high-volume confirmation the confidence returned by
    [makeDecision] is at most 0.8, so the test [confidence > 0.8] that
    guards the automatic trade cycle fails on it. *)
Theorem makeDecision_confidence_without_volume
  (env : Env) (a : analysis_input) (d : decision) :
  is_high_volume (in_volumeAnalysis a) = false ->
  ForexAI.makeDecision env a = inr d ->
  (exists q, d_confidence d = Fin q /\ (0 <= q <= 8 # 10)%Q)
  /\ (d_confidence d >? dec 8 1)%num = false.
Proof.
  intros Hv Hd. destruct (makeDecision_unconfirmed env a d Hv Hd) as (q & E & Hq).
  split; [eauto|]. rewrite E. apply not_above_080. lra.
Qed.

Lemma makeDecision_confidence_without_volume_witness :
  exists d,
    ForexAI.makeDecision sample_env oversold_input = inr d
    /\ (exists q, d_confidence d = Fin q /\ (0 <= q <= 8 # 10)%Q)
    /\ (d_confidence d >? dec 8 1)%num = false.
Proof.
  eexists. split; [vm_compute; reflexivity|].
  apply (makeDecision_confidence_without_volume sample_env oversold_input);
    [reflexivity | vm_compute; reflexivity].
Defined.

Lemma makeDecision_inv (env : Env) (a : analysis_input) (d : decision) :
  ForexAI.makeDecision env a = inr d ->
  d_action d = ForexAI.final_action env (ForexAI.votes a)
  /\ bullish_signals d = ForexAI.bullishSignals (ForexAI.votes a)
  /\ bearish_signals d = ForexAI.bearishSignals (ForexAI.votes a)
  /\ suggested_stop_loss d
     = ForexAI.calculateStopLoss (in_currentPrice a) (in_indicators a) (d_action d)
  /\ suggested_take_profit d
     = ForexAI.calculateTakeProfit (in_currentPrice a) (in_indicators a) (d_action d)
  /\ risk_level d
     = ForexAI.calculateRiskLevel (ForexAI.capped_confidence (ForexAI.votes a))
         (in_indicators a).
Proof.
  unfold ForexAI.makeDecision. cbv zeta.
  destruct (get _ _); [|discriminate].
  intros H. injection H as <-. cbn. repeat split.
Qed.

Lemma final_action_cases (env : Env) (s : ForexAI.score) :
  (ForexAI.final_action env s = buy ->
   (ForexAI.bullishSignals s >? ForexAI.bearishSignals s)%num = true
   /\ (ForexAI.capped_confidence s <? confidence_threshold env)%num = false)
  /\ (ForexAI.final_action env s = sell ->
      (ForexAI.bearishSignals s >? ForexAI.bullishSignals s)%num = true
      /\ (ForexAI.bullishSignals s >? ForexAI.bearishSignals s)%num = false
      /\ (ForexAI.capped_confidence s <? confidence_threshold env)%num = false).
Proof.
  unfold ForexAI.final_action, ForexAI.this_confidence_threshold.
  destruct (ForexAI.capped_confidence s <? confidence_threshold env)%num;
    [split; discriminate|].
  unfold ForexAI.raw_decision.
  destruct (_ >? Fin 0)%num; [|split; discriminate].
  destruct (ForexAI.bullishSignals s >? ForexAI.bearishSignals s)%num;
    [split; [auto | discriminate]|].
  destruct (ForexAI.bearishSignals s >? ForexAI.bullishSignals s)%num;
    split; try discriminate; auto.
Qed.

(** X12. [makeDecision] buys only when the bullish votes strictly outweigh
    the bearish ones and the capped confidence is not below the threshold,
    sells only in the mirrored case, and suggests a stop loss and a take
    profit exactly when the action is not [hold]. *)
Theorem makeDecision_action_coherent (env : Env) (a : analysis_input) (d : decision) :
  ForexAI.makeDecision env a = inr d ->
  (d_action d = buy ->
   (bullish_signals d >? bearish_signals d)%num = true
   /\ (ForexAI.capped_confidence (ForexAI.votes a) <? confidence_threshold env)%num
      = false)
  /\ (d_action d = sell ->
      (bearish_signals d >? bullish_signals d)%num = true
      /\ (ForexAI.capped_confidence (ForexAI.votes a) <? confidence_threshold env)%num
         = false)
  /\ (d_action d = hold <-> suggested_stop_loss d = None)
  /\ (d_action d = hold <-> suggested_take_profit d = None).
Proof.
  intros H. destruct (makeDecision_inv env a d H) as (Ea & Eb & Er & Es & Et & _).
  destruct (final_action_cases env (ForexAI.votes a)) as [Hb Hs].
  rewrite Eb, Er, Es, Et.
  split; [intros E; apply Hb; congruence|].
  split; [intros E; destruct Hs as (? & ? & ?); [congruence | auto]|].
  unfold ForexAI.calculateStopLoss, ForexAI.calculateTakeProfit.
  destruct (d_action d); split; split; intros; congruence.
Qed.

Lemma makeDecision_action_coherent_witness :
  exists d,
    ForexAI.makeDecision sample_env oversold_input = inr d
    /\ (d_action d = buy ->
        (bullish_signals d >? bearish_signals d)%num = true
        /\ (ForexAI.capped_confidence (ForexAI.votes oversold_input)
            <? confidence_threshold sample_env)%num = false)
    /\ (d_action d = sell ->
        (bearish_signals d >? bullish_signals d)%num = true
        /\ (ForexAI.capped_confidence (ForexAI.votes oversold_input)
            <? confidence_threshold sample_env)%num = false)
    /\ (d_action d = hold <-> suggested_stop_loss d = None)
    /\ (d_action d = hold <-> suggested_take_profit d = None).
Proof.
  eexists. split; [vm_compute; reflexivity|].
  apply (makeDecision_action_coherent sample_env oversold_input).
  vm_compute. reflexivity.
Defined.

(** X13. With a finite price and an ATR that is finite and not negative,
    the levels suggested with a buy bracket the price: the stop loss is
    [currentPrice - atr * 2], not above the price, and the take profit is
    [currentPrice + atr * 3], not below it; with a sell the stop loss is
    [currentPrice + atr * 2], not below the price, and the take profit is
    [currentPrice - atr * 3], not above it. *)
Theorem makeDecision_levels_bracket_price
  (env : Env) (a : analysis_input) (d : decision) (p t : Q) :
  ForexAI.makeDecision env a = inr d ->
  in_currentPrice a = Fin p ->
  last_ (atr (in_indicators a)) = Fin t ->
  (0 <= t)%Q ->
  (d_action d = buy ->
   suggested_stop_loss d
   = Some (in_currentPrice a - last_ (atr (in_indicators a)) * of_Z 2)%num
   /\ suggested_take_profit d
      = Some (in_currentPrice a + last_ (atr (in_indicators a)) * of_Z 3)%num
   /\ exists sl tp,
        suggested_stop_loss d = Some (Fin sl)
        /\ suggested_take_profit d = Some (Fin tp)
        /\ (sl <= p <= tp)%Q)
  /\ (d_action d = sell ->
      suggested_stop_loss d
      = Some (in_currentPrice a + last_ (atr (in_indicators a)) * of_Z 2)%num
      /\ suggested_take_profit d
         = Some (in_currentPrice a - last_ (atr (in_indicators a)) * of_Z 3)%num
      /\ exists sl tp,
           suggested_stop_loss d = Some (Fin sl)
           /\ suggested_take_profit d = Some (Fin tp)
           /\ (tp <= p <= sl)%Q).
Proof.
  intros H Ep Et Ht.
  destruct (makeDecision_inv env a d H) as (_ & _ & _ & Es & Etp & _).
  rewrite Es, Etp. unfold ForexAI.calculateStopLoss, ForexAI.calculateTakeProfit.
  cbv zeta.
  split; intros ->; (split; [reflexivity|]); (split; [reflexivity|]);
    rewrite Ep, Et; cbn [mul of_Z sub add neg];
    change (inject_Z 2) with 2%Q; change (inject_Z 3) with 3%Q;
    eexists; eexists;
    (split; [reflexivity|]); (split; [reflexivity|]); split; lra.
Qed.

Lemma makeDecision_levels_bracket_price_witness :
  exists d,
    ForexAI.makeDecision sample_env oversold_input = inr d
    /\ (d_action d = buy ->
        suggested_stop_loss d
        = Some (in_currentPrice oversold_input
                - last_ (atr (in_indicators oversold_input)) * of_Z 2)%num
        /\ suggested_take_profit d
           = Some (in_currentPrice oversold_input
                   + last_ (atr (in_indicators oversold_input)) * of_Z 3)%num
        /\ exists sl tp,
             suggested_stop_loss d = Some (Fin sl)
             /\ suggested_take_profit d = Some (Fin tp)
             /\ (sl <= 2 <= tp)%Q)
    /\ (d_action d = sell ->
        suggested_stop_loss d
        = Some (in_currentPrice oversold_input
                + last_ (atr (in_indicators oversold_input)) * of_Z 2)%num
        /\ suggested_take_profit d
           = Some (in_currentPrice oversold_input
                   - last_ (atr (in_indicators oversold_input)) * of_Z 3)%num
        /\ exists sl tp,
             suggested_stop_loss d = Some (Fin sl)
             /\ suggested_take_profit d = Some (Fin tp)
             /\ (tp <= 2 <= sl)%Q).
Proof.
  eexists. split; [vm_compute; reflexivity|].
  apply (makeDecision_levels_bracket_price sample_env oversold_input _ 2 (1 # 1000)).
  - vm_compute. reflexivity.
  - reflexivity.
  - reflexivity.
  - vm_compute. discriminate.
Defined.

(* ===================================================================== *)
(** ** Volume *)
(* ===================================================================== *)

Lemma Qsum_zeros {A : Type} (l : list A) : (Qsum (map (fun _ => 0%Q) l) == 0)%Q.
Proof.
  induction l as [|x l IH]; unfold Qsum in *; cbn [map fold_right]; [reflexivity|].
  rewrite IH. ring.
Qed.

Lemma volumes_zero (data : list candle) :
  Forall no_volume data ->
  map (fun d => ForexAI.or_zero (volume d)) data
  = map Fin (map (fun _ => 0%Q) data).
Proof.
  induction 1 as [|c data Hc _ IH]; [reflexivity|].
  cbn [map]. rewrite IH. f_equal. destruct Hc as [-> | ->]; reflexivity.
Qed.

Lemma analyzeVolume_no_volume (data : list candle) :
  Forall no_volume data ->
  is_high_volume (ForexAI.analyzeVolume data) = false
  /\ volume_ratio (ForexAI.analyzeVolume data) = NaN.
Proof.
  intros H. unfold ForexAI.analyzeVolume. cbv zeta.
  cbn [is_high_volume volume_ratio].
  rewrite (volumes_zero data H).
  set (zs := map (fun _ => 0%Q) data).
  assert (len (map Fin zs) = len data) as L by (unfold zs; now rewrite !len_map).
  destruct (sum_fin zs) as (b & -> & Hb).
  assert (b == 0)%Q as Hb0 by (rewrite Hb; apply Qsum_zeros).
  rewrite L. pose proof (len_nonneg data) as Hn.
  destruct (Z.eq_dec (len data) 0) as [E|E].
  - rewrite E.
    assert ((Fin b / of_Z 0)%num = NaN) as ->.
    { unfold div, of_Z. change (inject_Z 0 ?= 0)%Q with Eq. cbv iota.
      unfold signed_inf. destruct (Qcompare_spec b 0) as [?|?|?];
        try reflexivity; exfalso; lra. }
    unfold gtb. cbn [mul]. split; [reflexivity|].
    now destruct (last_ (map Fin zs)).
  - rewrite div_fin_pos by lia.
    assert (last_ (map Fin zs) = Fin 0) as ->.
    { unfold last_. rewrite L.
      destruct (get_in_range data (len data - 1)) as [c Hc]; [lia|].
      apply at_map_Fin. unfold zs. now rewrite get_map, Hc. }
    assert (b / inject_Z (len data) == 0)%Q as Hq
      by (rewrite Hb0; unfold Qdiv; ring).
    split.
    + unfold gtb. cbn [mul dec]. apply ltb_false_fin. rewrite Hq. lra.
    + unfold div.
      destruct (Qcompare_spec (b / inject_Z (len data)) 0) as [?|?|?];
        try (exfalso; lra). reflexivity.
Qed.

(** X14. On candles without volume (0 or NaN: every candle that
    [getMarketData] reads from rows written by [saveCandleToDB]) the volume
    analysis never reports high volume, and the volume ratio is NaN
    ([0 / 0]). *)
Theorem analyzeVolume_without_volume (data : list candle) :
  Forall (fun c => volume c = Fin 0 \/ volume c = NaN) data ->
  is_high_volume (ForexAI.analyzeVolume data) = false
  /\ volume_ratio (ForexAI.analyzeVolume data) = NaN.
Proof. apply analyzeVolume_no_volume. Qed.

Lemma analyzeVolume_without_volume_witness :
  is_high_volume
    (ForexAI.analyzeVolume (map ForexAI.candle_of_row three_rows)) = false
  /\ volume_ratio
       (ForexAI.analyzeVolume (map ForexAI.candle_of_row three_rows)) = NaN.
Proof.
  apply (analyzeVolume_without_volume (map ForexAI.candle_of_row three_rows)).
  repeat constructor.
Defined.

(* ===================================================================== *)
(** ** Reading candles back from the store *)
(* ===================================================================== *)

Lemma bind_run {A B : Type} (c : M A) (k : A -> M B) (w : world) :
  bind c k w = k (fst (c w)) (snd (c w)).
Proof. unfold bind. now destruct (c w). Qed.

(** Run the outermost [bind] of the goal. *)
Ltac bind_step :=
  match goal with
  | |- context [bind ?c ?k ?x] => rewrite (bind_run c k x); cbv beta
  end.

Lemma In_insert_desc (r x : market_row) (l : list market_row) :
  In x (insert_desc r l) <-> x = r \/ In x l.
Proof.
  induction l as [|y l IH]; cbn [insert_desc].
  - cbn. intuition congruence.
  - destruct (md_timestamp y <? md_timestamp r).
    + cbn. intuition congruence.
    + cbn [In]. rewrite IH. intuition congruence.
Qed.

Lemma In_order_by_timestamp_desc (x : market_row) (l : list market_row) :
  In x (order_by_timestamp_desc l) <-> In x l.
Proof.
  unfold order_by_timestamp_desc.
  induction l as [|y l IH]; cbn [fold_right]; [reflexivity|].
  rewrite In_insert_desc, IH. cbn. intuition congruence.
Qed.

Lemma select_market_data_In (symbol timeframe : string) (limit : Z)
  (t : list market_row) (r : market_row) :
  In r (select_market_data symbol timeframe limit t) ->
  In r t /\ md_symbol r = symbol /\ md_timeframe r = timeframe.
Proof.
  unfold select_market_data. intros H. apply In_prefix in H.
  rewrite In_order_by_timestamp_desc in H. apply filter_In in H.
  destruct H as [Hin Hk]. apply andb_true_iff in Hk. destruct Hk as [Hs Ht].
  apply String.eqb_eq in Hs, Ht. auto.
Qed.

Lemma select_market_data_nonempty (symbol timeframe : string) (limit : Z)
  (t : list market_row) (r : market_row) :
  0 < limit -> In r t -> md_symbol r = symbol -> md_timeframe r = timeframe ->
  select_market_data symbol timeframe limit t <> [].
Proof.
  intros Hl Hin Hs Ht. unfold select_market_data.
  assert (In r (order_by_timestamp_desc
                  (filter (fun r => String.eqb (md_symbol r) symbol
                                    && String.eqb (md_timeframe r) timeframe) t)))
    as H.
  { apply In_order_by_timestamp_desc, filter_In. split; [exact Hin|].
    rewrite Hs, Ht, !String.eqb_refl. reflexivity. }
  destruct (order_by_timestamp_desc _) as [|y l]; [contradiction|].
  destruct (Z.to_nat limit) eqn:E; [lia|]. discriminate.
Qed.

Lemma upsert_zero_volume (new : market_row) (t : list market_row) :
  zero_volume_row new -> Forall zero_volume_row t ->
  Forall zero_volume_row (upsert_candle new t).
Proof.
  intros Hn Ht. rewrite upsert_unfold.
  destruct (existsb (same_key new) t).
  - apply Forall_map_iff. eapply Forall_impl; [|exact Ht].
    intros r Hr. unfold touch. destruct (same_key new r); exact Hr.
  - apply Forall_app. split; [exact Ht | constructor; [exact Hn | constructor]].
Qed.

Lemma stored_candle_selected (c : candle_data) (t : list market_row) :
  select_market_data (cd_symbol c) "5m" 200 (upsert_candle (row_of_candle c) t)
  <> [].
Proof.
  pose proof (upsert_exists (row_of_candle c) t) as H.
  apply existsb_exists in H. destruct H as (r & Hin & Hk).
  unfold same_key in Hk. apply has_key_spec in Hk. destruct Hk as (Hs & Ht & _).
  apply (select_market_data_nonempty _ _ _ _ r); auto. lia.
Qed.

Lemma stored_candles_no_volume (symbol timeframe : string) (limit : Z)
  (t : list market_row) :
  Forall zero_volume_row t ->
  Forall no_volume
    (rev (map ForexAI.candle_of_row (select_market_data symbol timeframe limit t))).
Proof.
  intros H. apply Forall_rev, Forall_map_iff, Forall_forall. intros r Hr.
  apply select_market_data_In in Hr. destruct Hr as [Hin _].
  rewrite Forall_forall in H. unfold no_volume, ForexAI.candle_of_row. cbn [volume].
  destruct (H r Hin) as [-> | ->]; left; reflexivity.
Qed.

Section StoredAnalysis.

Variable env : Env.

(** A decision of [analyzeMarket] is the one [makeDecision] takes on the
    candles [getMarketData] returned. *)
Lemma analyzeMarket_try_decision (symbol timeframe : string) (w : world) (d : decision) :
  fst (ForexAI.analyzeMarket_try env symbol timeframe w) = inr d ->
  exists a,
    ForexAI.makeDecision env a = inr d
    /\ in_volumeAnalysis a
       = ForexAI.analyzeVolume (fst (ForexAI.getMarketData env symbol timeframe 200 w)).
Proof.
  unfold ForexAI.analyzeMarket_try. bind_step.
  set (marketData := fst (ForexAI.getMarketData env symbol timeframe 200 w)).
  generalize (snd (ForexAI.getMarketData env symbol timeframe 200 w)). intros w1.
  destruct (len marketData <? 50); [discriminate|].
  destruct (get marketData (len marketData - 1)) as [latest|]; [|discriminate].
  match goal with
  | |- context [ForexAI.makeDecision env ?a] =>
      destruct (ForexAI.makeDecision env a) as [e|d'] eqn:E; [discriminate|];
      bind_step; cbn [ret fst]; intros H; injection H as <-;
      exists a; split; [exact E | reflexivity]
  end.
Qed.

Lemma analyzeMarket_confidence_of_stored (symbol timeframe : string) (w : world) :
  query_fails env (queries w) = false ->
  select_market_data symbol timeframe 200 (market_data w) <> [] ->
  Forall zero_volume_row (market_data w) ->
  (analysis_confidence (fst (ForexAI.analyzeMarket env symbol timeframe w))
   >? dec 8 1)%num = false.
Proof.
  intros Hq Hsel Hzero. unfold ForexAI.analyzeMarket. bind_step.
  destruct (fst (ForexAI.analyzeMarket_try env symbol timeframe w)) as [e|d] eqn:E;
    cbn [ret fst analysis_confidence e_confidence]; [reflexivity|].
  destruct (analyzeMarket_try_decision symbol timeframe w d E) as (a & Hd & Hv).
  destruct (makeDecision_unconfirmed env a d) as (q & -> & Hq'); auto.
  - rewrite Hv, (getMarketData_rows env symbol timeframe 200 w Hq Hsel). cbn [fst].
    apply analyzeVolume_no_volume. now apply stored_candles_no_volume.
  - apply not_above_080. lra.
Qed.

End StoredAnalysis.

(* ===================================================================== *)
(** ** Live candles never reach the trade cycle *)
(* ===================================================================== *)

Lemma untouched_refl (w : world) : untouched w w.
Proof. repeat split. Qed.

Lemma untouched_trans (w1 w2 w3 : world) :
  untouched w1 w2 -> untouched w2 w3 -> untouched w1 w3.
Proof.
  unfold untouched. intros (A1 & B1 & C1 & D1) (A2 & B2 & C2 & D2).
  repeat split; congruence.
Qed.

Ltac untouched_frame :=
  try exact untouched_refl; try exact untouched_trans;
  try (intros; repeat split; fail).

Section NoVolumeNoTrade.

Variable env : Env.
Hypothesis store_answers : forall n, query_fails env n = false.

Lemma untouched_analyzeMarket (symbol timeframe : string) (w : world) :
  untouched w (snd (ForexAI.analyzeMarket env symbol timeframe w)).
Proof. eapply keeps_analyzeMarket with (R := untouched); untouched_frame. Qed.

Lemma untouched_io_emit (e : io_event) (w : world) :
  untouched w (snd (io_emit env e w)).
Proof. eapply keeps_io_emit with (R := untouched); untouched_frame. Qed.

(** An analysis of stored candles without volume ends without a trade
    cycle. *)
Lemma analyzeWithAI_of_stored (symbol : string) (w : world) :
  select_market_data symbol "5m" 200 (market_data w) <> [] ->
  Forall zero_volume_row (market_data w) ->
  untouched w (snd (DerivIntegration.analyzeWithAI env symbol w)).
Proof.
  intros Hsel Hzero. unfold DerivIntegration.analyzeWithAI.
  bind_step. bind_step. bind_step. bind_step.
  set (w2 := snd (logger (log_analysing symbol) (snd (modify _ w)))).
  assert (untouched w w2) as U2 by (unfold w2; repeat split).
  assert (market_data w2 = market_data w) as M2 by apply U2.
  pose proof (analyzeMarket_confidence_of_stored env symbol "5m" w2
                (store_answers _)) as Hc.
  rewrite M2 in Hc. specialize (Hc Hsel Hzero).
  pose proof (untouched_analyzeMarket symbol "5m" w2) as U3.
  revert Hc U3.
  generalize (fst (ForexAI.analyzeMarket env symbol "5m" w2)).
  generalize (snd (ForexAI.analyzeMarket env symbol "5m" w2)).
  intros w3 a Hc U3.
  unfold database_query at 1 2. rewrite store_answers.
  cbn [modify fst snd]. bind_step. rewrite Hc. cbn [andb when ret snd].
  eapply untouched_trans; [exact U2|].
  eapply untouched_trans; [exact U3|].
  eapply untouched_trans; [|apply untouched_io_emit].
  repeat split.
Qed.

Lemma handleCandleData_of_stored (c : candle_data) (w : world) :
  Forall zero_volume_row (market_data w) ->
  Forall zero_volume_row (market_data (snd (DerivIntegration.handleCandleData env c w)))
  /\ trades (snd (DerivIntegration.handleCandleData env c w)) = trades w
  /\ orders (snd (DerivIntegration.handleCandleData env c w)) = orders w
  /\ tradesExecuted (stats (snd (DerivIntegration.handleCandleData env c w)))
     = tradesExecuted (stats w).
Proof.
  intros Hzero. unfold DerivIntegration.handleCandleData.
  bind_step. bind_step. bind_step. bind_step.
  set (w1 := snd (modify _ w)).
  rewrite (saveCandleToDB_stores env c w1 (store_answers _)).
  set (w2 := set_market_data _ (after_query w1)).
  assert (market_data w2 = upsert_candle (row_of_candle c) (market_data w))
    as M2 by reflexivity.
  assert (Forall zero_volume_row (market_data w2)) as Z2.
  { rewrite M2. apply upsert_zero_volume; [left; reflexivity | exact Hzero]. }
  assert (trades w2 = trades w /\ orders w2 = orders w
          /\ tradesExecuted (stats w2) = tradesExecuted (stats w)) as F2
    by (repeat split).
  assert (select_market_data (cd_symbol c) "5m" 200 (market_data w2) <> []) as S2
    by (rewrite M2; apply stored_candle_selected).
  clearbody w2. clear M2.
  unfold DerivIntegration.shouldAnalyzeCandle. cbn [gets fst snd].
  assert (untouched w2
            (snd (when (Z.rem (candlesReceived (stats w2)) 5 =? 0)
                    (DerivIntegration.analyzeWithAI env (cd_symbol c)) w2))) as U3.
  { destruct (Z.rem (candlesReceived (stats w2)) 5 =? 0); cbn [when].
    - now apply analyzeWithAI_of_stored.
    - apply untouched_refl. }
  revert U3.
  generalize (snd (when (Z.rem (candlesReceived (stats w2)) 5 =? 0)
                     (DerivIntegration.analyzeWithAI env (cd_symbol c)) w2)).
  intros w3 U3.
  pose proof (untouched_io_emit
                (candle_update (cd_symbol c) (cd_timestamp c)) w3) as U4.
  revert U4. generalize (snd (io_emit env (candle_update (cd_symbol c)
                                              (cd_timestamp c)) w3)).
  intros w4 U4.
  destruct (untouched_trans _ _ _ U3 U4) as (A & B & C & D).
  destruct F2 as (F1 & F2 & F3).
  rewrite A, B, C, D. auto.
Qed.

Lemma handleCandles_of_stored (events : list candle_data) :
  forall w : world,
    Forall zero_volume_row (market_data w) ->
    Forall zero_volume_row
      (market_data (snd (DerivIntegration.handleCandles env events w)))
    /\ trades (snd (DerivIntegration.handleCandles env events w)) = trades w
    /\ orders (snd (DerivIntegration.handleCandles env events w)) = orders w
    /\ tradesExecuted (stats (snd (DerivIntegration.handleCandles env events w)))
       = tradesExecuted (stats w).
Proof.
  unfold DerivIntegration.handleCandles.
  induction events as [|c events IH]; intros w Hzero.
  - cbn. auto.
  - rewrite for_of_cons.
    destruct (handleCandleData_of_stored c w Hzero) as (Z1 & T1 & O1 & E1).
    destruct (IH _ Z1) as (Z2 & T2 & O2 & E2).
    rewrite T2, O2, E2. auto.
Qed.

End NoVolumeNoTrade.

(** X15. While the store answers every query, handling candle events never
    leads to an automatic trade: starting from a table whose rows have
    volume 0 or NULL (an empty table for one), every analysis reads the
    candles [saveCandleToDB] wrote with volume 0, its confidence stays at
    0.8 or below, and the guard [confidence > 0.8] of [analyzeWithAI] fails.
    No trade row is written, no order is sent to the broker and
    [tradesExecuted] stays as it was. *)
Theorem stored_candles_never_trade
  (env : Env) (events : list candle_data) (w : world) :
  (forall n, query_fails env n = false) ->
  Forall (fun r => md_volume r = Some 0 \/ md_volume r = None) (market_data w) ->
  trades (snd (DerivIntegration.handleCandles env events w)) = trades w
  /\ orders (snd (DerivIntegration.handleCandles env events w)) = orders w
  /\ tradesExecuted (stats (snd (DerivIntegration.handleCandles env events w)))
     = tradesExecuted (stats w)
  /\ Forall (fun r => md_volume r = Some 0 \/ md_volume r = None)
       (market_data (snd (DerivIntegration.handleCandles env events w))).
Proof.
  intros Hs Hz.
  destruct (handleCandles_of_stored env Hs events w Hz) as (Z & T & O & E).
  auto.
Qed.

Lemma stored_candles_never_trade_witness :
  trades (snd (DerivIntegration.handleCandles sample_env five_eurusd
                 (fresh_world three_rows [eligible_user])))
  = trades (fresh_world three_rows [eligible_user])
  /\ orders (snd (DerivIntegration.handleCandles sample_env five_eurusd
                    (fresh_world three_rows [eligible_user])))
     = orders (fresh_world three_rows [eligible_user])
  /\ tradesExecuted
       (stats (snd (DerivIntegration.handleCandles sample_env five_eurusd
                      (fresh_world three_rows [eligible_user]))))
     = tradesExecuted (stats (fresh_world three_rows [eligible_user]))
  /\ Forall (fun r => md_volume r = Some 0 \/ md_volume r = None)
       (market_data (snd (DerivIntegration.handleCandles sample_env five_eurusd
                            (fresh_world three_rows [eligible_user])))).
Proof.
  apply (stored_candles_never_trade sample_env five_eurusd
           (fresh_world three_rows [eligible_user])).
  - intros n. reflexivity.
  - repeat (constructor; [first [left; reflexivity | right; reflexivity]|]).
    constructor.
Defined.

(* ===================================================================== *)
(** ** One trade *)
(* ===================================================================== *)

Lemma executeTrade_outcome
  (env : Env) (user : account_row) (symbol : string) (a : analysis) (w : world) :
  (priceCache w symbol = None ->
   fst (DerivIntegration.executeTrade env user symbol a w)
   = no_trade "Preço atual não disponível"
   /\ orders (snd (DerivIntegration.executeTrade env user symbol a w)) = orders w)
  /\ (success (fst (DerivIntegration.executeTrade env user symbol a w)) = false ->
      trades (snd (DerivIntegration.executeTrade env user symbol a w)) = trades w)
  /\ (success (fst (DerivIntegration.executeTrade env user symbol a w)) = true ->
      exists entry row,
        priceCache w symbol = Some entry
        /\ is_trade_row env user symbol a entry row
        /\ trades (snd (DerivIntegration.executeTrade env user symbol a w))
           = push (trades w) row)
  /\ stats (snd (DerivIntegration.executeTrade env user symbol a w)) = stats w.
Proof.
  unfold DerivIntegration.executeTrade, bind, random, gets.
  cbn [priceCache set_randoms].
  destruct (priceCache w symbol) as [entry|];
    [|cbn; (split; [intros _; split; reflexivity|]); (split; [reflexivity|]);
      (split; [discriminate | reflexivity])].
  cbv zeta.
  unfold DerivIntegration.insert_trade, DerivIntegration.executeRealDerivTrade,
    database_query, modify.
  split; [discriminate|].
  destruct (String.eqb (broker user) "deriv" && DERIV_DEMO_MODE env).
  - cbn -[push].
    destruct (query_fails env (queries w)); cbn -[push].
    + split; [reflexivity|]. split; [discriminate | reflexivity].
    + split; [discriminate|]. split; [|reflexivity].
      intros _. eexists. eexists. split; [reflexivity|]. split; [|reflexivity].
      repeat split.
  - destruct (String.eqb (broker user) "deriv" && DERIV_API_TOKEN env);
      [|cbn; split; [reflexivity|]; split; [discriminate | reflexivity]].
    cbn -[push].
    destruct (derivAPI_buy env (orders w)) as [contract_id|]; cbn -[push];
      [|split; [reflexivity|]; split; [discriminate | reflexivity]].
    destruct (query_fails env (queries w)); cbn -[push].
    + split; [reflexivity|]. split; [discriminate | reflexivity].
    + split; [discriminate|]. split; [|reflexivity].
      intros _. eexists. eexists. split; [reflexivity|]. split; [|reflexivity].
      repeat split.
Qed.

(** X16. [executeTrade] writes a trade row exactly when it reports success:
    a failed attempt leaves [trades] as it was, a successful one appends one
    row for this user, symbol and action, at the cached price of the symbol,
    with the amount of the user and the confidence of the analysis.
    Without a cached price the attempt fails before any order is sent. *)
Theorem executeTrade_row_iff_success
  (env : Env) (user : account_row) (symbol : string) (a : analysis) (w : world) :
  (priceCache w symbol = None ->
   fst (DerivIntegration.executeTrade env user symbol a w)
   = no_trade "Preço atual não disponível"
   /\ orders (snd (DerivIntegration.executeTrade env user symbol a w)) = orders w)
  /\ (success (fst (DerivIntegration.executeTrade env user symbol a w)) = false ->
      trades (snd (DerivIntegration.executeTrade env user symbol a w)) = trades w)
  /\ (success (fst (DerivIntegration.executeTrade env user symbol a w)) = true ->
      exists entry row,
        priceCache w symbol = Some entry
        /\ t_user_id row = u_id user
        /\ t_symbol row = symbol
        /\ t_type row = analysis_action a
        /\ t_entry_price row = price entry
        /\ t_amount row = entry_amount user
        /\ t_ai_confidence row = analysis_confidence a
        /\ trades (snd (DerivIntegration.executeTrade env user symbol a w))
           = push (trades w) row).
Proof.
  destruct (executeTrade_outcome env user symbol a w) as (H1 & H2 & H3 & _).
  split; [exact H1|]. split; [exact H2|].
  intros H. destruct (H3 H) as (entry & row & E & R & T).
  destruct R as (R1 & R2 & R3 & R4 & R5 & R6 & _).
  exists entry, row. repeat split; assumption.
Qed.

(** X17. On the real-trade path an order that the broker accepted is
    reported as a failure when the insert into [trades] throws: the order
    has been sent, no row records it, and the caller sees
    [{success: false}]. *)
Theorem executeTrade_accepted_order_unrecorded
  (env : Env) (user : account_row) (symbol : string) (a : analysis) (w : world)
  (entry : price_entry) (contract_id : Z) :
  priceCache w symbol = Some entry ->
  broker user = "deriv"%string ->
  DERIV_DEMO_MODE env = false ->
  DERIV_API_TOKEN env = true ->
  derivAPI_buy env (orders w) = Some contract_id ->
  query_fails env (queries w) = true ->
  fst (DerivIntegration.executeTrade env user symbol a w) = no_trade "query failed"
  /\ orders (snd (DerivIntegration.executeTrade env user symbol a w)) = S (orders w)
  /\ trades (snd (DerivIntegration.executeTrade env user symbol a w)) = trades w.
Proof.
  intros Hp Hb Hd Ht Ho Hq.
  unfold DerivIntegration.executeTrade, bind, random, gets.
  cbn [priceCache set_randoms]. rewrite Hp, Hb, Hd, Ht. cbn -[push].
  unfold DerivIntegration.executeRealDerivTrade. cbn -[push]. rewrite Ho.
  unfold DerivIntegration.insert_trade, database_query. cbn -[push]. rewrite Hq.
  cbn. repeat split.
Qed.

Lemma executeTrade_accepted_order_unrecorded_witness :
  fst (DerivIntegration.executeTrade live_env_store_down eligible_user "EURUSD"
         buy_signal cap_world) = no_trade "query failed"
  /\ orders (snd (DerivIntegration.executeTrade live_env_store_down eligible_user
                    "EURUSD" buy_signal cap_world)) = S (orders cap_world)
  /\ trades (snd (DerivIntegration.executeTrade live_env_store_down eligible_user
                    "EURUSD" buy_signal cap_world)) = trades cap_world.
Proof.
  apply (executeTrade_accepted_order_unrecorded live_env_store_down eligible_user
           "EURUSD" buy_signal cap_world
           (mkPrice (dec 10855 4) (dec 10854 4) (dec 10856 4) (dec 2 4)) 0);
    reflexivity.
Defined.

(* ===================================================================== *)
(** ** The trade cycle counts what it writes *)
(* ===================================================================== *)

Lemma traded_refl (symbol : string) (a : analysis) (w : world) :
  traded symbol a w w.
Proof. exists []. rewrite app_nil_r, Z.add_0_r. repeat split. constructor. Qed.

Lemma traded_trans (symbol : string) (a : analysis) (w1 w2 w3 : world) :
  traded symbol a w1 w2 -> traded symbol a w2 w3 -> traded symbol a w1 w3.
Proof.
  intros (r1 & T1 & E1 & F1) (r2 & T2 & E2 & F2). exists (r1 ++ r2).
  rewrite T2, T1, E2, E1, len_app, app_assoc.
  repeat split; [lia | now apply Forall_app].
Qed.

Lemma traded_same (symbol : string) (a : analysis) (w w' : world) :
  trades w' = trades w -> tradesExecuted (stats w') = tradesExecuted (stats w) ->
  traded symbol a w w'.
Proof.
  intros T E. exists []. rewrite app_nil_r, Z.add_0_r. repeat split; auto.
Qed.

Section Counting.

Variable env : Env.
Variable symbol : string.
Variable a : analysis.

Ltac traded_frame :=
  try exact (traded_refl symbol a); try exact (traded_trans symbol a);
  try (intros; apply traded_same; reflexivity).

Lemma traded_executeTrade_counted (user : account_row) (w : world) :
  traded symbol a w
    (snd (bind (DerivIntegration.executeTrade env user symbol a)
            (fun tradeResult =>
               when (success tradeResult)
                 (bind
                    (modify (fun w =>
                       set_stats
                         (mkStats (ticksReceived (stats w)) (candlesReceived (stats w))
                            (aiAnalysisCount (stats w)) (tradesExecuted (stats w) + 1))
                         w))
                    (fun _ =>
                       io_emit env
                         (auto_trade_executed (u_id user) symbol (analysis_action a)
                            (analysis_confidence a) (result_trade_id tradeResult)))))
            w)).
Proof.
  bind_step.
  destruct (executeTrade_outcome env user symbol a w) as (_ & Hf & Ht & Hs).
  revert Hf Ht Hs.
  generalize (fst (DerivIntegration.executeTrade env user symbol a w)).
  generalize (snd (DerivIntegration.executeTrade env user symbol a w)).
  intros w1 r Hf Ht Hs.
  destruct (success r) eqn:S; cbn [when].
  - destruct (Ht eq_refl) as (entry & row & _ & R & T).
    destruct R as (_ & R2 & R3 & _).
    exists [row]. unfold bind, modify, io_emit, when.
    destruct (global_io env); cbn; rewrite T, Hs;
      (split; [reflexivity|]); (split; [reflexivity|]);
      repeat constructor; assumption.
  - apply traded_same; cbn; [auto | now rewrite Hs].
Qed.

Lemma traded_autoTradeUser (user : account_row) :
  keeps (traded symbol a) (DerivIntegration.autoTradeUser env symbol a user).
Proof.
  unfold DerivIntegration.autoTradeUser.
  destruct (negb (trading_active user) || negb (ai_active user));
    [intros w; apply traded_refl|].
  eapply keeps_bind; traded_frame. intros _.
  eapply keeps_bind; traded_frame.
  - eapply keeps_getUserDailyTrades; traded_frame.
  - intros dailyTrades.
    destruct ((dailyTrades >=? max_daily_trades user)
              && negb (max_daily_trades user =? -1)).
    + intros w. apply traded_same; reflexivity.
    + intros w. apply traded_executeTrade_counted.
Qed.

Lemma traded_executeAutoTrade :
  keeps (traded symbol a) (DerivIntegration.executeAutoTrade env symbol a).
Proof.
  unfold DerivIntegration.executeAutoTrade.
  eapply keeps_bind; traded_frame.
  - eapply keeps_getActiveUsers; traded_frame.
  - intros users. eapply keeps_for_of; traded_frame.
    intros user _. apply traded_autoTradeUser.
Qed.

End Counting.

(** X18. Whatever the store and the broker do, [executeAutoTrade] only
    appends to [trades], every row it appends is a trade of the analysed
    symbol with the action of the analysis, and [tradesExecuted] grows by
    exactly the number of rows appended. *)
Theorem executeAutoTrade_counts_its_trades
  (env : Env) (symbol : string) (a : analysis) (w : world) :
  exists rows,
    trades (snd (DerivIntegration.executeAutoTrade env symbol a w))
    = trades w ++ rows
    /\ tradesExecuted (stats (snd (DerivIntegration.executeAutoTrade env symbol a w)))
       = tradesExecuted (stats w) + len rows
    /\ Forall (fun r => t_symbol r = symbol /\ t_type r = analysis_action a) rows.
Proof. apply (traded_executeAutoTrade env symbol a w). Qed.

(* ===================================================================== *)
(** ** Only [saveCandleToDB] writes candles *)
(* ===================================================================== *)

Lemma same_candles_refl (w : world) : same_candles w w.
Proof. reflexivity. Qed.

Lemma same_candles_trans (w1 w2 w3 : world) :
  same_candles w1 w2 -> same_candles w2 w3 -> same_candles w1 w3.
Proof. unfold same_candles. congruence. Qed.

Ltac candles_frame :=
  try exact same_candles_refl; try exact same_candles_trans;
  try (intros; reflexivity).

Section CandleWrites.

Variable env : Env.

Lemma same_candles_executeAutoTrade (symbol : string) (a : analysis) :
  keeps same_candles (DerivIntegration.executeAutoTrade env symbol a).
Proof.
  unfold DerivIntegration.executeAutoTrade.
  eapply keeps_bind; candles_frame.
  - eapply keeps_getActiveUsers; candles_frame.
  - intros users. eapply keeps_for_of; candles_frame.
    intros user _. eapply keeps_autoTradeUser; candles_frame.
Qed.

Lemma same_candles_analyzeWithAI (symbol : string) :
  keeps same_candles (DerivIntegration.analyzeWithAI env symbol).
Proof.
  unfold DerivIntegration.analyzeWithAI.
  eapply keeps_bind; candles_frame. intros _.
  eapply keeps_bind; candles_frame. intros _.
  eapply keeps_bind; candles_frame.
  - eapply keeps_analyzeMarket; candles_frame.
  - intros a. eapply keeps_bind; candles_frame.
    + eapply keeps_database_query; candles_frame.
    + intros [e|u]; [eapply keeps_ret; candles_frame|].
      eapply keeps_bind; candles_frame.
      * eapply keeps_when; candles_frame. apply same_candles_executeAutoTrade.
      * intros _. eapply keeps_io_emit; candles_frame.
Qed.

(** After the write of [saveCandleToDB], [handleCandleData] leaves the
    candles alone. *)
Lemma handleCandleData_candles (c : candle_data) (w : world) :
  market_data (snd (DerivIntegration.handleCandleData env c w))
  = market_data
      (snd (DerivIntegration.saveCandleToDB env c
              (snd (modify (fun w =>
                      set_stats
                        (mkStats (ticksReceived (stats w))
                           (candlesReceived (stats w) + 1)
                           (aiAnalysisCount (stats w)) (tradesExecuted (stats w)))
                        w) w)))).
Proof.
  unfold DerivIntegration.handleCandleData. bind_step. bind_step.
  match goal with
  | |- market_data (snd (_ ?W)) = market_data ?W => generalize W
  end.
  intros w2.
  eapply keeps_bind with (R := same_candles); candles_frame.
  intros analyze. eapply keeps_bind; candles_frame.
  - eapply keeps_when; candles_frame. apply same_candles_analyzeWithAI.
  - intros _. eapply keeps_io_emit; candles_frame.
Qed.

Lemma handleCandleData_saved (c : candle_data) (w : world) :
  query_fails env (queries w) = false ->
  market_data (snd (DerivIntegration.handleCandleData env c w))
  = upsert_candle (row_of_candle c) (market_data w).
Proof.
  intros Hq. rewrite handleCandleData_candles.
  rewrite saveCandleToDB_stores by exact Hq. reflexivity.
Qed.

Lemma handleCandleData_lost (c : candle_data) (w : world) :
  query_fails env (queries w) = true ->
  market_data (snd (DerivIntegration.handleCandleData env c w)) = market_data w.
Proof.
  intros Hq. rewrite handleCandleData_candles.
  unfold DerivIntegration.saveCandleToDB, bind, database_query. cbn [modify snd queries set_stats].
  rewrite Hq. reflexivity.
Qed.

End CandleWrites.

(** X19. Of all that [handleCandleData] does (the write, an analysis every
    fifth event, the trade cycle, the emissions) only the write of
    [saveCandleToDB] touches the candles.  When its query is answered, the
    table afterwards holds exactly one row for (symbol, 5m, timestamp) of
    the event, with the four prices of the event, and every other row is as
    before; when its query throws, the candles are as before and the event
    is counted all the same. *)
Theorem handleCandleData_stores_event (env : Env) (c : candle_data) (w : world) :
  unique_candle (market_data w) = true ->
  (query_fails env (queries w) = false ->
   unique_candle (market_data (snd (DerivIntegration.handleCandleData env c w)))
   = true
   /\ (exists r,
         filter (has_key (cd_symbol c) "5m" (cd_timestamp c))
           (market_data (snd (DerivIntegration.handleCandleData env c w))) = [r]
         /\ open_price r = cd_open c /\ high_price r = cd_high c
         /\ low_price r = cd_low c /\ close_price r = cd_close c)
   /\ filter (fun r => negb (has_key (cd_symbol c) "5m" (cd_timestamp c) r))
        (market_data (snd (DerivIntegration.handleCandleData env c w)))
      = filter (fun r => negb (has_key (cd_symbol c) "5m" (cd_timestamp c) r))
          (market_data w))
  /\ (query_fails env (queries w) = true ->
      market_data (snd (DerivIntegration.handleCandleData env c w)) = market_data w)
  /\ candlesReceived (stats (snd (DerivIntegration.handleCandleData env c w)))
     = candlesReceived (stats w) + 1.
Proof.
  intros Hu. split; [|split].
  - intros Hq. rewrite (handleCandleData_saved env c w Hq).
    split; [now apply upsert_unique|]. split.
    + destruct (upsert_row (row_of_candle c) (market_data w) Hu)
        as (r & Hr & Ho & Hh & Hl & Hc & _).
      exists r. split; [exact Hr|]. auto.
    + apply (upsert_others (row_of_candle c)).
  - apply handleCandleData_lost.
  - apply (handleCandleData_sampling env c w _ eq_refl).
Qed.

Lemma handleCandleData_stores_event_witness :
  (query_fails sample_env (queries (fresh_world three_rows [])) = false ->
   unique_candle
     (market_data (snd (DerivIntegration.handleCandleData sample_env
                          (eurusd_candle 10865 10890 10860 10885)
                          (fresh_world three_rows [])))) = true
   /\ (exists r,
         filter (has_key (cd_symbol (eurusd_candle 10865 10890 10860 10885)) "5m"
                   (cd_timestamp (eurusd_candle 10865 10890 10860 10885)))
           (market_data (snd (DerivIntegration.handleCandleData sample_env
                                (eurusd_candle 10865 10890 10860 10885)
                                (fresh_world three_rows [])))) = [r]
         /\ open_price r = cd_open (eurusd_candle 10865 10890 10860 10885)
         /\ high_price r = cd_high (eurusd_candle 10865 10890 10860 10885)
         /\ low_price r = cd_low (eurusd_candle 10865 10890 10860 10885)
         /\ close_price r = cd_close (eurusd_candle 10865 10890 10860 10885))
   /\ filter (fun r => negb (has_key
                               (cd_symbol (eurusd_candle 10865 10890 10860 10885))
                               "5m"
                               (cd_timestamp (eurusd_candle 10865 10890 10860 10885))
                               r))
        (market_data (snd (DerivIntegration.handleCandleData sample_env
                             (eurusd_candle 10865 10890 10860 10885)
                             (fresh_world three_rows []))))
      = filter (fun r => negb (has_key
                                 (cd_symbol (eurusd_candle 10865 10890 10860 10885))
                                 "5m"
                                 (cd_timestamp (eurusd_candle 10865 10890 10860 10885))
                                 r))
          (market_data (fresh_world three_rows [])))
  /\ (query_fails sample_env (queries (fresh_world three_rows [])) = true ->
      market_data (snd (DerivIntegration.handleCandleData sample_env
                          (eurusd_candle 10865 10890 10860 10885)
                          (fresh_world three_rows [])))
      = market_data (fresh_world three_rows []))
  /\ candlesReceived
       (stats (snd (DerivIntegration.handleCandleData sample_env
                      (eurusd_candle 10865 10890 10860 10885)
                      (fresh_world three_rows []))))
     = candlesReceived (stats (fresh_world three_rows [])) + 1.
Proof.
  apply (handleCandleData_stores_event sample_env
           (eurusd_candle 10865 10890 10860 10885) (fresh_world three_rows [])).
  reflexivity.
Defined.

(* ===================================================================== *)
(** ** The candles [getMarketData] returns *)
(* ===================================================================== *)

Lemma descending_cons (a : Z) (l : list Z) :
  descending (a :: l) = true
  <-> descending l = true /\ (forall b r, l = b :: r -> b <= a).
Proof.
  destruct l as [|b r]; cbn [descending].
  - split; [intros _; split; [reflexivity | discriminate] | reflexivity].
  - rewrite andb_true_iff, Z.leb_le. split.
    + intros [H1 H2]. split; [exact H2|]. intros b' r' E. injection E as <- <-. exact H1.
    + intros [H1 H2]. split; [apply (H2 b r eq_refl) | exact H1].
Qed.

Lemma descending_insert (r : market_row) (l : list market_row) :
  descending (map md_timestamp l) = true ->
  descending (map md_timestamp (insert_desc r l)) = true.
Proof.
  induction l as [|x l IH]; intros H; [reflexivity|].
  cbn [insert_desc]. destruct (Z.ltb_spec (md_timestamp x) (md_timestamp r)).
  - cbn [map]. apply descending_cons. split; [exact H|].
    intros b r' E. injection E as <- _. lia.
  - cbn [map] in *. apply descending_cons in H. destruct H as [H1 H2].
    apply descending_cons. split; [now apply IH|].
    intros b r' E. destruct l as [|y l]; cbn [insert_desc map] in E.
    + injection E as <- _. lia.
    + destruct (md_timestamp y <? md_timestamp r); cbn [map] in E;
        injection E as <- _; [lia|]. apply (H2 _ _ eq_refl).
Qed.

Lemma descending_order_by (l : list market_row) :
  descending (map md_timestamp (order_by_timestamp_desc l)) = true.
Proof.
  unfold order_by_timestamp_desc. induction l as [|x l IH]; [reflexivity|].
  cbn [fold_right]. now apply descending_insert.
Qed.

Lemma descending_firstn (n : nat) : forall l : list Z,
  descending l = true -> descending (firstn n l) = true.
Proof.
  induction n; intros l H; [reflexivity|].
  destruct l as [|a l]; [reflexivity|]. cbn [firstn].
  apply descending_cons in H. destruct H as [H1 H2].
  apply descending_cons. split; [now apply IHn|].
  intros b r E. destruct l as [|b' l']; [destruct n; discriminate|].
  destruct n; [discriminate|]. cbn [firstn] in E. injection E as <- _.
  apply (H2 _ _ eq_refl).
Qed.

Lemma ascending_snoc (l : list Z) (a : Z) :
  ascending l = true -> (forall b r, rev l = b :: r -> b <= a) ->
  ascending (l ++ [a]) = true.
Proof.
  induction l as [|x l IH]; intros H Hl; [reflexivity|].
  destruct l as [|y l].
  - cbn. rewrite andb_true_r. apply Z.leb_le. apply (Hl x []). reflexivity.
  - change ((x :: y :: l) ++ [a]) with (x :: (y :: l) ++ [a]).
    cbn [ascending app] in *. apply andb_true_iff in H. destruct H as [H1 H2].
    rewrite H1. cbn [andb]. apply IH; [exact H2|].
    intros b r E. cbn [rev] in *. destruct (rev l ++ [y]) as [|b' r'] eqn:E'.
    + destruct (rev l); discriminate.
    + cbn [app] in Hl. injection E as <- <-. apply (Hl b' (r' ++ [x])). reflexivity.
Qed.

Lemma ascending_rev (l : list Z) :
  descending l = true -> ascending (rev l) = true.
Proof.
  induction l as [|a l IH]; intros H; [reflexivity|].
  apply descending_cons in H. destruct H as [H1 H2].
  cbn [rev]. apply ascending_snoc; [now apply IH|].
  rewrite rev_involutive. exact H2.
Qed.

Lemma select_market_data_descending (symbol timeframe : string) (limit : Z)
  (t : list market_row) :
  descending (map md_timestamp (select_market_data symbol timeframe limit t)) = true.
Proof.
  unfold select_market_data. rewrite <- firstn_map.
  apply descending_firstn, descending_order_by.
Qed.

(** X20. When the store answers and has candles of the symbol and
    timeframe, [getMarketData] returns at most [limit] of them, in ascending
    order of timestamp, each one the image of a stored row of that symbol
    and timeframe, and changes nothing but the count of queries. *)
Theorem getMarketData_from_store
  (env : Env) (symbol timeframe : string) (limit : Z) (w : world) :
  query_fails env (queries w) = false ->
  select_market_data symbol timeframe limit (market_data w) <> [] ->
  ascending (map timestamp (fst (ForexAI.getMarketData env symbol timeframe limit w)))
  = true
  /\ 0 < len (fst (ForexAI.getMarketData env symbol timeframe limit w)) <= limit
  /\ (forall c,
        In c (fst (ForexAI.getMarketData env symbol timeframe limit w)) ->
        exists r,
          In r (market_data w)
          /\ md_symbol r = symbol /\ md_timeframe r = timeframe
          /\ timestamp c = md_timestamp r
          /\ open c = open_price r /\ high c = high_price r
          /\ low c = low_price r /\ close c = close_price r)
  /\ snd (ForexAI.getMarketData env symbol timeframe limit w) = after_query w.
Proof.
  intros Hq Hsel. rewrite (getMarketData_rows env symbol timeframe limit w Hq Hsel).
  cbn [fst snd].
  set (rows := select_market_data symbol timeframe limit (market_data w)) in *.
  split; [|split; [|split; [|reflexivity]]].
  - rewrite map_rev, map_map. cbn [ForexAI.candle_of_row timestamp].
    apply ascending_rev. apply select_market_data_descending.
  - unfold len. rewrite length_rev, length_map. split.
    + destruct rows; [congruence | cbn [List.length]; lia].
    + unfold rows, select_market_data.
      pose proof (firstn_le_length (Z.to_nat limit)
                    (order_by_timestamp_desc
                       (filter (fun r => String.eqb (md_symbol r) symbol
                                         && String.eqb (md_timeframe r) timeframe)
                               (market_data w)))) as Hl.
      assert (0 < limit).
      { destruct (Z.to_nat limit) eqn:E; [|lia].
        exfalso. apply Hsel. unfold rows, select_market_data. now rewrite E. }
      lia.
  - intros c Hc. apply in_rev in Hc. apply in_map_iff in Hc.
    destruct Hc as (r & <- & Hr). apply select_market_data_In in Hr.
    destruct Hr as (Hin & Hs & Ht). exists r. repeat split; assumption.
Qed.

Lemma getMarketData_from_store_witness :
  ascending (map timestamp (fst (ForexAI.getMarketData sample_env "EURUSD" "5m" 2
                                   (fresh_world three_rows []))))
  = true
  /\ 0 < len (fst (ForexAI.getMarketData sample_env "EURUSD" "5m" 2
                     (fresh_world three_rows []))) <= 2
  /\ (forall c,
        In c (fst (ForexAI.getMarketData sample_env "EURUSD" "5m" 2
                     (fresh_world three_rows []))) ->
        exists r,
          In r (market_data (fresh_world three_rows []))
          /\ md_symbol r = "EURUSD"%string /\ md_timeframe r = "5m"%string
          /\ timestamp c = md_timestamp r
          /\ open c = open_price r /\ high c = high_price r
          /\ low c = low_price r /\ close c = close_price r)
  /\ snd (ForexAI.getMarketData sample_env "EURUSD" "5m" 2
            (fresh_world three_rows []))
     = after_query (fresh_world three_rows []).
Proof.
  apply (getMarketData_from_store sample_env "EURUSD" "5m" 2
           (fresh_world three_rows [])).
  - reflexivity.
  - vm_compute. discriminate.
Defined.

(* ===================================================================== *)
(** ** Ticks and the price cache *)
(* ===================================================================== *)

Lemma sub_self_fin (p : Q) : exists z, (Fin p - Fin p)%num = Fin z /\ (z == 0)%Q.
Proof. exists (p + - p)%Q. split; [reflexivity | ring]. Qed.

Lemma calculatePriceChange_state (symbol : string) (p : num) (w : world) :
  snd (DerivIntegration.calculatePriceChange symbol p w) = w.
Proof.
  unfold DerivIntegration.calculatePriceChange, bind, gets.
  destruct (priceCache w symbol); reflexivity.
Qed.

Lemma handleTickData_state (env : Env) (t : tick_data) (w : world) :
  snd (DerivIntegration.handleTickData env t w)
  = set_priceCache
      (fun k => if String.eqb k (td_symbol t)
                then Some (mkPrice (td_price t) (td_bid t) (td_ask t)
                             (td_ask t - td_bid t)%num)
                else priceCache w k)
      (set_stats (mkStats (ticksReceived (stats w) + 1) (candlesReceived (stats w))
                    (aiAnalysisCount (stats w)) (tradesExecuted (stats w))) w).
Proof.
  unfold DerivIntegration.handleTickData, DerivIntegration.priceCache_set.
  bind_step. bind_step. cbn [modify snd fst].
  destruct (global_io env); [|reflexivity].
  bind_step. cbn [ret snd]. now rewrite calculatePriceChange_state.
Qed.

Lemma handleTickData_cache_entry (env : Env) (t : tick_data) (w : world) :
  priceCache (snd (DerivIntegration.handleTickData env t w)) (td_symbol t)
  = Some (mkPrice (td_price t) (td_bid t) (td_ask t) (td_ask t - td_bid t)%num).
Proof.
  rewrite handleTickData_state. cbn [priceCache set_priceCache].
  now rewrite String.eqb_refl.
Qed.

Lemma handleTickData_emission (env : Env) (t : tick_data) (w : world) :
  fst (DerivIntegration.handleTickData env t w)
  = (if global_io env
     then Some (mkTickUpdate (td_symbol t) (td_price t) (td_timestamp t)
                  (change (td_price t - td_price t)%num
                     ((td_price t - td_price t) / td_price t * of_Z 100)%num))
     else None).
Proof.
  unfold DerivIntegration.handleTickData, DerivIntegration.priceCache_set.
  bind_step. bind_step. cbn [modify snd fst].
  destruct (global_io env); [|reflexivity].
  bind_step. cbn [ret fst]. unfold DerivIntegration.calculatePriceChange.
  bind_step. cbn [gets fst snd priceCache set_priceCache].
  rewrite String.eqb_refl. reflexivity.
Qed.

(** X21. [handleTickData] counts the tick and makes the tick the cached
    price of its symbol (with spread [ask - bid]); the cached prices of the
    other symbols stay.  The change it reports in ['tick_update'] is
    computed after the cache has been overwritten, so it compares the price
    with itself: the absolute change of a finite price is always 0,
    whatever was cached before. *)
Theorem handleTickData_updates_cache (env : Env) (t : tick_data) (w : world) :
  priceCache (snd (DerivIntegration.handleTickData env t w)) (td_symbol t)
  = Some (mkPrice (td_price t) (td_bid t) (td_ask t) (td_ask t - td_bid t)%num)
  /\ (forall s, s <> td_symbol t ->
        priceCache (snd (DerivIntegration.handleTickData env t w)) s
        = priceCache w s)
  /\ ticksReceived (stats (snd (DerivIntegration.handleTickData env t w)))
     = ticksReceived (stats w) + 1
  /\ fst (DerivIntegration.handleTickData env t w)
     = (if global_io env
        then Some (mkTickUpdate (td_symbol t) (td_price t) (td_timestamp t)
                     (change (td_price t - td_price t)%num
                        ((td_price t - td_price t) / td_price t * of_Z 100)%num))
        else None)
  /\ (forall p, td_price t = Fin p ->
        exists z, (td_price t - td_price t)%num = Fin z /\ (z == 0)%Q).
Proof.
  split; [apply handleTickData_cache_entry|].
  split; [|split; [|split; [apply handleTickData_emission|]]].
  - intros s Hs. rewrite handleTickData_state. cbn [priceCache set_priceCache].
    apply String.eqb_neq in Hs. now rewrite Hs.
  - rewrite handleTickData_state. reflexivity.
  - intros p ->. apply sub_self_fin.
Qed.

(** X22. The entry price of an automatic trade is the price of the last
    tick of the symbol: after [handleTickData] has handled a tick, a demo
    trade of its symbol, with the store answering, is written at the price
    of that tick. *)
Theorem tick_sets_trade_entry_price
  (env : Env) (t : tick_data) (user : account_row) (a : analysis) (w : world) :
  broker user = "deriv"%string ->
  DERIV_DEMO_MODE env = true ->
  query_fails env (queries w) = false ->
  success (fst (DerivIntegration.executeTrade env user (td_symbol t) a
                  (snd (DerivIntegration.handleTickData env t w)))) = true
  /\ exists row,
       trades (snd (DerivIntegration.executeTrade env user (td_symbol t) a
                      (snd (DerivIntegration.handleTickData env t w))))
       = push (trades w) row
       /\ t_user_id row = u_id user
       /\ t_symbol row = td_symbol t
       /\ t_entry_price row = td_price t
       /\ t_is_demo row = true.
Proof.
  intros Hb Hd Hq.
  unfold DerivIntegration.executeTrade, bind, random, gets.
  set (w1 := snd (DerivIntegration.handleTickData env t w)).
  assert (priceCache w1 (td_symbol t)
          = Some (mkPrice (td_price t) (td_bid t) (td_ask t)
                    (td_ask t - td_bid t)%num)) as Hp
    by apply handleTickData_cache_entry.
  assert (trades w1 = trades w /\ queries w1 = queries w) as [Ht Hq1]
    by (unfold w1; rewrite handleTickData_state; split; reflexivity).
  cbn [priceCache set_randoms]. rewrite Hp, Hb, Hd. cbn -[push].
  unfold DerivIntegration.insert_trade, database_query. cbn -[push].
  rewrite Hq1, Hq. cbn -[push]. split; [reflexivity|].
  eexists. split; [now rewrite Ht|]. repeat split.
Qed.

Lemma tick_sets_trade_entry_price_witness :
  success (fst (DerivIntegration.executeTrade sample_env eligible_user "EURUSD"
                  buy_signal
                  (snd (DerivIntegration.handleTickData sample_env
                          (mkTickData "EURUSD" (dec 10855 4) 1700000000000
                             (dec 10854 4) (dec 10856 4))
                          (fresh_world [] [eligible_user]))))) = true
  /\ exists row,
       trades (snd (DerivIntegration.executeTrade sample_env eligible_user "EURUSD"
                      buy_signal
                      (snd (DerivIntegration.handleTickData sample_env
                              (mkTickData "EURUSD" (dec 10855 4) 1700000000000
                                 (dec 10854 4) (dec 10856 4))
                              (fresh_world [] [eligible_user])))))
       = push (trades (fresh_world [] [eligible_user])) row
       /\ t_user_id row = u_id eligible_user
       /\ t_symbol row = "EURUSD"%string
       /\ t_entry_price row = dec 10855 4
       /\ t_is_demo row = true.
Proof.
  apply (tick_sets_trade_entry_price sample_env
           (mkTickData "EURUSD" (dec 10855 4) 1700000000000
              (dec 10854 4) (dec 10856 4))
           eligible_user buy_signal (fresh_world [] [eligible_user]));
    reflexivity.
Defined.

(* ===================================================================== *)
(** ** The feed client: symbols *)
(* ===================================================================== *)

Lemma distinct_NoDup (l : list string) : distinct l = true -> NoDup l.
Proof.
  induction l as [|x l IH]; intros H; [constructor|].
  cbn [distinct] in H. apply andb_true_iff in H. destruct H as [H1 H2].
  constructor; [|now apply IH].
  intros Hin. apply negb_true_iff in H1.
  assert (existsb (String.eqb x) l = true) as E
    by (apply existsb_exists; exists x; split; [exact Hin | apply String.eqb_refl]).
  congruence.
Qed.

Lemma property_In (obj : list (string * string)) (k : string) :
  NoDup (map fst obj) ->
  forall v, DerivAPI.property obj k = Some v <-> In (k, v) obj.
Proof.
  induction obj as [|[k0 v0] obj IH]; intros Hn v.
  - cbn. split; [discriminate | contradiction].
  - cbn [map fst] in Hn. inversion Hn as [|? ? Hk0 Hn']; subst.
    specialize (IH Hn').
    assert (forall x, In (k0, x) obj -> False) as Hfresh.
    { intros x Hx. apply Hk0. apply in_map_iff. exists (k0, x). auto. }
    cbn [DerivAPI.property].
    destruct (DerivAPI.property obj k) as [later|] eqn:E.
    + assert (In (k, later) obj) as Hl by (apply IH; reflexivity). split.
      * intros H. injection H as <-. right. exact Hl.
      * intros [H|H].
        -- injection H as -> ->. destruct (Hfresh _ Hl).
        -- apply IH in H. exact H.
    + split.
      * destruct (String.eqb_spec k0 k) as [->|Hne]; [|discriminate].
        intros H. injection H as <-. now left.
      * intros [H|H].
        -- injection H as -> ->. now rewrite String.eqb_refl.
        -- apply IH in H. discriminate.
Qed.

Lemma forexSymbols_keys : NoDup (map fst DerivAPI.forexSymbols).
Proof. apply distinct_NoDup. reflexivity. Qed.

Lemma reverseSymbols_keys : NoDup (map fst DerivAPI.reverseSymbols).
Proof. apply distinct_NoDup. reflexivity. Qed.

Lemma symbols_round_trip (s d : string) :
  DerivAPI.property DerivAPI.forexSymbols s = Some d
  <-> DerivAPI.property DerivAPI.reverseSymbols d = Some s.
Proof.
  rewrite (property_In _ _ forexSymbols_keys), (property_In _ _ reverseSymbols_keys).
  unfold DerivAPI.reverseSymbols. rewrite in_map_iff. split.
  - intros H. exists (s, d). auto.
  - intros ([k v] & E & H). injection E as <- <-. exact H.
Qed.

Lemma processSingleCandle_emits (candle : DerivAPI.candle_message)
  (derivSymbol : option string) (c : candle_data) :
  In (DerivAPI.emit_candle c) (DerivAPI.processSingleCandle candle derivSymbol) ->
  exists d,
    derivSymbol = Some d
    /\ DerivAPI.property DerivAPI.forexSymbols (cd_symbol c) = Some d
    /\ cd_timestamp c = DerivAPI.c_epoch candle * 1000
    /\ cd_open c = DerivAPI.c_open candle /\ cd_high c = DerivAPI.c_high candle
    /\ cd_low c = DerivAPI.c_low candle /\ cd_close c = DerivAPI.c_close candle.
Proof.
  unfold DerivAPI.processSingleCandle, DerivAPI.reverse_symbol.
  destruct derivSymbol as [d|]; [|contradiction].
  destruct (DerivAPI.property DerivAPI.reverseSymbols d) as [s|] eqn:E;
    [|contradiction].
  intros [H|[H|[]]]; [|discriminate]. injection H as <-. exists d.
  cbn. repeat split. now apply symbols_round_trip.
Qed.

(** X23. The two symbol tables of the feed client are inverse to each
    other, and the client only passes on what it can translate: every tick
    and every candle it emits carries the platform symbol whose broker
    symbol the message named, with the price and the time (in ms) of the
    message; a tick or a candle history of a broker symbol outside the
    table is dropped without any event.  (For symbols that are no property
    names inherited from [Object.prototype], which the lookup in the table
    would find.) *)
Theorem feed_translates_symbols (m : DerivAPI.message) :
  plain_message m = true ->
  (forall s d,
     DerivAPI.property DerivAPI.forexSymbols s = Some d
     <-> DerivAPI.property DerivAPI.reverseSymbols d = Some s)
  /\ (forall t,
        In (DerivAPI.emit_tick t) (DerivAPI.handleTickData m) ->
        exists tick,
          DerivAPI.m_tick m = Some tick
          /\ DerivAPI.property DerivAPI.forexSymbols (td_symbol t)
             = Some (DerivAPI.tick_symbol tick)
          /\ td_price t = DerivAPI.tick_quote tick
          /\ td_timestamp t = DerivAPI.tick_epoch tick * 1000)
  /\ (forall c,
        In (DerivAPI.emit_candle c) (DerivAPI.handleCandleData m) ->
        exists d,
          DerivAPI.m_ticks_history m = Some d
          /\ DerivAPI.property DerivAPI.forexSymbols (cd_symbol c) = Some d)
  /\ (forall tick,
        DerivAPI.m_tick m = Some tick ->
        DerivAPI.property DerivAPI.reverseSymbols (DerivAPI.tick_symbol tick) = None ->
        DerivAPI.handleTickData m = [])
  /\ (DerivAPI.reverse_symbol (DerivAPI.m_ticks_history m) = None ->
      DerivAPI.handleCandleData m = []).
Proof.
  intros _. split; [exact symbols_round_trip|].
  split; [|split; [|split]].
  - unfold DerivAPI.handleTickData. intros t.
    destruct (DerivAPI.m_tick m) as [tick|]; [|contradiction].
    destruct (DerivAPI.property DerivAPI.reverseSymbols (DerivAPI.tick_symbol tick))
      as [s|] eqn:E; [|contradiction].
    intros [H|[H|[]]]; [|discriminate]. injection H as <-. exists tick.
    cbn. repeat split. now apply symbols_round_trip.
  - unfold DerivAPI.handleCandleData. intros c H. apply in_app_or in H.
    destruct H as [H|H].
    + destruct (DerivAPI.m_candles m) as [candles|]; [|contradiction].
      apply in_flat_map in H. destruct H as (candle & _ & H).
      apply processSingleCandle_emits in H. destruct H as (d & E & P & _). eauto.
    + destruct (DerivAPI.m_ohlc m) as [ohlc|]; [|contradiction].
      apply processSingleCandle_emits in H. destruct H as (d & E & P & _). eauto.
  - intros tick E N. unfold DerivAPI.handleTickData. now rewrite E, N.
  - intros N. unfold DerivAPI.handleCandleData, DerivAPI.processSingleCandle.
    rewrite N. destruct (DerivAPI.m_candles m) as [candles|];
      destruct (DerivAPI.m_ohlc m); try reflexivity.
    + rewrite app_nil_r. induction candles; [reflexivity | assumption].
    + rewrite app_nil_r. induction candles; [reflexivity | assumption].
Qed.

Lemma feed_translates_symbols_witness :
  (forall s d,
     DerivAPI.property DerivAPI.forexSymbols s = Some d
     <-> DerivAPI.property DerivAPI.reverseSymbols d = Some s)
  /\ (forall t,
        In (DerivAPI.emit_tick t) (DerivAPI.handleTickData eurusd_tick) ->
        exists tick,
          DerivAPI.m_tick eurusd_tick = Some tick
          /\ DerivAPI.property DerivAPI.forexSymbols (td_symbol t)
             = Some (DerivAPI.tick_symbol tick)
          /\ td_price t = DerivAPI.tick_quote tick
          /\ td_timestamp t = DerivAPI.tick_epoch tick * 1000)
  /\ (forall c,
        In (DerivAPI.emit_candle c) (DerivAPI.handleCandleData eurusd_tick) ->
        exists d,
          DerivAPI.m_ticks_history eurusd_tick = Some d
          /\ DerivAPI.property DerivAPI.forexSymbols (cd_symbol c) = Some d)
  /\ (forall tick,
        DerivAPI.m_tick eurusd_tick = Some tick ->
        DerivAPI.property DerivAPI.reverseSymbols (DerivAPI.tick_symbol tick) = None ->
        DerivAPI.handleTickData eurusd_tick = [])
  /\ (DerivAPI.reverse_symbol (DerivAPI.m_ticks_history eurusd_tick) = None ->
      DerivAPI.handleCandleData eurusd_tick = []).
Proof. apply (feed_translates_symbols eurusd_tick). reflexivity. Defined.

(* ===================================================================== *)
(** ** The feed client: one candle, two rows *)
(* ===================================================================== *)

Lemma filter_filter_implies {A : Type} (P Q : A -> bool) (l : list A) :
  (forall x, P x = true -> Q x = true) -> filter P (filter Q l) = filter P l.
Proof.
  intros H. induction l as [|x l IH]; [reflexivity|]. cbn [filter].
  destruct (Q x) eqn:EQ; cbn [filter]; rewrite IH; [reflexivity|].
  destruct (P x) eqn:EP; [|reflexivity]. rewrite (H x EP) in EQ. discriminate.
Qed.

Lemma filter_other_key (new : market_row) (P : market_row -> bool)
  (t : list market_row) :
  (forall r, P r = true -> same_key new r = false) ->
  filter P (upsert_candle new t) = filter P t.
Proof.
  intros H.
  rewrite <- (filter_filter_implies P (fun r => negb (same_key new r))
                (upsert_candle new t)), upsert_others, filter_filter_implies;
    try reflexivity; intros r Hr; now rewrite (H r Hr).
Qed.

Lemma saveCandle_stores (env : Env) (c : candle_data) (w : world) :
  query_fails env (queries w) = false ->
  market_data (snd (DerivAPI.saveCandle env c w))
  = upsert_candle (minute_row_of_candle c) (market_data w).
Proof.
  intros Hq. unfold DerivAPI.saveCandle, bind, database_query. rewrite Hq.
  reflexivity.
Qed.

Lemma timeframes_differ (s : string) (ts : Z) (r : market_row) :
  has_key s "5m" ts r = true -> has_key s "1m" ts r = false.
Proof.
  intros H. apply has_key_spec in H. destruct H as (Hs & Ht & Hts).
  unfold has_key. rewrite Ht. cbn. now rewrite andb_false_r.
Qed.

(** X24. Whatever granularity a subscription asked for, a candle of the
    feed is written twice: with the store answering and a supported broker
    symbol, after [processSingleCandle] and its listeners have run the table
    holds exactly one row (symbol, 5m, time) written by the integration and
    exactly one row (symbol, 1m, time) written by the client, both with the
    four prices of the candle. *)
Theorem candle_stored_under_both_timeframes
  (env : Env) (candle : DerivAPI.candle_message) (d s : string) (w : world) :
  (forall n, query_fails env n = false) ->
  unique_candle (market_data w) = true ->
  plain_key d = true ->
  DerivAPI.property DerivAPI.reverseSymbols d = Some s ->
  unique_candle
    (market_data
       (snd (DerivAPI.deliver_all env
               (DerivAPI.processSingleCandle candle (Some d)) w))) = true
  /\ forall timeframe,
       timeframe = "5m"%string \/ timeframe = "1m"%string ->
       exists r,
         filter (has_key s timeframe (DerivAPI.c_epoch candle * 1000))
           (market_data
              (snd (DerivAPI.deliver_all env
                      (DerivAPI.processSingleCandle candle (Some d)) w))) = [r]
         /\ open_price r = DerivAPI.c_open candle
         /\ high_price r = DerivAPI.c_high candle
         /\ low_price r = DerivAPI.c_low candle
         /\ close_price r = DerivAPI.c_close candle.
Proof.
  intros Hs Hu _ Hd.
  unfold DerivAPI.processSingleCandle, DerivAPI.reverse_symbol. rewrite Hd.
  cbv zeta.
  set (cd := mkCandleData s (DerivAPI.c_epoch candle * 1000) (DerivAPI.c_open candle)
               (DerivAPI.c_high candle) (DerivAPI.c_low candle)
               (DerivAPI.c_close candle)).
  unfold DerivAPI.deliver_all. rewrite !for_of_cons. cbn [for_of ret snd DerivAPI.deliver].
  rewrite saveCandle_stores by apply Hs.
  rewrite handleCandleData_saved by apply Hs.
  set (t5 := upsert_candle (row_of_candle cd) (market_data w)).
  assert (unique_candle t5 = true) as U5 by now apply upsert_unique.
  split; [now apply upsert_unique|].
  intros timeframe [-> | ->].
  - rewrite (filter_other_key (minute_row_of_candle cd)).
    + destruct (upsert_row (row_of_candle cd) (market_data w) Hu)
        as (r & Hr & Ho & Hh & Hl & Hc & _).
      exists r. split; [exact Hr|]. auto.
    + intros r Hr. apply (timeframes_differ _ _ _ Hr).
  - destruct (upsert_row (minute_row_of_candle cd) t5 U5)
      as (r & Hr & Ho & Hh & Hl & Hc & _).
    exists r. split; [exact Hr|]. auto.
Qed.

Lemma candle_stored_under_both_timeframes_witness :
  unique_candle
    (market_data
       (snd (DerivAPI.deliver_all sample_env
               (DerivAPI.processSingleCandle
                  (DerivAPI.mkCandleMessage 1700000000 (dec 10850 4) (dec 10860 4)
                     (dec 10840 4) (dec 10855 4))
                  (Some "frxEURUSD"%string))
               (fresh_world three_rows [])))) = true
  /\ forall timeframe,
       timeframe = "5m"%string \/ timeframe = "1m"%string ->
       exists r,
         filter (has_key "EURUSD" timeframe
                   (DerivAPI.c_epoch
                      (DerivAPI.mkCandleMessage 1700000000 (dec 10850 4) (dec 10860 4)
                         (dec 10840 4) (dec 10855 4)) * 1000))
           (market_data
              (snd (DerivAPI.deliver_all sample_env
                      (DerivAPI.processSingleCandle
                         (DerivAPI.mkCandleMessage 1700000000 (dec 10850 4)
                            (dec 10860 4) (dec 10840 4) (dec 10855 4))
                         (Some "frxEURUSD"%string))
                      (fresh_world three_rows [])))) = [r]
         /\ open_price r
            = DerivAPI.c_open
                (DerivAPI.mkCandleMessage 1700000000 (dec 10850 4) (dec 10860 4)
                   (dec 10840 4) (dec 10855 4))
         /\ high_price r
            = DerivAPI.c_high
                (DerivAPI.mkCandleMessage 1700000000 (dec 10850 4) (dec 10860 4)
                   (dec 10840 4) (dec 10855 4))
         /\ low_price r
            = DerivAPI.c_low
                (DerivAPI.mkCandleMessage 1700000000 (dec 10850 4) (dec 10860 4)
                   (dec 10840 4) (dec 10855 4))
         /\ close_price r
            = DerivAPI.c_close
                (DerivAPI.mkCandleMessage 1700000000 (dec 10850 4) (dec 10860 4)
                   (dec 10840 4) (dec 10855 4)).
Proof.
  apply (candle_stored_under_both_timeframes sample_env
           (DerivAPI.mkCandleMessage 1700000000 (dec 10850 4) (dec 10860 4)
              (dec 10840 4) (dec 10855 4))
           "frxEURUSD" "EURUSD" (fresh_world three_rows [])).
  - intros n. reflexivity.
  - reflexivity.
  - reflexivity.
  - reflexivity.
Defined.

(* ===================================================================== *)
(** ** The feed client: requests *)
(* ===================================================================== *)

Lemma settled_app (l1 l2 : list DerivAPI.feed_output) :
  settled (l1 ++ l2) = settled l1 ++ settled l2.
Proof.
  induction l1 as [|o l1 IH]; [reflexivity|].
  destruct o; cbn [settled app]; now rewrite ?IH.
Qed.

Lemma sent_app (l1 l2 : list DerivAPI.feed_output) :
  sent (l1 ++ l2) = sent l1 ++ sent l2.
Proof.
  induction l1 as [|o l1 IH]; [reflexivity|].
  destruct o; cbn [sent app]; now rewrite ?IH.
Qed.

Lemma has_spec (id : Z) (r : DerivAPI.requests) :
  DerivAPI.has id r = true <-> In id (DerivAPI.pendingRequests r).
Proof.
  unfold DerivAPI.has. rewrite existsb_exists. split.
  - intros (x & Hx & E). apply Z.eqb_eq in E. now subst.
  - intros H. exists id. split; [exact H | apply Z.eqb_refl].
Qed.

Lemma In_delete (id x : Z) (r : DerivAPI.requests) :
  In x (DerivAPI.pendingRequests (DerivAPI.delete id r))
  <-> In x (DerivAPI.pendingRequests r) /\ x <> id.
Proof.
  unfold DerivAPI.delete. cbn [DerivAPI.pendingRequests]. rewrite filter_In.
  rewrite negb_true_iff, Z.eqb_neq. intuition congruence.
Qed.

Lemma NoDup_snoc {A : Type} (l : list A) (x : A) :
  NoDup l -> ~ In x l -> NoDup (l ++ [x]).
Proof.
  intros Hl Hx. induction Hl as [|y l Hy Hl IH]; cbn [app].
  - constructor; [intros [] | constructor].
  - constructor.
    + rewrite in_app_iff. intros [H|[H|[]]]; [now apply Hy|].
      subst. apply Hx. now left.
    + apply IH. intros H. apply Hx. now right.
Qed.

(** Settling a pending request keeps the run in order. *)
Lemma settle_ok (r : DerivAPI.requests) (done out : list DerivAPI.feed_output)
  (id : Z) :
  requests_ok (r, done) ->
  In id (DerivAPI.pendingRequests r) ->
  settled out = [id] -> sent out = [] ->
  requests_ok (DerivAPI.delete id r, done ++ out).
Proof.
  intros (H1 & Hp & Hps & Hs & Hns & Hst & Hnd) Hin Eo Es.
  unfold requests_ok. rewrite settled_app, sent_app, Eo, Es, app_nil_r.
  split; [exact H1|].
  split; [apply NoDup_filter; exact Hp|].
  split; [intros x Hx; apply In_delete in Hx; apply Hps, Hx|].
  split; [exact Hs|]. split; [exact Hns|]. split.
  - intros x Hx. apply in_app_or in Hx. rewrite In_delete.
    destruct Hx as [Hx|[<-|[]]].
    + destruct (Hst x Hx) as [Hx1 Hx2]. split; [tauto | exact Hx2].
    + split; [tauto | now apply Hps].
  - apply NoDup_snoc; [exact Hnd|]. intros Hx. now apply (Hst id Hx).
Qed.

Lemma quiet_ok (r : DerivAPI.requests) (done out : list DerivAPI.feed_output) :
  requests_ok (r, done) -> settled out = [] -> sent out = [] ->
  requests_ok (r, done ++ out).
Proof.
  intros H Eo Es. unfold requests_ok in *.
  now rewrite settled_app, sent_app, Eo, Es, !app_nil_r.
Qed.

Lemma pending_id_spec (m : DerivAPI.message) (r : DerivAPI.requests) (id : Z) :
  DerivAPI.pending_id m r = Some id -> In id (DerivAPI.pendingRequests r).
Proof.
  unfold DerivAPI.pending_id. destruct (DerivAPI.m_req_id m) as [x|]; [|discriminate].
  destruct (negb (x =? 0) && DerivAPI.has x r) eqn:E; [|discriminate].
  intros H. injection H as <-. apply andb_true_iff in E. now apply has_spec.
Qed.

Lemma processSingleCandle_quiet (candle : DerivAPI.candle_message)
  (d : option string) :
  settled (DerivAPI.processSingleCandle candle d) = []
  /\ sent (DerivAPI.processSingleCandle candle d) = [].
Proof.
  unfold DerivAPI.processSingleCandle.
  destruct (DerivAPI.reverse_symbol d); split; reflexivity.
Qed.

Lemma dispatch_quiet (m : DerivAPI.message) :
  settled (fst (DerivAPI.dispatch m)) = [] /\ sent (fst (DerivAPI.dispatch m)) = [].
Proof.
  unfold DerivAPI.dispatch.
  repeat match goal with
         | |- context [if ?c then _ else _] => destruct c
         end; cbn [fst]; try (split; reflexivity).
  - unfold DerivAPI.handleTickData. destruct (DerivAPI.m_tick m); [|split; reflexivity].
    destruct (DerivAPI.property _ _); split; reflexivity.
  - unfold DerivAPI.handleCandleData. rewrite settled_app, sent_app.
    assert (forall l, settled (flat_map (fun candle =>
                         DerivAPI.processSingleCandle candle
                           (DerivAPI.m_ticks_history m)) l) = []
                      /\ sent (flat_map (fun candle =>
                           DerivAPI.processSingleCandle candle
                             (DerivAPI.m_ticks_history m)) l) = []) as Hl.
    { induction l as [|c l [IH1 IH2]]; [split; reflexivity|].
      cbn [flat_map]. rewrite settled_app, sent_app, IH1, IH2.
      destruct (processSingleCandle_quiet c (DerivAPI.m_ticks_history m)) as [-> ->].
      split; reflexivity. }
    destruct (DerivAPI.m_candles m) as [l|]; destruct (DerivAPI.m_ohlc m) as [o|];
      rewrite ?(proj1 (Hl _)), ?(proj2 (Hl _));
      rewrite ?(proj1 (processSingleCandle_quiet _ _)),
        ?(proj2 (processSingleCandle_quiet _ _)); split; reflexivity.
Qed.

Lemma send_ok (r : DerivAPI.requests) (done : list DerivAPI.feed_output) :
  requests_ok (r, done) ->
  requests_ok
    (DerivAPI.set (DerivAPI.requestId r)
       (DerivAPI.mkRequests (DerivAPI.requestId r + 1) (DerivAPI.pendingRequests r)),
     done ++ [DerivAPI.ws_send (DerivAPI.requestId r);
              DerivAPI.request_timeout (DerivAPI.requestId r) 30000]).
Proof.
  intros (H1 & Hp & Hps & Hs & Hns & Hst & Hnd).
  assert (~ In (DerivAPI.requestId r) (DerivAPI.pendingRequests r)) as Hfresh
    by (intros Hin; apply Hps, Hs in Hin; lia).
  assert (~ In (DerivAPI.requestId r) (sent done)) as Hnew
    by (intros Hin; apply Hs in Hin; lia).
  unfold DerivAPI.set.
  destruct (DerivAPI.has _ _) eqn:E.
  { apply has_spec in E. cbn [DerivAPI.pendingRequests] in E. tauto. }
  unfold requests_ok. cbn [DerivAPI.pendingRequests DerivAPI.requestId].
  rewrite settled_app, sent_app. cbn [settled sent]. rewrite app_nil_r.
  split; [lia|].
  split; [now apply NoDup_snoc|].
  split.
  { intros x Hx. apply in_app_or in Hx. apply in_or_app.
    destruct Hx as [Hx|Hx]; [left; now apply Hps | right; exact Hx]. }
  split.
  { intros x Hx. apply in_app_or in Hx. destruct Hx as [Hx|[<-|[]]]; [|lia].
    apply Hs in Hx. lia. }
  split; [now apply NoDup_snoc|].
  split; [|exact Hnd].
  intros x Hx. destruct (Hst x Hx) as [Hx1 Hx2]. split.
  - intros Hin. apply in_app_or in Hin. destruct Hin as [Hin|[<-|[]]]; tauto.
  - apply in_or_app. now left.
Qed.

Lemma request_step_ok (st : DerivAPI.requests * list DerivAPI.feed_output)
  (i : DerivAPI.request_input) :
  requests_ok st -> requests_ok (DerivAPI.request_step st i).
Proof.
  destruct st as [r done]. intros H. destruct i as [isConnected|m|id];
    cbn [DerivAPI.request_step].
  - unfold DerivAPI.sendRequest. destruct isConnected; cbn [negb].
    + now apply send_ok.
    + apply quiet_ok; [exact H | reflexivity | reflexivity].
  - unfold DerivAPI.handleMessage.
    destruct (DerivAPI.m_error m) as [e|];
      destruct (DerivAPI.pending_id m r) as [id|] eqn:E.
    + apply settle_ok; [exact H | eapply pending_id_spec; eauto | |]; reflexivity.
    + apply quiet_ok; [exact H | reflexivity | reflexivity].
    + apply settle_ok; [exact H | eapply pending_id_spec; eauto | |]; reflexivity.
    + destruct (dispatch_quiet m) as [Q1 Q2].
      destruct (DerivAPI.dispatch m) as [out thrown]. now apply quiet_ok.
  - unfold DerivAPI.on_request_timeout. destruct (DerivAPI.has id r) eqn:E.
    + apply has_spec in E. apply settle_ok; [exact H | exact E | |]; reflexivity.
    + apply quiet_ok; [exact H | reflexivity | reflexivity].
Qed.

Lemma request_run_ok (inputs : list DerivAPI.request_input) :
  requests_ok (DerivAPI.request_run inputs).
Proof.
  unfold DerivAPI.request_run.
  assert (requests_ok (DerivAPI.new_requests, [])) as H0.
  { unfold requests_ok. cbn. repeat split; try constructor; try lia;
      intros id []. }
  revert H0. generalize (DerivAPI.new_requests, @nil DerivAPI.feed_output).
  induction inputs as [|i inputs IH]; intros st H; cbn [fold_left]; [exact H|].
  apply IH. now apply request_step_ok.
Qed.

(** X25. Through any sequence of requests sent, messages received and
    request timeouts, starting from a new client: no request identifier is
    used twice, every promise is settled at most once (resolved by its
    answer, rejected by an error answer or by its timeout, whichever comes
    first), and only requests that were written to the socket are
    settled.  (The socket is taken to accept every write of a connected
    client.) *)
Theorem requests_settled_once (inputs : list DerivAPI.request_input) :
  NoDup (sent (snd (DerivAPI.request_run inputs)))
  /\ NoDup (settled (snd (DerivAPI.request_run inputs)))
  /\ (forall id,
        In id (settled (snd (DerivAPI.request_run inputs))) ->
        In id (sent (snd (DerivAPI.request_run inputs)))
        /\ ~ In id (DerivAPI.pendingRequests (fst (DerivAPI.request_run inputs))))
  /\ (forall id,
        In id (sent (snd (DerivAPI.request_run inputs))) ->
        1 <= id < DerivAPI.requestId (fst (DerivAPI.request_run inputs))).
Proof.
  pose proof (request_run_ok inputs) as H.
  destruct (DerivAPI.request_run inputs) as [r done]. cbn [fst snd].
  destruct H as (H1 & Hp & Hps & Hs & Hns & Hst & Hnd).
  split; [exact Hns|]. split; [exact Hnd|]. split; [|exact Hs].
  intros id Hid. destruct (Hst id Hid). auto.
Qed.

(* ===================================================================== *)
(** ** The feed client: routing of messages *)
(* ===================================================================== *)

Lemma handleTickData_outputs (m : DerivAPI.message) (o : DerivAPI.feed_output) :
  In o (DerivAPI.handleTickData m) ->
  exists t, o = DerivAPI.emit_tick t \/ o = DerivAPI.call_saveTick t.
Proof.
  unfold DerivAPI.handleTickData. destruct (DerivAPI.m_tick m); [|contradiction].
  destruct (DerivAPI.property _ _); [|contradiction].
  intros [<-|[<-|[]]]; eauto.
Qed.

Lemma processSingleCandle_outputs (candle : DerivAPI.candle_message)
  (d : option string) (o : DerivAPI.feed_output) :
  In o (DerivAPI.processSingleCandle candle d) ->
  exists c, o = DerivAPI.emit_candle c \/ o = DerivAPI.call_saveCandle c.
Proof.
  unfold DerivAPI.processSingleCandle. destruct (DerivAPI.reverse_symbol d);
    [|contradiction].
  intros [<-|[<-|[]]]; eauto.
Qed.

Lemma handleCandleData_outputs (m : DerivAPI.message) (o : DerivAPI.feed_output) :
  In o (DerivAPI.handleCandleData m) ->
  exists c, o = DerivAPI.emit_candle c \/ o = DerivAPI.call_saveCandle c.
Proof.
  unfold DerivAPI.handleCandleData. intros H. apply in_app_or in H.
  destruct H as [H|H].
  - destruct (DerivAPI.m_candles m); [|contradiction].
    apply in_flat_map in H. destruct H as (candle & _ & H).
    eapply processSingleCandle_outputs; eauto.
  - destruct (DerivAPI.m_ohlc m); [|contradiction].
    eapply processSingleCandle_outputs; eauto.
Qed.

Lemma dispatch_cases (m : DerivAPI.message) :
  (DerivAPI.m_msg_type m = "tick"%string
   /\ DerivAPI.dispatch m = (DerivAPI.handleTickData m, None))
  \/ (DerivAPI.m_msg_type m = "candles"%string
      /\ DerivAPI.dispatch m = (DerivAPI.handleCandleData m, None))
  \/ (DerivAPI.m_msg_type m = "ohlc"%string
      /\ DerivAPI.dispatch m
         = ([], Some (TypeError "this.handleOHLCData is not a function")))
  \/ (DerivAPI.m_msg_type m <> "tick"%string
      /\ DerivAPI.m_msg_type m <> "candles"%string
      /\ DerivAPI.m_msg_type m <> "ohlc"%string
      /\ snd (DerivAPI.dispatch m) = None
      /\ forall o, In o (fst (DerivAPI.dispatch m)) ->
                   exists event, o = DerivAPI.emit_response event).
Proof.
  unfold DerivAPI.dispatch.
  destruct (String.eqb_spec (DerivAPI.m_msg_type m) "tick") as [E1|N1]; [auto|].
  destruct (String.eqb_spec (DerivAPI.m_msg_type m) "candles") as [E2|N2];
    [auto|].
  destruct (String.eqb_spec (DerivAPI.m_msg_type m) "ohlc") as [E3|N3];
    [auto 6|].
  right. right. right. repeat (split; [assumption|]).
  repeat match goal with
         | |- context [if ?c then _ else _] => destruct c
         end; cbn [fst snd]; (split; [reflexivity|]);
    intros o Ho; cbn [In] in Ho;
    repeat (destruct Ho as [<-|Ho]; [eauto|]); contradiction.
Qed.

(** X26. [handleMessage] passes a message on by its type only when it
    carries no error and does not answer a pending request.  A candle event
    can only come from such a message of type ['candles'] and a tick event
    only from one of type ['tick']; such a message of type ['ohlc'], the
    type of a streamed candle, emits nothing: its branch calls
    [this.handleOHLCData], which the class does not define, and this
    [TypeError] is the only error the code of [handleMessage] raises itself
    (the listeners being those of [setupEventListeners]).  The requests are
    left as they were except for the one answered.  (For symbols that are no
    property names inherited from [Object.prototype].) *)
Theorem handleMessage_routing (m : DerivAPI.message) (r : DerivAPI.requests) :
  plain_message m = true ->
  (forall c,
     In (DerivAPI.emit_candle c) (snd (fst (DerivAPI.handleMessage m r))) ->
     DerivAPI.m_error m = None /\ DerivAPI.pending_id m r = None
     /\ DerivAPI.m_msg_type m = "candles"%string)
  /\ (forall t,
        In (DerivAPI.emit_tick t) (snd (fst (DerivAPI.handleMessage m r))) ->
        DerivAPI.m_error m = None /\ DerivAPI.pending_id m r = None
        /\ DerivAPI.m_msg_type m = "tick"%string)
  /\ (snd (DerivAPI.handleMessage m r) <> None <->
      DerivAPI.m_error m = None /\ DerivAPI.pending_id m r = None
      /\ DerivAPI.m_msg_type m = "ohlc"%string)
  /\ (DerivAPI.m_msg_type m = "ohlc"%string ->
      forall c, ~ In (DerivAPI.emit_candle c) (snd (fst (DerivAPI.handleMessage m r))))
  /\ (DerivAPI.pending_id m r = None -> fst (fst (DerivAPI.handleMessage m r)) = r).
Proof.
  intros _. unfold DerivAPI.handleMessage.
  destruct (DerivAPI.m_error m) as [e|];
    destruct (DerivAPI.pending_id m r) as [id|]; cbn [fst snd].
  - split; [intros c [H|[H|[]]]; discriminate|].
    split; [intros t [H|[H|[]]]; discriminate|].
    split; [split; [intros H; exfalso; now apply H | intros (H & _); discriminate]|].
    split; [intros _ c [H|[H|[]]]; discriminate | discriminate].
  - split; [intros c [H|[]]; discriminate|].
    split; [intros t [H|[]]; discriminate|].
    split; [split; [intros H; exfalso; now apply H | intros (H & _); discriminate]|].
    split; [intros _ c [H|[]]; discriminate | reflexivity].
  - split; [intros c [H|[]]; discriminate|].
    split; [intros t [H|[]]; discriminate|].
    split; [split; [intros H; exfalso; now apply H | intros (_ & H & _); discriminate]|].
    split; [intros _ c [H|[]]; discriminate | discriminate].
  - destruct (dispatch_cases m)
      as [(E & ->)|[(E & ->)|[(E & ->)|(N1 & N2 & N3 & S & O)]]]; cbn [fst snd].
    + split.
      { intros c H. apply handleTickData_outputs in H.
        destruct H as (t & [H|H]); discriminate. }
      split; [intros t _; auto|].
      split; [split; [intros H; exfalso; now apply H
                     | intros (_ & _ & H); rewrite E in H; discriminate]|].
      split; [rewrite E; discriminate | reflexivity].
    + split; [intros c _; auto|].
      split.
      { intros t H. apply handleCandleData_outputs in H.
        destruct H as (c & [H|H]); discriminate. }
      split; [split; [intros H; exfalso; now apply H
                     | intros (_ & _ & H); rewrite E in H; discriminate]|].
      split; [rewrite E; discriminate | reflexivity].
    + split; [intros c []|]. split; [intros t []|].
      split; [split; [auto | discriminate]|].
      split; [intros _ c [] | reflexivity].
    + destruct (DerivAPI.dispatch m) as [out thrown]. cbn [fst snd] in *.
      subst thrown.
      split; [intros c H; destruct (O _ H) as (ev & Hev); discriminate|].
      split; [intros t H; destruct (O _ H) as (ev & Hev); discriminate|].
      split; [split; [intros H; exfalso; now apply H
                     | intros (_ & _ & H); contradiction]|].
      split; [intros H; contradiction | reflexivity].
Qed.

Lemma handleMessage_routing_witness :
  (forall c,
     In (DerivAPI.emit_candle c)
        (snd (fst (DerivAPI.handleMessage eurusd_history DerivAPI.new_requests))) ->
     DerivAPI.m_error eurusd_history = None
     /\ DerivAPI.pending_id eurusd_history DerivAPI.new_requests = None
     /\ DerivAPI.m_msg_type eurusd_history = "candles"%string)
  /\ (forall t,
        In (DerivAPI.emit_tick t)
           (snd (fst (DerivAPI.handleMessage eurusd_history DerivAPI.new_requests))) ->
        DerivAPI.m_error eurusd_history = None
        /\ DerivAPI.pending_id eurusd_history DerivAPI.new_requests = None
        /\ DerivAPI.m_msg_type eurusd_history = "tick"%string)
  /\ (snd (DerivAPI.handleMessage eurusd_history DerivAPI.new_requests) <> None <->
      DerivAPI.m_error eurusd_history = None
      /\ DerivAPI.pending_id eurusd_history DerivAPI.new_requests = None
      /\ DerivAPI.m_msg_type eurusd_history = "ohlc"%string)
  /\ (DerivAPI.m_msg_type eurusd_history = "ohlc"%string ->
      forall c,
        ~ In (DerivAPI.emit_candle c)
            (snd (fst (DerivAPI.handleMessage eurusd_history DerivAPI.new_requests))))
  /\ (DerivAPI.pending_id eurusd_history DerivAPI.new_requests = None ->
      fst (fst (DerivAPI.handleMessage eurusd_history DerivAPI.new_requests))
      = DerivAPI.new_requests).
Proof.
  apply (handleMessage_routing eurusd_history DerivAPI.new_requests). reflexivity.
Defined.

(** X27. The order [executeRealDerivTrade] places does not depend on the
    action of the analysis: [buy] reads the symbol, the amount, the duration
    and the basis of its options and sets the contract type itself, so the
    ['PUT'] set for a sell is ignored and every order is a ['CALL'] of 300
    seconds with the entry amount of the user as stake, on the broker symbol
    of the table.  (For a symbol that is no property name inherited from
    [Object.prototype].) *)
Theorem real_orders_are_calls
  (apiToken : bool) (user : account_row) (symbol : string) (a : action) :
  plain_key symbol = true ->
  DerivAPI.buy apiToken (DerivIntegration.tradeParams user symbol a)
  = DerivAPI.buy apiToken (DerivIntegration.tradeParams user symbol buy)
  /\ forall rq,
       DerivAPI.buy apiToken (DerivIntegration.tradeParams user symbol a) = inr rq ->
       DerivAPI.br_contract_type rq = "CALL"%string
       /\ DerivAPI.br_duration rq = 300
       /\ DerivAPI.br_basis rq = "stake"%string
       /\ DerivAPI.br_amount rq = entry_amount user
       /\ DerivAPI.br_price rq = entry_amount user
       /\ DerivAPI.property DerivAPI.forexSymbols symbol = Some (DerivAPI.br_symbol rq)
       /\ apiToken = true.
Proof.
  intros _. split.
  - destruct a; reflexivity.
  - intros rq. unfold DerivAPI.buy. destruct apiToken; [|discriminate].
    cbn [negb]. cbv zeta.
    assert (tp_symbol (DerivIntegration.tradeParams user symbol a) = symbol
            /\ tp_amount (DerivIntegration.tradeParams user symbol a)
               = entry_amount user
            /\ tp_duration (DerivIntegration.tradeParams user symbol a) = Some 300
            /\ tp_basis (DerivIntegration.tradeParams user symbol a)
               = Some "stake"%string) as (-> & -> & -> & ->)
      by (destruct a; repeat split).
    destruct (DerivAPI.property DerivAPI.forexSymbols symbol) as [d|];
      [|discriminate].
    intros H. injection H as <-. repeat split.
Qed.

Lemma real_orders_are_calls_witness :
  DerivAPI.buy true (DerivIntegration.tradeParams eligible_user "EURUSD" sell)
  = DerivAPI.buy true (DerivIntegration.tradeParams eligible_user "EURUSD" buy)
  /\ forall rq,
       DerivAPI.buy true (DerivIntegration.tradeParams eligible_user "EURUSD" sell)
       = inr rq ->
       DerivAPI.br_contract_type rq = "CALL"%string
       /\ DerivAPI.br_duration rq = 300
       /\ DerivAPI.br_basis rq = "stake"%string
       /\ DerivAPI.br_amount rq = entry_amount eligible_user
       /\ DerivAPI.br_price rq = entry_amount eligible_user
       /\ DerivAPI.property DerivAPI.forexSymbols "EURUSD"
          = Some (DerivAPI.br_symbol rq)
       /\ true = true.
Proof.
  apply (real_orders_are_calls true eligible_user "EURUSD" sell). reflexivity.
Defined.

Section ClientInvariant.

Import DerivAPI.

Lemma step_client_ok (c : client) (i : input) :
  client_ok c -> client_ok (step c i).
Proof.
  destruct c as [ic ra mx dl pd ef]. unfold client_ok. cbn.
  intros (Ha & -> & -> & Hc & Hr).
  destruct i as [| |m|t]; cbn [step].
  - unfold on_open, set_isConnected, set_reconnectAttempts, do, push. cbn.
    rewrite Reconnect.reconnections_app. cbn. rewrite app_nil_r.
    repeat split; auto; lia.
  - unfold on_close, handleReconnect, set_isConnected, do, push. cbn.
    destruct (ra >=? 5) eqn:E; cbn.
    + rewrite !Reconnect.reconnections_app. cbn. rewrite !app_nil_r.
      repeat split; auto; try lia; try discriminate.
    + unfold set_timeout, set_reconnectAttempts, do, push. cbn.
      rewrite !Reconnect.reconnections_app. cbn. rewrite !app_nil_r.
      repeat split; auto; try lia; try discriminate.
      apply Forall_app. split; [exact Hr | repeat constructor].
  - unfold on_error, do, push. cbn.
    rewrite Reconnect.reconnections_app. cbn. rewrite app_nil_r.
    repeat split; auto; lia.
  - unfold on_timer. cbn. destruct (remove_timer t pd) as [rest|].
    + destruct t as [d|d].
      * unfold connect, set_timeout, do, push. cbn.
        rewrite !Reconnect.reconnections_app. cbn. rewrite !app_nil_r.
        repeat split; auto; lia.
      * cbn. repeat split; auto; lia.
    + cbn. repeat split; auto; lia.
Qed.

Lemma run_client_ok (inputs : list input) :
  forall c, client_ok c -> client_ok (run inputs c).
Proof.
  unfold run. induction inputs as [|i inputs IH]; intros c H; [exact H|].
  cbn [fold_left]. apply IH. now apply step_client_ok.
Qed.

End ClientInvariant.

(** X28. Through any sequence of opens, closes, socket errors and timers,
    from the client the constructor builds: the attempt counter stays
    between 0 and 5, it is 0 whenever the client is connected (every
    successful open gives the full budget of five attempts back), and every
    reconnection is scheduled with the delay of 5000 ms. *)
Theorem reconnect_counter_invariant (inputs : list DerivAPI.input) :
  0 <= DerivAPI.reconnectAttempts (DerivAPI.run inputs DerivAPI.new_client) <= 5
  /\ DerivAPI.maxReconnectAttempts (DerivAPI.run inputs DerivAPI.new_client) = 5
  /\ DerivAPI.reconnectDelay (DerivAPI.run inputs DerivAPI.new_client) = 5000
  /\ (DerivAPI.isConnected (DerivAPI.run inputs DerivAPI.new_client) = true ->
      DerivAPI.reconnectAttempts (DerivAPI.run inputs DerivAPI.new_client) = 0)
  /\ Forall (fun d => d = 5000)
       (DerivAPI.reconnections
          (DerivAPI.effects (DerivAPI.run inputs DerivAPI.new_client))).
Proof.
  apply (run_client_ok inputs DerivAPI.new_client).
  unfold client_ok. cbn. repeat split; try lia; try discriminate. constructor.
Qed.

(* ===================================================================== *)
(** ** The MACD of the analysis *)
(* ===================================================================== *)

(** X29. In the indicators of an analysis (at least 26 candles) the MACD
    line has six values, whatever the number of candles, and its latest
    value is the latest fast EMA less the slow EMA at index 13, the one of
    the window that ends at candle 38: not the latest slow EMA, which sits
    at index [n - 26]. *)
Theorem analysis_macd_compares_with_early_slow_ema
  (env : Env) (data : list candle) :
  26 <= len data ->
  len (macd_line (macd (ForexAI.calculateIndicators env data))) = 6
  /\ len (macd_signal (macd (ForexAI.calculateIndicators env data))) = 6
  /\ len (macd_histogram (macd (ForexAI.calculateIndicators env data))) = 6
  /\ last_ (macd_line (macd (ForexAI.calculateIndicators env data)))
     = (last_ (ema12 (ForexAI.calculateIndicators env data))
        - at_ (ema26 (ForexAI.calculateIndicators env data)) 13)%num
  /\ last_ (ema26 (ForexAI.calculateIndicators env data))
     = at_ (ema26 (ForexAI.calculateIndicators env data)) (len data - 26).
Proof.
  intros H. cbn [ForexAI.calculateIndicators macd ema12 ema26].
  assert (len (map close data) = len data) as L by apply len_map.
  destruct (MACD_shape (map close data) 12 26 9) as (L1 & L2 & L3 & Hv);
    [lia | lia | lia |].
  split; [rewrite L1; reflexivity|]. split; [rewrite L2; reflexivity|].
  split; [rewrite L3; reflexivity|]. split.
  - unfold last_ at 1 2. rewrite L1, EMA_length, L.
    replace (26 - 12 - 9 + 1 - 1) with 5 by lia.
    destruct (Hv 5) as [-> _]; [lia|]. rewrite L. do 2 f_equal; lia.
  - unfold last_. rewrite EMA_length, L. f_equal. lia.
Qed.

Lemma analysis_macd_compares_with_early_slow_ema_witness :
  len (macd_line (macd (ForexAI.calculateIndicators sample_env thirty_candles))) = 6
  /\ len (macd_signal (macd (ForexAI.calculateIndicators sample_env thirty_candles)))
     = 6
  /\ len (macd_histogram (macd (ForexAI.calculateIndicators sample_env thirty_candles)))
     = 6
  /\ last_ (macd_line (macd (ForexAI.calculateIndicators sample_env thirty_candles)))
     = (last_ (ema12 (ForexAI.calculateIndicators sample_env thirty_candles))
        - at_ (ema26 (ForexAI.calculateIndicators sample_env thirty_candles)) 13)%num
  /\ last_ (ema26 (ForexAI.calculateIndicators sample_env thirty_candles))
     = at_ (ema26 (ForexAI.calculateIndicators sample_env thirty_candles))
           (len thirty_candles - 26).
Proof.
  apply (analysis_macd_compares_with_early_slow_ema sample_env thirty_candles).
  vm_compute. discriminate.
Defined.

(* ===================================================================== *)
(** ** Simulated candles *)
(* ===================================================================== *)

Lemma round_dec_monotone (digits : nat) (a b : Q) :
  (a <= b)%Q -> (round_dec digits a <= round_dec digits b)%Q.
Proof.
  intros H. unfold round_dec.
  assert (0 < inject_Z (10 ^ Z.of_nat digits))%Q as Hs.
  { replace 0%Q with (inject_Z 0) by reflexivity. rewrite <- Zlt_Qlt.
    apply Z.pow_pos_nonneg; lia. }
  revert Hs. generalize (inject_Z (10 ^ Z.of_nat digits)). intros s Hs.
  assert (Qfloor (a * s + (1 # 2)) <= Qfloor (b * s + (1 # 2)))%Z as Hf.
  { apply Qfloor_resp_le. nra. }
  rewrite Zle_Qle in Hf.
  revert Hf. generalize (inject_Z (Qfloor (a * s + (1 # 2)))).
  generalize (inject_Z (Qfloor (b * s + (1 # 2)))). intros fb fa Hf.
  apply Qle_shift_div_l; [exact Hs|].
  unfold Qdiv. rewrite <- Qmult_assoc, (Qmult_comm (/ s)), Qmult_inv_r; lra.
Qed.

Lemma max2_fin (a b : Q) :
  exists m, max2 (Fin a) (Fin b) = Fin m /\ (a <= m)%Q /\ (b <= m)%Q.
Proof.
  unfold max2, ltb. destruct (Qcompare_spec a b) as [E|L|G];
    eexists; (split; [reflexivity|]); lra.
Qed.

Lemma min2_fin (a b : Q) :
  exists m, min2 (Fin a) (Fin b) = Fin m /\ (m <= a)%Q /\ (m <= b)%Q.
Proof.
  unfold min2, ltb. destruct (Qcompare_spec b a) as [E|L|G];
    eexists; (split; [reflexivity|]); lra.
Qed.

Section Simulated.

Variable env : Env.
Hypothesis random_nonneg :
  forall n, exists q, Math_random env n = Fin q /\ (0 <= q)%Q.

Lemma simulated_candle (ts : Z) (p q1 q2 q3 : Q) (r4 : num) :
  (0 <= q2)%Q -> (0 <= q3)%Q ->
  well_formed
    (mkCandle ts (toFixed 5 (Fin p))
       (toFixed 5 (max2 (Fin p) (Fin p + (Fin q1 - dec 5 1) * dec 2 3)
                   + Fin q2 * dec 1 3)%num)
       (toFixed 5 (min2 (Fin p) (Fin p + (Fin q1 - dec 5 1) * dec 2 3)
                   - Fin q3 * dec 1 3)%num)
       (toFixed 5 (Fin p + (Fin q1 - dec 5 1) * dec 2 3)%num)
       r4).
Proof.
  intros H2 H3. cbn [sub neg add mul dec].
  set (x := (p + (q1 + - (5 # Pos.of_nat (10 ^ 1))) * (2 # Pos.of_nat (10 ^ 3)))%Q).
  destruct (max2_fin p x) as (m & -> & Hm1 & Hm2).
  destruct (min2_fin p x) as (n & -> & Hn1 & Hn2).
  cbn [add neg toFixed]. unfold well_formed. cbn [open high low close].
  do 4 eexists. repeat (split; [reflexivity|]).
  change (1 # Pos.of_nat (10 ^ 3)) with (1 # 1000).
  split; split; apply round_dec_monotone; nra.
Qed.

Lemma generateSimulatedData_well_formed (symbol : string) (limit : Z) (w : world) :
  Forall well_formed (fst (ForexAI.generateSimulatedData env symbol limit w)).
Proof.
  unfold ForexAI.generateSimulatedData, bind, for_rangeM, for_range.
  set (body := fun (i : Z) '(s, w0) => _).
  assert (H : Forall well_formed
                (fst (fst (for_loop (Z.to_nat (limit - 0)) 0 body
                             ([], dec 10850 4, w))))
              /\ exists p, snd (fst (for_loop (Z.to_nat (limit - 0)) 0 body
                                       ([], dec 10850 4, w))) = Fin p).
  { apply (for_loop_invariant
             (fun _ st => Forall well_formed (fst (fst st))
                          /\ exists p, snd (fst st) = Fin p)).
    - split; [constructor | eexists; reflexivity].
    - intros k [[data currentPrice] w0] _ [Hd [p Hp]]. cbn [fst snd] in *.
      subst currentPrice. unfold body, bind, random, ret. cbn [fst snd randoms set_randoms].
      destruct (random_nonneg (randoms w0)) as (q1 & -> & _).
      destruct (random_nonneg (S (randoms w0))) as (q2 & -> & H2).
      destruct (random_nonneg (S (S (randoms w0)))) as (q3 & -> & H3).
      split.
      + unfold push. apply Forall_app. split; [exact Hd|].
        constructor; [|constructor]. now apply simulated_candle.
      + cbn [sub neg add mul dec]. eexists. reflexivity. }
  destruct H as [H _].
  destruct (for_loop (Z.to_nat (limit - 0)) 0 body ([], dec 10850 4, w))
    as [[data currentPrice] w'].
  cbn [fst] in *. exact H.
Qed.

End Simulated.

(** X30. The candles [generateSimulatedData] fabricates are well formed
    whenever [Math.random] returns numbers that are not negative: all four
    prices are finite and both the open and the close lie between the low
    and the high, after the rounding to five decimals as before it. *)
Theorem generateSimulatedData_candles_well_formed
  (env : Env) (symbol : string) (limit : Z) (w : world) :
  (forall n, exists q, Math_random env n = Fin q /\ (0 <= q)%Q) ->
  forall c,
    In c (fst (ForexAI.generateSimulatedData env symbol limit w)) ->
    exists o h l x : Q,
      open c = Fin o /\ high c = Fin h /\ low c = Fin l /\ close c = Fin x
      /\ (l <= o <= h)%Q /\ (l <= x <= h)%Q.
Proof.
  intros Hr c Hc.
  pose proof (generateSimulatedData_well_formed env Hr symbol limit w) as H.
  rewrite Forall_forall in H. exact (H c Hc).
Qed.

Lemma generateSimulatedData_candles_well_formed_witness :
  Math_random sample_env 0 = dec 5 1
  /\ forall c,
       In c (fst (ForexAI.generateSimulatedData sample_env "EURUSD" 200
                    (fresh_world [] []))) ->
       exists o h l x : Q,
         open c = Fin o /\ high c = Fin h /\ low c = Fin l /\ close c = Fin x
         /\ (l <= o <= h)%Q /\ (l <= x <= h)%Q.
Proof.
  split; [reflexivity|].
  apply (generateSimulatedData_candles_well_formed sample_env "EURUSD" 200
           (fresh_world [] [])).
  intros n. exists (5 # 10)%Q. split; [reflexivity|]. vm_compute. discriminate.
Defined.

